(* ===== verification/_CoqProject ===== *)
-Q . S2P
R2C2.v
Prelude.v
CDouble.v
SerialFifo.v
SerMsg.v
MotionTypes.v
GcodeParse.v
Hardware.v
Temp.v
Config.v
Planner.v
Stepper.v
Motion.v
SlowTimer.v
Machine.v
GcodeProcess.v
GcodeTypes.v
Homing.v
Mendel.v
SdCard.v
SdSectors.v
UsbDevice.v
UsbTransfers.v
Dll.v
CoTypes.v
CoSched.v
CoInv.v
CoPreempt.v
CoCore.v
CoTask.v
CoSync.v
CoFlags.v
CoTimer.v
CoService.v
CoRun.v
CoTick.v
CoCalls.v
CoLife.v
CoBoot.v
CoTimerList.v
CoTimers.v
CoReach.v
CoMem.v
CoHeap.v
CoObjects.v
CoObjectCalls.v
