(* ===== verification/R2C2.v ===== *)
(** * R2C2 firmware: verification library

    The firmware runs a 3D printer on a Cortex-M3. Lines of G-code arrive over
    USB or from the SD card; the main program parses them, plans moves and
    waits; a timer interrupt steps the motors; the millisecond tick serves the
    timers, the heaters and the clock. The repository also holds the CoOS
    kernel, a preemptive scheduler with events, mutexes, flags, timers, mail
    and memory management. This library models both and proves what makes them
    correct. Paths below are relative to src/; libraries/ is left out.

    ** Parts, files and sources

    Prelude       notation, record update, automation, machine integers
    CDouble       the C type double, computed exactly (IEEE 754 binary64)
    SerialFifo    R2C2/src/serial_fifo.c, the endpoint handlers of usb.c
    SerMsg        R2C2/src/serial.c, sermsg.c, sersendf.c
    MotionTypes   grbl/inc/planner.h
    GcodeParse    Mendel/src/gcode_parse.c
    Hardware      Mendel/inc/pinout.h, R2C2/src/r2c2_ios.c
    Temp          Mendel/src/temp.c, the filter of R2C2/src/adc.c
    Config        Mendel/src/config.c, inc/config.h
    Planner       grbl/src/planner.c, the part that runs without the stepper
    Stepper       grbl/src/stepper.c
    Motion        planner.c and stepper.c where each waits for the other
    SlowTimer     R2C2/src/r2c2_timer.c, buzzer.c, the time-outs of sdcard.c
    Machine       the globals as one record, the interrupts, the wait loops
    GcodeProcess  Mendel/src/gcode_process.c, geometry.c
    GcodeTypes    the C types of the fields of a command, over any lines
    Homing        G28 and M112 over the definitions of GcodeProcess
    Mendel        Mendel/src/mendel.c, the start-up file of config.c
    SdCard        R2C2/src/sdcard.c, R2C2/src/spi.c, FatFs/inc/diskio.h
    SdSectors     the driver of SdCard and a card make an array of sectors
    UsbDevice     LPCUSB/src/usbcontrol.c, usbstdreq.c, usbinit.c, the interrupt
                  handler of usbhw_lpc.c, the serial class of R2C2/src/usb.c
    UsbTransfers  the stack of UsbDevice answers as an abstract device
    Dll           doubly linked lists over two link functions
    CoTypes       CoOS/kernel/Os*.h, CoOS/portable/OsArch.h
    CoSched       the lists and Schedule of CoOS/kernel/task.c, time.c
    CoInv         the invariant of those lists, preserved by each operation
    CoPreempt     the choice of the next task and the task switch
    CoCore        CoOS/kernel/core.c, event.c, the calls of time.c
    CoTask        CoOS/kernel/task.c, mutex.c
    CoSync        CoOS/kernel/sem.c, mbox.c, queue.c
    CoFlags       CoOS/kernel/flag.c
    CoTimer       CoOS/kernel/timer.c
    CoService     CoOS/kernel/serviceReq.c, the tick of portable/arch.c, start-up
    CoRun         the kernel between calls; CoTick the system tick; CoCalls the
                  calls of tasks; CoLife creation and deletion; CoBoot start-up
    CoTimerList   timers on an agenda of absolute times, and the list that
                  keeps it; CoTimers the calls and the tick answer as they do
    CoReach       every state the kernel reaches by calls and ticks
    CoMem         CoOS/kernel/mm.c, utility.c
    CoHeap        CoOS/kernel/kernelHeap.c
    CoObjects     semaphores, mailboxes and queues as counters, cells and queues;
                  CoObjectCalls their calls

    A definition has the name of the C function it translates; a loop or a
    block of a long function that has a definition of its own has a name of its
    own, and its place is the file of the function.

    ** State

    Static variables are records ([planner], [stepper], [sd_state],
    [sched], [kernel]); the record [machine] of Machine holds those of the
    printer. Integers are [Z] with the wrap-around of their C type written out.
    Doubles are [spec_float]. Arrays are lists or finite maps from indices;
    what the C program does out of range is [None], as is a write through a
    null pointer, a loop that does not end and a hook that does not return.
    Calls of the vendor drivers are events of a trace ([Hardware]).

    An operation that waits for an interrupt takes the list of inputs the
    successive interrupts sample; it gives [None] when the list ends before the
    wait does. A call of the kernel that switches tasks gives [Waits], and the
    rest of its body is a definition of its own with the suffix [_resume].

    ** Interfaces

    [BoundedQueue] (SerialFifo) is what the writers of SerMsg use of a ring;
    [Backend] (GcodeParse) what the parser uses of the command processor;
    [FatFs] (Machine) what the commands use of the file system, a library that
    the firmware calls; [SpiDevice] (SdCard) the card at the other end of the
    bus, and [SdProtocol] (SdSectors) the protocol it keeps; [Port] (CoCore)
    what the kernel leaves open: the byte read through a null task, the timer
    callbacks of the application, and the deferred requests that CoService
    implements; [Callbacks] (CoTimers) callbacks that write only
    memory of their own, and [Traced] (CoReach) callbacks that note their calls.

    ** Theorems

    Motion: no step is lost or added under any interleaving of planned moves
    and interrupts, the synchronisation wait ends, the planner is a bounded
    queue of moves, junction speeds and trapezoids stay within their limits,
    homing and moves end at the commanded positions.
    Commands: lines are accepted exactly when their checksum is right, numbers
    round-trip, the file name never overflows, every command is answered, the
    modes of the SD card exclude each other.
    Main program: lines from the host are executed in order, each once,
    whatever the packets they arrive in; a command keeps the C types of its
    fields over any lines.
    Devices: the ring refines a bounded queue, control transfers are answered
    as an abstract USB device answers them, the card driver makes an array of
    sectors, heaters follow their targets, thermistor tables interpolate in
    range, timers have their period.
    Kernel: the list operations keep the scheduler's lists well linked, sorted
    and in agreement with the task states; in every reachable state the running
    task is a most urgent one, a delayed task wakes at its tick and timers fire
    as an agenda of absolute times says; memory partitions are pools of blocks,
    the heap refines the list of its blocks, semaphores, mailboxes and queues
    refine counters, cells and queues.

    ** Fuel

    A loop over a list of tasks has the number of tasks as fuel; a list without
    repetition is not longer, and the invariant shows that the fuel is never
    used up. Loops over input, a line, a file or a directory recurse on the
    input; the collection of a line has one unit for each byte that the ring
    and the host hold. Polling loops of the card driver recurse on the time-out
    that ends them or on the count of tries. A walk over descriptors has the
    length of the block as fuel, the read loop of the USB layer the length of a
    packet, the loop over a memory partition 256 blocks, as its counter has 8
    bits, the walk over the heap the number of its bytes. [TmrDispose] and the
    answering of requests take the fuel from their caller, one unit for each
    timer or request served.

    ** Not modelled

    The network stack LWIP and the Ethernet driver, FatFs (except its line
    reader), the NXP drivers, CMSIS, iLib, printf, the C library stubs:
    libraries the firmware calls. main.c and Net: wiring of the stack. uart.c,
    the register accesses of usbhw_lpc.c and of the peripheral set-up: sequences
    of accesses to device registers, seen as events of a trace. dda.c and
    dda_queue.c: not called by the program. *)
