(* ===== verification/Prelude.v ===== *)
(** * Shared notation, automation and lemmas

    The notation scope of the development, functional record update, the
    option monad, the tactics for machine integers, and the lemmas on lists,
    options and integers that the components share. *)

From Stdlib Require Export ZArith Lia String Ascii.
From stdpp Require Export base list numbers option.


Open Scope Z_scope.

(** ** Notation scope of the development *)

Declare Scope r2c2_scope.
Delimit Scope r2c2_scope with r2c2.
Open Scope r2c2_scope.

(** ** Functional record update

    A record type declares its eta expansion as an instance of [Eta]; an
    updater for one projection is then computed by abstracting the projection
    in the eta expansion. *)

Class Eta (R : Type) := eta_expand : R -> R.

Class Updater {R A : Type} (proj : R -> A) := updater : (A -> A) -> R -> R.

Definition update {R A : Type} (proj : R -> A) {U : Updater proj}
  (f : A -> A) (r : R) : R := updater f r.

Arguments update {R A} proj {U} f r /.
Arguments updater {R A} proj {Updater} f r /.

Ltac derive_updater :=
  lazymatch goal with
  | |- @Updater ?R ?A ?proj =>
      let inst := constr:(_ : Eta R) in
      let body := eval red in inst in
      let body := eval unfold eta_expand in body in
      lazymatch eval pattern proj in body with
      | ?g _ =>
          let t := eval cbv beta in (fun (f : A -> A) => g (fun r => f (proj r))) in
          exact t
      end
  end.

#[export] Hint Extern 0 (Updater _) => derive_updater : typeclass_instances.

Notation "r <| p ::= f |>" := (update p f r)
  (at level 1, p at level 99, f at level 200, left associativity,
   format "r  <| p  ::=  f |>") : r2c2_scope.
Notation "r <| p := v |>" := (update p (fun _ => v) r)
  (at level 1, p at level 99, v at level 200, left associativity,
   format "r  <| p  :=  v |>") : r2c2_scope.

(** ** Machine integers

    A C integer of width [w] is a [Z] in its range; the wrap functions bring an
    arbitrary [Z] back into the range, two's complement for the signed ones. *)

Definition u8  (z : Z) : Z := z mod 2 ^ 8.
Definition u16 (z : Z) : Z := z mod 2 ^ 16.
Definition u32 (z : Z) : Z := z mod 2 ^ 32.
Definition u64 (z : Z) : Z := z mod 2 ^ 64.
Definition i8  (z : Z) : Z := (z + 2 ^ 7) mod 2 ^ 8 - 2 ^ 7.
Definition i16 (z : Z) : Z := (z + 2 ^ 15) mod 2 ^ 16 - 2 ^ 15.
Definition i32 (z : Z) : Z := (z + 2 ^ 31) mod 2 ^ 32 - 2 ^ 31.
Definition i64 (z : Z) : Z := (z + 2 ^ 63) mod 2 ^ 64 - 2 ^ 63.

Lemma u8_range z : 0 <= u8 z < 2 ^ 8.
Proof. apply Z.mod_pos_bound. lia. Qed.
Lemma u16_range z : 0 <= u16 z < 2 ^ 16.
Proof. apply Z.mod_pos_bound. lia. Qed.
Lemma u32_range z : 0 <= u32 z < 2 ^ 32.
Proof. apply Z.mod_pos_bound. lia. Qed.
Lemma i32_range z : - 2 ^ 31 <= i32 z < 2 ^ 31.
Proof. unfold i32. pose proof (Z.mod_pos_bound (z + 2 ^ 31) (2 ^ 32)). lia. Qed.
Lemma i16_range z : - 2 ^ 15 <= i16 z < 2 ^ 15.
Proof. unfold i16. pose proof (Z.mod_pos_bound (z + 2 ^ 15) (2 ^ 16)). lia. Qed.

Lemma u8_small z : 0 <= z < 2 ^ 8 -> u8 z = z.
Proof. apply Z.mod_small. Qed.
Lemma u16_small z : 0 <= z < 2 ^ 16 -> u16 z = z.
Proof. apply Z.mod_small. Qed.
Lemma u32_small z : 0 <= z < 2 ^ 32 -> u32 z = z.
Proof. apply Z.mod_small. Qed.
Lemma u64_small z : 0 <= z < 2 ^ 64 -> u64 z = z.
Proof. apply Z.mod_small. Qed.
Lemma i8_small z : - 2 ^ 7 <= z < 2 ^ 7 -> i8 z = z.
Proof. intros. unfold i8. rewrite Z.mod_small; lia. Qed.
Lemma i16_small z : - 2 ^ 15 <= z < 2 ^ 15 -> i16 z = z.
Proof. intros. unfold i16. rewrite Z.mod_small; lia. Qed.
Lemma i32_small z : - 2 ^ 31 <= z < 2 ^ 31 -> i32 z = z.
Proof. intros. unfold i32. rewrite Z.mod_small; lia. Qed.
Lemma i64_small z : - 2 ^ 63 <= z < 2 ^ 63 -> i64 z = z.
Proof. intros. unfold i64. rewrite Z.mod_small; lia. Qed.

(** [wrap_small] removes every wrap whose argument is in range by [lia]. *)
Ltac wrap_small :=
  repeat first
    [ rewrite u8_small by lia | rewrite u16_small by lia
    | rewrite u32_small by lia | rewrite u64_small by lia
    | rewrite i8_small by lia | rewrite i16_small by lia
    | rewrite i32_small by lia | rewrite i64_small by lia ].

Create HintDb cint.
#[export] Hint Resolve u8_range u16_range u32_range i32_range i16_range : cint.

(** ** C booleans and characters *)

(** The C value of a comparison. *)
Definition c_bool (b : bool) : Z := if b then 1 else 0.

(** The C truth value of an integer. *)
Definition c_true (z : Z) : bool := negb (z =? 0).

(** A string literal as the bytes the compiler emits, without the final NUL. *)
Definition bytes_of_string (s : string) : list Z :=
  map (fun a => Z.of_nat (nat_of_ascii a)) (list_ascii_of_string s).

(** The line end ["\r\n"] of a string literal. *)
Definition crlf : string := String "013" (String "010" EmptyString).

(** The code of a character constant. *)
Definition chr (s : string) : Z :=
  match s with
  | String a _ => Z.of_nat (nat_of_ascii a)
  | EmptyString => 0
  end.

Arguments chr : simpl never.

(** ** Lists *)

Lemma list_insert_lookup_same {A} (l : list A) (i : nat) (x : A) :
  (i < length l)%nat -> <[i := x]> l !! i = Some x.
Proof. apply list_lookup_insert_eq. Qed.

(** C arrays: a list read and written by a [Z] index. An index outside the
    array reads as [0] and is not written; the definitions that rely on this
    say why the index is in range. *)
Definition arr (l : list Z) (i : Z) : Z := nth (Z.to_nat i) l 0.
Definition set_arr {A} (l : list A) (i : Z) (x : A) : list A := <[Z.to_nat i := x]> l.

Lemma arr_set_same l i x : 0 <= i < Z.of_nat (length l) -> arr (set_arr l i x) i = x.
Proof.
  intros H. unfold arr, set_arr.
  apply nth_lookup_Some. apply list_lookup_insert_eq. lia.
Qed.

Lemma arr_set_other l i j x : 0 <= i -> 0 <= j -> i <> j -> arr (set_arr l i x) j = arr l j.
Proof.
  intros Hi Hj Hn. unfold arr, set_arr. rewrite !nth_lookup.
  rewrite list_lookup_insert_ne by lia. done.
Qed.

(** The bit test [(z & (1 << n)) != 0] and the bit mask [1 << n]. *)
Definition bit (n : Z) : Z := Z.shiftl 1 n.
Definition has_bit (z n : Z) : bool := c_true (Z.land z (bit n)).

Lemma has_bit_testbit z n : 0 <= n -> has_bit z n = Z.testbit z n.
Proof.
  intros Hn. unfold has_bit, bit, c_true. rewrite Z.shiftl_1_l.
  destruct (Z.testbit z n) eqn:E.
  - assert (Z.testbit (Z.land z (2 ^ n)) n = true) as Hb
      by (rewrite Z.land_spec, E, Z.pow2_bits_true by lia; done).
    destruct (Z.eqb_spec (Z.land z (2 ^ n)) 0) as [Hz|]; [|done].
    rewrite Hz, Z.testbit_0_l in Hb. done.
  - replace (Z.land z (2 ^ n)) with 0; [done|].
    apply Z.bits_inj'. intros m Hm. rewrite Z.testbit_0_l, Z.land_spec.
    destruct (decide (n = m)) as [->|]; [by rewrite E|].
    rewrite Z.pow2_bits_false by lia. by rewrite andb_false_r.
Qed.

(** ** Loops

    A [while] loop with fuel; [None] is fuel exhausted before the condition
    became false. *)
Fixpoint while_loop {S : Type} (fuel : nat) (cond : S -> bool) (body : S -> S) (s : S)
  : option S :=
  match fuel with
  | O => None
  | Datatypes.S fuel => if cond s then while_loop fuel cond body (body s) else Some s
  end.

(** An invariant and a measure that decreases give the result. *)
Lemma while_loop_total {S : Type} (cond : S -> bool) (body : S -> S) (inv : S -> Prop)
  (measure : S -> nat) :
  (forall s, inv s -> cond s = true -> inv (body s) /\ (measure (body s) < measure s)%nat) ->
  forall fuel s, inv s -> (measure s < fuel)%nat ->
  exists s', while_loop fuel cond body s = Some s' /\ inv s' /\ cond s' = false.
Proof.
  intros Hbody fuel. induction fuel as [|fuel IH]; intros s Hs Hf; [lia|].
  cbn [while_loop]. destruct (cond s) eqn:Hc; [|by exists s].
  destruct (Hbody s Hs Hc) as [Hi Hm]. apply IH; [done|lia].
Qed.

(** [case_bool] splits on the boolean condition of the first [if] of the goal. *)
Ltac case_bool :=
  match goal with
  | |- context [if ?b then _ else _] => let E := fresh "E" in destruct b eqn:E
  end.

(** ** Waiting

    A loop that spins until a condition holds, while events (interrupts) from
    a list change the state. The events that have not happened when the
    condition holds happen afterwards; [None] is a failed event, or the end of
    the list with the loop still spinning. *)
Section spin.
Context {S P : Type}.
Variable run : P -> S -> option S.

Fixpoint run_all (l : list P) (s : S) : option S :=
  match l with
  | [] => Some s
  | p :: l => s ← run p s; run_all l s
  end.

Fixpoint spin_until (cond : S -> bool) (l : list P) (s : S) : option S :=
  if cond s then run_all l s
  else match l with
       | [] => None
       | p :: l => s ← run p s; spin_until cond l s
       end.

(** A loop that ends has let all the events of the list happen. *)
Lemma spin_until_run cond l : forall s s', spin_until cond l s = Some s' -> run_all l s = Some s'.
Proof.
  induction l as [|p l IH]; intros s s'; cbn [spin_until run_all].
  - by destruct (cond s).
  - destruct (cond s); [done|]. destruct (run p s) as [s1|]; [|done]. cbn. apply IH.
Qed.
End spin.
