(* ===== verification/CDouble.v ===== *)
(** * C doubles

    The type [double] of the firmware is IEEE 754 binary64, computed in
    software on the Cortex-M3.  It is modelled by the standard library's
    [spec_float] operations at precision 53 and maximal exponent 1024, so every
    value of the model is the value the code computes.  Conversions to integers
    that are out of range are undefined in C; the model takes the saturating
    result of the conversion helpers of the ARM run-time ABI, and the theorems
    that depend on a conversion assume it is in range.

    The lemmas show that the integers below 2^53 embed exactly: [d_of_Z] is a
    homomorphism for addition and multiplication as long as the result is below
    2^53, and truncation is its left inverse. *)

From Stdlib Require Import SpecFloat.
From S2P Require Import Prelude.

(** ** Operations *)

Abbreviation double := spec_float.

Definition dprec : Z := 53.
Definition demax : Z := 1024.

Definition d_of_Z (z : Z) : double := binary_normalize dprec demax z 0 false.
Definition dadd : double -> double -> double := SFadd dprec demax.
Definition dsub : double -> double -> double := SFsub dprec demax.
Definition dmul : double -> double -> double := SFmul dprec demax.
Definition ddiv : double -> double -> double := SFdiv dprec demax.
Definition dsqrt : double -> double := SFsqrt dprec demax.
Definition dopp : double -> double := SFopp.
Definition dabs : double -> double := SFabs.
Definition dltb : double -> double -> bool := SFltb.
Definition dleb : double -> double -> bool := SFleb.
Definition deqb : double -> double -> bool := SFeqb.
Definition dgtb (x y : double) : bool := dltb y x.

(** A decimal literal [n / d]: the division of two exact integers is rounded
    once, as the compiler rounds the literal. *)
Definition d_lit (n d : Z) : double := ddiv (d_of_Z n) (d_of_Z d).

Definition d0 : double := S754_zero false.
Definition d1 : double := d_of_Z 1.

(** The macros [min] and [max] of stepper.h, applied to doubles. *)
Definition dmin (a b : double) : double := if dltb a b then a else b.
Definition dmax (a b : double) : double := if dgtb a b then a else b.

(** The magnitude of a finite value, truncated to an integer, and whether
    anything was cut off. *)
Definition mag_trunc (m : positive) (e : Z) : Z :=
  if 0 <=? e then Z.pos m * 2 ^ e else Z.pos m / 2 ^ (- e).
Definition mag_exact (m : positive) (e : Z) : bool :=
  if 0 <=? e then true else Z.pos m mod 2 ^ (- e) =? 0.

Definition apply_sign (s : bool) (z : Z) : Z := if s then - z else z.

(** Truncation towards zero, for values that are not NaN or infinite. *)
Definition d_trunc (x : double) : Z :=
  match x with
  | S754_finite s m e => apply_sign s (mag_trunc m e)
  | _ => 0
  end.

Definition clamp (lo hi z : Z) : Z := Z.max lo (Z.min hi z).

(** Conversions of a double to the 32-bit integer types. *)
Definition d2i32 (x : double) : Z :=
  match x with
  | S754_infinity s => if s then - 2 ^ 31 else 2 ^ 31 - 1
  | _ => clamp (- 2 ^ 31) (2 ^ 31 - 1) (d_trunc x)
  end.
Definition d2u32 (x : double) : Z :=
  match x with
  | S754_infinity s => if s then 0 else 2 ^ 32 - 1
  | _ => clamp 0 (2 ^ 32 - 1) (d_trunc x)
  end.

(** A narrower unsigned or signed target keeps the low bits. *)
Definition d2u8  (x : double) : Z := u8 (d2u32 x).
Definition d2u16 (x : double) : Z := u16 (d2u32 x).
Definition d2i16 (x : double) : Z := i16 (d2i32 x).

(** [lround]: to the nearest integer, halves away from zero; [long] is 32 bits
    wide on the target. *)
Definition mag_lround (m : positive) (e : Z) : Z :=
  if 0 <=? e then Z.pos m * 2 ^ e
  else (Z.pos m + 2 ^ (- e - 1)) / 2 ^ (- e).
Definition lround (x : double) : Z :=
  match x with
  | S754_finite s m e =>
      clamp (- 2 ^ 31) (2 ^ 31 - 1) (apply_sign s (mag_lround m e))
  | S754_infinity s => if s then - 2 ^ 31 else 2 ^ 31 - 1
  | _ => 0
  end.

(** [ceil] and [floor]: the nearest integral double above and below; a zero
    result keeps the sign of the argument. *)
Definition d_ceil (x : double) : double :=
  match x with
  | S754_finite s m e =>
      if mag_exact m e then x
      else let z := if s then - mag_trunc m e else mag_trunc m e + 1 in
           if z =? 0 then S754_zero s else d_of_Z z
  | _ => x
  end.
Definition d_floor (x : double) : double :=
  match x with
  | S754_finite s m e =>
      if mag_exact m e then x
      else let z := if s then - (mag_trunc m e + 1) else mag_trunc m e in
           if z =? 0 then S754_zero s else d_of_Z z
  | _ => x
  end.

(** ** Digits and shifts of positive numbers *)

Definition bits (p : positive) : Z := Z.pos (digits2_pos p).

Lemma bits_pos p : 1 <= bits p.
Proof. unfold bits. lia. Qed.

Lemma bits_xO p : bits (xO p) = bits p + 1.
Proof. unfold bits. simpl. lia. Qed.
Lemma bits_xI p : bits (xI p) = bits p + 1.
Proof. unfold bits. simpl. lia. Qed.

Lemma bits_bound p : 2 ^ (bits p - 1) <= Z.pos p < 2 ^ bits p.
Proof.
  induction p as [p IH|p IH|].
  - pose proof (bits_pos p). rewrite bits_xI.
    replace (bits p + 1 - 1) with (Z.succ (bits p - 1)) by lia.
    replace (bits p + 1) with (Z.succ (bits p)) by lia.
    rewrite !Z.pow_succ_r by lia. lia.
  - pose proof (bits_pos p). rewrite bits_xO.
    replace (bits p + 1 - 1) with (Z.succ (bits p - 1)) by lia.
    replace (bits p + 1) with (Z.succ (bits p)) by lia.
    rewrite !Z.pow_succ_r by lia. lia.
  - vm_compute. split; discriminate || reflexivity.
Qed.

Lemma bits_le p n : 0 <= n -> Z.pos p < 2 ^ n -> bits p <= n.
Proof.
  intros Hn H. pose proof (bits_bound p) as [Hb _].
  destruct (Z.le_gt_cases (bits p) n) as [|Hgt]; [done|].
  assert (2 ^ n <= 2 ^ (bits p - 1)) by (apply Z.pow_le_mono_r; lia). lia.
Qed.

Lemma bits_mono p q : Z.pos p <= Z.pos q -> bits p <= bits q.
Proof.
  intros H. apply bits_le; [pose proof (bits_pos q); lia|].
  pose proof (bits_bound q). lia.
Qed.

(** [shl q n] is [q * 2^n]. *)
Definition shl (q : positive) (n : nat) : positive := Pos.shiftl_nat q n.

Lemma shl_S q n : shl q (S n) = xO (shl q n).
Proof. reflexivity. Qed.

Lemma shl_Z q n : Z.pos (shl q n) = Z.pos q * 2 ^ Z.of_nat n.
Proof.
  induction n as [|n IH]; [unfold shl; simpl; lia|].
  rewrite shl_S, Pos2Z.inj_xO, IH, Nat2Z.inj_succ, Z.pow_succ_r by lia. lia.
Qed.

Lemma bits_shl q n : bits (shl q n) = bits q + Z.of_nat n.
Proof.
  induction n as [|n IH]; [unfold shl; simpl; lia|].
  rewrite shl_S, bits_xO, IH. lia.
Qed.

Lemma shl_shl q n m : shl (shl q n) m = shl q (m + n).
Proof. induction m as [|m IH]; [done|]. rewrite shl_S, IH. done. Qed.

Lemma shl_add p q n : (shl p n + shl q n = shl (p + q) n)%positive.
Proof. induction n as [|n IH]; [done|]. rewrite !shl_S, <- IH. done. Qed.

Lemma shl_mul p q n m : (shl p n * shl q m = shl (p * q) (n + m))%positive.
Proof.
  apply Pos2Z.inj. rewrite Pos2Z.inj_mul, !shl_Z, Nat2Z.inj_add, Z.pow_add_r by lia.
  lia.
Qed.

Lemma iter_xO q n : Pos.iter xO q n = shl q (Pos.to_nat n).
Proof. unfold shl, Pos.shiftl_nat. apply Pos2Nat.inj_iter. Qed.

Lemma iter_pos_nat {A} (f : A -> A) (n : positive) (x : A) :
  SpecFloat.iter_pos f n x = Nat.iter (Pos.to_nat n) f x.
Proof.
  revert x. induction n as [n IH|n IH|]; intros x; cbn [SpecFloat.iter_pos]; [| |done].
  - rewrite !IH, <- Nat.iter_add, <- Nat.iter_succ_r. f_equal. lia.
  - rewrite !IH, <- Nat.iter_add. f_equal. lia.
Qed.

Lemma shr_shl q n k :
  Nat.iter n shr_1 (Build_shr_record (Z.pos (shl q (n + k))) false false)
  = Build_shr_record (Z.pos (shl q k)) false false.
Proof.
  induction n as [|n IH]; [done|].
  rewrite Nat.iter_succ_r. simpl (S n + k)%nat. rewrite shl_S. simpl. apply IH.
Qed.

(** ** Rounding an exactly representable value *)

Lemma fexp_small d : 0 <= d -> fexp dprec demax d = d - 53.
Proof. intros. unfold fexp, emin, dprec, demax. lia. Qed.

(** The canonical form of the integer [q] of at most 53 bits. *)
Definition canon (s : bool) (q : positive) : double :=
  S754_finite s (shl q (Z.to_nat (53 - bits q))) (bits q - 53).

Lemma shr_fexp_exact q k :
  bits q <= 53 -> 53 - bits q <= Z.of_nat k ->
  shr_fexp dprec demax (Z.pos (shl q k)) (- Z.of_nat k) loc_Exact
  = (Build_shr_record (Z.pos (shl q (Z.to_nat (53 - bits q)))) false false,
     bits q - 53).
Proof.
  intros Hq Hk. pose proof (bits_pos q).
  unfold shr_fexp. change (Zdigits2 (Z.pos (shl q k))) with (bits (shl q k)).
  rewrite bits_shl, fexp_small by lia.
  replace (bits q + Z.of_nat k + - Z.of_nat k - 53 - - Z.of_nat k)
    with (Z.of_nat k - (53 - bits q)) by lia.
  destruct (Z.of_nat k - (53 - bits q)) as [|n|n] eqn:E; [| |lia].
  - simpl. do 3 f_equal; [f_equal; lia|lia].
  - unfold shr. rewrite iter_pos_nat. simpl shr_record_of_loc.
    replace k with (Pos.to_nat n + Z.to_nat (53 - bits q))%nat at 1 by lia.
    rewrite shr_shl. f_equal. lia.
Qed.

Lemma round_exact s q k :
  bits q <= 53 -> 53 - bits q <= Z.of_nat k ->
  binary_round_aux dprec demax s (Z.pos (shl q k)) (- Z.of_nat k) loc_Exact
  = canon s q.
Proof.
  intros Hq Hk. pose proof (bits_pos q). unfold binary_round_aux.
  rewrite shr_fexp_exact by done. simpl round_nearest_even.
  replace (bits q - 53) with (- Z.of_nat (Z.to_nat (53 - bits q))) at 1 by lia.
  simpl shr_m. rewrite shr_fexp_exact by lia. simpl shr_m.
  destruct (Z.leb_spec (bits q - 53) (demax - dprec)) as [_|Hc]; [done|].
  unfold demax, dprec in Hc. lia.
Qed.

Lemma normalize_exact s q k :
  bits q <= 53 -> 53 - bits q <= Z.of_nat k ->
  binary_round dprec demax s (shl q k) (- Z.of_nat k) = canon s q.
Proof.
  intros Hq Hk. pose proof (bits_pos q). unfold binary_round, shl_align.
  change (Z.pos (digits2_pos (shl q k))) with (bits (shl q k)).
  rewrite bits_shl, fexp_small by lia.
  replace (bits q + Z.of_nat k + - Z.of_nat k - 53 - - Z.of_nat k)
    with (Z.of_nat k - (53 - bits q)) by lia.
  destruct (Z.of_nat k - (53 - bits q)) eqn:E; [| |lia];
    simpl; by apply round_exact.
Qed.

Lemma d_of_pos q : bits q <= 53 -> d_of_Z (Z.pos q) = canon false q.
Proof.
  intros Hq. pose proof (bits_pos q). unfold d_of_Z, binary_normalize.
  unfold binary_round, shl_align. change (Z.pos (digits2_pos q)) with (bits q).
  rewrite fexp_small by lia.
  destruct (bits q + 0 - 53 - 0) as [|n|n] eqn:E; [|lia|].
  - apply (round_exact false q 0); lia.
  - rewrite iter_xO.
    replace (bits q + 0 - 53) with (- Z.of_nat (Pos.to_nat n)) by lia.
    apply round_exact; lia.
Qed.

Lemma d_of_neg q : bits q <= 53 -> d_of_Z (Z.neg q) = canon true q.
Proof.
  intros Hq. pose proof (bits_pos q). unfold d_of_Z, binary_normalize.
  unfold binary_round, shl_align. change (Z.pos (digits2_pos q)) with (bits q).
  rewrite fexp_small by lia.
  destruct (bits q + 0 - 53 - 0) as [|n|n] eqn:E; [|lia|].
  - apply (round_exact true q 0); lia.
  - rewrite iter_xO.
    replace (bits q + 0 - 53) with (- Z.of_nat (Pos.to_nat n)) by lia.
    apply round_exact; lia.
Qed.

Lemma bits_53 q : Z.pos q < 2 ^ 53 -> bits q <= 53.
Proof. intros. by apply bits_le. Qed.

(** ** Integers below 2^53 embed exactly *)

Lemma dadd_exact a b :
  0 <= a -> 0 <= b -> a + b < 2 ^ 53 ->
  dadd (d_of_Z a) (d_of_Z b) = d_of_Z (a + b).
Proof.
  intros Ha Hb Hab.
  destruct a as [|a|a]; [|destruct b as [|b|b]; [| |lia]|lia].
  - destruct b as [|b|b]; [done| |lia].
    rewrite Z.add_0_l, !d_of_pos by (apply bits_53; lia). reflexivity.
  - rewrite Z.add_0_r. rewrite !d_of_pos by (apply bits_53; lia). reflexivity.
  - change (Z.pos a + Z.pos b) with (Z.pos (a + b)) in *.
    pose proof (bits_mono a (a + b) ltac:(lia)) as Hma.
    pose proof (bits_mono b (a + b) ltac:(lia)) as Hmb.
    pose proof (bits_53 (a + b) Hab) as H53.
    rewrite !d_of_pos by lia. unfold dadd, SFadd, canon.
    set (k := Z.to_nat (53 - Z.min (bits a) (bits b))).
    assert (Hal : forall q, Z.min (bits a) (bits b) <= bits q -> bits q <= 53 ->
      fst (shl_align (shl q (Z.to_nat (53 - bits q))) (bits q - 53)
             (Z.min (bits a - 53) (bits b - 53))) = shl q k).
    { intros q Hq Hq'. unfold shl_align.
      replace (Z.min (bits a - 53) (bits b - 53) - (bits q - 53))
        with (Z.min (bits a) (bits b) - bits q) by lia.
      destruct (Z.min (bits a) (bits b) - bits q) as [|n|n] eqn:E; [|lia|];
        simpl; [f_equal; lia|].
      rewrite iter_xO, shl_shl. f_equal. lia. }
    rewrite !Hal by lia. simpl cond_Zopp. rewrite <- Pos2Z.inj_add, shl_add.
    unfold binary_normalize.
    replace (Z.min (bits a - 53) (bits b - 53)) with (- Z.of_nat k) by lia.
    rewrite normalize_exact by lia. done.
Qed.

Lemma dmul_exact a b :
  0 <= a -> 0 <= b -> a * b < 2 ^ 53 -> a < 2 ^ 53 -> b < 2 ^ 53 ->
  dmul (d_of_Z a) (d_of_Z b) = d_of_Z (a * b).
Proof.
  intros Ha Hb Hab Ha' Hb'.
  destruct a as [|a|a]; [|destruct b as [|b|b]; [| |lia]|lia].
  - destruct b as [|b|b]; [done| |lia].
    rewrite (d_of_pos b) by (apply bits_53; lia). done.
  - rewrite Z.mul_0_r. rewrite !d_of_pos by (apply bits_53; lia). reflexivity.
  - change (Z.pos a * Z.pos b) with (Z.pos (a * b)) in *.
    pose proof (bits_53 _ Ha'). pose proof (bits_53 _ Hb').
    pose proof (bits_53 _ Hab). pose proof (bits_pos a). pose proof (bits_pos b).
    pose proof (bits_mono a (a * b) ltac:(rewrite Pos2Z.inj_mul; nia)).
    rewrite !d_of_pos by done. unfold dmul, SFmul, canon.
    rewrite shl_mul. simpl xorb.
    set (k := (Z.to_nat (53 - bits a) + Z.to_nat (53 - bits b))%nat).
    replace (bits a - 53 + (bits b - 53)) with (- Z.of_nat k) by lia.
    rewrite round_exact; [done|done|lia].
Qed.

Lemma dmul_neg_exact a b :
  bits a <= 53 -> bits b <= 53 -> Z.pos (a * b) < 2 ^ 53 ->
  dmul (d_of_Z (Z.pos a)) (d_of_Z (Z.neg b)) = canon true (a * b).
Proof.
  intros Ha Hb Hab. pose proof (bits_53 _ Hab). pose proof (bits_pos a). pose proof (bits_pos b).
  pose proof (bits_mono a (a * b) ltac:(rewrite Pos2Z.inj_mul; nia)).
  rewrite d_of_pos, d_of_neg by done. unfold dmul, SFmul, canon.
  rewrite shl_mul. simpl xorb.
  set (k := (Z.to_nat (53 - bits a) + Z.to_nat (53 - bits b))%nat).
  replace (bits a - 53 + (bits b - 53)) with (- Z.of_nat k) by lia.
  rewrite round_exact; [done|done|lia].
Qed.

Lemma d_trunc_of_Z a : 0 <= a < 2 ^ 53 -> d_trunc (d_of_Z a) = a.
Proof.
  intros [Ha Hlt]. destruct a as [|a|a]; [done| |lia].
  pose proof (bits_53 _ Hlt). pose proof (bits_pos a).
  rewrite d_of_pos by done. unfold canon, d_trunc, mag_trunc. simpl apply_sign.
  rewrite shl_Z.
  destruct (Z.leb_spec 0 (bits a - 53)).
  - replace (53 - bits a) with 0 by lia. replace (bits a - 53) with 0 by lia.
    rewrite Z2Nat.inj_0. simpl. lia.
  - rewrite Z2Nat.id by lia. replace (- (bits a - 53)) with (53 - bits a) by lia.
    rewrite Z.div_mul; [done|]. apply Z.pow_nonzero; lia.
Qed.

Lemma d_of_Z_not_inf a : 0 <= a < 2 ^ 53 -> forall s, d_of_Z a <> S754_infinity s.
Proof.
  intros [Ha Hlt] s. destruct a as [|a|a]; [done| |lia].
  rewrite d_of_pos by (apply bits_53; lia). done.
Qed.

Lemma d2u32_of_Z a : 0 <= a < 2 ^ 32 -> d2u32 (d_of_Z a) = a.
Proof.
  intros H. unfold d2u32.
  pose proof (d_of_Z_not_inf a ltac:(lia)) as Hinf.
  pose proof (d_trunc_of_Z a ltac:(lia)) as Ht.
  destruct (d_of_Z a) as [|s| |] eqn:E; [..|];
    try (destruct (Hinf s); done); rewrite Ht; unfold clamp; lia.
Qed.

Lemma d2i32_of_Z a : 0 <= a < 2 ^ 31 -> d2i32 (d_of_Z a) = a.
Proof.
  intros H. unfold d2i32.
  pose proof (d_of_Z_not_inf a ltac:(lia)) as Hinf.
  pose proof (d_trunc_of_Z a ltac:(lia)) as Ht.
  destruct (d_of_Z a) as [|s| |] eqn:E; [..|];
    try (destruct (Hinf s); done); rewrite Ht; unfold clamp; lia.
Qed.

(** ** Ranges of the conversions *)

Lemma clamp_range lo hi z : lo <= hi -> lo <= clamp lo hi z <= hi.
Proof. unfold clamp. lia. Qed.

Lemma d2i32_range x : - 2 ^ 31 <= d2i32 x < 2 ^ 31.
Proof. unfold d2i32, clamp. destruct x as [|[]| |]; lia. Qed.
Lemma d2u32_range x : 0 <= d2u32 x < 2 ^ 32.
Proof. unfold d2u32, clamp. destruct x as [|[]| |]; lia. Qed.
Lemma lround_range x : - 2 ^ 31 <= lround x < 2 ^ 31.
Proof. unfold lround, clamp. destruct x as [|[]| |]; lia. Qed.

(** ** Comparisons *)

Lemma dcompare_refl x : SFcompare x x = Some Eq \/ SFcompare x x = None.
Proof.
  destruct x as [s|s| |s m e]; simpl; auto; destruct s; simpl; auto;
    rewrite Z.compare_refl;
    change (Pos.compare_cont Eq m m) with (Pos.compare m m);
    rewrite Pos.compare_refl; simpl; auto.
Qed.

Lemma dltb_irrefl x : dltb x x = false.
Proof. unfold dltb, SFltb. by destruct (dcompare_refl x) as [-> | ->]. Qed.

(** The first argument of [dmin] is never below the result, NaN included. *)
Lemma dmin_not_above a b : dltb a (dmin a b) = false.
Proof. unfold dmin. case_bool; [apply dltb_irrefl|done]. Qed.

(** ** Signs *)

Definition has_sign (s : bool) (x : double) : Prop :=
  match x with
  | S754_finite s' _ _ | S754_infinity s' => s' = s
  | _ => True
  end.

Lemma round_aux_sign s m e l : has_sign s (binary_round_aux dprec demax s m e l).
Proof.
  unfold binary_round_aux. destruct (shr_fexp dprec demax m e l) as [r1 e1].
  destruct (shr_fexp dprec demax _ e1 loc_Exact) as [r2 e2].
  destruct (shr_m r2); [done| |done]. by destruct (e2 <=? demax - dprec).
Qed.

Lemma normalize_sign m e : 0 <= m -> has_sign false (binary_normalize dprec demax m e false).
Proof.
  intros Hm. destruct m as [|m|m]; [done| |lia]. unfold binary_normalize, binary_round.
  destruct (shl_align _ _ _). apply round_aux_sign.
Qed.

Lemma normalize_sign_neg m e : m <= 0 -> has_sign true (binary_normalize dprec demax m e false).
Proof.
  intros Hm. destruct m as [|m|m]; [done|lia|]. unfold binary_normalize, binary_round.
  destruct (shl_align _ _ _). apply round_aux_sign.
Qed.

(** The aligned mantissas of two canonical integers are in the ratio of the
    integers. *)
Lemma canon_align a b :
  bits a <= 53 -> bits b <= 53 ->
  exists k, fst (shl_align (shl a (Z.to_nat (53 - bits a))) (bits a - 53)
                   (Z.min (bits a - 53) (bits b - 53))) = shl a k /\
            fst (shl_align (shl b (Z.to_nat (53 - bits b))) (bits b - 53)
                   (Z.min (bits a - 53) (bits b - 53))) = shl b k.
Proof.
  intros Ha Hb. exists (Z.to_nat (53 - Z.min (bits a) (bits b))).
  assert (Hal : forall q, Z.min (bits a) (bits b) <= bits q -> bits q <= 53 ->
    fst (shl_align (shl q (Z.to_nat (53 - bits q))) (bits q - 53)
           (Z.min (bits a - 53) (bits b - 53)))
    = shl q (Z.to_nat (53 - Z.min (bits a) (bits b)))).
  { intros q Hq Hq'. unfold shl_align.
    replace (Z.min (bits a - 53) (bits b - 53) - (bits q - 53))
      with (Z.min (bits a) (bits b) - bits q) by lia.
    destruct (Z.min (bits a) (bits b) - bits q) as [|n|n] eqn:E; [|lia|];
      simpl; [f_equal; lia|].
    rewrite iter_xO, shl_shl. f_equal. lia. }
  split; apply Hal; lia.
Qed.

Lemma dsub_sign a b :
  0 <= b <= a -> a < 2 ^ 53 ->
  has_sign false (dsub (d_of_Z a) (d_of_Z b)) /\ has_sign true (dsub (d_of_Z b) (d_of_Z a)).
Proof.
  intros Hba Ha.
  destruct b as [|b|b]; [|destruct a as [|a|a]; [lia| |lia]|lia].
  - destruct a as [|a|a]; [done| |lia].
    rewrite d_of_pos by (apply bits_53; lia). done.
  - rewrite !d_of_pos by (apply bits_53; lia). unfold dsub, SFsub, canon.
    destruct (canon_align a b) as (k & E1 & E2); [apply bits_53; lia..|].
    destruct (canon_align b a) as (k' & E3 & E4); [apply bits_53; lia..|].
    rewrite E1, E2, E3, E4. unfold cond_Zopp. rewrite !shl_Z.
    pose proof (Z.pow_pos_nonneg 2 (Z.of_nat k)). pose proof (Z.pow_pos_nonneg 2 (Z.of_nat k')).
    split; [apply normalize_sign|apply normalize_sign_neg]; nia.
Qed.

Lemma dmul_sign s t x y : has_sign s x -> has_sign t y -> has_sign (xorb s t) (dmul x y).
Proof.
  destruct x as [?|?| |? ? ?], y as [?|?| |? ? ?]; simpl; intros; subst; try done.
  apply round_aux_sign.
Qed.

(** A quotient by a value that is not zero. *)
Lemma ddiv_sign s t x y :
  has_sign s x -> has_sign t y -> (forall z, y <> S754_zero z) ->
  has_sign (xorb s t) (ddiv x y).
Proof.
  intros Hx Hy Hz.
  destruct x as [?|?| |? ? ?], y as [sy|?| |? ? ?]; simpl in *; subst; try done;
    try (by destruct (Hz sy)).
  unfold ddiv, SFdiv. destruct (SFdiv_core_binary dprec demax _ _ _ _) as [[mz ez] lz].
  apply round_aux_sign.
Qed.

Lemma mag_trunc_nonneg m e : 0 <= mag_trunc m e.
Proof.
  unfold mag_trunc. case_bool; [apply Z.mul_nonneg_nonneg; [lia|apply Z.pow_nonneg; lia]|].
  apply Z.div_pos; [lia|]. apply Z.pow_pos_nonneg; lia.
Qed.

Lemma d2i32_nonneg x : has_sign false x -> 0 <= d2i32 x.
Proof.
  unfold d2i32, clamp. destruct x as [s|s| |s m e]; simpl; try lia; intros ->; [lia|].
  pose proof (mag_trunc_nonneg m e). simpl. lia.
Qed.

Lemma d_of_Z_sign z : has_sign (z <? 0) (d_of_Z z).
Proof.
  unfold d_of_Z. destruct (Z.ltb_spec z 0); [apply normalize_sign_neg|apply normalize_sign]; lia.
Qed.

Lemma d_ceil_sign x : has_sign false x -> has_sign false (d_ceil x).
Proof.
  destruct x as [s|s| |s m e]; simpl; try done. intros ->.
  destruct (mag_exact m e); [done|]. pose proof (mag_trunc_nonneg m e).
  destruct (Z.eqb_spec (mag_trunc m e + 1) 0); [done|]. apply normalize_sign. lia.
Qed.

Lemma d_floor_sign x : has_sign false x -> has_sign false (d_floor x).
Proof.
  destruct x as [s|s| |s m e]; simpl; try done. intros ->.
  destruct (mag_exact m e); [done|]. pose proof (mag_trunc_nonneg m e).
  destruct (Z.eqb_spec (mag_trunc m e) 0); [done|]. apply normalize_sign. lia.
Qed.

(** The order on values that are not NaN: [a < b <= c] gives [a < c]. *)
Definition is_nan (x : double) : bool := match x with S754_nan => true | _ => false end.

Lemma dltb_nan_r a : dltb a S754_nan = false.
Proof. by destruct a as [[]|[]| |[] ? ?]. Qed.

Lemma dltb_not_nan a b : dltb a b = true -> is_nan b = false.
Proof. destruct b; try done. by rewrite dltb_nan_r. Qed.

Lemma dltb_le_trans a b c :
  dltb a b = true -> dltb c b = false -> is_nan c = false -> dltb a c = true.
Proof.
  unfold dltb, SFltb.
  destruct a as [sa|sa| |sa ma ea], b as [sb|sb| |sb mb eb], c as [sc|sc| |sc mc ec];
    try destruct sa; try destruct sb; try destruct sc; simpl; try done;
    change (Pos.compare_cont Eq ma mb) with (Pos.compare ma mb);
    change (Pos.compare_cont Eq mc mb) with (Pos.compare mc mb);
    change (Pos.compare_cont Eq ma mc) with (Pos.compare ma mc);
    destruct (Z.compare_spec ea eb), (Z.compare_spec ec eb), (Z.compare_spec ea ec);
    try done; try lia; subst;
    destruct (Pos.compare_spec ma mb), (Pos.compare_spec mc mb), (Pos.compare_spec ma mc);
    simpl; try done; try lia.
Qed.

#[export] Hint Resolve d2i32_range d2u32_range lround_range : cint.
#[export] Hint Resolve dltb_irrefl dmin_not_above : cint.
