(* ===== verification/SerialFifo.v ===== *)
(** * The serial ring buffers (libraries/R2C2/src/serial_fifo.c, usb.c)

    [fifo_t] is the 256-slot ring shared by the main program and the USB
    interrupt.  The functions with a leading underscore are the bodies; the
    plain ones mask the USB interrupt around the body, so the state they act on
    is a fifo together with the interrupt-enable bit.  [BoundedQueue] is the
    contract of a byte queue that drops what does not fit; [fifo_queue] shows
    that the ring implements it.  [BulkOut] and [BulkIn] are the USB endpoint
    handlers; the hardware driver they call is a parameter. *)

From S2P Require Import Prelude.

(** ** Contract of a bounded byte queue *)

Class BoundedQueue (Q : Type) := {
  q_capacity : nat;
  q_wf : Q -> Prop;
  q_contents : Q -> list Z;
  q_put : Q -> Z -> bool * Q;
  q_get : Q -> option Z * Q;
  q_put_wf q c : q_wf q -> q_wf (snd (q_put q c));
  q_put_spec q c :
    q_wf q ->
    (fst (q_put q c), q_contents (snd (q_put q c)))
    = if decide (length (q_contents q) < q_capacity)%nat
      then (true, q_contents q ++ [c]) else (false, q_contents q);
  q_get_wf q : q_wf q -> q_wf (snd (q_get q));
  q_get_spec q :
    q_wf q ->
    match q_get q with
    | (Some c, q') => q_contents q = c :: q_contents q'
    | (None, q') => q_contents q = [] /\ q_contents q' = []
    end;
  q_bound q : q_wf q -> (length (q_contents q) <= q_capacity)%nat
}.

(** ** The ring *)

Definition SERIAL_FIFO_SIZE : Z := 256.

Record fifo_t := mk_fifo { head : Z; tail : Z; buf : list Z }.
#[export] Instance eta_fifo : Eta fifo_t := fun f => mk_fifo (head f) (tail f) (buf f).

Definition fifo_init (b : list Z) : fifo_t := {| head := 0; tail := 0; buf := b |}.

(** [fifo->buf[i]], read and written. *)
Definition buf_get (f : fifo_t) (i : Z) : Z := nth (Z.to_nat i) (buf f) 0.
Definition buf_set (f : fifo_t) (i c : Z) : fifo_t :=
  f <| buf ::= <[Z.to_nat i := c]> |>.

Definition _fifo_put (f : fifo_t) (c : Z) : bool * fifo_t :=
  let next := Z.rem (head f + 1) SERIAL_FIFO_SIZE in
  if next =? tail f then (false, f)
  else (true, (buf_set f (head f) c) <| head := next |>).

Definition _fifo_get (f : fifo_t) : option (Z * fifo_t) :=
  if head f =? tail f then None
  else
    let next := Z.rem (tail f + 1) SERIAL_FIFO_SIZE in
    Some (buf_get f (tail f), f <| tail := next |>).

Definition _fifo_avail (f : fifo_t) : Z :=
  Z.rem (SERIAL_FIFO_SIZE + head f - tail f) SERIAL_FIFO_SIZE.

(** ** The versions that mask the USB interrupt *)

Record irq_fifo := mk_irq_fifo { usb_irq : bool; ring : fifo_t }.
#[export] Instance eta_irq_fifo : Eta irq_fifo := fun f => mk_irq_fifo (usb_irq f) (ring f).

Definition NVIC_DisableIRQ (s : irq_fifo) : irq_fifo := s <| usb_irq := false |>.
Definition NVIC_EnableIRQ (s : irq_fifo) : irq_fifo := s <| usb_irq := true |>.

Definition fifo_put (s : irq_fifo) (c : Z) : bool * irq_fifo :=
  let s := NVIC_DisableIRQ s in
  let '(t, f) := _fifo_put (ring s) c in
  (t, NVIC_EnableIRQ (s <| ring := f |>)).

Definition fifo_get (s : irq_fifo) : option Z * irq_fifo :=
  let s := NVIC_DisableIRQ s in
  match _fifo_get (ring s) with
  | Some (c, f) => (Some c, NVIC_EnableIRQ (s <| ring := f |>))
  | None => (None, NVIC_EnableIRQ s)
  end.

Definition fifo_avail (s : irq_fifo) : Z * irq_fifo :=
  let s := NVIC_DisableIRQ s in
  let t := _fifo_avail (ring s) in
  (t, NVIC_EnableIRQ s).

(** The body calls the masking version of [fifo_avail]. *)
Definition _fifo_free (s : irq_fifo) : Z * irq_fifo :=
  let '(a, s) := fifo_avail s in (SERIAL_FIFO_SIZE - 1 - a, s).

Definition fifo_free (s : irq_fifo) : Z * irq_fifo :=
  let s := NVIC_DisableIRQ s in
  let '(t, s) := _fifo_free s in
  (t, NVIC_EnableIRQ s).

(** ** USB bulk endpoint handlers *)

Definition MAX_PACKET_SIZE : Z := 64.

(** Outcome of [BulkOut]: [Asserted] is the failed [ASSERT(FALSE)]. *)
Inductive bulk_out_result := NoRoom | Stored | Asserted.

Fixpoint bulk_store (s : irq_fifo) (bytes : list Z) : bulk_out_result * irq_fifo :=
  match bytes with
  | [] => (Stored, s)
  | c :: rest =>
      let '(ok, f) := _fifo_put (ring s) c in
      if ok then bulk_store (s <| ring := f |>) rest
      else (Asserted, s <| ring := f |>)
  end.

(** [USBHwEPRead] delivers a packet of at most the requested 64 bytes. *)
Definition BulkOut (USBHwEPRead : Z -> list Z) (s : irq_fifo)
  : bulk_out_result * irq_fifo :=
  let '(room, s) := _fifo_free s in
  if room <? MAX_PACKET_SIZE then (NoRoom, s)
  else bulk_store s (USBHwEPRead MAX_PACKET_SIZE).

Fixpoint bulk_fetch (n : nat) (f : fifo_t) : list Z * fifo_t :=
  match n with
  | O => ([], f)
  | S n =>
      match _fifo_get f with
      | None => ([], f)
      | Some (c, f) => let '(cs, f) := bulk_fetch n f in (c :: cs, f)
      end
  end.

(** What [BulkIn] does to the endpoint. *)
Inductive bulk_in_action := NakIntDisable | EPWrite (packet : list Z) | NoWrite.

Definition BulkIn (f : fifo_t) : bulk_in_action * fifo_t :=
  if _fifo_avail f =? 0 then (NakIntDisable, f)
  else
    let '(cs, f) := bulk_fetch (Z.to_nat MAX_PACKET_SIZE) f in
    if 0 <? Z.of_nat (length cs) then (EPWrite cs, f) else (NoWrite, f).

(** [USBFrameHandler]: NAK interrupts are re-enabled when there is data. *)
Definition USBFrameHandler (f : fifo_t) : bool := 0 <? _fifo_avail f.

(** ** The ring implements the contract *)

Record fifo_wf (f : fifo_t) : Prop := {
  wf_head : 0 <= head f < SERIAL_FIFO_SIZE;
  wf_tail : 0 <= tail f < SERIAL_FIFO_SIZE;
  wf_buf : length (buf f) = Z.to_nat SERIAL_FIFO_SIZE
}.

(** The bytes between tail and head, oldest first. *)
Definition fifo_contents (f : fifo_t) : list Z :=
  (fun i => buf_get f ((tail f + i) mod SERIAL_FIFO_SIZE)) <$> seqZ 0 (_fifo_avail f).

Lemma fifo_init_wf b :
  length b = Z.to_nat SERIAL_FIFO_SIZE -> fifo_wf (fifo_init b).
Proof. intros H. split; simpl; [unfold SERIAL_FIFO_SIZE; lia..|done]. Qed.

Section ring.
Context (f : fifo_t) (Hwf : fifo_wf f).

Lemma avail_mod : _fifo_avail f = (head f - tail f) mod 256.
Proof.
  destruct Hwf as [Hh Ht _]. unfold _fifo_avail, SERIAL_FIFO_SIZE in *.
  rewrite Z.rem_mod_nonneg by lia.
  replace (256 + head f - tail f) with (head f - tail f + 1 * 256) by lia.
  apply Z_mod_plus_full.
Qed.

Lemma avail_range : 0 <= _fifo_avail f < 256.
Proof. rewrite avail_mod. apply Z.mod_pos_bound. lia. Qed.

Lemma contents_length : length (fifo_contents f) = Z.to_nat (_fifo_avail f).
Proof. unfold fifo_contents. rewrite length_fmap, length_seqZ. done. Qed.

Lemma next_mod i : 0 <= i < 256 -> Z.rem (i + 1) SERIAL_FIFO_SIZE = (i + 1) mod 256.
Proof. intros. unfold SERIAL_FIFO_SIZE. apply Z.rem_mod_nonneg; lia. Qed.

Lemma ring_full : Z.rem (head f + 1) SERIAL_FIFO_SIZE = tail f <-> _fifo_avail f = 255.
Proof.
  destruct Hwf as [Hh Ht _]. unfold SERIAL_FIFO_SIZE in *.
  rewrite next_mod, avail_mod by lia.
  destruct (Z.le_gt_cases (tail f) (head f)).
  - rewrite (Z.mod_small (head f - tail f)) by lia.
    destruct (Z.eq_dec (head f) 255) as [->|]; [rewrite Z.mod_same by lia; lia|].
    rewrite Z.mod_small by lia. lia.
  - replace (head f - tail f) with (head f - tail f + 256 + (-1) * 256) by lia.
    rewrite Z_mod_plus_full, !Z.mod_small by lia. lia.
Qed.

Lemma ring_empty : head f = tail f <-> _fifo_avail f = 0.
Proof.
  destruct Hwf as [Hh Ht _]. unfold SERIAL_FIFO_SIZE in *. rewrite avail_mod.
  destruct (Z.le_gt_cases (tail f) (head f)).
  - rewrite Z.mod_small by lia. lia.
  - replace (head f - tail f) with (head f - tail f + 256 + (-1) * 256) by lia.
    rewrite Z_mod_plus_full, Z.mod_small by lia. lia.
Qed.

Lemma head_is_tail_plus : (tail f + _fifo_avail f) mod SERIAL_FIFO_SIZE = head f.
Proof.
  destruct Hwf as [Hh _ _]. unfold SERIAL_FIFO_SIZE in *.
  rewrite avail_mod, Zplus_mod_idemp_r.
  replace (tail f + (head f - tail f)) with (head f) by lia.
  apply Z.mod_small. lia.
Qed.

(** The slots in use are all different from the slot at [head]. *)
Lemma used_slot_ne_head i :
  0 <= i < _fifo_avail f -> (tail f + i) mod 256 <> head f.
Proof.
  intros Hi Heq. pose proof avail_range. destruct Hwf as [Hh Ht _].
  unfold SERIAL_FIFO_SIZE in *. pose proof avail_mod as Ha.
  rewrite <- Heq in Ha. rewrite Zminus_mod_idemp_l in Ha.
  replace (tail f + i - tail f) with i in Ha by lia.
  rewrite Z.mod_small in Ha by lia. lia.
Qed.
End ring.

Lemma fifo_put_contents f c :
  fifo_wf f -> _fifo_avail f < 255 ->
  let f' := (buf_set f (head f) c) <| head := Z.rem (head f + 1) SERIAL_FIFO_SIZE |> in
  fifo_wf f' /\ _fifo_avail f' = _fifo_avail f + 1 /\
  fifo_contents f' = fifo_contents f ++ [c].
Proof.
  intros Hf Ha f'. destruct (Hf) as [Hh Ht Hb].
  unfold SERIAL_FIFO_SIZE in *.
  assert (Hf' : fifo_wf f').
  { split; simpl; unfold SERIAL_FIFO_SIZE in *; [|done|by rewrite length_insert].
    rewrite Z.rem_mod_nonneg by lia. apply Z.mod_pos_bound. lia. }
  assert (Hav : _fifo_avail f' = _fifo_avail f + 1).
  { rewrite (avail_mod f' Hf'). simpl. rewrite Z.rem_mod_nonneg by lia.
    rewrite Zminus_mod_idemp_l. pose proof (avail_range f Hf).
    rewrite (avail_mod f Hf) in *.
    replace (head f + 1 - tail f) with ((head f - tail f) + 1) by lia.
    rewrite <- Zplus_mod_idemp_l. apply Z.mod_small. lia. }
  split; [done|]. split; [done|].
  pose proof (avail_range f Hf). unfold fifo_contents. rewrite Hav.
  rewrite seqZ_app, fmap_app by lia. f_equal.
  - apply list_fmap_ext. intros k i [-> Hk]%lookup_seqZ. set (i := 0 + Z.of_nat k).

    unfold buf_get, f'. simpl. rewrite !nth_lookup, list_lookup_insert_ne; [done|].
    pose proof (used_slot_ne_head f Hf i ltac:(lia)).
    pose proof (Z.mod_pos_bound (tail f + i) 256). unfold SERIAL_FIFO_SIZE. lia.
  - unfold seqZ. simpl. f_equal. unfold buf_get, f'. simpl.
    pose proof (head_is_tail_plus f Hf) as Hhd. unfold SERIAL_FIFO_SIZE in *.
    replace (tail f + (Z.of_nat 0 + (0 + _fifo_avail f))) with (tail f + _fifo_avail f) by lia.
    rewrite Hhd, nth_lookup, list_lookup_insert_eq; [done|]. lia.
Qed.

Lemma fifo_get_contents f :
  fifo_wf f -> 0 < _fifo_avail f ->
  let f' := f <| tail := Z.rem (tail f + 1) SERIAL_FIFO_SIZE |> in
  fifo_wf f' /\ _fifo_avail f' = _fifo_avail f - 1 /\
  fifo_contents f = buf_get f (tail f) :: fifo_contents f'.
Proof.
  intros Hf Ha f'. destruct (Hf) as [Hh Ht Hb]. unfold SERIAL_FIFO_SIZE in *.
  assert (Hf' : fifo_wf f').
  { split; simpl; unfold SERIAL_FIFO_SIZE in *; [done| |done].
    rewrite Z.rem_mod_nonneg by lia. apply Z.mod_pos_bound. lia. }
  assert (Hav : _fifo_avail f' = _fifo_avail f - 1).
  { rewrite (avail_mod f' Hf'). simpl. rewrite Z.rem_mod_nonneg by lia.
    rewrite Zminus_mod_idemp_r. pose proof (avail_range f Hf).
    rewrite (avail_mod f Hf) in *.
    replace (head f - (tail f + 1)) with ((head f - tail f) - 1) by lia.
    rewrite <- Zminus_mod_idemp_l. apply Z.mod_small. lia. }
  split; [done|]. split; [done|].
  pose proof (avail_range f Hf). unfold fifo_contents. rewrite Hav.
  rewrite (seqZ_cons 0) by lia. rewrite fmap_cons. f_equal.
  - unfold SERIAL_FIFO_SIZE. rewrite Z.add_0_r, Z.mod_small by lia. done.
  - replace (Z.pred (_fifo_avail f)) with (_fifo_avail f - 1) by lia.
    rewrite <- (fmap_add_seqZ 1 0), <- list_fmap_compose.
    apply list_fmap_ext. intros i x _. unfold compose, buf_get, f'. simpl.
    unfold SERIAL_FIFO_SIZE.
    rewrite Z.rem_mod_nonneg by lia. rewrite Zplus_mod_idemp_l.
    do 2 f_equal. f_equal. lia.
Qed.

Lemma _fifo_put_cases f c :
  fifo_wf f ->
  fifo_wf (snd (_fifo_put f c)) /\
  (fst (_fifo_put f c), fifo_contents (snd (_fifo_put f c)))
  = if decide (length (fifo_contents f) < 255)%nat
    then (true, fifo_contents f ++ [c]) else (false, fifo_contents f).
Proof.
  intros Hf. pose proof (avail_range f Hf). unfold _fifo_put.
  rewrite (contents_length f).
  destruct (Z.eqb_spec (Z.rem (head f + 1) SERIAL_FIFO_SIZE) (tail f)) as [E|E].
  - apply (ring_full f Hf) in E. case_decide; [lia|]. done.
  - assert (_fifo_avail f <> 255) by (intros ?%(ring_full f Hf); done).
    destruct (fifo_put_contents f c Hf ltac:(lia)) as (? & _ & Hc).
    case_decide; [|lia]. split; [done|]. simpl. f_equal. apply Hc.
Qed.

Lemma _fifo_get_cases f :
  fifo_wf f ->
  match _fifo_get f with
  | Some (c, f') => fifo_wf f' /\ fifo_contents f = c :: fifo_contents f'
  | None => fifo_contents f = []
  end.
Proof.
  intros Hf. pose proof (avail_range f Hf). unfold _fifo_get.
  destruct (Z.eqb_spec (head f) (tail f)) as [E|E].
  - apply (ring_empty f Hf) in E. apply nil_length_inv. rewrite contents_length, E. done.
  - assert (_fifo_avail f <> 0) by (intros ?%(ring_empty f Hf); done).
    destruct (fifo_get_contents f Hf ltac:(lia)) as (? & _ & Hc). done.
Qed.

Lemma fifo_put_ring s c :
  fifo_put s c = (fst (_fifo_put (ring s) c),
                  {| usb_irq := true; ring := snd (_fifo_put (ring s) c) |}).
Proof. unfold fifo_put. simpl. by destruct (_fifo_put (ring s) c). Qed.

#[export] Program Instance fifo_queue : BoundedQueue irq_fifo := {|
  q_capacity := 255; q_wf s := fifo_wf (ring s); q_contents s := fifo_contents (ring s);
  q_put := fifo_put; q_get := fifo_get |}.
Next Obligation. intros s c Hf. rewrite fifo_put_ring. by apply _fifo_put_cases. Qed.
Next Obligation. intros s c Hf. rewrite fifo_put_ring. by apply _fifo_put_cases. Qed.
Next Obligation.
  intros s Hf. pose proof (_fifo_get_cases (ring s) Hf) as H. unfold fifo_get. simpl.
  destruct (_fifo_get (ring s)) as [[c f']|]; [apply H|done].
Qed.
Next Obligation.
  intros s Hf. pose proof (_fifo_get_cases (ring s) Hf) as H. unfold fifo_get. simpl.
  destruct (_fifo_get (ring s)) as [[c f']|]; [apply H|done].
Qed.
Next Obligation.
  intros s Hf. pose proof (avail_range (ring s) Hf). cbn; rewrite contents_length. lia.
Qed.

(** ** Refinement of the abstract bounded queue *)

Inductive fifo_op := OpPut (c : Z) | OpGet | OpAvail | OpFree.
Inductive fifo_ret := RetBool (b : bool) | RetChar (c : option Z) | RetInt (z : Z).

(** The concrete operations, all in their interrupt-masking version. *)
Definition ring_step (s : irq_fifo) (o : fifo_op) : fifo_ret * irq_fifo :=
  match o with
  | OpPut c => let '(b, s) := fifo_put s c in (RetBool b, s)
  | OpGet => let '(c, s) := fifo_get s in (RetChar c, s)
  | OpAvail => let '(a, s) := fifo_avail s in (RetInt a, s)
  | OpFree => let '(a, s) := fifo_free s in (RetInt a, s)
  end.

(** The specification: a list that holds at most 255 bytes. *)
Definition spec_step (q : list Z) (o : fifo_op) : fifo_ret * list Z :=
  match o with
  | OpPut c => if decide (length q < 255)%nat then (RetBool true, q ++ [c])
               else (RetBool false, q)
  | OpGet => match q with [] => (RetChar None, []) | c :: q => (RetChar (Some c), q) end
  | OpAvail => (RetInt (Z.of_nat (length q)), q)
  | OpFree => (RetInt (255 - Z.of_nat (length q)), q)
  end.

Fixpoint run {S} (step : S -> fifo_op -> fifo_ret * S) (s : S) (os : list fifo_op)
  : list fifo_ret * S :=
  match os with
  | [] => ([], s)
  | o :: os =>
      let '(r, s) := step s o in
      let '(rs, s) := run step s os in (r :: rs, s)
  end.

Lemma ring_step_refines s o :
  fifo_wf (ring s) ->
  let '(r, s') := ring_step s o in
  spec_step (fifo_contents (ring s)) o = (r, fifo_contents (ring s')) /\
  fifo_wf (ring s').
Proof.
  intros Hf. pose proof (avail_range _ Hf).
  destruct s as [irq f]. destruct o; simpl in *.
  - pose proof (_fifo_put_cases f c Hf) as [Hwf' Heq].
    unfold fifo_put. simpl. destruct (_fifo_put f c) as [b f'] eqn:E. simpl in *.
    case_decide; inversion Heq; subst; done.
  - pose proof (_fifo_get_cases f Hf) as Hg. unfold fifo_get. simpl.
    destruct (_fifo_get f) as [[c f']|]; simpl.
    + destruct Hg as [? ->]. done.
    + rewrite Hg. done.
  - rewrite contents_length. split; [|done]. do 2 f_equal. lia.
  - rewrite contents_length. split; [|done]. do 2 f_equal.
    unfold SERIAL_FIFO_SIZE. lia.
Qed.

(** C16: the 256-slot ring is a FIFO of capacity 255: from any well-formed
    state, any sequence of put, get, avail and free calls returns the same
    results as on a list bounded at 255 bytes, and leaves the ring well formed
    with those bytes in it. *)
Theorem serial_fifo_refines_bounded_queue (s : irq_fifo) (os : list fifo_op)
  (Hwf : fifo_wf (ring s)) :
  let '(rs, s') := run ring_step s os in
  run spec_step (fifo_contents (ring s)) os = (rs, fifo_contents (ring s')) /\
  fifo_wf (ring s').
Proof.
  revert s Hwf. induction os as [|o os IH]; intros s Hwf; simpl; [done|].
  pose proof (ring_step_refines s o Hwf) as Hstep.
  destruct (ring_step s o) as [r s1]. destruct Hstep as [-> Hwf1].
  specialize (IH s1 Hwf1). destruct (run ring_step s1 os) as [rs s2].
  destruct IH as [-> ?]. done.
Qed.

Lemma serial_fifo_refines_bounded_queue_witness :
  run spec_step [] [OpPut 65; OpPut 66; OpFree; OpGet; OpAvail; OpGet; OpGet]
  = ([RetBool true; RetBool true; RetInt 253; RetChar (Some 65); RetInt 1;
      RetChar (Some 66); RetChar None],
     fifo_contents (ring (snd (run ring_step
       {| usb_irq := true; ring := fifo_init (repeat 0 256) |}
       [OpPut 65; OpPut 66; OpFree; OpGet; OpAvail; OpGet; OpGet])))).
Proof.
  pose proof (serial_fifo_refines_bounded_queue
    {| usb_irq := true; ring := fifo_init (repeat 0 256) |}
    [OpPut 65; OpPut 66; OpFree; OpGet; OpAvail; OpGet; OpGet]
    (fifo_init_wf (repeat 0 256) eq_refl)) as H.
  vm_compute in H |- *. apply H.
Defined.

(** ** The endpoint handlers *)

Lemma bulk_store_contents bytes s :
  fifo_wf (ring s) ->
  (length (fifo_contents (ring s)) + length bytes <= 255)%nat ->
  let '(r, s') := bulk_store s bytes in
  r = Stored /\ fifo_wf (ring s') /\
  fifo_contents (ring s') = fifo_contents (ring s) ++ bytes.
Proof.
  revert s. induction bytes as [|c bytes IH]; intros s Hf Hlen; simpl in *.
  - by rewrite app_nil_r.
  - destruct (_fifo_put_cases (ring s) c Hf) as [Hf' Heq].
    destruct (_fifo_put (ring s) c) as [ok f'] eqn:E. simpl in Hf', Heq.
    case_decide; [|lia]. inversion Heq as [[Hok Hc]].
    specialize (IH (s <| ring := f' |>)). simpl in IH.
    rewrite Hc, length_app in IH. simpl in IH. specialize (IH Hf' ltac:(lia)).
    destruct (bulk_store _ bytes) as [r s']. destruct IH as (? & ? & ->).
    by rewrite <- app_assoc.
Qed.

Lemma BulkOut_spec (read : Z -> list Z) (s : irq_fifo) :
  fifo_wf (ring s) -> Z.of_nat (length (read MAX_PACKET_SIZE)) <= MAX_PACKET_SIZE ->
  let '(r, s') := BulkOut read s in
  r = (if 255 - Z.of_nat (length (fifo_contents (ring s))) <? 64 then NoRoom else Stored) /\
  fifo_wf (ring s') /\
  fifo_contents (ring s')
  = fifo_contents (ring s) ++ (match r with Stored => read MAX_PACKET_SIZE | _ => [] end).
Proof.
  intros Hwf Hread.
  pose proof (avail_range _ Hwf) as Hav. unfold MAX_PACKET_SIZE, SERIAL_FIFO_SIZE in *.
  unfold BulkOut. simpl. unfold MAX_PACKET_SIZE, SERIAL_FIFO_SIZE.
  rewrite contents_length, Z2Nat.id by lia.
  replace (256 - 1 - _fifo_avail (ring s)) with (255 - _fifo_avail (ring s)) by lia.
  destruct (Z.ltb_spec (255 - _fifo_avail (ring s)) 64) as [Hlt|Hge].
  - simpl. by rewrite app_nil_r.
  - set (s1 := NVIC_EnableIRQ (NVIC_DisableIRQ s)).
    pose proof (bulk_store_contents (read 64) s1) as H. simpl in H.
    rewrite contents_length in H. specialize (H Hwf ltac:(lia)).
    destruct (bulk_store s1 (read 64)) as [r s']. destruct H as (-> & ? & ?). done.
Qed.

(** C35: the USB bulk-out handler never drops a byte and never reaches its
    assertion: for any packet of at most 64 bytes it either leaves the packet
    in the endpoint, when fewer than 64 slots are free, or stores all of it, in
    order, behind the bytes already queued. *)
Theorem BulkOut_never_overflows (read : Z -> list Z) (s : irq_fifo)
  (Hwf : fifo_wf (ring s)) (Hread : Z.of_nat (length (read MAX_PACKET_SIZE)) <= MAX_PACKET_SIZE) :
  let '(r, s') := BulkOut read s in
  r = (if 255 - Z.of_nat (length (fifo_contents (ring s))) <? 64 then NoRoom else Stored) /\
  fifo_wf (ring s') /\
  fifo_contents (ring s')
  = fifo_contents (ring s) ++ (match r with Stored => read MAX_PACKET_SIZE | _ => [] end).
Proof. by apply BulkOut_spec. Qed.

Lemma BulkOut_never_overflows_witness :
  fifo_contents (ring (snd (BulkOut (fun _ => [71; 49; 10])
    {| usb_irq := true; ring := fifo_init (repeat 0 256) |}))) = [71; 49; 10].
Proof.
  pose proof (BulkOut_never_overflows (fun _ => [71; 49; 10])
    {| usb_irq := true; ring := fifo_init (repeat 0 256) |}
    (fifo_init_wf (repeat 0 256) eq_refl) ltac:(simpl; unfold MAX_PACKET_SIZE; lia)) as H.
  vm_compute in H |- *. apply H.
Defined.

Lemma bulk_fetch_contents n f :
  fifo_wf f ->
  let '(cs, f') := bulk_fetch n f in
  cs = take n (fifo_contents f) /\ fifo_contents f' = drop n (fifo_contents f) /\ fifo_wf f'.
Proof.
  revert f. induction n as [|n IH]; intros f Hf; simpl; [done|].
  pose proof (_fifo_get_cases f Hf) as Hg.
  destruct (_fifo_get f) as [[c f1]|].
  - destruct Hg as [Hf1 ->]. specialize (IH f1 Hf1).
    destruct (bulk_fetch n f1) as [cs f2]. destruct IH as (-> & ? & ?). done.
  - rewrite Hg. done.
Qed.

(** the USB bulk-in handler sends the oldest bytes of the transmit queue,
    at most 64 of them, in order, and removes exactly those; on an empty queue
    it only disables the NAK interrupt. *)
Theorem BulkIn_sends_oldest (f : fifo_t) (Hwf : fifo_wf f) :
  let '(a, f') := BulkIn f in
  a = (match fifo_contents f with
       | [] => NakIntDisable
       | _ => EPWrite (take 64 (fifo_contents f))
       end) /\
  fifo_contents f' = drop 64 (fifo_contents f) /\ fifo_wf f'.
Proof.
  pose proof (avail_range _ Hwf) as Hav. unfold BulkIn.
  pose proof (contents_length f) as Hl.
  destruct (Z.eqb_spec (_fifo_avail f) 0) as [E|E].
  - rewrite E in Hl. apply nil_length_inv in Hl. by rewrite Hl.
  - pose proof (bulk_fetch_contents (Z.to_nat MAX_PACKET_SIZE) f Hwf) as H.
    change (Z.to_nat MAX_PACKET_SIZE) with 64%nat in *.
    destruct (bulk_fetch _ f) as [cs f']. destruct H as (-> & Hd & Hf').
    rewrite <- Hd. destruct (fifo_contents f) as [|c q]; [simpl in Hl; lia|]. done.
Qed.

Lemma BulkIn_sends_oldest_witness :
  fst (BulkIn {| head := 2; tail := 255; buf := <[0%nat := 8]> (<[255%nat := 7]> (repeat 9 256)) |})
  = EPWrite [7; 8; 9].
Proof.
  pose proof (BulkIn_sends_oldest
    {| head := 2; tail := 255; buf := <[0%nat := 8]> (<[255%nat := 7]> (repeat 9 256)) |}
    ltac:(split; [split; [discriminate|reflexivity]..|reflexivity])) as H.
  vm_compute in H |- *. apply H.
Defined.
