(* ===== verification/SerMsg.v ===== *)
(** * Serial output (libraries/R2C2/src/serial.c, sermsg.c, sersendf.c)

    The character, string, number and format writers.  Output goes to the
    transmit queue through the [BoundedQueue] contract, one [serial_writechar]
    per byte; the number writers are given by the bytes they emit, in order. *)

From Stdlib Require Import SpecFloat.
From S2P Require Import Prelude CDouble SerialFifo.

(** ** serial.c *)

Section serial.
Context {Q : Type} `{BoundedQueue Q}.

(** The result of [fifo_put] is ignored: a full queue drops the character. *)
Definition serial_writechar (q : Q) (data : Z) : Q := snd (q_put q data).

(** [c] stays 0 when the queue is empty. *)
Definition serial_popchar (q : Q) : Z * Q :=
  match q_get q with (Some c, q) => (c, q) | (None, q) => (0, q) end.

Definition serial_writeblock (q : Q) (data : list Z) : Q :=
  fold_left serial_writechar data q.

(** [while ((r = data[i++])) serial_writechar(r)] with an 8-bit [i].  [None]
    is a read past the end of the array, or no fuel left. *)
Fixpoint serial_writestr_loop (fuel : nat) (data : list Z) (i : Z) (q : Q) : option Q :=
  match fuel with
  | O => None
  | S fuel =>
      match data !! Z.to_nat i with
      | None => None
      | Some r =>
          if r =? 0 then Some q
          else serial_writestr_loop fuel data (u8 (i + 1)) (serial_writechar q r)
      end
  end.

(** A string constant in memory: its bytes and the final NUL.  At most 256
    iterations can happen before the index repeats. *)
Definition serial_writestr (q : Q) (s : list Z) : option Q :=
  serial_writestr_loop 257 (s ++ [0]) 0 q.

(** ** Sending a sequence of characters *)

Definition emit (q : Q) (bytes : list Z) : Q := fold_left serial_writechar bytes q.

Lemma emit_app q bs cs : emit q (bs ++ cs) = emit (emit q bs) cs.
Proof. apply fold_left_app. Qed.

Lemma serial_writechar_wf q c : q_wf q -> q_wf (serial_writechar q c).
Proof. apply q_put_wf. Qed.

Lemma emit_contents q bs :
  q_wf q ->
  q_wf (emit q bs) /\
  q_contents (emit q bs)
  = q_contents q ++ take (q_capacity - length (q_contents q)) bs.
Proof.
  revert q. induction bs as [|c bs IH]; intros q Hq; simpl.
  - by rewrite take_nil, app_nil_r.
  - destruct (IH (serial_writechar q c) (serial_writechar_wf q c Hq)) as [Hw ->].
    split; [done|]. pose proof (q_put_spec q c Hq) as Hp.
    unfold serial_writechar. destruct (q_put q c) as [b q']. simpl in *.
    pose proof (q_bound q Hq).
    case_decide; inversion Hp as [[Hb Hc]]; rewrite Hc.
    + rewrite length_app. simpl length.
      replace (q_capacity - length (q_contents q))%nat
        with (S (q_capacity - (length (q_contents q) + 1)))%nat by lia.
      by rewrite <- app_assoc.
    + replace (q_capacity - length (q_contents q))%nat with 0%nat by lia. done.
Qed.

Lemma serial_writestr_loop_app fuel pre s q :
  Forall (fun c => c <> 0) s -> (length pre + length s < 256)%nat ->
  (length s < fuel)%nat ->
  serial_writestr_loop fuel (pre ++ s ++ [0]) (Z.of_nat (length pre)) q
  = Some (emit q s).
Proof.
  revert pre s q. induction fuel as [|fuel IH]; intros pre s q Hnz Hlen Hf; [lia|].
  simpl. rewrite Nat2Z.id, lookup_app_r, Nat.sub_diag by lia.
  destruct s as [|c s]; simpl; [done|].
  apply Forall_cons_1 in Hnz as [Hc Hnz]. simpl in Hlen, Hf.
  rewrite (proj2 (Z.eqb_neq c 0)) by done.
  rewrite u8_small by lia.
  replace (Z.of_nat (length pre) + 1) with (Z.of_nat (length (pre ++ [c])))
    by (rewrite length_app; simpl; lia).
  replace (pre ++ c :: s ++ [0]) with ((pre ++ [c]) ++ s ++ [0])
    by (by rewrite <- app_assoc).
  apply IH; [done|rewrite length_app; simpl; lia|lia].
Qed.

(** [serial_writestr] sends every string of fewer than 256 non-NUL
    characters completely: it terminates having put the characters in the
    transmit queue, in order. *)
Theorem serial_writestr_short (q : Q) (s : list Z)
  (Hnz : Forall (fun c => c <> 0) s) (Hlen : (length s < 256)%nat) :
  serial_writestr q s = Some (emit q s).
Proof. apply (serial_writestr_loop_app 257 []); simpl; [done|lia..]. Qed.

Lemma serial_writestr_loop_diverges fuel s i q :
  Forall (fun c => c <> 0) s -> (256 <= length s)%nat -> 0 <= i < 256 ->
  serial_writestr_loop fuel (s ++ [0]) i q = None.
Proof.
  revert i q. induction fuel as [|fuel IH]; intros i q Hnz Hlen Hi; [done|]. simpl.
  destruct (s !! Z.to_nat i) as [c|] eqn:E; [|apply lookup_ge_None in E; lia].
  rewrite lookup_app_l, E by lia.
  pose proof (Forall_lookup_1 _ _ _ _ Hnz E) as Hc. simpl in Hc.
  rewrite (proj2 (Z.eqb_neq c 0)) by done.
  apply IH; [done..|apply u8_range].
Qed.
End serial.

(** ** sermsg.c *)

Definition c0 : Z := chr "0".

Definition serwrite_hex4 (v : Z) : list Z :=
  let v := Z.land v 15 in
  if v <? 10 then [c0 + v] else [chr "A" - 10 + v].

Definition serwrite_hex8 (v : Z) : list Z :=
  serwrite_hex4 (Z.shiftr v 4) ++ serwrite_hex4 (Z.land v 15).

Definition serwrite_hex16 (v : Z) : list Z :=
  serwrite_hex8 (u8 (Z.shiftr v 8)) ++ serwrite_hex8 (Z.land v 255).

Definition serwrite_hex32 (v : Z) : list Z :=
  serwrite_hex16 (u16 (Z.shiftr v 16)) ++ serwrite_hex16 (Z.land v 65535).

(** [for (t = 0; v >= d; v -= d, t++);] with an 8-bit [t].  A 32-bit [v] is
    below [10 * d] whenever the loop is entered. *)
Fixpoint sub_loop (fuel : nat) (d v t : Z) : Z * Z :=
  match fuel with
  | O => (v, t)
  | S fuel => if d <=? v then sub_loop fuel d (v - d) (u8 (t + 1)) else (v, t)
  end.

(** One decimal place, by repeated subtraction: the state is the remaining
    value, the digit counter [t] and the characters sent so far. *)
Definition place_sub (d : Z) (st : Z * Z * list Z) : Z * Z * list Z :=
  let '(v, t, out) := st in
  if d <=? v then
    let '(v, t) := sub_loop 10 d v 0 in (v, t, out ++ [t + c0])
  else if negb (t =? 0) then (v, t, out ++ [c0])
  else (v, t, out).

(** One decimal place, by division. *)
Definition place_div (d : Z) (st : Z * Z * list Z) : Z * Z * list Z :=
  let '(v, t, out) := st in
  if d <=? v then
    let t := u8 (v / d) in (v - t * d, t, out ++ [t + c0])
  else if negb (t =? 0) then (v, t, out ++ [c0])
  else (v, t, out).

(** The first place: nothing has been printed yet, so there is no [else]. *)
Definition place_first (d : Z) (v : Z) : Z * Z * list Z :=
  if d <=? v then let '(v, t) := sub_loop 10 d v 0 in (v, t, [t + c0])
  else (v, 0, []).

Definition serwrite_uint32 (v : Z) : list Z :=
  let st := place_first 1000000000 v in
  let st := place_sub 100000000 st in
  let st := place_sub 10000000 st in
  let st := place_sub 1000000 st in
  let st := place_sub 100000 st in
  let st := place_sub 10000 st in
  let st := place_sub 1000 st in
  let st := place_div 100 st in
  let st := place_div 10 st in
  let '(v, t, out) := st in
  out ++ [v + c0].

Definition serwrite_int32 (v : Z) : list Z :=
  if v <? 0 then [chr "-"] ++ serwrite_uint32 (u32 (i32 (- v)))
  else serwrite_uint32 (u32 v).

Definition serwrite_double (v : double) : list Z :=
  let '(pre, v) := if dltb v d0 then ([chr "-"], dopp v) else ([], v) in
  let int_part := serwrite_uint32 (d2u32 v) in
  let v := dsub v (d_of_Z (d2i32 v)) in
  let v := dmul v (d_of_Z 1000) in
  let z1 := if dltb v (d_of_Z 100) then [c0] else [] in
  let z2 := if dltb v (d_of_Z 10) then [c0] else [] in
  pre ++ int_part ++ [chr "."] ++ z1 ++ z2 ++ serwrite_uint32 (d2u32 v).

(** ** sersendf.c *)

(** The variadic arguments. *)
Inductive sarg := AInt (z : Z) | ADouble (d : double) | AStr (s : list Z).

(** The conversion characters, applied to the next argument; [long] is the
    state [j == 4].  [serwrite_int16] and [serwrite_uint16] are macros for the
    32-bit writers.  [None] is an argument of the wrong kind, or a string that
    [serial_writestr] does not finish. *)
Definition sersendf_conv (c : Z) (long : bool) (args : list sarg)
  : option (list Z * list sarg) :=
  if c =? chr "u" then
    match args with AInt z :: args => Some (serwrite_uint32 (u32 z), args) | _ => None end
  else if c =? chr "d" then
    match args with AInt z :: args => Some (serwrite_int32 (i32 z), args) | _ => None end
  else if c =? chr "g" then
    match args with ADouble d :: args => Some (serwrite_double d, args) | _ => None end
  else if (c =? chr "p") || (c =? chr "x") then
    match args with
    | AInt z :: args =>
        Some (bytes_of_string "0x" ++
              (if long then serwrite_hex32 (u32 z) else serwrite_hex16 (u16 z)), args)
    | _ => None
    end
  else if c =? chr "c" then
    match args with AInt z :: args => Some ([u8 z], args) | _ => None end
  else if c =? chr "s" then
    match args with
    | AStr s :: args => if Z.of_nat (length s) <? 256 then Some (s, args) else None
    | _ => None
    end
  else Some ([], args).

(** [j] is 0 outside a conversion, 2 after a percent sign, 4 after an [l]. *)
Fixpoint sersendf_loop (format : list Z) (j : Z) (args : list sarg) : option (list Z) :=
  match format with
  | [] => Some []
  | c :: format =>
      if negb (j =? 0) then
        if c =? chr "l" then sersendf_loop format 4 args
        else
          match sersendf_conv c (j =? 4) args with
          | None => None
          | Some (out, args) => option_map (app out) (sersendf_loop format 0 args)
          end
      else if c =? chr "%" then sersendf_loop format 2 args
      else option_map (cons c) (sersendf_loop format 0 args)
  end.

Definition sersendf (format : string) (args : list sarg) : option (list Z) :=
  sersendf_loop (bytes_of_string format) 0 args.

(** ** Decimal numerals *)

(** The decimal numeral of a number below 10^n, without leading zeros. *)
Fixpoint decimal_upto (n : nat) (v : Z) : list Z :=
  match n with
  | O => []
  | S n => if v <? 10 then [c0 + v] else decimal_upto n (v / 10) ++ [c0 + v mod 10]
  end.

Definition decimal (v : Z) : list Z := decimal_upto 10 v.

Definition is_digit (c : Z) : bool := (c0 <=? c) && (c <=? c0 + 9).

(** The value of a string of digits. *)
Definition dec_value (cs : list Z) : Z := fold_left (fun a c => 10 * a + (c - c0)) cs 0.

Lemma dec_value_snoc cs c : dec_value (cs ++ [c]) = 10 * dec_value cs + (c - c0).
Proof. unfold dec_value. by rewrite fold_left_app. Qed.

Lemma div10_bound n v : 0 <= v < 10 ^ Z.of_nat (S n) -> 0 <= v / 10 < 10 ^ Z.of_nat n.
Proof.
  rewrite Nat2Z.inj_succ, Z.pow_succ_r by lia. intros H.
  split; [apply Z.div_pos; lia|apply Z.div_lt_upper_bound; lia].
Qed.

Lemma decimal_upto_value n v :
  (0 < n)%nat -> 0 <= v < 10 ^ Z.of_nat n -> dec_value (decimal_upto n v) = v.
Proof.
  revert v. induction n as [|n IH]; intros v Hn Hv; [lia|]. simpl.
  destruct (Z.ltb_spec v 10) as [Hlt|Hge]; [unfold dec_value; simpl; lia|].
  destruct n as [|n]; [simpl in Hv; lia|].
  rewrite dec_value_snoc, IH; [|lia|by apply div10_bound].
  pose proof (Z.div_mod v 10). lia.
Qed.

Lemma decimal_upto_digits n v :
  0 <= v -> Forall (fun c => is_digit c = true) (decimal_upto n v).
Proof.
  revert v. induction n as [|n IH]; intros v Hv; simpl; [constructor|].
  destruct (Z.ltb_spec v 10) as [Hlt|Hge].
  - repeat constructor. unfold is_digit. lia.
  - apply Forall_app. split; [apply IH, Z.div_pos; lia|]. repeat constructor.
    pose proof (Z.mod_pos_bound v 10). unfold is_digit. lia.
Qed.

Lemma decimal_upto_S n v :
  (0 < n)%nat -> 0 <= v < 10 ^ Z.of_nat n -> decimal_upto (S n) v = decimal_upto n v.
Proof.
  revert v. induction n as [|n IH]; intros v Hn Hv; [lia|].
  cbn [decimal_upto]. destruct (Z.ltb_spec v 10) as [|Hge]; [done|].
  destruct n as [|n]; [simpl in Hv; lia|].
  f_equal. apply (IH (v / 10)); [lia|by apply div10_bound].
Qed.

Lemma decimal_value v : 0 <= v < 10 ^ 10 -> dec_value (decimal v) = v.
Proof. intros. apply decimal_upto_value; simpl; lia. Qed.

Lemma decimal_digits v : 0 <= v -> Forall (fun c => is_digit c = true) (decimal v).
Proof. apply decimal_upto_digits. Qed.

Lemma decimal_snoc n d :
  0 < n < 10 ^ 9 -> 0 <= d < 10 -> decimal (10 * n + d) = decimal n ++ [c0 + d].
Proof.
  intros Hn Hd. unfold decimal. rewrite (decimal_upto_S 9 n) by (simpl; lia).
  cbn [decimal_upto]. destruct (Z.ltb_spec (10 * n + d) 10); [lia|].
  replace ((10 * n + d) / 10) with n by (apply (Z.div_unique _ _ _ d); lia).
  by replace ((10 * n + d) mod 10) with d by (apply (Z.mod_unique _ _ n); lia).
Qed.

Lemma decimal_digit d : 0 <= d < 10 -> decimal d = [c0 + d].
Proof.
  intros. unfold decimal. cbn [decimal_upto]. destruct (Z.ltb_spec d 10); [done|lia].
Qed.

(** ** The number writers print decimal numerals *)

Lemma sub_loop_div fuel d v t :
  0 < d -> 0 <= v < d * Z.of_nat fuel -> 0 <= t -> t + v / d < 256 ->
  sub_loop fuel d v t = (v mod d, t + v / d).
Proof.
  revert v t. induction fuel as [|fuel IH]; intros v t Hd Hv Ht Hs; [lia|].
  simpl. destruct (Z.leb_spec d v) as [Hle|Hlt].
  - assert (Hq : (v - d) / d = v / d - 1).
    { replace (v - d) with (v + (-1) * d) by lia. rewrite Z.div_add by lia. lia. }
    assert (Hm : (v - d) mod d = v mod d).
    { replace (v - d) with (v + (-1) * d) by lia. by rewrite Z.mod_add by lia. }
    assert (1 <= v / d) by (apply Z.div_le_lower_bound; lia).
    rewrite u8_small by lia. rewrite IH; [f_equal; [done|lia]|done|lia|lia|lia].
  - rewrite Z.div_small, Z.mod_small by lia. f_equal. lia.
Qed.

(** The state after the places of weight [w] and above have been printed. *)
Definition printed (V w : Z) (st : Z * Z * list Z) : Prop :=
  let '(v, t, out) := st in
  v = V mod w /\ 0 <= t < 10 /\ (t = 0 <-> V / w = 0) /\
  out = (if V / w =? 0 then [] else decimal (V / w)).

Lemma place_out V d out :
  0 < d -> 0 <= V < 10 ^ 9 * (10 * d) ->
  out = (if V / (10 * d) =? 0 then [] else decimal (V / (10 * d))) ->
  (V / d =? 0) = false ->
  out ++ [(V mod (10 * d)) / d + c0] = decimal (V / d).
Proof.
  intros Hd HV -> Hnz.
  assert (Hdig : 0 <= V mod (10 * d) / d < 10).
  { pose proof (Z.mod_pos_bound V (10 * d)).
    split; [apply Z.div_pos; lia|apply Z.div_lt_upper_bound; lia]. }
  assert (HVd : V / d = 10 * (V / (10 * d)) + V mod (10 * d) / d).
  { rewrite (Z.mul_comm 10 d). rewrite <- Z.div_div by lia.
    rewrite Z.rem_mul_r by lia. rewrite (Z.mul_comm d (V / d mod 10)).
    rewrite Z.div_add by lia.
    rewrite (Z.div_small (V mod d)) by (apply Z.mod_pos_bound; lia).
    pose proof (Z.div_mod (V / d) 10). lia. }
  assert (Hb : 0 <= V / (10 * d) < 10 ^ 9).
  { split; [apply Z.div_pos; lia|apply Z.div_lt_upper_bound; lia]. }
  rewrite HVd in *. set (n := V / (10 * d)) in *. set (x := V mod (10 * d) / d) in *.
  destruct (Z.eqb_spec n 0) as [->|Hn].
  - rewrite decimal_digit by lia. simpl. f_equal. lia.
  - rewrite decimal_snoc by lia. do 2 f_equal. lia.
Qed.

Lemma mod_mod_10 V d : 0 < d -> (V mod (10 * d)) mod d = V mod d.
Proof.
  intros. rewrite (Z.mul_comm 10 d), Z.rem_mul_r by lia.
  rewrite (Z.mul_comm d), Z.mod_add by lia. apply Z.mod_mod. lia.
Qed.

Lemma div_zero_10 V d : 0 < d -> 0 <= V -> V / d = 0 -> V / (10 * d) = 0.
Proof.
  intros Hd HV H. apply Z.div_small_iff in H; [|lia]. apply Z.div_small. lia.
Qed.

(** Both ways of printing a place advance the state by one weight. *)
Lemma place_step V d st st' :
  0 < d -> 0 <= V < 10 ^ 9 * (10 * d) -> printed V (10 * d) st ->
  (let '(v, t, out) := st in
   st' = if d <=? v then (v mod d, v / d, out ++ [v / d + c0])
         else if negb (t =? 0) then (v, t, out ++ [c0]) else (v, t, out)) ->
  printed V d st'.
Proof.
  intros Hd HV. destruct st as [[v t] out]. intros (-> & Ht & Hz & Hout) ->.
  pose proof (Z.mod_pos_bound V (10 * d) ltac:(lia)) as Hm.
  pose proof (mod_mod_10 V d Hd) as Hmm.
  assert (HVnn : 0 <= V / d) by (apply Z.div_pos; lia).
  destruct (Z.leb_spec d (V mod (10 * d))) as [Hle|Hlt].
  - assert (1 <= V mod (10 * d) / d < 10).
    { split; [apply Z.div_le_lower_bound; lia|apply Z.div_lt_upper_bound; lia]. }
    assert (Hnz : V / d <> 0).
    { intros H0. apply Z.div_small_iff in H0; [|lia].
      rewrite Z.mod_small in Hle by lia. lia. }
    simpl. split; [done|]. split; [lia|]. split; [lia|].
    rewrite (proj2 (Z.eqb_neq (V / d) 0) Hnz).
    apply place_out; [done..|by apply Z.eqb_neq].
  - assert (Hdig : V mod (10 * d) / d = 0) by (apply Z.div_small; lia).
    assert (Hvm : V mod (10 * d) = V mod d) by (rewrite <- Hmm; symmetry; apply Z.mod_small; lia).
    destruct (Z.eqb_spec t 0) as [Ht0|Ht0]; simpl.
    + assert (V / (10 * d) = 0) as Hz0 by tauto.
      assert (V / d = 0) as Hz1.
      { apply Z.div_small_iff in Hz0; [|lia].
        rewrite Z.mod_small in Hlt by lia. apply Z.div_small. lia. }
      rewrite Hz1. rewrite Hz0 in Hout. simpl in *. tauto.
    + assert (Hnz : V / d <> 0).
      { intros H0. apply Ht0, Hz, div_zero_10; [done|lia|done]. }
      split; [done|]. split; [lia|]. split; [tauto|].
      rewrite (proj2 (Z.eqb_neq (V / d) 0) Hnz).
      rewrite <- (place_out V d out); [|done..|by apply Z.eqb_neq].
      rewrite Hdig. done.
Qed.

Lemma place_sub_printed V d st :
  0 < d -> 0 <= V < 10 ^ 9 * (10 * d) -> printed V (10 * d) st ->
  printed V d (place_sub d st).
Proof.
  intros Hd HV Hp. apply (place_step V d st); [done..|].
  destruct st as [[v t] out]. destruct Hp as (-> & _ & _ & _). unfold place_sub.
  pose proof (Z.mod_pos_bound V (10 * d) ltac:(lia)).
  destruct (Z.leb_spec d (V mod (10 * d))); [|done].
  assert (V mod (10 * d) / d < 10) by (apply Z.div_lt_upper_bound; lia).
  rewrite sub_loop_div by lia. done.
Qed.

Lemma place_div_printed V d st :
  0 < d -> 0 <= V < 10 ^ 9 * (10 * d) -> printed V (10 * d) st ->
  printed V d (place_div d st).
Proof.
  intros Hd HV Hp. apply (place_step V d st); [done..|].
  destruct st as [[v t] out]. destruct Hp as (-> & _ & _ & _). unfold place_div.
  pose proof (Z.mod_pos_bound V (10 * d) ltac:(lia)).
  destruct (Z.leb_spec d (V mod (10 * d))); [|done].
  assert (0 <= V mod (10 * d) / d < 10).
  { split; [apply Z.div_pos; lia|apply Z.div_lt_upper_bound; lia]. }
  rewrite u8_small by lia. do 2 f_equal.
  pose proof (Z.div_mod (V mod (10 * d)) d). lia.
Qed.

Lemma place_first_printed V :
  0 <= V < 2 ^ 32 -> printed V 1000000000 (place_first 1000000000 V).
Proof.
  intros HV. unfold place_first. destruct (Z.leb_spec 1000000000 V) as [Hle|Hlt].
  - assert (1 <= V / 1000000000 < 10).
    { split; [apply Z.div_le_lower_bound; lia|apply Z.div_lt_upper_bound; lia]. }
    rewrite sub_loop_div by lia. simpl. split; [done|]. split; [lia|]. split; [lia|].
    destruct (Z.eqb_spec (V / 1000000000) 0); [lia|].
    rewrite decimal_digit by lia. f_equal. lia.
  - simpl. rewrite Z.mod_small, Z.div_small by lia. simpl. repeat split; lia.
Qed.

Lemma uint32_numeral (v : Z) (Hv : 0 <= v < 2 ^ 32) :
  serwrite_uint32 v = decimal v.
Proof.
  unfold serwrite_uint32. pose proof (place_first_printed v Hv) as H.
  apply (place_sub_printed v 100000000) in H; [|lia..].
  apply (place_sub_printed v 10000000) in H; [|lia..].
  apply (place_sub_printed v 1000000) in H; [|lia..].
  apply (place_sub_printed v 100000) in H; [|lia..].
  apply (place_sub_printed v 10000) in H; [|lia..].
  apply (place_sub_printed v 1000) in H; [|lia..].
  apply (place_div_printed v 100) in H; [|lia..].
  apply (place_div_printed v 10) in H; [|lia..].
  set (st := place_div 10 _) in *. destruct st as [[r t] out].
  destruct H as (-> & Ht & Hz & ->).
  assert (Hr : v mod 10 = (v mod (10 * 1)) / 1) by (by rewrite Z.div_1_r).
  destruct (Z.eqb_spec (v / 10) 0) as [Hv0|Hv0].
  - simpl. apply Z.div_small_iff in Hv0; [|lia].
    rewrite Z.mod_small, decimal_digit by lia. f_equal. lia.
  - pose proof (Z.div_mod v 10 ltac:(lia)). pose proof (Z.mod_pos_bound v 10 ltac:(lia)).
    assert (0 <= v / 10 < 10 ^ 9).
    { split; [apply Z.div_pos; lia|apply Z.div_lt_upper_bound; lia]. }
    rewrite H at 3. rewrite decimal_snoc by lia. do 2 f_equal. lia.
Qed.

Lemma int32_numeral (v : Z) (Hv : - 2 ^ 31 <= v < 2 ^ 31) :
  serwrite_int32 v
  = (if v <? 0 then [chr "-"] else []) ++ decimal (Z.abs v).
Proof.
  unfold serwrite_int32. destruct (Z.ltb_spec v 0) as [Hn|Hn]; simpl.
  - rewrite Z.abs_neq by lia. f_equal.
    destruct (Z.eq_dec v (- 2 ^ 31)) as [->|Hne]; [reflexivity|].
    rewrite i32_small, u32_small by lia. apply uint32_numeral. lia.
  - rewrite Z.abs_eq, u32_small by lia. apply uint32_numeral. lia.
Qed.

(** C34: [serwrite_uint32] prints every 32-bit unsigned value, and
    [serwrite_int32] every signed one, as its decimal numeral: no leading
    zeros, a minus sign before a negative value, and the least value, whose
    negation wraps, still shows as -2147483648. *)
Theorem serwrite_decimal (v : Z) :
  (0 <= v < 2 ^ 32 -> serwrite_uint32 v = decimal v) /\
  (- 2 ^ 31 <= v < 2 ^ 31 ->
   serwrite_int32 v = (if v <? 0 then [chr "-"] else []) ++ decimal (Z.abs v)).
Proof. split; [apply uint32_numeral|apply int32_numeral]. Qed.

Lemma serwrite_decimal_witness :
  serwrite_uint32 4003002001 = bytes_of_string "4003002001" /\
  serwrite_int32 (- 2 ^ 31) = bytes_of_string "-2147483648".
Proof.
  split.
  - rewrite (proj1 (serwrite_decimal 4003002001)); [reflexivity|lia].
  - rewrite (proj2 (serwrite_decimal (- 2 ^ 31))); [reflexivity|lia].
Defined.

(** ** Hexadecimal output *)

Definition hex_digit_value (c : Z) : Z :=
  if c <? chr "A" then c - c0 else c - chr "A" + 10.

Definition hex_value (cs : list Z) : Z :=
  fold_left (fun a c => 16 * a + hex_digit_value c) cs 0.

Lemma hex_value_app a b : hex_value (a ++ b) = hex_value a * 16 ^ Z.of_nat (length b) + hex_value b.
Proof.
  induction b as [|c b IH] using rev_ind; [rewrite app_nil_r; unfold hex_value; simpl; lia|].
  rewrite app_assoc. unfold hex_value in *. rewrite !(fold_left_app _ _ [c]). simpl.
  rewrite IH, length_app, Nat2Z.inj_add, Z.pow_add_r by lia. simpl. lia.
Qed.

Lemma hex8_check :
  forallb (fun b => (hex_value (serwrite_hex8 b) =? b)
                    && (length (serwrite_hex8 b) =? 2)%nat) (seqZ 0 256) = true.
Proof. vm_compute. reflexivity. Qed.

Lemma hex8_value b :
  0 <= b < 256 -> hex_value (serwrite_hex8 b) = b /\ length (serwrite_hex8 b) = 2%nat.
Proof.
  intros Hb. pose proof hex8_check as H. rewrite forallb_forall in H.
  specialize (H b). rewrite <- list_elem_of_In, elem_of_seqZ in H.
  specialize (H ltac:(lia)). apply andb_true_iff in H as [H1 H2].
  split; [by apply Z.eqb_eq|by apply Nat.eqb_eq].
Qed.

Lemma land_ones_mod v k : 0 <= k -> Z.land v (Z.ones k) = v mod 2 ^ k.
Proof. apply Z.land_ones. Qed.

Lemma split_value v k : 0 <= k -> Z.shiftr v k * 2 ^ k + v mod 2 ^ k = v.
Proof.
  intros. rewrite Z.shiftr_div_pow2 by done.
  pose proof (Z.div_mod v (2 ^ k) ltac:(apply Z.pow_nonzero; lia)). lia.
Qed.

Lemma shiftr_bound v k n :
  0 <= k -> 0 <= n -> 0 <= v < 2 ^ (k + n) -> 0 <= Z.shiftr v k < 2 ^ n.
Proof.
  intros Hk Hn Hv. rewrite Z.shiftr_div_pow2 by done. rewrite Z.pow_add_r in Hv by done.
  split; [apply Z.div_pos; lia|apply Z.div_lt_upper_bound; lia].
Qed.

Lemma hex16_value v :
  0 <= v < 2 ^ 16 -> hex_value (serwrite_hex16 v) = v /\ length (serwrite_hex16 v) = 4%nat.
Proof.
  intros Hv. unfold serwrite_hex16. change 255 with (Z.ones 8). rewrite land_ones_mod by lia.
  pose proof (shiftr_bound v 8 8 ltac:(lia) ltac:(lia) Hv). rewrite u8_small by done.
  pose proof (Z.mod_pos_bound v (2 ^ 8) ltac:(lia)).
  destruct (hex8_value (Z.shiftr v 8)) as [E1 L1]; [lia|].
  destruct (hex8_value (v mod 2 ^ 8)) as [E2 L2]; [lia|].
  rewrite hex_value_app, length_app, E1, E2, L1, L2. split; [|done].
  pose proof (split_value v 8 ltac:(lia)). change (16 ^ Z.of_nat 2) with (2 ^ 8). lia.
Qed.

(** [serwrite_hex32] prints every 32-bit value as eight hexadecimal digits
    from which the value is read back. *)
Theorem serwrite_hex32_roundtrip (v : Z) (Hv : 0 <= v < 2 ^ 32) :
  hex_value (serwrite_hex32 v) = v /\ length (serwrite_hex32 v) = 8%nat.
Proof.
  unfold serwrite_hex32. change 65535 with (Z.ones 16). rewrite land_ones_mod by lia.
  pose proof (shiftr_bound v 16 16 ltac:(lia) ltac:(lia) Hv). rewrite u16_small by done.
  pose proof (Z.mod_pos_bound v (2 ^ 16) ltac:(lia)).
  destruct (hex16_value (Z.shiftr v 16)) as [E1 L1]; [lia|].
  destruct (hex16_value (v mod 2 ^ 16)) as [E2 L2]; [lia|].
  rewrite hex_value_app, length_app, E1, E2, L1, L2. split; [|done].
  pose proof (split_value v 16 ltac:(lia)). change (16 ^ Z.of_nat 4) with (2 ^ 16). lia.
Qed.

Lemma serwrite_hex32_roundtrip_witness :
  hex_value (serwrite_hex32 3735928559) = 3735928559.
Proof. apply (serwrite_hex32_roundtrip 3735928559). lia. Defined.

(** ** Doubles that are integers *)

Lemma dsub_self x : (forall s, x <> S754_infinity s) -> x <> S754_nan -> (forall s, x <> S754_zero s) ->
  dsub x x = d0.
Proof.
  intros Hi Hn Hz. destruct x as [s|s| |s m e]; [by destruct (Hz s)|by destruct (Hi s)|done|].
  unfold dsub, SFsub, shl_align. cbv zeta. rewrite Z.min_id, Z.sub_diag. cbn [fst].
  reflexivity.
Qed.

(** [serwrite_double] prints a non-negative integral double below 2^31 as
    its decimal numeral followed by [.000]. *)
Theorem serwrite_double_integer (n : Z) (Hn : 0 <= n < 2 ^ 31) :
  serwrite_double (d_of_Z n) = decimal n ++ bytes_of_string ".000".
Proof.
  assert (Hneg : dltb (d_of_Z n) d0 = false /\ dsub (d_of_Z n) (d_of_Z n) = d0).
  { destruct n as [|q|q]; [done| |lia].
    rewrite d_of_pos by (apply bits_53; lia). split; [done|].
    by apply dsub_self. }
  destruct Hneg as [Hneg Hsub]. unfold serwrite_double. rewrite Hneg.
  rewrite d2u32_of_Z, d2i32_of_Z, Hsub, uint32_numeral by lia. reflexivity.
Qed.

Lemma serwrite_double_integer_witness :
  serwrite_double (d_of_Z 150) = bytes_of_string "150.000".
Proof. rewrite serwrite_double_integer; [reflexivity|lia]. Defined.

(** ** Formats *)

(** Text without a percent sign is sent as it is. *)
Lemma sersendf_literal text rest args :
  Forall (fun c => c <> chr "%") text ->
  sersendf_loop (text ++ rest) 0 args = option_map (app text) (sersendf_loop rest 0 args).
Proof.
  induction 1 as [|c text Hc _ IH]; simpl; [by destruct (sersendf_loop rest 0 args)|].
  destruct (Z.eqb_spec c (chr "%")); [done|]. rewrite IH.
  by destruct (sersendf_loop rest 0 args).
Qed.

(** a doubled percent sign in a format prints nothing: [sersendf] treats
    the second sign as an unknown conversion and drops both characters. *)
Theorem sersendf_percent_percent (text rest : list Z) (args : list sarg)
  (Htext : Forall (fun c => c <> chr "%") text) :
  sersendf_loop (text ++ [chr "%"; chr "%"] ++ rest) 0 args
  = option_map (app text) (sersendf_loop rest 0 args).
Proof.
  rewrite sersendf_literal by done. f_equal. simpl.
  by destruct (sersendf_loop rest 0 args).
Qed.

Lemma sersendf_percent_percent_witness :
  sersendf "http%%3A//github.com" [] = Some (bytes_of_string "http3A//github.com").
Proof.
  pose proof (sersendf_percent_percent (bytes_of_string "http")
    (bytes_of_string "3A//github.com") []
    ltac:(repeat (constructor; [discriminate|]); constructor)) as H.
  vm_compute in H |- *. exact H.
Defined.

Section writestr.
Context {Q : Type} `{BoundedQueue Q}.

(** [serial_writestr] does not terminate on a string of 256 or more
    non-NUL characters: its 8-bit index wraps before the final NUL is
    reached, whatever the number of iterations. *)
Theorem serial_writestr_long_diverges (q : Q) (s : list Z) (fuel : nat)
  (Hnz : Forall (fun c => c <> 0) s) (Hlen : (256 <= length s)%nat) :
  serial_writestr_loop fuel (s ++ [0]) 0 q = None.
Proof. apply serial_writestr_loop_diverges; [done..|lia]. Qed.
End writestr.

Lemma serial_writestr_short_witness :
  serial_writestr {| usb_irq := true; ring := fifo_init (repeat 0 256) |} [111; 107; 13; 10]
  = Some (emit {| usb_irq := true; ring := fifo_init (repeat 0 256) |} [111; 107; 13; 10]).
Proof.
  apply (serial_writestr_short {| usb_irq := true; ring := fifo_init (repeat 0 256) |});
    [repeat (constructor; [discriminate|]); constructor|simpl; lia].
Defined.

Lemma serial_writestr_long_diverges_witness :
  serial_writestr_loop 1000 (repeat 65 256 ++ [0]) 0
    {| usb_irq := true; ring := fifo_init (repeat 0 256) |} = None.
Proof.
  apply (serial_writestr_long_diverges {| usb_irq := true; ring := fifo_init (repeat 0 256) |}
    (repeat 65 256)).
  - apply Forall_forall. intros c Hc%repeat_spec. subst. discriminate.
  - rewrite repeat_length. lia.
Defined.
