(* ===== verification/MotionTypes.v ===== *)
(** * Motion data types (libraries/grbl/inc/planner.h)

    The target of a move, the action request the G-code processor hands to the
    planner, and the block the planner hands to the stepper interrupt. *)

From S2P Require Import Prelude CDouble.

Inductive eActionType := AT_MOVE | AT_MOVE_ENDSTOP | AT_WAIT | AT_WAIT_TEMPS.

#[export] Instance eActionType_eq_dec : EqDecision eActionType.
Proof. solve_decision. Defined.

Record tTarget := mk_target {
  tx : double;
  ty : double;
  tz : double;
  te : double;
  feed_rate : double;
  invert_feed_rate : Z
}.

#[export] Instance eta_target : Eta tTarget := fun t =>
  mk_target (tx t) (ty t) (tz t) (te t) (feed_rate t) (invert_feed_rate t).

Definition zero_target : tTarget := mk_target d0 d0 d0 d0 d0 0.

(** The block: step counts and rates are 32-bit unsigned except
    [step_event_count] and [rate_delta], which are signed. *)
Record block_t := mk_block {
  action_type : eActionType;
  steps_x : Z;
  steps_y : Z;
  steps_z : Z;
  steps_e : Z;
  direction_bits : Z;
  step_event_count : Z;
  nominal_rate : Z;
  nominal_speed : double;
  entry_speed : double;
  max_entry_speed : double;
  millimeters : double;
  recalculate_flag : bool;
  nominal_length_flag : bool;
  initial_rate : Z;
  final_rate : Z;
  rate_delta : Z;
  accelerate_until : Z;
  decelerate_after : Z;
  check_endstops : bool
}.

#[export] Instance eta_block : Eta block_t := fun b =>
  mk_block (action_type b) (steps_x b) (steps_y b) (steps_z b) (steps_e b)
    (direction_bits b) (step_event_count b) (nominal_rate b) (nominal_speed b)
    (entry_speed b) (max_entry_speed b) (millimeters b) (recalculate_flag b)
    (nominal_length_flag b) (initial_rate b) (final_rate b) (rate_delta b)
    (accelerate_until b) (decelerate_after b) (check_endstops b).

(** A block of the zero-initialised static buffer. *)
Definition zero_block : block_t :=
  mk_block AT_MOVE 0 0 0 0 0 0 0 d0 d0 d0 d0 false false 0 0 0 0 0 false.

Record tActionRequest := mk_request {
  ActionType : eActionType;
  target : tTarget
}.

#[export] Instance eta_request : Eta tActionRequest := fun r =>
  mk_request (ActionType r) (target r).
