(* ===== verification/GcodeParse.v ===== *)
(** * The G-code line parser (libraries/Mendel/src/gcode_parse.c)

    [gcode_parse_char] is the character machine, [gcode_parse_line] the line
    discipline around it: checksum test, capture to the SD file, command
    execution, reset.  The command processor and the SD file are reached
    through the interface [Backend].  A write past the end of [filename] is the
    result [None]. *)

From Stdlib Require Import SpecFloat.
From S2P Require Import Prelude CDouble SerialFifo SerMsg MotionTypes.

(** ** Data *)

Record GCODE_COMMAND := mk_gcode {
  seen_G : bool;
  seen_M : bool;
  seen_X : bool;
  seen_Y : bool;
  seen_Z : bool;
  seen_E : bool;
  seen_F : bool;
  seen_S : bool;
  seen_P : bool;
  seen_N : bool;
  seen_checksum : bool;
  seen_semi_comment : bool;
  seen_parens_comment : bool;
  getting_string : bool;
  option_relative : bool;
  option_inches : bool;
  gG : Z;
  gM : Z;
  gtarget : tTarget;
  gS : Z;
  gP : Z;
  gN : Z;
  N_expected : Z;
  checksum_read : Z;
  checksum_calculated : Z;
  chpos : Z;
  filename : list Z
}.

#[export] Instance eta_gcode : Eta GCODE_COMMAND := fun c =>
  mk_gcode (seen_G c) (seen_M c) (seen_X c) (seen_Y c) (seen_Z c) (seen_E c)
    (seen_F c) (seen_S c) (seen_P c) (seen_N c) (seen_checksum c)
    (seen_semi_comment c) (seen_parens_comment c) (getting_string c)
    (option_relative c) (option_inches c) (gG c) (gM c) (gtarget c) (gS c) (gP c)
    (gN c) (N_expected c) (checksum_read c) (checksum_calculated c) (chpos c)
    (filename c).

Definition MAX_LINE : Z := 120.
Definition FILENAME_SIZE : Z := 120.

Record tLineBuffer := mk_line { data : list Z; len : Z; seen_lf : bool }.
#[export] Instance eta_line : Eta tLineBuffer := fun l =>
  mk_line (data l) (len l) (seen_lf l).

Inductive eParseResult := PR_OK | PR_RESEND | PR_ERROR | PR_BUSY.

(** The parser's static variables: [read_digit] is the sign and exponent of
    the number being read, [value] its magnitude so far. *)
Record parser := mk_parser {
  next_target : GCODE_COMMAND;
  last_field : Z;
  rd_sign : bool;
  rd_exponent : Z;
  value : double
}.
#[export] Instance eta_parser : Eta parser := fun p =>
  mk_parser (next_target p) (last_field p) (rd_sign p) (rd_exponent p) (value p).

(** The zero-initialised globals. *)
Definition gcode_zero : GCODE_COMMAND :=
  mk_gcode false false false false false false false false false false false false
    false false false false 0 0 zero_target 0 0 0 0 0 0 0 (repeat 0 120).
Definition parser_zero : parser := mk_parser gcode_zero 0 false 0 d0.

(** ** Numeric helpers *)

Definition crc (a b : Z) : Z := Z.lxor a b.

(** [while (exp--) result = result * x], for a non-negative exponent. *)
Definition power (x : double) (exp : Z) : double :=
  Nat.iter (Z.to_nat exp) (fun result => dmul result x) d1.

Definition inch_to_mm (inches : double) : double := dmul inches (d_lit 254 10).

(** ** The character machine *)

Definition upcase (c : Z) : Z :=
  if (chr "a" <=? c) && (c <=? chr "z") then Z.land c (255 - 32) else c.

Definition is_upper (c : Z) : bool := (chr "A" <=? c) && (c <=? chr "Z").

(** The characters that end the field being read. *)
Definition ends_field (c : Z) : bool :=
  is_upper c || (c =? chr "*") || (c =? 10) || (c =? 13).

(** The [switch (last_field)] that stores the finished number [v]. *)
Definition store_field (field : Z) (v : double) (g : GCODE_COMMAND) : GCODE_COMMAND :=
  let mm := if option_inches g then inch_to_mm v else v in
  if field =? chr "G" then g <| gG := d2u8 v |>
  else if field =? chr "M" then
    let g := g <| gM := d2u16 v |> in
    if (gM g =? 23) || (gM g =? 28) then g <| getting_string := true |> else g
  else if field =? chr "X" then g <| gtarget := (gtarget g) <| tx := mm |> |>
  else if field =? chr "Y" then g <| gtarget := (gtarget g) <| ty := mm |> |>
  else if field =? chr "Z" then g <| gtarget := (gtarget g) <| tz := mm |> |>
  else if field =? chr "E" then g <| gtarget := (gtarget g) <| te := mm |> |>
  else if field =? chr "F" then g <| gtarget := (gtarget g) <| feed_rate := mm |> |>
  else if field =? chr "S" then g <| gS := d2i16 v |>
  else if field =? chr "P" then
    if gG g =? 4 then g <| gP := d2u16 (dmul v (d_of_Z 1000)) |>
    else g <| gP := d2u16 v |>
  else if field =? chr "N" then g <| gN := d2u32 v |>
  else if field =? chr "*" then g <| checksum_read := d2u8 v |>
  else g.

(** Process the previous field when a new one, or the end of line, is seen. *)
Definition end_field (c : Z) (p : parser) : parser :=
  if negb (last_field p =? 0) && ends_field c then
    let v := if rd_sign p then dopp (value p) else value p in
    {| next_target := store_field (last_field p) v (next_target p);
       last_field := 0; rd_sign := false; rd_exponent := 0; value := d0 |}
  else p.

(** Characters of a file name.  The terminator is written after the character;
    the bound is tested before the increment. *)
Definition collect_string (c : Z) (g : GCODE_COMMAND) : option GCODE_COMMAND :=
  if getting_string g then
    if (c =? 10) || (c =? 13) || (c =? chr " ") || (c =? chr "*") then
      Some (g <| getting_string := false |>)
    else if chpos g <? FILENAME_SIZE then
      let pos := u8 (chpos g + 1) in
      if pos <? FILENAME_SIZE then
        Some (g <| filename := <[Z.to_nat pos := 0]> (<[Z.to_nat (chpos g) := c]> (filename g)) |>
                <| chpos := pos |>)
      else None
    else Some g
  else Some g.

(** The [switch (c)] on a character outside comments and file names. *)
Definition scan_digit (c : Z) (p : parser) : parser :=
  if (chr "0" <=? c) && (c <=? chr "9") then
    let d := d_of_Z (c - chr "0") in
    let v := if rd_exponent p =? 0 then dadd (dmul (value p) (d_of_Z 10)) d
             else dadd (value p) (ddiv d (power (d_of_Z 10) (rd_exponent p))) in
    let p := p <| value := v |> in
    if negb (rd_exponent p =? 0) then p <| rd_exponent ::= Z.add 1 |> else p
  else p.

Definition scan_char (c : Z) (p : parser) : parser :=
  let g := next_target p in
  if c =? chr "G" then
    p <| next_target := g <| seen_G := true |> <| seen_M := false |> <| gM := 0 |> |>
  else if c =? chr "M" then
    p <| next_target := g <| seen_M := true |> <| seen_G := false |> <| gG := 0 |> |>
  else if c =? chr "X" then p <| next_target := g <| seen_X := true |> |>
  else if c =? chr "Y" then p <| next_target := g <| seen_Y := true |> |>
  else if c =? chr "Z" then p <| next_target := g <| seen_Z := true |> |>
  else if c =? chr "E" then p <| next_target := g <| seen_E := true |> |>
  else if c =? chr "F" then p <| next_target := g <| seen_F := true |> |>
  else if c =? chr "S" then p <| next_target := g <| seen_S := true |> |>
  else if c =? chr "P" then p <| next_target := g <| seen_P := true |> |>
  else if c =? chr "N" then p <| next_target := g <| seen_N := true |> |>
  else if c =? chr "*" then p <| next_target := g <| seen_checksum := true |> |>
  else if (c =? chr ";") || (c =? chr "^") then
    p <| next_target := g <| seen_semi_comment := true |> |>
  else if c =? chr "(" then p <| next_target := g <| seen_parens_comment := true |> |>
  else if c =? chr "-" then p <| rd_sign := true |> <| rd_exponent := 0 |>
  else if c =? chr "." then
    if rd_exponent p =? 0 then p <| rd_exponent := 1 |> else p
  else scan_digit c p.

(** Skip comments and file names, or scan the character. *)
Definition scan_or_skip (c : Z) (p : parser) : parser :=
  let g := next_target p in
  if negb (seen_semi_comment g) && negb (seen_parens_comment g) && negb (getting_string g) then
    let p := if is_upper c || (c =? chr "*") then p <| last_field := c |> else p in
    scan_char c p
  else if seen_parens_comment g && (c =? chr ")") then
    p <| next_target := g <| seen_parens_comment := false |> |>
  else p.

(** The checksum covers every raw character up to the asterisk. *)
Definition add_checksum (ch : Z) (p : parser) : parser :=
  let g := next_target p in
  if seen_checksum g then p
  else p <| next_target := g <| checksum_calculated := crc (checksum_calculated g) ch |> |>.

Definition gcode_parse_char (p : parser) (ch : Z) : option parser :=
  let c := upcase ch in
  let p := end_field c p in
  match collect_string c (next_target p) with
  | None => None
  | Some g => Some (add_checksum ch (scan_or_skip c (p <| next_target := g |>)))
  end.

Fixpoint gcode_parse_chars (p : parser) (cs : list Z) : option parser :=
  match cs with
  | [] => Some p
  | c :: cs =>
      match gcode_parse_char p c with
      | None => None
      | Some p => gcode_parse_chars p cs
      end
  end.

(** ** The line discipline *)

(** What the parser needs of the rest of the firmware: the reply channel, the
    SD file being written, and the command processor. *)
Class Backend (W : Type) := {
  be_send : W -> list Z -> W;
  be_sd_writing : W -> bool;
  be_sd_stop_writing : W -> W;
  be_sd_write : W -> list Z -> bool * W;
  be_process : GCODE_COMMAND -> W -> option (eParseResult * GCODE_COMMAND * W)
}.

(** The assignments after every line. *)
Definition reset_line (p : parser) : parser :=
  let g := (next_target p)
    <| seen_X := false |> <| seen_Y := false |> <| seen_Z := false |>
    <| seen_E := false |> <| seen_F := false |> <| seen_S := false |>
    <| seen_P := false |> <| seen_N := false |> <| seen_M := false |>
    <| seen_checksum := false |> <| seen_semi_comment := false |>
    <| seen_parens_comment := false |> <| checksum_read := 0 |>
    <| checksum_calculated := 0 |> <| chpos := 0 |>
    <| seen_G := false |> <| gG := 0 |> in
  let g :=
    if option_relative g then
      g <| gtarget := (gtarget g) <| tx := d0 |> <| ty := d0 |> <| tz := d0 |> <| te := d0 |> |>
    else g in
  {| next_target := g; last_field := 0; rd_sign := false; rd_exponent := 0; value := d0 |}.

Definition checksum_ok (g : GCODE_COMMAND) : bool :=
  (checksum_calculated g =? checksum_read g) || negb (seen_checksum g).

Definition crlf : list Z := [13; 10].

(** [serwrite_uint8] is a macro for the 32-bit writer. *)
Definition request_resend (g : GCODE_COMMAND) : list Z :=
  bytes_of_string "rs " ++ serwrite_uint32 (gN g) ++ crlf.

(** [pLine->data[pLine->len-1] = 10] when it is 13. *)
Definition fix_line_end (l : tLineBuffer) : option tLineBuffer :=
  match data l !! Z.to_nat (len l - 1) with
  | None => None
  | Some c =>
      if len l <? 1 then None
      else Some (if c =? 13 then l <| data ::= <[Z.to_nat (len l - 1) := 10]> |> else l)
  end.

Section line.
Context {W : Type} `{Backend W}.

(** While a file is being written, lines go to the file instead of being
    executed; M20 to M29 are recognised. *)
Definition capture_line (g : GCODE_COMMAND) (l : tLineBuffer) (w : W)
  : option (tLineBuffer * W) :=
  if seen_M g && (20 <=? gM g) && (gM g <=? 29) then
    if seen_M g && (gM g =? 29) then
      Some (l, be_send (be_sd_stop_writing w) (bytes_of_string "Done saving file" ++ crlf))
    else Some (l, be_send w (bytes_of_string "ok" ++ crlf))
  else
    match fix_line_end l with
    | None => None
    | Some l =>
        let '(ok, w) := be_sd_write w (take (Z.to_nat (len l)) (data l)) in
        Some (l, if ok then be_send w (bytes_of_string "ok" ++ crlf)
                 else be_send w (bytes_of_string "error writing to file" ++ crlf))
    end.

Definition execute_line (g : GCODE_COMMAND) (w : W)
  : option (eParseResult * GCODE_COMMAND * W) :=
  match be_process g w with
  | None => None
  | Some (r, g, w) =>
      Some (r, if seen_N g then g <| N_expected := u32 (gN g + 1) |> else g, w)
  end.

Definition gcode_parse_line (p : parser) (l : tLineBuffer) (w : W)
  : option (eParseResult * parser * tLineBuffer * W) :=
  match gcode_parse_chars p (take (Z.to_nat (len l)) (data l)) with
  | None => None
  | Some p =>
      let g := next_target p in
      if checksum_ok g then
        if be_sd_writing w then
          match capture_line g l w with
          | None => None
          | Some (l, w) => Some (PR_OK, reset_line p, l, w)
          end
        else
          match execute_line g w with
          | None => None
          | Some (r, g, w) => Some (r, reset_line (p <| next_target := g |>), l, w)
          end
      else
        let w := be_send w (bytes_of_string "Expected checksum "
                            ++ serwrite_uint32 (checksum_calculated g) ++ crlf) in
        Some (PR_OK, reset_line p, l, be_send w (request_resend g))
  end.
End line.

(** ** Frame properties of the character machine *)

Ltac split_ifs := repeat case_bool.

(** What storing a number and scanning a character leave alone. *)
Record same_line_state (g g' : GCODE_COMMAND) : Prop := {
  sls_checksum : seen_checksum g' = seen_checksum g;
  sls_calc : checksum_calculated g' = checksum_calculated g;
  sls_semi : seen_semi_comment g' = seen_semi_comment g;
  sls_parens : seen_parens_comment g' = seen_parens_comment g;
  sls_chpos : chpos g' = chpos g
}.

Lemma store_field_frame field v g : same_line_state g (store_field field v g).
Proof. unfold store_field. split_ifs; split; reflexivity. Qed.

Lemma end_field_frame c p :
  same_line_state (next_target p) (next_target (end_field c p)).
Proof. unfold end_field. case_bool; [apply store_field_frame|split; done]. Qed.

Lemma collect_string_frame c g g' :
  collect_string c g = Some g' ->
  seen_checksum g' = seen_checksum g /\
  checksum_calculated g' = checksum_calculated g /\
  seen_semi_comment g' = seen_semi_comment g /\
  seen_parens_comment g' = seen_parens_comment g /\
  (getting_string g = false -> g' = g).
Proof.
  unfold collect_string. split_ifs; intros Heq; try discriminate;
    injection Heq as <-; simpl; repeat split; done.
Qed.

Lemma scan_char_checksum c p :
  checksum_calculated (next_target (scan_char c p)) = checksum_calculated (next_target p) /\
  chpos (next_target (scan_char c p)) = chpos (next_target p) /\
  seen_checksum (next_target (scan_char c p))
  = (c =? chr "*") || seen_checksum (next_target p).
Proof.
  unfold scan_char, scan_digit. destruct (c =? chr "*") eqn:Es.
  - apply Z.eqb_eq in Es. subst c. vm_compute (_ =? _). simpl. done.
  - split_ifs; simpl; done.
Qed.

Lemma scan_or_skip_checksum c p :
  let p' := scan_or_skip c p in
  checksum_calculated (next_target p') = checksum_calculated (next_target p) /\
  chpos (next_target p') = chpos (next_target p) /\
  (seen_checksum (next_target p') = seen_checksum (next_target p) \/
   (c = chr "*" /\ seen_checksum (next_target p') = true)).
Proof.
  unfold scan_or_skip. cbv zeta.
  destruct (negb _ && negb _ && negb _).
  - set (q := if is_upper c || (c =? chr "*") then p <| last_field := c |> else p).
    assert (Hq : next_target q = next_target p) by (unfold q; by case_bool).
    destruct (scan_char_checksum c q) as (-> & -> & ->). rewrite Hq.
    split; [done|]. split; [done|].
    destruct (Z.eqb_spec c (chr "*")); simpl; auto.
  - case_bool; simpl; auto.
Qed.

Lemma upcase_star ch : upcase ch = chr "*" -> ch = chr "*".
Proof.
  unfold upcase. destruct ((chr "a" <=? ch) && (ch <=? chr "z")) eqn:E; [|done].
  apply andb_true_iff in E as [E1 E2]. apply Z.leb_le in E1, E2.
  change (chr "a") with 97 in *. change (chr "z") with 122 in *. intros H. exfalso.
  assert (Hr : Z.land ch (255 - 32) = ch - 32).
  { assert (forallb (fun x => Z.land x (255 - 32) =? x - 32) (seqZ 97 26) = true) as Hall
      by reflexivity.
    rewrite forallb_forall in Hall. specialize (Hall ch).
    rewrite <- list_elem_of_In, elem_of_seqZ, Z.eqb_eq in Hall. apply Hall. lia. }
  rewrite Hr in H. change (chr "*") with 42 in H. lia.
Qed.

(** One character either extends the checksum or is the asterisk. *)
Lemma parse_char_checksum p ch p' :
  gcode_parse_char p ch = Some p' ->
  (seen_checksum (next_target p) = true ->
     seen_checksum (next_target p') = true /\
     checksum_calculated (next_target p') = checksum_calculated (next_target p)) /\
  (seen_checksum (next_target p) = false ->
     (seen_checksum (next_target p') = false /\
      checksum_calculated (next_target p') = Z.lxor (checksum_calculated (next_target p)) ch) \/
     (ch = chr "*" /\ seen_checksum (next_target p') = true /\
      checksum_calculated (next_target p') = checksum_calculated (next_target p))).
Proof.
  unfold gcode_parse_char. set (c := upcase ch). cbv zeta.
  pose proof (end_field_frame c p) as [Hs1 Hc1 _ _ _].
  destruct (collect_string c (next_target (end_field c p))) as [g|] eqn:Ecol; [|done].
  apply collect_string_frame in Ecol as (Hs2 & Hc2 & _).
  intros Heq. injection Heq as <-.
  match goal with |- context [scan_or_skip c ?x] => set (q := x) end.
  pose proof (scan_or_skip_checksum c q) as (Hc3 & _ & Hs3).
  assert (Hqs : seen_checksum (next_target q) = seen_checksum (next_target p)) by (simpl; congruence).
  assert (Hqc : checksum_calculated (next_target q) = checksum_calculated (next_target p))
    by (simpl; congruence).
  unfold add_checksum.
  destruct (seen_checksum (next_target (scan_or_skip c q))) eqn:Es.
  - split; [intros _; rewrite ?Es, Hc3, Hqc; done|].
    intros Hf. right. rewrite ?Es, Hc3, Hqc. destruct Hs3 as [Hs3|[Hstar _]]; [congruence|].
    split; [by apply upcase_star|done].
  - split; [intros Ht; destruct Hs3 as [Hs3|[_ Hs3]]; congruence|].
    intros _. left. simpl. rewrite ?Es, Hc3, Hqc. done.
Qed.

Definition xor_all (acc : Z) (cs : list Z) : Z := fold_left Z.lxor cs acc.

(** C33: the checksum of a line is the exclusive or of its characters up to,
    and not including, the first asterisk that is taken as a checksum marker;
    characters after it do not change it. *)
Theorem checksum_is_xor (p p' : parser) (cs : list Z)
  (Hstart : seen_checksum (next_target p) = false)
  (Hrun : gcode_parse_chars p cs = Some p') :
  if seen_checksum (next_target p') then
    exists body rest, cs = body ++ chr "*" :: rest /\
      checksum_calculated (next_target p')
      = xor_all (checksum_calculated (next_target p)) body
  else
    checksum_calculated (next_target p')
    = xor_all (checksum_calculated (next_target p)) cs.
Proof.
  assert (Hafter : forall cs q q', seen_checksum (next_target q) = true ->
    gcode_parse_chars q cs = Some q' ->
    seen_checksum (next_target q') = true /\
    checksum_calculated (next_target q') = checksum_calculated (next_target q)).
  { clear. induction cs as [|c cs IH]; intros q q' Hs Hrun; simpl in Hrun; [by inversion Hrun; subst|].
    destruct (gcode_parse_char q c) as [q1|] eqn:Ec; [|done].
    apply parse_char_checksum in Ec as [Ht _]. destruct (Ht Hs) as [Hs1 Hc1].
    destruct (IH q1 q' Hs1 Hrun) as [? ?]. split; congruence. }
  revert p Hstart Hrun. induction cs as [|c cs IH]; intros p Hstart Hrun; simpl in Hrun.
  - injection Hrun as <-. rewrite Hstart. done.
  - destruct (gcode_parse_char p c) as [p1|] eqn:Ec; [|done].
    apply parse_char_checksum in Ec as [_ Hf].
    destruct (Hf Hstart) as [[Hs1 Hc1]|(-> & Hs1 & Hc1)].
    + specialize (IH p1 Hs1 Hrun). rewrite Hc1 in IH.
      destruct (seen_checksum (next_target p')); [|done].
      destruct IH as (body & rest & -> & Heq). exists (c :: body), rest. done.
    + destruct (Hafter cs p1 p' Hs1 Hrun) as [-> ->]. exists [], cs. done.
Qed.

Lemma checksum_is_xor_witness :
  exists p', gcode_parse_chars parser_zero (bytes_of_string "N7 G1 X2*5") = Some p' /\
    checksum_calculated (next_target p') = xor_all 0 (bytes_of_string "N7 G1 X2").
Proof.
  destruct (gcode_parse_chars parser_zero (bytes_of_string "N7 G1 X2*5")) as [p'|] eqn:E;
    [|vm_compute in E; discriminate].
  exists p'. split; [done|].
  pose proof (checksum_is_xor parser_zero p' _ eq_refl E) as H.
  vm_compute in E. injection E as <-. vm_compute in H |- *. reflexivity.
Defined.

(** ** Numbers *)

(** The parser is reading text, not a comment or a file name. *)
Definition scanning (g : GCODE_COMMAND) : bool :=
  negb (seen_semi_comment g) && negb (seen_parens_comment g) && negb (getting_string g).

Lemma scanning_inv g :
  scanning g = true ->
  seen_semi_comment g = false /\ seen_parens_comment g = false /\ getting_string g = false.
Proof.
  unfold scanning. destruct (seen_semi_comment g), (seen_parens_comment g), (getting_string g);
    done.
Qed.

(** The parser after a whole run of digits of a number without a point. *)
Definition with_number (p : parser) (n : Z) (cs : list Z) : parser :=
  let g := next_target p in
  p <| value := d_of_Z n |>
    <| next_target :=
         (if seen_checksum g then g
          else g <| checksum_calculated := xor_all (checksum_calculated g) cs |>) |>.

Lemma digit_range c : is_digit c = true -> 48 <= c <= 57.
Proof. unfold is_digit. change c0 with 48. lia. Qed.

Lemma digit_upcase c : 48 <= c <= 57 -> upcase c = c.
Proof.
  intros. unfold upcase. change (chr "a") with 97.
  destruct (Z.leb_spec 97 c); [lia|done].
Qed.

(** A digit is none of the characters of the switch. *)
Lemma scan_char_digit c p : 48 <= c <= 57 -> scan_char c p = scan_digit c p.
Proof.
  intros Hc. unfold scan_char.
  repeat match goal with
  | |- context [c =? chr ?s] =>
      let v := eval vm_compute in (chr s) in
      change (chr s) with v; rewrite (proj2 (Z.eqb_neq c v)) by lia; cbv iota
  end. done.
Qed.

Lemma digit_no_field c : 48 <= c <= 57 -> is_upper c || (c =? chr "*") = false.
Proof.
  intros. unfold is_upper. change (chr "A") with 65. change (chr "*") with 42.
  destruct (Z.leb_spec 65 c), (Z.eqb_spec c 42); [lia..|done].
Qed.

Lemma digit_no_end c : 48 <= c <= 57 -> ends_field c = false.
Proof.
  intros. unfold ends_field. rewrite digit_no_field by done.
  rewrite (proj2 (Z.eqb_neq c 10)), (proj2 (Z.eqb_neq c 13)) by lia. done.
Qed.

Lemma parse_digit p c n :
  scanning (next_target p) = true -> rd_exponent p = 0 -> value p = d_of_Z n ->
  0 <= n -> 48 <= c <= 57 -> 10 * n + (c - 48) < 2 ^ 53 ->
  gcode_parse_char p c = Some (with_number p (10 * n + (c - c0)) [c]).
Proof.
  intros Hsc He Hv Hn Hc Hb.
  destruct (scanning_inv _ Hsc) as (Hs1 & Hs2 & Hs3).
  unfold gcode_parse_char. rewrite digit_upcase by done. cbv zeta.
  unfold end_field. rewrite digit_no_end, andb_false_r by done.
  unfold collect_string. rewrite Hs3. f_equal.
  unfold scan_or_skip. cbv zeta. cbn [next_target update updater]. rewrite Hs1, Hs2, Hs3.
  cbn [negb andb]. rewrite digit_no_field, scan_char_digit by done.
  unfold scan_digit. change (chr "0") with 48. change (chr "9") with 57.
  destruct (Z.leb_spec 48 c), (Z.leb_spec c 57); [|lia..]. cbn [andb].
  cbn [rd_exponent value update updater]. rewrite He. cbn [Z.eqb negb].
  rewrite Hv, dmul_exact, dadd_exact by lia.
  replace (n * 10 + (c - 48)) with (10 * n + (c - c0)) by (change c0 with 48; lia).
  unfold add_checksum, with_number. cbn [next_target update updater].
  destruct p as [g lf sg ex v]. simpl in *. subst ex.
  destruct (seen_checksum g); done.
Qed.

Lemma with_number_with_number p n cs m ds :
  with_number (with_number p n cs) m ds = with_number p m (cs ++ ds).
Proof.
  unfold with_number, xor_all. destruct p as [g lf sg ex v]. simpl.
  destruct (seen_checksum g) eqn:E; simpl; rewrite ?E; [done|].
  by rewrite fold_left_app.
Qed.

Lemma with_number_frame p n cs :
  last_field (with_number p n cs) = last_field p /\
  rd_sign (with_number p n cs) = rd_sign p /\
  rd_exponent (with_number p n cs) = rd_exponent p /\
  value (with_number p n cs) = d_of_Z n /\
  scanning (next_target (with_number p n cs)) = scanning (next_target p) /\
  seen_checksum (next_target (with_number p n cs)) = seen_checksum (next_target p).
Proof.
  unfold with_number. simpl. destruct (seen_checksum (next_target p)) eqn:E; simpl;
    rewrite ?E; done.
Qed.

Lemma fold_dec_ge n ds :
  0 <= n -> Forall (fun c => is_digit c = true) ds ->
  n <= fold_left (fun a c => 10 * a + (c - c0)) ds n.
Proof.
  intros Hn Hds. revert n Hn. induction Hds as [|d ds Hd Hds IH]; intros n Hn; simpl; [lia|].
  apply digit_range in Hd. change c0 with 48 in *.
  specialize (IH (10 * n + (d - 48)) ltac:(lia)). lia.
Qed.

(** Reading digits computes the decimal value exactly, below 2^53. *)
Lemma parse_digits ds : forall p n,
  scanning (next_target p) = true -> rd_exponent p = 0 -> value p = d_of_Z n -> 0 <= n ->
  Forall (fun c => is_digit c = true) ds ->
  fold_left (fun a c => 10 * a + (c - c0)) ds n < 2 ^ 53 ->
  gcode_parse_chars p ds
  = Some (match ds with
          | [] => p
          | _ => with_number p (fold_left (fun a c => 10 * a + (c - c0)) ds n) ds
          end).
Proof.
  induction ds as [|d ds IH]; intros p n Hsc He Hv Hn Hds Hb; [done|].
  apply Forall_cons_1 in Hds as [Hd Hds]. apply digit_range in Hd as Hd'.
  cbn [fold_left] in *. change c0 with 48 in Hb.
  pose proof (fold_dec_ge (10 * n + (d - 48)) ds ltac:(lia) Hds) as Hge.
  change c0 with 48 in Hge.
  cbn [gcode_parse_chars]. rewrite (parse_digit p d n) by (done || lia).
  set (q := with_number p (10 * n + (d - c0)) [d]).
  destruct (with_number_frame p (10 * n + (d - c0)) [d]) as (_ & _ & Hqe & Hqv & Hqs & _).
  change c0 with 48 in *.
  rewrite (IH q (10 * n + (d - 48)) (eq_trans Hqs Hsc) (eq_trans Hqe He) Hqv ltac:(lia) Hds Hb).
  destruct ds as [|d' ds']; [done|]. f_equal. apply with_number_with_number.
Qed.

(** ** Whole fields *)

(** Between fields: no number pending. *)
Definition ready (p : parser) : Prop :=
  last_field p = 0 /\ rd_sign p = false /\ rd_exponent p = 0 /\ value p = d0 /\
  scanning (next_target p) = true.

Lemma end_of_line_char p :
  scanning (next_target p) = true ->
  getting_string (next_target (end_field 10 p)) = false ->
  gcode_parse_char p 10 = Some (add_checksum 10 (end_field 10 p)).
Proof.
  intros Hsc Hg. destruct (scanning_inv _ Hsc) as (H1 & H2 & _).
  unfold gcode_parse_char. change (upcase 10) with 10. cbv zeta.
  unfold collect_string. rewrite Hg. do 2 f_equal.
  pose proof (end_field_frame 10 p) as [_ _ Hs Hp _].
  set (q := end_field 10 p) in *.
  assert (q <| next_target := next_target q |> = q) as -> by (by destruct q).
  unfold scan_or_skip. cbv zeta. rewrite Hs, Hp, H1, H2, Hg. cbn [negb andb].
  destruct q. reflexivity.
Qed.

(** The field letters that take a number and do not open a file name. *)
Definition number_field (L : Z) : bool :=
  existsb (Z.eqb L) (map chr ["G"; "X"; "Y"; "Z"; "E"; "F"; "S"; "P"; "N"]%string).

Lemma number_field_cases L :
  number_field L = true ->
  L = chr "G" \/ L = chr "X" \/ L = chr "Y" \/ L = chr "Z" \/ L = chr "E" \/
  L = chr "F" \/ L = chr "S" \/ L = chr "P" \/ L = chr "N".
Proof.
  unfold number_field. simpl. rewrite !orb_true_iff, !Z.eqb_eq. intuition congruence.
Qed.

Ltac field_cases HL :=
  apply number_field_cases in HL; repeat (destruct HL as [HL|HL]); subst.

(** Decide the comparisons of character constants. *)
Ltac chr_eqs :=
  repeat match goal with
  | |- context [chr ?a =? chr ?b] =>
      let v := eval vm_compute in (chr a =? chr b) in
      change (chr a =? chr b) with v
  end; cbn [orb andb negb]; cbv iota.

(** What a letter does before its number is read. *)
Definition open_field (L : Z) (p : parser) : parser :=
  add_checksum L (scan_char L (p <| last_field := L |>)).

(** What reading a letter does not change. *)
Definition same_number (p q : parser) : Prop :=
  last_field q = last_field p /\ rd_sign q = rd_sign p /\ rd_exponent q = rd_exponent p /\
  value q = value p /\ scanning (next_target q) = scanning (next_target p).

Lemma scan_char_letter c p : is_upper c = true -> same_number p (scan_char c p).
Proof.
  unfold is_upper. change (chr "A") with 65. change (chr "Z") with 90.
  intros [H1 H2]%andb_true_iff. apply Z.leb_le in H1, H2.
  unfold scan_char.
  rewrite (proj2 (Z.eqb_neq c (chr ";"))), (proj2 (Z.eqb_neq c (chr "^"))),
    (proj2 (Z.eqb_neq c (chr "("))), (proj2 (Z.eqb_neq c (chr "-"))),
    (proj2 (Z.eqb_neq c (chr "."))) by (vm_compute (chr _); lia).
  cbn [orb]. unfold scan_digit. change (chr "0") with 48. change (chr "9") with 57.
  rewrite (proj2 (Z.leb_gt c 57)), andb_false_r by lia.
  split_ifs; repeat split; reflexivity.
Qed.

Lemma add_checksum_number ch p : same_number p (add_checksum ch p).
Proof. unfold add_checksum. cbv zeta. case_bool; repeat split; reflexivity. Qed.

Lemma number_field_upper L :
  number_field L = true -> upcase L = L /\ is_upper L = true /\ (L =? 0) = false.
Proof. intros HL. field_cases HL; repeat split; reflexivity. Qed.

Lemma parse_letter p L :
  ready p -> number_field L = true ->
  gcode_parse_char p L = Some (open_field L p) /\
  same_number (p <| last_field := L |>) (open_field L p).
Proof.
  intros (Hl & _ & _ & _ & Hsc) HL.
  destruct (scanning_inv _ Hsc) as (H1 & H2 & H3).
  destruct (number_field_upper L HL) as (Hup & HuL & _). split.
  - unfold gcode_parse_char. rewrite Hup. cbv zeta.
    unfold end_field. rewrite Hl. cbn [Z.eqb negb andb].
    unfold collect_string. rewrite H3.
    assert (p <| next_target := next_target p |> = p) as -> by (by destruct p).
    unfold scan_or_skip. cbv zeta. rewrite H1, H2, H3, HuL. done.
  - unfold open_field.
    destruct (scan_char_letter L (p <| last_field := L |>) HuL) as (E1 & E2 & E3 & E4 & E5).
    destruct (add_checksum_number L (scan_char L (p <| last_field := L |>)))
      as (F1 & F2 & F3 & F4 & F5).
    unfold same_number. rewrite F1, F2, F3, F4, F5. done.
Qed.

(** The state after a pending field [q] has received a number and been ended. *)
Definition field_done (q : parser) (n : Z) : parser :=
  add_checksum 10
    {| next_target := store_field (last_field q) (d_of_Z n)
                        (next_target (with_number q n (decimal n)));
       last_field := 0; rd_sign := false; rd_exponent := 0; value := d0 |}.

Lemma gcode_parse_chars_app p cs ds :
  gcode_parse_chars p (cs ++ ds)
  = match gcode_parse_chars p cs with Some q => gcode_parse_chars q ds | None => None end.
Proof.
  revert p. induction cs as [|c cs IH]; intros p; simpl; [done|].
  destruct (gcode_parse_char p c); [apply IH|done].
Qed.

Lemma decimal_nonempty n : decimal n <> [].
Proof.
  unfold decimal. cbn [decimal_upto]. case_bool; [done|].
  intros Hnil. apply app_eq_nil in Hnil as [_ ?]. done.
Qed.

Lemma store_field_getting L v g :
  L <> chr "M" -> getting_string (store_field L v g) = getting_string g.
Proof.
  intros HL. unfold store_field. rewrite (proj2 (Z.eqb_neq L (chr "M")) HL).
  split_ifs; reflexivity.
Qed.

Lemma parse_number_end q n :
  last_field q <> 0 -> last_field q <> chr "M" -> rd_sign q = false -> rd_exponent q = 0 ->
  value q = d0 -> scanning (next_target q) = true -> 0 <= n < 10 ^ 10 ->
  gcode_parse_chars q (decimal n ++ [10]) = Some (field_done q n).
Proof.
  intros Hl0 HlM Hsg He Hv Hsc Hn.
  pose proof (parse_digits (decimal n) q 0 Hsc He Hv ltac:(lia)
    (decimal_digits n ltac:(lia))) as Hd.
  change (fold_left _ (decimal n) 0) with (dec_value (decimal n)) in Hd.
  rewrite decimal_value in Hd by lia. specialize (Hd ltac:(lia)).
  pose proof (decimal_nonempty n) as Hnn.
  unfold field_done. destruct (decimal n) as [|c cs] eqn:Ed; [done|].
  rewrite gcode_parse_chars_app, Hd.
  destruct (with_number_frame q n (c :: cs)) as (Hl2 & Hsg2 & He2 & Hv2 & Hsc2 & _).
  set (q2 := with_number q n (c :: cs)) in *.
  assert (Hef : end_field 10 q2 =
    {| next_target := store_field (last_field q) (d_of_Z n) (next_target q2);
       last_field := 0; rd_sign := false; rd_exponent := 0; value := d0 |}).
  { unfold end_field. rewrite Hl2, (proj2 (Z.eqb_neq (last_field q) 0) Hl0). cbn [negb andb].
    change (ends_field 10) with true. cbv iota. rewrite Hsg2, Hsg, Hv2. done. }
  assert (Hgs : getting_string (next_target (end_field 10 q2)) = false).
  { rewrite Hef. cbn [next_target]. rewrite store_field_getting by done.
    apply scanning_inv. exact (eq_trans Hsc2 Hsc). }
  cbn [gcode_parse_chars].
  rewrite (end_of_line_char q2 (eq_trans Hsc2 Hsc) Hgs), Hef. done.
Qed.

(** A letter, a decimal numeral and a line feed store the number. *)
Lemma parse_field p L n :
  ready p -> number_field L = true -> 0 <= n < 10 ^ 10 ->
  gcode_parse_chars p (L :: decimal n ++ [10]) = Some (field_done (open_field L p) n) /\
  last_field (open_field L p) = L.
Proof.
  intros Hr HL Hn.
  destruct (parse_letter p L Hr HL) as [Hc (Hl & Hsg & He & Hv & Hsc)].
  destruct (number_field_upper L HL) as (_ & _ & HLz).
  destruct Hr as (_ & Hsg0 & He0 & Hv0 & Hsc0).
  cbn [gcode_parse_chars]. rewrite Hc. split; [|exact Hl].
  apply parse_number_end; rewrite ?Hl, ?Hsg, ?He, ?Hv, ?Hsc; try done.
  - cbn. by apply Z.eqb_neq.
  - cbn. intros ->. discriminate.
Qed.

(** C22: line numbers survive the round trip through the host: for every 32-bit
    [n], an [N] word carrying the numeral that [serwrite_uint32] prints for [n]
    sets the parser's line number to exactly [n]. *)
Theorem line_number_roundtrip (p : parser) (n : Z)
  (Hready : ready p) (Hn : 0 <= n < 2 ^ 32) :
  exists p', gcode_parse_chars p (chr "N" :: serwrite_uint32 n ++ [10]) = Some p' /\
    gN (next_target p') = n /\ seen_N (next_target p') = true.
Proof.
  rewrite uint32_numeral by done.
  destruct (parse_field p (chr "N") n Hready eq_refl ltac:(lia)) as [Hrun Hl].
  eexists. split; [exact Hrun|]. unfold field_done. rewrite Hl.
  assert (Hopen : forall q, scan_char (chr "N") q
    = q <| next_target := (next_target q) <| seen_N := true |> |>) by reflexivity.
  assert (Hstore : forall g v, store_field (chr "N") v g = g <| gN := d2u32 v |>)
    by reflexivity.
  rewrite Hstore. unfold add_checksum, with_number, open_field. rewrite Hopen. simpl.
  rewrite d2u32_of_Z by lia.
  destruct (seen_checksum (next_target p)) eqn:E; simpl; rewrite ?E; done.
Qed.

Lemma ready_zero : ready parser_zero.
Proof. done. Qed.

Lemma line_number_roundtrip_witness :
  exists p', gcode_parse_chars parser_zero (bytes_of_string "N4294967295" ++ [10]) = Some p' /\
    gN (next_target p') = 4294967295 /\ seen_N (next_target p') = true.
Proof. apply (line_number_roundtrip parser_zero 4294967295); [done|lia]. Defined.

(** ** The checksum word *)

(** The asterisk ends the pending field and the file name, and opens the
    checksum field. *)
Lemma parse_star p :
  (last_field p <> 0 \/ (rd_sign p = false /\ rd_exponent p = 0 /\ value p = d0)) ->
  seen_semi_comment (next_target p) = false ->
  seen_parens_comment (next_target p) = false ->
  exists q, gcode_parse_char p (chr "*") = Some q /\
    last_field q = chr "*" /\ rd_sign q = false /\ rd_exponent q = 0 /\ value q = d0 /\
    scanning (next_target q) = true /\ seen_checksum (next_target q) = true /\
    checksum_calculated (next_target q) = checksum_calculated (next_target p).
Proof.
  intros Hnum Hsemi Hpar.
  assert (Hstar : forall q, scan_char (chr "*") q
    = q <| next_target := (next_target q) <| seen_checksum := true |> |>) by reflexivity.
  unfold gcode_parse_char. change (upcase (chr "*")) with (chr "*"). cbv zeta.
  destruct (end_field_frame (chr "*") p) as [_ Hc Hs Hp _].
  assert (Hz : rd_sign (end_field (chr "*") p) = false /\
               rd_exponent (end_field (chr "*") p) = 0 /\ value (end_field (chr "*") p) = d0).
  { unfold end_field. destruct Hnum as [Hl|Hz].
    - rewrite (proj2 (Z.eqb_neq _ _) Hl). done.
    - by case_bool. }
  set (q1 := end_field (chr "*") p) in *. destruct Hz as (Hz1 & Hz2 & Hz3).
  assert (Hcol : exists g, collect_string (chr "*") (next_target q1) = Some g /\
    getting_string g = false /\ seen_semi_comment g = false /\
    seen_parens_comment g = false /\
    checksum_calculated g = checksum_calculated (next_target p)).
  { unfold collect_string. destruct (getting_string (next_target q1)) eqn:Eg.
    - eexists. split; [reflexivity|]. cbn. rewrite Hs, Hp, Hc. done.
    - eexists. split; [reflexivity|]. rewrite Hs, Hp, Hc. done. }
  destruct Hcol as (g & -> & Hg1 & Hg2 & Hg3 & Hg4).
  eexists. split; [reflexivity|]. unfold scan_or_skip. cbv zeta. cbn [next_target update updater].
  rewrite Hg1, Hg2, Hg3. change (is_upper (chr "*") || (chr "*" =? chr "*")) with true.
  cbn [negb andb]. rewrite Hstar. unfold add_checksum, scanning. cbn.
  rewrite Hg1, Hg2, Hg3, Hg4, Hz1, Hz2, Hz3. done.
Qed.



(** ** Comments *)

(** the text of a semicolon comment does not act on the command: when no
    field is pending, every character up to the end of the line leaves the
    parser as it was, except for the checksum, and starts no field, number,
    file name or checksum word. *)
Theorem comment_is_inert (p : parser) (cs : list Z)
  (Hcomment : seen_semi_comment (next_target p) = true)
  (Hparens : seen_parens_comment (next_target p) = false)
  (Hfield : last_field p = 0)
  (Hname : getting_string (next_target p) = false) :
  gcode_parse_chars p cs
  = Some (p <| next_target :=
             (if seen_checksum (next_target p) then next_target p
              else (next_target p) <| checksum_calculated :=
                     xor_all (checksum_calculated (next_target p)) cs |>) |>).
Proof.
  revert p Hcomment Hparens Hfield Hname.
  induction cs as [|c cs IH]; intros p Hcomment Hparens Hfield Hname.
  - clear. destruct p as [g lf sg ex v]. simpl.
    destruct (seen_checksum g) eqn:E; [done|]. destruct g. simpl in E. subst. reflexivity.
  - assert (Hstep : gcode_parse_char p c = Some (add_checksum c p)).
    { unfold gcode_parse_char. cbv zeta. unfold end_field. rewrite Hfield. cbn [Z.eqb negb andb].
      unfold collect_string. rewrite Hname.
      assert (p <| next_target := next_target p |> = p) as -> by (by destruct p).
      unfold scan_or_skip. cbv zeta. rewrite Hcomment, Hparens. done. }
    cbn [gcode_parse_chars]. rewrite Hstep. unfold add_checksum.
    destruct (seen_checksum (next_target p)) eqn:Es.
    + rewrite IH, Es; done.
    + rewrite IH by done. cbn. rewrite Es. done.
Qed.

Lemma comment_is_inert_witness :
  exists p, gcode_parse_chars parser_zero (bytes_of_string ";") = Some p /\
    gcode_parse_chars p (bytes_of_string " M104 S999*7")
    = Some (p <| next_target := (next_target p) <| checksum_calculated :=
              xor_all (chr ";") (bytes_of_string " M104 S999*7") |> |>).
Proof.
  destruct (gcode_parse_chars parser_zero (bytes_of_string ";")) as [p|] eqn:E;
    [|vm_compute in E; discriminate].
  exists p. split; [done|]. vm_compute in E. injection E as <-.
  match goal with |- gcode_parse_chars ?q _ = _ =>
    pose proof (comment_is_inert q (bytes_of_string " M104 S999*7")
      eq_refl eq_refl eq_refl eq_refl) as H
  end.
  rewrite H. reflexivity.
Defined.

(** ** File names *)

Lemma collect_string_bound c g :
  0 <= chpos g <= 118 ->
  exists g', collect_string c g = Some g' /\ 0 <= chpos g' <= chpos g + 1 /\
    (getting_string g = false -> chpos g' = chpos g).
Proof.
  intros Hb. unfold collect_string. destruct (getting_string g) eqn:Eg.
  - case_bool; [eexists; split; [done|]; cbn; split; [lia|done]|].
    unfold FILENAME_SIZE. destruct (Z.ltb_spec (chpos g) 120); [|lia].
    rewrite u8_small by lia. destruct (Z.ltb_spec (chpos g + 1) 120); [|lia].
    eexists. split; [done|]. cbn. split; [lia|done].
  - eexists. split; [done|]. split; [lia|done].
Qed.

Lemma parse_char_chpos p c :
  0 <= chpos (next_target p) <= 118 ->
  exists p', gcode_parse_char p c = Some p' /\
    0 <= chpos (next_target p') <= chpos (next_target p) + 1 /\
    (last_field p = 0 -> getting_string (next_target p) = false ->
     chpos (next_target p') = chpos (next_target p)).
Proof.
  intros Hb. unfold gcode_parse_char. cbv zeta. set (u := upcase c).
  destruct (end_field_frame u p) as [_ _ _ _ Hch].
  destruct (collect_string_bound u (next_target (end_field u p)) ltac:(lia))
    as (g & -> & Hg & Hg0).
  eexists. split; [reflexivity|].
  set (q := scan_or_skip u ((end_field u p) <| next_target := g |>)).
  assert (Hq : chpos (next_target (add_checksum c q)) = chpos g).
  { pose proof (scan_or_skip_checksum u ((end_field u p) <| next_target := g |>)) as (_ & H & _).
    unfold add_checksum. case_bool; exact H. }
  rewrite Hq. split; [lia|]. intros Hl Hgs. rewrite Hg0; [done|].
  unfold end_field. rewrite Hl. done.
Qed.

Lemma parse_chars_chpos cs p :
  0 <= chpos (next_target p) -> chpos (next_target p) + Z.of_nat (length cs) <= 119 ->
  is_Some (gcode_parse_chars p cs).
Proof.
  revert p. induction cs as [|c cs IH]; intros p H0 Hlen; simpl in *; [done|].
  destruct (parse_char_chpos p c ltac:(lia)) as (p' & -> & Hp' & _). apply IH; lia.
Qed.



(** ** Every line leaves a clean parser *)

(** No word of the line is remembered. *)
Definition clean (p : parser) : Prop :=
  last_field p = 0 /\ rd_sign p = false /\ rd_exponent p = 0 /\ value p = d0 /\
  let g := next_target p in
  seen_G g = false /\ seen_M g = false /\ seen_X g = false /\ seen_Y g = false /\
  seen_Z g = false /\ seen_E g = false /\ seen_F g = false /\ seen_S g = false /\
  seen_P g = false /\ seen_N g = false /\ seen_checksum g = false /\
  seen_semi_comment g = false /\ seen_parens_comment g = false /\
  gG g = 0 /\ checksum_read g = 0 /\ checksum_calculated g = 0 /\ chpos g = 0.

Lemma reset_line_clean p : clean (reset_line p).
Proof.
  unfold clean, reset_line. cbv zeta. cbn [last_field rd_sign rd_exponent value next_target].
  do 4 (split; [done|]). case_bool; repeat split; reflexivity.
Qed.

Section line_facts.
Context {W : Type} `{Backend W}.


(** C24: a line with a wrong checksum is not executed and not written to the
    SD file: the only effect outside the parser is the message with the
    expected checksum followed by the resend request for the line number. *)
Theorem bad_checksum_line_rejected (p q : parser) (l : tLineBuffer) (w : W)
  (Hchars : gcode_parse_chars p (take (Z.to_nat (len l)) (data l)) = Some q)
  (Hseen : seen_checksum (next_target q) = true)
  (Hbad : checksum_read (next_target q) <> checksum_calculated (next_target q)) :
  gcode_parse_line p l w
  = Some (PR_OK, reset_line q, l,
      be_send (be_send w (bytes_of_string "Expected checksum "
                 ++ serwrite_uint32 (checksum_calculated (next_target q)) ++ crlf))
              (bytes_of_string "rs " ++ serwrite_uint32 (gN (next_target q)) ++ crlf)).
Proof.
  unfold gcode_parse_line. rewrite Hchars. cbv zeta. unfold checksum_ok.
  rewrite Hseen, orb_false_r. rewrite (proj2 (Z.eqb_neq _ _)) by congruence. done.
Qed.
End line_facts.

(** A backend that records the replies, accepts every command and writes no
    file, to run the line discipline on examples. *)
Definition replies := list (list Z).

Definition recording_backend : Backend replies := {|
  be_send w bs := w ++ [bs];
  be_sd_writing _ := false;
  be_sd_stop_writing w := w;
  be_sd_write w _ := (true, w);
  be_process g w := Some (PR_OK, g, w ++ [bytes_of_string "ok" ++ crlf])
|}.

Definition line_of (s : string) : tLineBuffer :=
  {| data := bytes_of_string s ++ [10]; len := Z.of_nat (String.length s) + 1; seen_lf := true |}.


Lemma bad_checksum_line_rejected_witness :
  exists p', @gcode_parse_line _ recording_backend parser_zero (line_of "N3 G28*1") []
    = Some (PR_OK, p', line_of "N3 G28*1",
            [bytes_of_string "Expected checksum 16" ++ crlf; bytes_of_string "rs 3" ++ crlf]).
Proof.
  assert (E : exists q, gcode_parse_chars parser_zero (bytes_of_string "N3 G28*1" ++ [10]) = Some q
    /\ seen_checksum (next_target q) = true /\ checksum_read (next_target q) = 1
    /\ checksum_calculated (next_target q) = 16 /\ gN (next_target q) = 3).
  { eexists. vm_compute. repeat (split; [reflexivity|]). reflexivity. }
  destruct E as (q & E & E1 & E2 & E3 & E4). exists (reset_line q).
  pose proof (@bad_checksum_line_rejected _ recording_backend parser_zero q
    (line_of "N3 G28*1") [] E E1) as H.
  rewrite E2, E3, E4 in H. apply H. discriminate.
Defined.
