(* ===== verification/Hardware.v ===== *)
(** * The peripherals the firmware drives (libraries/Mendel/inc/pinout.h,
      libraries/R2C2/src/r2c2_ios.c)

    The vendor drivers are not modelled: a call of one of them is an event of
    the trace of hardware operations the modelled functions return, and what
    the hardware reports (an analogue conversion, an input pin) is an argument. *)

From S2P Require Import Prelude.

(** The register-level operations of the vendor drivers, in the order issued. *)
Inductive hw_event :=
  | GPIO_SetValue (port pins : Z)
  | GPIO_ClearValue (port pins : Z)
  | FIO_SetDir (port pins dir : Z)
  | FIO_SetValue (port pins : Z)
  | FIO_ClearValue (port pins : Z)
  | TIM_Setup (timer : Z)
  | TIM_MR0 (timer ticks : Z)
  | TIM_Enable (timer : Z)
  | TIM_Disable (timer : Z)
  | DAC_UpdateValue (v : Z)
  | PWM_Match (channel v : Z)
  | PWM_Start
  | PWM_Stop
  | WDT_Start (t : Z).

#[export] Instance hw_event_eq_dec : EqDecision hw_event.
Proof. solve_decision. Defined.

(** Operations of r2c2_ios.c. *)
Definition pin_mode (port pins dir : Z) : list hw_event := [FIO_SetDir port pins dir].

Definition digital_write (port pins state : Z) : list hw_event :=
  if c_true state then [FIO_SetValue port pins] else [FIO_ClearValue port pins].

(** [digital_read]: the port register is an input. *)
Definition digital_read (port_value pins : Z) : Z :=
  if c_true (Z.land port_value pins) then 1 else 0.

(** Pins of pinout.h. *)
Definition X_STEP_PORT : Z := 1.
Definition X_STEP_PIN : Z := bit 20.
Definition X_DIR_PORT : Z := 1.
Definition X_DIR_PIN : Z := bit 23.
Definition X_ENABLE_PORT : Z := 1.
Definition X_ENABLE_PIN : Z := bit 24.
Definition X_MIN_PORT : Z := 2.
Definition X_MIN_PIN : Z := bit 6.
Definition Y_STEP_PORT : Z := 1.
Definition Y_STEP_PIN : Z := bit 25.
Definition Y_DIR_PORT : Z := 1.
Definition Y_DIR_PIN : Z := bit 26.
Definition Y_ENABLE_PORT : Z := 1.
Definition Y_ENABLE_PIN : Z := bit 28.
Definition Y_MIN_PORT : Z := 2.
Definition Y_MIN_PIN : Z := bit 7.
Definition Z_STEP_PORT : Z := 1.
Definition Z_STEP_PIN : Z := bit 29.
Definition Z_DIR_PORT : Z := 0.
Definition Z_DIR_PIN : Z := bit 0.
Definition Z_ENABLE_PORT : Z := 0.
Definition Z_ENABLE_PIN : Z := bit 1.
Definition Z_MIN_PORT : Z := 2.
Definition Z_MIN_PIN : Z := bit 8.
Definition E_STEP_PORT : Z := 0.
Definition E_STEP_PIN : Z := bit 10.
Definition E_DIR_PORT : Z := 0.
Definition E_DIR_PIN : Z := bit 11.
Definition E_ENABLE_PORT : Z := 2.
Definition E_ENABLE_PIN : Z := bit 10.
Definition STEPPERS_RESET_PORT : Z := 0.
Definition STEPPERS_RESET_PIN : Z := bit 22.
Definition EXTRUDER_0_HEATER_PORT : Z := 2.
Definition EXTRUDER_0_HEATER_PIN : Z := bit 4.
Definition EXTRUDER_0_SENSOR_ADC_CHANNEL : Z := 7.
Definition EXTRUDER_0_FAN_PORT : Z := 2.
Definition EXTRUDER_0_FAN_PIN : Z := bit 3.
Definition HEATED_BED_0_HEATER_PORT : Z := 2.
Definition HEATED_BED_0_HEATER_PIN : Z := bit 5.
Definition HEATED_BED_0_SENSOR_ADC_CHANNEL : Z := 6.

(** The pin macros. The enable inputs of the drivers are active low. *)
Definition x_enable : list hw_event := digital_write X_ENABLE_PORT X_ENABLE_PIN 0.
Definition y_enable : list hw_event := digital_write Y_ENABLE_PORT Y_ENABLE_PIN 0.
Definition z_enable : list hw_event := digital_write Z_ENABLE_PORT Z_ENABLE_PIN 0.
Definition e_enable : list hw_event := digital_write E_ENABLE_PORT E_ENABLE_PIN 0.
Definition x_disable : list hw_event := digital_write X_ENABLE_PORT X_ENABLE_PIN 1.
Definition y_disable : list hw_event := digital_write Y_ENABLE_PORT Y_ENABLE_PIN 1.
Definition z_disable : list hw_event := digital_write Z_ENABLE_PORT Z_ENABLE_PIN 1.
Definition e_disable : list hw_event := digital_write E_ENABLE_PORT E_ENABLE_PIN 1.
Definition x_unstep : list hw_event := digital_write X_STEP_PORT X_STEP_PIN 0.
Definition y_unstep : list hw_event := digital_write Y_STEP_PORT Y_STEP_PIN 0.
Definition z_unstep : list hw_event := digital_write Z_STEP_PORT Z_STEP_PIN 0.
Definition e_unstep : list hw_event := digital_write E_STEP_PORT E_STEP_PIN 0.
Definition unstep : list hw_event := x_unstep ++ y_unstep ++ z_unstep ++ e_unstep.

(** The end-stop inputs read low when the switch is hit. [port2] is the input
    register of port 2. *)
Definition x_min (port2 : Z) : bool := negb (c_true (digital_read port2 X_MIN_PIN)).
Definition y_min (port2 : Z) : bool := negb (c_true (digital_read port2 Y_MIN_PIN)).
Definition z_min (port2 : Z) : bool := negb (c_true (digital_read port2 Z_MIN_PIN)).

Definition extruder_heater_on : list hw_event :=
  digital_write EXTRUDER_0_HEATER_PORT EXTRUDER_0_HEATER_PIN 1.
Definition extruder_heater_off : list hw_event :=
  digital_write EXTRUDER_0_HEATER_PORT EXTRUDER_0_HEATER_PIN 0.
Definition heated_bed_on : list hw_event :=
  digital_write HEATED_BED_0_HEATER_PORT HEATED_BED_0_HEATER_PIN 1.
Definition heated_bed_off : list hw_event :=
  digital_write HEATED_BED_0_HEATER_PORT HEATED_BED_0_HEATER_PIN 0.
Definition extruder_fan_on : list hw_event :=
  digital_write EXTRUDER_0_FAN_PORT EXTRUDER_0_FAN_PIN 1.
Definition extruder_fan_off : list hw_event :=
  digital_write EXTRUDER_0_FAN_PORT EXTRUDER_0_FAN_PIN 0.

(** Reading a pin level back off a trace: the level of [pin] of [port] after
    the events, given its level before. *)
Definition drive (port pin : Z) (level : bool) (e : hw_event) : bool :=
  match e with
  | GPIO_SetValue p m | FIO_SetValue p m =>
      if (p =? port) && Z.testbit m pin then true else level
  | GPIO_ClearValue p m | FIO_ClearValue p m =>
      if (p =? port) && Z.testbit m pin then false else level
  | _ => level
  end.

Definition pin_level (port pin : Z) (level : bool) (es : list hw_event) : bool :=
  fold_left (drive port pin) es level.

Lemma pin_level_app port pin l es1 es2 :
  pin_level port pin l (es1 ++ es2) = pin_level port pin (pin_level port pin l es1) es2.
Proof. apply fold_left_app. Qed.
