(* ===== verification/Temp.v ===== *)
(** * Temperature control (libraries/Mendel/src/temp.c)

    The thermistor table, the filtered reading of a sensor, the on/off heater
    control of [temp_tick] and the table entries the M500 and M501 commands
    read and write. The result of an analogue conversion is an argument. *)

From S2P Require Import Prelude CDouble SerialFifo SerMsg Hardware.

Definition NUMBER_OF_SENSORS : Z := 2.
Definition EXTRUDER_0 : Z := 0.
Definition HEATED_BED_0 : Z := 1.
Definition NUMTEMPS : Z := 31.
Definition NUM_TICKS : Z := 20.

(** A row of the table: ADC value of the extruder, of the bed, temperature. *)
Definition default_temptable : list (list Z) := [
  [1009;   36; 300]; [1119;   42; 290]; [1240;   48; 280]; [1372;   56; 270];
  [1517;   65; 260]; [1673;   76; 250]; [1839;   90; 240]; [2015;  106; 230];
  [2198;  126; 220]; [2385;  151; 210]; [2573;  182; 200]; [2759;  220; 190];
  [2940;  268; 180]; [3112;  328; 170]; [3270;  402; 160]; [3415;  496; 150];
  [3544;  614; 140]; [3655;  761; 130]; [3750;  941; 120]; [3830; 1161; 110];
  [3894; 1420; 100]; [3946; 1719;  90]; [3986; 2048;  80]; [4017; 2394;  70];
  [4041; 2737;  60]; [4058; 3056;  50]; [4070; 3335;  40]; [4079; 3563;  30];
  [4085; 3738;  20]; [4089; 3866;  10]; [4092; 3954;   0] ].

Record temp_state := mk_temp {
  temptable : list (list Z);
  current_temp : list Z;
  target_temp : list Z;
  adc_filtered : list Z;
  ticks : Z
}.

#[export] Instance eta_temp : Eta temp_state := fun t =>
  mk_temp (temptable t) (current_temp t) (target_temp t) (adc_filtered t) (ticks t).

Definition temp_start : temp_state :=
  mk_temp default_temptable [0; 0] [0; 0] [0; 0] 0.

(** [temptable[row][col]] *)
Definition table_at (tab : list (list Z)) (row col : Z) : Z :=
  arr (nth (Z.to_nat row) tab []) col.

(** Setting a non-zero target also restarts the idle time-out
    ([steptimeout], a variable of stepper.c). *)
Definition temp_set (t sensor_number : Z) (s : temp_state) (steptimeout : Z)
  : temp_state * Z :=
  (s <| target_temp := set_arr (target_temp s) sensor_number t |>,
   if c_true t then 0 else steptimeout).

Definition temp_get (s : temp_state) (sensor_number : Z) : Z :=
  arr (current_temp s) sensor_number.

Definition temp_get_target (s : temp_state) (sensor_number : Z) : Z :=
  arr (target_temp s) sensor_number.

(** The comparison is made in [int], so a target below 2 is always achieved. *)
Definition temp_achieved (s : temp_state) (sensor_number : Z) : Z :=
  if arr (target_temp s) sensor_number - 2 <=? arr (current_temp s) sensor_number
  then 255 else 0.

Definition temp_print (s : temp_state) : option (list Z) :=
  sersendf ("ok T:%u.0 B:%u.0" ++ crlf)
    [AInt (arr (current_temp s) EXTRUDER_0); AInt (arr (current_temp s) HEATED_BED_0)].

(** The search loop of [read_temp]: [i] runs from 1 while [i < NUMTEMPS]; the
    first row above the reading gives the segment to interpolate in. *)
Fixpoint interpolate (fuel : nat) (tab : list (list Z)) (sensor i raw celsius : Z) : Z :=
  match fuel with
  | O => celsius
  | S fuel =>
      if i <? NUMTEMPS then
        if raw <? table_at tab i sensor then
          i16 (table_at tab (i - 1) 2 +
               Z.quot ((raw - table_at tab (i - 1) sensor) *
                       (table_at tab i 2 - table_at tab (i - 1) 2))
                      (table_at tab i sensor - table_at tab (i - 1) sensor))
        else interpolate fuel tab sensor (u8 (i + 1)) raw celsius
      else celsius
  end.

(** The temperature of a filtered reading. *)
Definition celsius_of_raw (tab : list (list Z)) (sensor raw : Z) : Z :=
  if raw <? table_at tab 0 sensor then table_at tab 0 2
  else if table_at tab (NUMTEMPS - 1) sensor <=? raw then table_at tab (NUMTEMPS - 1) 2
  else interpolate (Z.to_nat NUMTEMPS) tab sensor 1 raw 0.

(** The filter step: unsigned 32-bit arithmetic. *)
Definition filter_adc (filtered raw : Z) : Z := u32 (u32 (u32 (filtered * 7) + raw) / 8).

(** [analog] gives the conversion result of a channel. *)
Definition read_temp (analog : Z -> Z) (sensor_number : Z) (s : temp_state)
  : Z * temp_state :=
  let raw :=
    if sensor_number =? EXTRUDER_0 then analog EXTRUDER_0_SENSOR_ADC_CHANNEL
    else if sensor_number =? HEATED_BED_0 then analog HEATED_BED_0_SENSOR_ADC_CHANNEL
    else 0 in
  let f := filter_adc (arr (adc_filtered s) sensor_number) raw in
  let s := s <| adc_filtered := set_arr (adc_filtered s) sensor_number f |> in
  (u16 (celsius_of_raw (temptable s) sensor_number (i32 f)), s).

Definition temp_tick (analog : Z -> Z) (s : temp_state) : temp_state * list hw_event :=
  let '(t0, s) := read_temp analog EXTRUDER_0 s in
  let s := s <| current_temp := set_arr (current_temp s) EXTRUDER_0 t0 |> in
  let '(t1, s) := read_temp analog HEATED_BED_0 s in
  let s := s <| current_temp := set_arr (current_temp s) HEATED_BED_0 t1 |> in
  let s := s <| ticks := u16 (ticks s + 1) |> in
  if ticks s =? NUM_TICKS then
    let e0 := if temp_get s EXTRUDER_0 <? temp_get_target s EXTRUDER_0
              then extruder_heater_on else extruder_heater_off in
    let e1 := if temp_get s HEATED_BED_0 <? temp_get_target s HEATED_BED_0
              then heated_bed_on else heated_bed_off in
    (s <| ticks := 0 |>, e0 ++ e1)
  else (s, []).

(** The row of a temperature: the loop over [entry]. *)
Fixpoint find_entry (tab : list (list Z)) (entry : Z) (temp : Z) : option Z :=
  match tab with
  | [] => None
  | row :: tab => if arr row 2 =? temp then Some entry else find_entry tab (entry + 1) temp
  end.

Definition temp_set_table_entry (sensor_number temp adc_val : Z) (s : temp_state)
  : bool * temp_state :=
  if sensor_number <? NUMBER_OF_SENSORS then
    match find_entry (temptable s) 0 temp with
    | Some entry =>
        (true, s <| temptable := set_arr (temptable s) entry
           (set_arr (nth (Z.to_nat entry) (temptable s) []) sensor_number adc_val) |>)
    | None => (false, s)
    end
  else (false, s).

Definition temp_get_table_entry (sensor_number temp : Z) (s : temp_state) : Z :=
  if sensor_number <? NUMBER_OF_SENSORS then
    match find_entry (temptable s) 0 temp with
    | Some entry => table_at (temptable s) entry sensor_number
    | None => 65535
    end
  else 65535.

(** ** The table *)

(** A well-formed table: 31 rows of three 16-bit values, the temperatures
    those of the default table. *)
Definition table_wf (tab : list (list Z)) : Prop :=
  map (fun row => arr row 2) tab = map (fun row => arr row 2) default_temptable /\
  Forall (fun row => length row = 3%nat /\ Forall (fun v => 0 <= v < 2 ^ 16) row) tab.

Definition temp_wf (s : temp_state) : Prop :=
  table_wf (temptable s) /\ length (current_temp s) = 2%nat /\
  length (target_temp s) = 2%nat /\ length (adc_filtered s) = 2%nat /\
  Forall (fun v => 0 <= v < 2 ^ 16) (adc_filtered s) /\ 0 <= ticks s < NUM_TICKS.

Lemma table_length tab : table_wf tab -> length tab = 31%nat.
Proof. intros [H _]. apply (f_equal (@length Z)) in H. rewrite !length_map in H. exact H. Qed.

Lemma default_table_wf : table_wf default_temptable.
Proof. split; [done|]. repeat constructor; done. Qed.

Lemma table_temp tab row :
  table_wf tab -> 0 <= row < NUMTEMPS -> table_at tab row 2 = 300 - 10 * row.
Proof.
  intros [Hm Hf] Hr. unfold NUMTEMPS in Hr.
  assert (table_at tab row 2 = table_at default_temptable row 2) as ->.
  { unfold table_at.
    pose proof (f_equal (fun l => nth (Z.to_nat row) l (arr [] 2)) Hm) as E.
    cbv beta in E. by rewrite !(map_nth (fun r => arr r 2)) in E. }
  unfold table_at. assert (Z.to_nat row < 31)%nat as Hn by lia.
  replace row with (Z.of_nat (Z.to_nat row)) at 2 by lia. revert Hn.
  generalize (Z.to_nat row). intros n Hn. do 31 (destruct n as [|n]; [reflexivity|]). lia.
Qed.

Lemma table_range tab row col :
  table_wf tab -> 0 <= table_at tab row col < 2 ^ 16.
Proof.
  intros [_ Hf]. unfold table_at, arr.
  destruct (nth_in_or_default (Z.to_nat row) tab []) as [Hin| ->];
    [|destruct (Z.to_nat col); simpl; lia].
  rewrite Forall_forall in Hf.
  destruct (Hf _ Hin) as [_ Hr].
  destruct (nth_in_or_default (Z.to_nat col) (nth (Z.to_nat row) tab []) 0) as [Hi| ->]; [|lia].
  rewrite Forall_forall in Hr. by apply Hr.
Qed.

(** ** Interpolation *)

(** One segment: the quotient lies between the end points, with no division
    by zero since the reading is inside the segment. *)
Lemma segment_range a b raw :
  a <= raw < b -> -10 <= Z.quot ((raw - a) * -10) (b - a) <= 0.
Proof.
  intros H. replace ((raw - a) * -10) with (- ((raw - a) * 10)) by lia.
  rewrite Z.quot_opp_l by lia. rewrite Z.quot_div_nonneg by lia.
  assert (0 <= (raw - a) * 10 / (b - a)) by (apply Z.div_pos; lia).
  assert ((raw - a) * 10 / (b - a) <= 10).
  { apply Z.div_le_upper_bound; [lia|]. nia. }
  lia.
Qed.

Lemma interpolate_range fuel tab sensor i raw :
  table_wf tab -> 1 <= i -> i <= NUMTEMPS -> NUMTEMPS - i < Z.of_nat fuel ->
  table_at tab (i - 1) sensor <= raw < table_at tab (NUMTEMPS - 1) sensor ->
  exists k, i <= k < NUMTEMPS /\
    table_at tab (k - 1) sensor <= raw < table_at tab k sensor /\
    interpolate fuel tab sensor i raw 0 =
      300 - 10 * (k - 1) +
      Z.quot ((raw - table_at tab (k - 1) sensor) * -10)
             (table_at tab k sensor - table_at tab (k - 1) sensor).
Proof.
  intros Hwf. revert i. induction fuel as [|fuel IH]; intros i H1 Hi Hf Hr; [lia|].
  cbn [interpolate]. destruct (Z.ltb_spec i NUMTEMPS) as [Hlt|Hge].
  - destruct (Z.ltb_spec raw (table_at tab i sensor)) as [Hraw|Hraw].
    + exists i. split_and!; try lia.
      unfold NUMTEMPS in Hlt.
      rewrite !table_temp by (done || (unfold NUMTEMPS; lia)).
      replace (300 - 10 * i - (300 - 10 * (i - 1))) with (-10) by lia.
      pose proof (segment_range (table_at tab (i - 1) sensor) (table_at tab i sensor) raw).
      rewrite i16_small by lia. done.
    + unfold NUMTEMPS in *. rewrite u8_small by lia.
      destruct (IH (i + 1)) as (k & Hk & Hb & E); try lia.
      { replace (i + 1 - 1) with i by lia. lia. }
      exists k. split_and!; lia.
  - replace i with NUMTEMPS in Hr by lia. lia.
Qed.

Lemma celsius_segment tab sensor raw :
  table_wf tab ->
  table_at tab 0 sensor <= raw < table_at tab (NUMTEMPS - 1) sensor ->
  exists k, 1 <= k < NUMTEMPS /\
    0 < table_at tab k sensor - table_at tab (k - 1) sensor /\
    300 - 10 * k <= celsius_of_raw tab sensor raw <= 300 - 10 * (k - 1).
Proof.
  intros Hwf Hr. unfold celsius_of_raw.
  destruct (Z.ltb_spec raw (table_at tab 0 sensor)); [lia|].
  destruct (Z.leb_spec (table_at tab (NUMTEMPS - 1) sensor) raw); [lia|].
  destruct (interpolate_range (Z.to_nat NUMTEMPS) tab sensor 1 raw Hwf)
    as (k & Hk & Hb & ->); [lia|unfold NUMTEMPS; lia|unfold NUMTEMPS; lia|exact Hr|].
  exists k. pose proof (segment_range _ _ _ Hb). lia.
Qed.

Lemma celsius_range tab sensor raw :
  table_wf tab -> 0 <= celsius_of_raw tab sensor raw <= 300.
Proof.
  intros Hwf. pose proof (celsius_segment tab sensor raw Hwf) as Hseg.
  destruct (Z_lt_dec raw (table_at tab 0 sensor)) as [Hl|Hl].
  - unfold celsius_of_raw. destruct (Z.ltb_spec raw (table_at tab 0 sensor)); [|lia].
    rewrite table_temp by (done || (unfold NUMTEMPS; lia)). lia.
  - destruct (Z_lt_dec raw (table_at tab (NUMTEMPS - 1) sensor)) as [Hh|Hh].
    + destruct (Hseg ltac:(lia)) as (k & Hk & _ & Hb). unfold NUMTEMPS in Hk. lia.
    + unfold celsius_of_raw. destruct (Z.ltb_spec raw (table_at tab 0 sensor)); [lia|].
      destruct (Z.leb_spec (table_at tab (NUMTEMPS - 1) sensor) raw); [|lia].
      rewrite table_temp by (done || (unfold NUMTEMPS; lia)). unfold NUMTEMPS. lia.
Qed.



(** ** The default table is monotone *)

Lemma adjacent_monotone (f : Z -> Z) (n : nat) :
  forallb (fun i => f (Z.of_nat i + 1) <=? f (Z.of_nat i)) (seq 0 n) = true ->
  forall a b, 0 <= a <= b -> b <= Z.of_nat n -> f b <= f a.
Proof.
  intros Hall a b Hab Hb. rewrite forallb_forall in Hall.
  replace b with (a + Z.of_nat (Z.to_nat (b - a))) by lia.
  assert (Z.of_nat (Z.to_nat (b - a)) <= Z.of_nat n - a) as Hk by lia. revert Hk.
  induction (Z.to_nat (b - a)) as [|k IH]; intros Hk; [by replace (a + Z.of_nat 0) with a by lia|].
  transitivity (f (a + Z.of_nat k)); [|apply IH; lia].
  specialize (Hall (Z.to_nat (a + Z.of_nat k)) ltac:(apply in_seq; lia)).
  apply Z.leb_le in Hall. rewrite Z2Nat.id in Hall by lia.
  by replace (a + Z.of_nat (S k)) with (a + Z.of_nat k + 1) by lia.
Qed.

Lemma default_monotone_12bit sensor :
  sensor = EXTRUDER_0 \/ sensor = HEATED_BED_0 ->
  forall a b, 0 <= a <= b -> b <= 4095 ->
  celsius_of_raw default_temptable sensor b <= celsius_of_raw default_temptable sensor a.
Proof.
  intros [-> | ->]; apply (adjacent_monotone _ 4095); vm_compute; reflexivity.
Qed.

(** C37: With the table the firmware starts with, a colder thermistor (a larger
    reading) never shows a higher temperature: the interpolation is monotone
    across the segment boundaries and the two clamped ends, on both sensors. *)
Theorem default_table_monotone (sensor raw1 raw2 : Z)
  (Hs : sensor = EXTRUDER_0 \/ sensor = HEATED_BED_0)
  (H12 : raw1 <= raw2) :
  celsius_of_raw default_temptable sensor raw2
  <= celsius_of_raw default_temptable sensor raw1.
Proof.
  assert (forall a, a < 0 -> celsius_of_raw default_temptable sensor a
          = celsius_of_raw default_temptable sensor 0) as Hneg.
  { intros a Ha. unfold celsius_of_raw.
    pose proof (table_range default_temptable 0 sensor default_table_wf).
    destruct (Z.ltb_spec a (table_at default_temptable 0 sensor)); [|lia].
    destruct Hs as [-> | ->]; reflexivity. }
  assert (forall a, 4095 < a -> celsius_of_raw default_temptable sensor a
          = celsius_of_raw default_temptable sensor 4095) as Hbig.
  { intros a Ha. unfold celsius_of_raw.
    assert (table_at default_temptable 0 sensor <= 4095 /\
            table_at default_temptable (NUMTEMPS - 1) sensor <= 4095) as [H0 H30]
      by (destruct Hs as [-> | ->]; vm_compute; split; discriminate).
    destruct (Z.ltb_spec a (table_at default_temptable 0 sensor)); [lia|].
    destruct (Z.ltb_spec 4095 (table_at default_temptable 0 sensor)); [lia|].
    destruct (Z.leb_spec (table_at default_temptable (NUMTEMPS - 1) sensor) a); [|lia].
    destruct (Z.leb_spec (table_at default_temptable (NUMTEMPS - 1) sensor) 4095); [|lia].
    done. }
  assert (forall a, celsius_of_raw default_temptable sensor a
     = celsius_of_raw default_temptable sensor (clamp 0 4095 a)) as Hclamp.
  { intros a. unfold clamp.
    destruct (Z_lt_dec a 0); [rewrite Hneg by done; f_equal; lia|].
    destruct (Z_lt_dec 4095 a); [rewrite Hbig by done; f_equal; lia|].
    f_equal; lia. }
  rewrite (Hclamp raw1), (Hclamp raw2).
  apply default_monotone_12bit; [done| |]; unfold clamp; lia.
Qed.

Lemma default_table_monotone_witness :
  EXTRUDER_0 = EXTRUDER_0 /\ celsius_of_raw default_temptable EXTRUDER_0 3000
  <= celsius_of_raw default_temptable EXTRUDER_0 2990.
Proof.
  split; [reflexivity|].
  apply (default_table_monotone EXTRUDER_0 2990 3000); [by left|lia].
Defined.

(** ** The filter *)

Lemma filter_adc_exact f raw :
  0 <= f < 2 ^ 16 -> 0 <= raw < 2 ^ 16 -> filter_adc f raw = (f * 7 + raw) / 8.
Proof.
  intros Hf Hr. unfold filter_adc.
  rewrite (u32_small (f * 7)), (u32_small (f * 7 + raw)) by lia.
  apply u32_small. split; [apply Z.div_pos; lia|apply Z.div_lt_upper_bound; lia].
Qed.

Lemma filter_between f raw :
  0 <= f < 2 ^ 16 -> 0 <= raw < 2 ^ 16 ->
  Z.min f raw <= filter_adc f raw <= Z.max f raw.
Proof.
  intros Hf Hr. rewrite filter_adc_exact by done.
  pose proof (Z.div_mod (f * 7 + raw) 8 ltac:(lia)).
  pose proof (Z.mod_pos_bound (f * 7 + raw) 8 ltac:(lia)). lia.
Qed.

(** C38: the filtered value moves monotonically towards a constant input and
    never past it, keeps its 16-bit range, and stops exactly when it is at most
    7 counts below the input: rounding down leaves that steady-state error. *)
Theorem filter_approaches_input (f raw : Z)
  (Hf : 0 <= f < 2 ^ 16) (Hr : 0 <= raw < 2 ^ 16) :
  (f <= raw -> f <= filter_adc f raw <= raw) /\
  (raw <= f -> raw <= filter_adc f raw <= f) /\
  (filter_adc f raw = f <-> f <= raw < f + 8).
Proof.
  rewrite filter_adc_exact by done.
  pose proof (Z.div_mod (f * 7 + raw) 8 ltac:(lia)).
  pose proof (Z.mod_pos_bound (f * 7 + raw) 8 ltac:(lia)). lia.
Qed.

Lemma filter_approaches_input_witness :
  (0 <= 4000 < 2 ^ 16) /\ filter_adc 4000 4007 = 4000.
Proof.
  split; [lia|].
  apply (proj2 (proj2 (filter_approaches_input 4000 4007 ltac:(lia) ltac:(lia)))). lia.
Defined.

(** ** Heater control *)

Lemma arr_two_0 (l : list Z) x : length l = 2%nat -> arr (set_arr l 0 x) 0 = x.
Proof. intros H. apply arr_set_same. rewrite H. lia. Qed.

Lemma u16_temp t : 0 <= t <= 300 -> 0 <= u16 t <= 300.
Proof. intros. rewrite u16_small; lia. Qed.

(** One sensor of [temp_tick]. *)
Lemma read_temp_wf analog sensor s :
  temp_wf s -> sensor = EXTRUDER_0 \/ sensor = HEATED_BED_0 ->
  (forall ch, 0 <= analog ch < 2 ^ 16) ->
  temp_wf (snd (read_temp analog sensor s)) /\
  0 <= fst (read_temp analog sensor s) <= 300.
Proof.
  intros (Ht & Hc & Hg & Hl & Ha & Hk) Hs Han.
  set (raw := if sensor =? EXTRUDER_0 then analog EXTRUDER_0_SENSOR_ADC_CHANNEL
    else if sensor =? HEATED_BED_0 then analog HEATED_BED_0_SENSOR_ADC_CHANNEL else 0).
  assert (0 <= raw < 2 ^ 16) as Hraw by (unfold raw; destruct Hs as [-> | ->]; apply Han).
  assert (0 <= arr (adc_filtered s) sensor < 2 ^ 16) as Hf.
  { rewrite Forall_forall in Ha. apply Ha. unfold arr. apply nth_In.
    rewrite Hl. unfold EXTRUDER_0, HEATED_BED_0 in Hs. lia. }
  assert (0 <= filter_adc (arr (adc_filtered s) sensor) raw < 2 ^ 16) as Hr.
  { pose proof (filter_between _ _ Hf Hraw). lia. }
  unfold read_temp. fold raw. cbn [fst snd]. split.
  - repeat split; simpl; try done; try apply Ht; try lia.
    + unfold set_arr. by rewrite length_insert.
    + unfold set_arr. apply Forall_insert; done.
  - pose proof (celsius_range (temptable s) sensor
      (i32 (filter_adc (arr (adc_filtered s) sensor) raw)) Ht) as Hb.
    apply u16_temp. exact Hb.
Qed.

Lemma read_temp_frame analog sensor s :
  target_temp (snd (read_temp analog sensor s)) = target_temp s /\
  current_temp (snd (read_temp analog sensor s)) = current_temp s /\
  ticks (snd (read_temp analog sensor s)) = ticks s.
Proof. done. Qed.

(** What [temp_tick] leaves alone and how it steps. *)
Lemma temp_tick_spec analog s :
  temp_wf s -> (forall ch, 0 <= analog ch < 2 ^ 16) ->
  let s' := fst (temp_tick analog s) in
  temp_wf s' /\ target_temp s' = target_temp s /\
  ticks s' = (ticks s + 1) mod NUM_TICKS /\
  0 <= temp_get s' EXTRUDER_0 <= 300 /\ 0 <= temp_get s' HEATED_BED_0 <= 300 /\
  snd (temp_tick analog s) =
    if ticks s + 1 =? NUM_TICKS then
      (if temp_get s' EXTRUDER_0 <? temp_get_target s EXTRUDER_0
       then extruder_heater_on else extruder_heater_off) ++
      (if temp_get s' HEATED_BED_0 <? temp_get_target s HEATED_BED_0
       then heated_bed_on else heated_bed_off)
    else [].
Proof.
  intros Hwf Han. unfold temp_tick.
  destruct (read_temp_wf analog EXTRUDER_0 s Hwf ltac:(by left) Han) as [Hwf1 Ht0].
  destruct (read_temp_frame analog EXTRUDER_0 s) as (Fg & Fc & Fk).
  destruct (read_temp analog EXTRUDER_0 s) as [t0 s1]. cbn [fst snd] in *.
  set (s2 := s1 <| current_temp := set_arr (current_temp s1) EXTRUDER_0 t0 |>).
  assert (temp_wf s2) as Hwf2.
  { destruct Hwf1 as (? & Hc & ?). split; [done|]. split; [|done].
    simpl. unfold set_arr. by rewrite length_insert. }
  destruct (read_temp_wf analog HEATED_BED_0 s2 Hwf2 ltac:(by right) Han) as [Hwf3 Ht1].
  destruct (read_temp_frame analog HEATED_BED_0 s2) as (Gg & Gc & Gk).
  destruct (read_temp analog HEATED_BED_0 s2) as [t1 s3]. cbn [fst snd] in *.
  destruct s3 as [tab cur tgt adc k]. simpl in Gg, Gc, Gk. subst tgt cur k.
  destruct Hwf3 as (W1 & W2 & W3 & W4 & W5 & W6). simpl in W1, W2, W3, W4, W5, W6.
  destruct Hwf as (_ & _ & _ & _ & _ & Hk). unfold NUM_TICKS in *.
  rewrite Fk in *. rewrite Fg in *. rewrite Fc in *. simpl update.
  cbn [ticks]. rewrite u16_small by lia.
  assert (length (set_arr (set_arr (current_temp s) EXTRUDER_0 t0) HEATED_BED_0 t1) = 2%nat) as HL
    by (unfold set_arr; rewrite length_insert; exact W2).
  assert (temp_wf (mk_temp tab (set_arr (set_arr (current_temp s) EXTRUDER_0 t0) HEATED_BED_0 t1)
    (target_temp s) adc ((ticks s + 1) mod 20))) as HW.
  { repeat split; simpl; try done; try apply W1; apply (Z.mod_pos_bound (ticks s + 1) 20); lia. }
  assert (arr (set_arr (set_arr (current_temp s) EXTRUDER_0 t0) HEATED_BED_0 t1) EXTRUDER_0 = t0) as E0.
  { rewrite arr_set_other by (unfold EXTRUDER_0, HEATED_BED_0; lia).
    apply arr_set_same. unfold EXTRUDER_0 in *.
    unfold set_arr in W2. rewrite length_insert in W2. lia. }
  assert (arr (set_arr (set_arr (current_temp s) EXTRUDER_0 t0) HEATED_BED_0 t1) HEATED_BED_0 = t1) as E1.
  { apply arr_set_same. rewrite W2. unfold HEATED_BED_0. lia. }
  destruct (Z.eqb_spec (ticks s + 1) 20) as [Heq|Hne]; cbn [fst snd].
  - rewrite Heq in HW |- *. unfold temp_get. simpl. rewrite E0, E1. done.
  - rewrite Z.mod_small in HW |- * by lia. unfold temp_get. simpl. rewrite E0, E1. done.
Qed.

(** A run of the 10 ms temperature timer: one conversion function per tick. *)
Fixpoint run_ticks (analogs : list (Z -> Z)) (s : temp_state)
  : temp_state * list hw_event :=
  match analogs with
  | [] => (s, [])
  | analog :: analogs =>
      let '(s, e) := temp_tick analog s in
      let '(s, es) := run_ticks analogs s in (s, e ++ es)
  end.

Definition analog_ok (analog : Z -> Z) : Prop := forall ch, 0 <= analog ch < 2 ^ 16.

(** Before the control tick nothing is written. *)
Lemma run_ticks_quiet analogs s :
  temp_wf s -> Forall analog_ok analogs ->
  ticks s + Z.of_nat (length analogs) < NUM_TICKS ->
  let s' := fst (run_ticks analogs s) in
  temp_wf s' /\ target_temp s' = target_temp s /\
  ticks s' = ticks s + Z.of_nat (length analogs) /\ snd (run_ticks analogs s) = [].
Proof.
  revert s. induction analogs as [|analog analogs IH]; intros s Hwf Ha Hk.
  - simpl. split_and!; [done|done|lia|done].
  - inversion Ha as [|? ? Ha1 Ha2]; subst. cbn [run_ticks length] in *.
    destruct (temp_tick_spec analog s Hwf Ha1) as (W & T & K & _ & _ & E).
    destruct (temp_tick analog s) as [s1 e]. cbn [fst snd] in *.
    assert (0 <= ticks s < NUM_TICKS) as Hkr by apply Hwf. unfold NUM_TICKS in *.
    rewrite Z.mod_small in K by lia.
    destruct (Z.eqb_spec (ticks s + 1) 20) as [|_]; [lia|]. subst e.
    destruct (IH s1 W Ha2) as (W2 & T2 & K2 & E2); [lia|].
    destruct (run_ticks analogs s1) as [s2 es]. cbn [fst snd] in *.
    subst es. split_and!; [done|congruence|lia|done].
Qed.

Lemma heater_pin_levels (t0 g0 t1 g1 : Z) (l0 l1 : bool) :
  let es := (if t0 <? g0 then extruder_heater_on else extruder_heater_off) ++
            (if t1 <? g1 then heated_bed_on else heated_bed_off) in
  pin_level EXTRUDER_0_HEATER_PORT 4 l0 es = (t0 <? g0) /\
  pin_level HEATED_BED_0_HEATER_PORT 5 l1 es = (t1 <? g1).
Proof. destruct (t0 <? g0), (t1 <? g1), l0, l1; split; reflexivity. Qed.

(** C15: Over every period of 20 timer ticks the heaters are switched exactly
    by the last reading: whatever was converted on the way and whatever the
    levels were, after the period the extruder heater pin is high exactly when
    the extruder is below its target, and the bed heater pin exactly when the
    bed is; a target of 0 leaves the heater off. *)
Theorem heater_follows_target (analogs : list (Z -> Z)) (s : temp_state) (l0 l1 : bool)
  (Hwf : temp_wf s) (Hk : ticks s = 0)
  (Ha : Forall analog_ok analogs) (Hn : Z.of_nat (length analogs) = NUM_TICKS) :
  let '(s', es) := run_ticks analogs s in
  temp_wf s' /\ ticks s' = 0 /\ target_temp s' = target_temp s /\
  pin_level EXTRUDER_0_HEATER_PORT 4 l0 es
    = (temp_get s' EXTRUDER_0 <? temp_get_target s EXTRUDER_0) /\
  pin_level HEATED_BED_0_HEATER_PORT 5 l1 es
    = (temp_get s' HEATED_BED_0 <? temp_get_target s HEATED_BED_0) /\
  (temp_get_target s EXTRUDER_0 = 0 ->
   pin_level EXTRUDER_0_HEATER_PORT 4 l0 es = false).
Proof.
  destruct analogs as [|a analogs _] using rev_ind; [done|].
  rewrite length_app in Hn. cbn [length] in Hn.
  apply Forall_app in Ha. destruct Ha as [Ha1 Ha2].
  inversion Ha2 as [|? ? Ha3 _]; subst.
  assert (forall l s, run_ticks (l ++ [a]) s =
     let '(s1, e1) := run_ticks l s in
     let '(s2, e2) := temp_tick a s1 in (s2, e1 ++ e2)) as Happ.
  { clear. induction l as [|b l IH]; intros s; cbn [run_ticks app].
    - destruct (temp_tick a s). by rewrite app_nil_r.
    - destruct (temp_tick b s) as [s1 e1]. rewrite IH.
      destruct (run_ticks l s1) as [s2 e2], (temp_tick a s2) as [s3 e3].
      by rewrite app_assoc. }
  rewrite Happ. unfold NUM_TICKS in *.
  destruct (run_ticks_quiet analogs s Hwf Ha1) as (W & T & K & E); [unfold NUM_TICKS; lia|].
  destruct (run_ticks analogs s) as [s1 e1]. cbn [fst snd] in *. subst e1.
  destruct (temp_tick_spec a s1 W Ha3) as (W2 & T2 & K2 & R0 & R1 & E2).
  destruct (temp_tick a s1) as [s2 e2]. cbn [fst snd] in *. unfold NUM_TICKS in *.
  assert (ticks s1 + 1 = 20) as Hk1 by lia. rewrite Hk1 in *. rewrite Z.eqb_refl in E2.
  cbn [app]. rewrite E2. unfold temp_get_target in *. rewrite T2, T.
  destruct (heater_pin_levels (temp_get s2 EXTRUDER_0) (arr (target_temp s) EXTRUDER_0)
    (temp_get s2 HEATED_BED_0) (arr (target_temp s) HEATED_BED_0) l0 l1) as [P0 P1].
  split_and!; [done|done|done|exact P0|exact P1|].
  intros Hz. rewrite Hz in *. rewrite P0. lia.
Qed.

Lemma temp_start_wf : temp_wf temp_start.
Proof. split; [exact default_table_wf|]. repeat split; simpl; try lia. repeat constructor; lia. Qed.

Lemma heater_follows_target_witness :
  pin_level EXTRUDER_0_HEATER_PORT 4 false
    (snd (run_ticks (repeat (fun _ => 4000) 20)
      (fst (temp_set 200 EXTRUDER_0 temp_start 0)))) = true.
Proof.
  assert (temp_wf (fst (temp_set 200 EXTRUDER_0 temp_start 0))) as Hwf.
  { split; [exact default_table_wf|]. repeat split; simpl; try lia. repeat constructor; lia. }
  pose proof (heater_follows_target (repeat (fun _ => 4000) 20)
    (fst (temp_set 200 EXTRUDER_0 temp_start 0)) false false Hwf eq_refl
    ltac:(apply Forall_forall; intros x Hx; apply repeat_spec in Hx; subst x;
          intros ch; lia) eq_refl) as H.
  vm_compute in H |- *. exact (proj1 (proj2 (proj2 (proj2 H)))).
Defined.

(** ** The table entries of M500 and M501 *)

Lemma find_entry_shift tab e temp :
  find_entry tab e temp = option_map (fun k => e + k) (find_entry tab 0 temp).
Proof.
  revert e. induction tab as [|row tab IH]; intros e; [done|]. cbn [find_entry].
  destruct (arr row 2 =? temp); [cbn; f_equal; lia|].
  rewrite (IH (e + 1)), (IH (0 + 1)). destruct (find_entry tab 0 temp); cbn; [f_equal; lia|done].
Qed.

Lemma find_entry_range tab temp e :
  find_entry tab 0 temp = Some e ->
  0 <= e < Z.of_nat (length tab) /\ arr (nth (Z.to_nat e) tab []) 2 = temp.
Proof.
  revert e. induction tab as [|row tab IH]; intros e; [done|]. cbn [find_entry length].
  destruct (Z.eqb_spec (arr row 2) temp) as [Heq|_].
  - intros [= <-]. split; [lia|done].
  - rewrite find_entry_shift. destruct (find_entry tab 0 temp) as [k|]; [|done].
    intros [= <-]. destruct (IH k eq_refl) as [Hk Ht]. split; [lia|].
    replace (Z.to_nat (0 + 1 + k)) with (S (Z.to_nat k)) by lia. done.
Qed.

(** The search only looks at the temperatures. *)
Lemma find_entry_ext tab tab' e temp :
  map (fun row => arr row 2) tab = map (fun row => arr row 2) tab' ->
  find_entry tab e temp = find_entry tab' e temp.
Proof.
  revert tab' e. induction tab as [|row tab IH]; intros [|row' tab'] e H; try done.
  cbn [map] in H. injection H as H1 H2. cbn [find_entry]. rewrite H1. by rewrite (IH tab').
Qed.

Lemma set_entry_temps tab e row :
  0 <= e < Z.of_nat (length tab) -> arr row 2 = arr (nth (Z.to_nat e) tab []) 2 ->
  map (fun r => arr r 2) (set_arr tab e row) = map (fun r => arr r 2) tab.
Proof.
  intros He Hr. unfold set_arr.
  change (map (fun r => arr r 2) (<[Z.to_nat e:=row]> tab))
    with ((fun r => arr r 2) <$> (<[Z.to_nat e:=row]> tab)).
  rewrite list_fmap_insert, Hr. apply list_insert_id.
  rewrite list_lookup_fmap.
  destruct (lookup_lt_is_Some_2 tab (Z.to_nat e) ltac:(lia)) as [x Hx].
  by rewrite (nth_lookup_Some _ _ [] _ Hx), Hx.
Qed.

(** A stored table entry is read back: for every temperature of the table,
    [temp_set_table_entry] succeeds, the same temperature then reads the stored
    value, every other temperature and the other sensor read as before, and the
    table stays well formed. *)
Theorem table_entry_roundtrip (s : temp_state) (sensor temp v : Z)
  (Hwf : table_wf (temptable s)) (Hs : sensor = EXTRUDER_0 \/ sensor = HEATED_BED_0)
  (Ht : find_entry (temptable s) 0 temp <> None) (Hv : 0 <= v < 2 ^ 16) :
  let '(ok, s') := temp_set_table_entry sensor temp v s in
  ok = true /\ temp_get_table_entry sensor temp s' = v /\ table_wf (temptable s') /\
  (forall sensor' temp', 0 <= sensor' -> sensor' <> sensor \/ temp' <> temp ->
     temp_get_table_entry sensor' temp' s' = temp_get_table_entry sensor' temp' s).
Proof.
  unfold temp_set_table_entry. unfold EXTRUDER_0, HEATED_BED_0 in Hs.
  destruct (Z.ltb_spec sensor NUMBER_OF_SENSORS) as [_|H]; [|unfold NUMBER_OF_SENSORS in H; lia].
  destruct (find_entry (temptable s) 0 temp) as [e|] eqn:He; [clear Ht|done].
  destruct (find_entry_range _ _ _ He) as [Hr Htemp].
  destruct Hwf as [Hm Hf].
  set (row := nth (Z.to_nat e) (temptable s) []) in *.
  assert (In row (temptable s)) as Hin by (apply nth_In; lia).
  assert (length row = 3%nat /\ Forall (fun v => 0 <= v < 2 ^ 16) row) as [Hlen Hrow]
    by (rewrite Forall_forall in Hf; by apply Hf).
  assert (map (fun r => arr r 2) (set_arr (temptable s) e (set_arr row sensor v))
          = map (fun r => arr r 2) (temptable s)) as Hmap.
  { apply set_entry_temps; [done|]. by rewrite arr_set_other by lia. }
  simpl update. cbn [temptable].
  split_and!; [done| | |].
  - unfold temp_get_table_entry. cbn [temptable].
    destruct (Z.ltb_spec sensor NUMBER_OF_SENSORS) as [_|H]; [|unfold NUMBER_OF_SENSORS in H; lia].
    rewrite (find_entry_ext _ _ 0 temp Hmap), He. unfold table_at, set_arr at 1.
    erewrite nth_lookup_Some by (apply list_lookup_insert_eq; lia).
    apply arr_set_same. rewrite Hlen. lia.
  - split; [by rewrite Hmap|]. apply Forall_insert; [done|].
    unfold set_arr. rewrite length_insert. split; [done|by apply Forall_insert].
  - intros sensor' temp' Hs0 Hne. unfold temp_get_table_entry. cbn [temptable].
    destruct (sensor' <? NUMBER_OF_SENSORS); [|done].
    rewrite (find_entry_ext _ _ 0 temp' Hmap).
    destruct (find_entry (temptable s) 0 temp') as [e'|] eqn:He'; [|done].
    destruct (find_entry_range _ _ _ He') as [Hr' Htemp'].
    unfold table_at. destruct (Z.eq_dec e e') as [<-|Hee].
    + unfold set_arr at 1. erewrite nth_lookup_Some by (apply list_lookup_insert_eq; lia).
      apply arr_set_other; try lia. destruct Hne as [|Hne]; [lia|]. exfalso. apply Hne. by rewrite <- Htemp, <- Htemp'.
    + unfold set_arr at 1. rewrite !nth_lookup. rewrite list_lookup_insert_ne by lia. done.
Qed.

Lemma table_entry_roundtrip_witness :
  find_entry default_temptable 0 200 = Some 10 /\
  temp_get_table_entry EXTRUDER_0 200
    (snd (temp_set_table_entry EXTRUDER_0 200 2600 temp_start)) = 2600.
Proof.
  split; [reflexivity|].
  pose proof (table_entry_roundtrip temp_start EXTRUDER_0 200 2600 default_table_wf
    ltac:(by left) ltac:(discriminate) ltac:(lia)) as H.
  vm_compute in H |- *. exact (proj1 (proj2 H)).
Defined.
