(* ===== verification/Config.v ===== *)
(** * The configuration (libraries/Mendel/src/config.c, inc/config.h)

    The configuration record, the table of its keys with their defaults, the
    tokenizer, and the reading and printing of the key lines of config.txt. A
    file is the list of its bytes; [f_gets] is FatFs's line reader on it. *)

From S2P Require Import Prelude CDouble SerialFifo SerMsg.

Record configuration := mk_config {
  steps_per_mm_x : double;
  steps_per_mm_y : double;
  steps_per_mm_z : double;
  steps_per_mm_e : double;
  maximum_feedrate_x : Z;
  maximum_feedrate_y : Z;
  maximum_feedrate_z : Z;
  maximum_feedrate_e : Z;
  acceleration : double;
  junction_deviation : double;
  search_feedrate_x : Z;
  search_feedrate_y : Z;
  search_feedrate_z : Z;
  search_feedrate_e : Z;
  homing_feedrate_x : Z;
  homing_feedrate_y : Z;
  homing_feedrate_z : Z;
  home_direction_x : Z;
  home_direction_y : Z;
  home_direction_z : Z;
  home_pos_x : Z;
  home_pos_y : Z;
  home_pos_z : Z;
  printing_vol_x : Z;
  printing_vol_y : Z;
  printing_vol_z : Z;
  have_dump_pos : Z;
  dump_pos_x : Z;
  dump_pos_y : Z;
  have_rest_pos : Z;
  rest_pos_x : Z;
  rest_pos_y : Z;
  have_wipe_pos : Z;
  wipe_pos_x : Z;
  wipe_pos_y : Z;
  steps_per_revolution_e : Z;
  wait_on_temp : Z;
  enable_extruder_1 : Z;
  dhcp : Z;
  ipaddr : Z;
  ipmask : Z;
  ipgw : Z;
  ipdns : Z;
  httpd : Z;
  httpd_port : Z;
  httpd_docroot : option string
}.

#[export] Instance eta_config : Eta configuration := fun c =>
  mk_config (steps_per_mm_x c) (steps_per_mm_y c) (steps_per_mm_z c) (steps_per_mm_e c)
    (maximum_feedrate_x c) (maximum_feedrate_y c) (maximum_feedrate_z c)
    (maximum_feedrate_e c) (acceleration c) (junction_deviation c)
    (search_feedrate_x c) (search_feedrate_y c) (search_feedrate_z c)
    (search_feedrate_e c) (homing_feedrate_x c) (homing_feedrate_y c)
    (homing_feedrate_z c) (home_direction_x c) (home_direction_y c)
    (home_direction_z c) (home_pos_x c) (home_pos_y c) (home_pos_z c)
    (printing_vol_x c) (printing_vol_y c) (printing_vol_z c) (have_dump_pos c)
    (dump_pos_x c) (dump_pos_y c) (have_rest_pos c) (rest_pos_x c) (rest_pos_y c)
    (have_wipe_pos c) (wipe_pos_x c) (wipe_pos_y c) (steps_per_revolution_e c)
    (wait_on_temp c) (enable_extruder_1 c) (dhcp c) (ipaddr c) (ipmask c) (ipgw c)
    (ipdns c) (httpd c) (httpd_port c) (httpd_docroot c).

(** The static variable before [read_config]. *)
Definition config_start : configuration :=
  mk_config d0 d0 d0 d0 0 0 0 0 d0 d0 0 0 0 0 0 0 0 0 0 0 0 0 0 0 0 0 0 0 0 0 0 0 0 0 0 0
    0 0 0 0 0 0 0 0 0 None.

(** A key's variable, by its type tag: how it is read, how it is assigned and
    its default value. *)
Inductive tValue :=
  | TYPE_INT (pValue : configuration -> Z) (assign : Z -> configuration -> configuration)
      (val_i : Z)
  | TYPE_DOUBLE (pValue : configuration -> double)
      (assign : double -> configuration -> configuration) (val_d : double)
  | TYPE_IPADDR (pValue : configuration -> Z) (val_ipaddr : Z)
  | TYPE_STRING (pValue : configuration -> option string) (ptr_str : string).

Record tConfigItem := mk_item { name : string; value : tValue }.

Definition SET_IP4_ADDR (a b c d : Z) : Z :=
  Z.lor (Z.lor (Z.shiftl (Z.land a 255) 24) (Z.shiftl (Z.land b 255) 16))
        (Z.lor (Z.shiftl (Z.land c 255) 8) (Z.land d 255)).

Definition config_lookup : list tConfigItem := [
  mk_item "steps_per_mm_x"
    (TYPE_DOUBLE steps_per_mm_x (fun v c => c <| steps_per_mm_x := v |>) (d_of_Z 80));
  mk_item "steps_per_mm_y"
    (TYPE_DOUBLE steps_per_mm_y (fun v c => c <| steps_per_mm_y := v |>) (d_of_Z 80));
  mk_item "steps_per_mm_z"
    (TYPE_DOUBLE steps_per_mm_z (fun v c => c <| steps_per_mm_z := v |>) (d_of_Z 6400));
  mk_item "steps_per_mm_e"
    (TYPE_DOUBLE steps_per_mm_e (fun v c => c <| steps_per_mm_e := v |>) (d_of_Z 36));
  mk_item "maximum_feedrate_x"
    (TYPE_INT maximum_feedrate_x (fun v c => c <| maximum_feedrate_x := v |>) 3000);
  mk_item "maximum_feedrate_y"
    (TYPE_INT maximum_feedrate_y (fun v c => c <| maximum_feedrate_y := v |>) 3000);
  mk_item "maximum_feedrate_z"
    (TYPE_INT maximum_feedrate_z (fun v c => c <| maximum_feedrate_z := v |>) 60);
  mk_item "maximum_feedrate_e"
    (TYPE_INT maximum_feedrate_e (fun v c => c <| maximum_feedrate_e := v |>) 3000);
  mk_item "acceleration"
    (TYPE_DOUBLE acceleration (fun v c => c <| acceleration := v |>) (d_of_Z 100));
  mk_item "junction_deviation"
    (TYPE_DOUBLE junction_deviation (fun v c => c <| junction_deviation := v |>) (d_lit 5 100));
  mk_item "search_feedrate_x"
    (TYPE_INT search_feedrate_x (fun v c => c <| search_feedrate_x := v |>) 120);
  mk_item "search_feedrate_y"
    (TYPE_INT search_feedrate_y (fun v c => c <| search_feedrate_y := v |>) 120);
  mk_item "search_feedrate_z"
    (TYPE_INT search_feedrate_z (fun v c => c <| search_feedrate_z := v |>) 60);
  mk_item "search_feedrate_e"
    (TYPE_INT search_feedrate_e (fun v c => c <| search_feedrate_e := v |>) 1600);
  mk_item "homing_feedrate_x"
    (TYPE_INT homing_feedrate_x (fun v c => c <| homing_feedrate_x := v |>) 3000);
  mk_item "homing_feedrate_y"
    (TYPE_INT homing_feedrate_y (fun v c => c <| homing_feedrate_y := v |>) 3000);
  mk_item "homing_feedrate_z"
    (TYPE_INT homing_feedrate_z (fun v c => c <| homing_feedrate_z := v |>) 60);
  mk_item "home_direction_x"
    (TYPE_INT home_direction_x (fun v c => c <| home_direction_x := v |>) (-1));
  mk_item "home_direction_y"
    (TYPE_INT home_direction_y (fun v c => c <| home_direction_y := v |>) (-1));
  mk_item "home_direction_z"
    (TYPE_INT home_direction_z (fun v c => c <| home_direction_z := v |>) (-1));
  mk_item "home_pos_x" (TYPE_INT home_pos_x (fun v c => c <| home_pos_x := v |>) 0);
  mk_item "home_pos_y" (TYPE_INT home_pos_y (fun v c => c <| home_pos_y := v |>) 0);
  mk_item "home_pos_z" (TYPE_INT home_pos_z (fun v c => c <| home_pos_z := v |>) 0);
  mk_item "printing_vol_x"
    (TYPE_INT printing_vol_x (fun v c => c <| printing_vol_x := v |>) 0);
  mk_item "printing_vol_y"
    (TYPE_INT printing_vol_y (fun v c => c <| printing_vol_y := v |>) 0);
  mk_item "printing_vol_z"
    (TYPE_INT printing_vol_z (fun v c => c <| printing_vol_z := v |>) 0);
  mk_item "have_dump_pos"
    (TYPE_INT have_dump_pos (fun v c => c <| have_dump_pos := v |>) 0);
  mk_item "dump_pos_x" (TYPE_INT dump_pos_x (fun v c => c <| dump_pos_x := v |>) 0);
  mk_item "dump_pos_y" (TYPE_INT dump_pos_x (fun v c => c <| dump_pos_x := v |>) 0);
  mk_item "have_rest_pos"
    (TYPE_INT have_rest_pos (fun v c => c <| have_rest_pos := v |>) 0);
  mk_item "rest_pos_x" (TYPE_INT rest_pos_x (fun v c => c <| rest_pos_x := v |>) 0);
  mk_item "rest_pos_y" (TYPE_INT rest_pos_y (fun v c => c <| rest_pos_y := v |>) 0);
  mk_item "have_wipe_pos"
    (TYPE_INT have_wipe_pos (fun v c => c <| have_wipe_pos := v |>) 0);
  mk_item "wipe_pos_x" (TYPE_INT wipe_pos_x (fun v c => c <| wipe_pos_x := v |>) 0);
  mk_item "wipe_pos_y" (TYPE_INT wipe_pos_y (fun v c => c <| wipe_pos_y := v |>) 0);
  mk_item "steps_per_revolution_e"
    (TYPE_INT steps_per_revolution_e (fun v c => c <| steps_per_revolution_e := v |>) 3200);
  mk_item "wait_on_temp" (TYPE_INT wait_on_temp (fun v c => c <| wait_on_temp := v |>) 0);
  mk_item "enable_extruder_1"
    (TYPE_INT enable_extruder_1 (fun v c => c <| enable_extruder_1 := v |>) 1);
  mk_item "dhcp" (TYPE_INT dhcp (fun v c => c <| dhcp := v |>) 1);
  mk_item "ip_addr" (TYPE_IPADDR ipaddr (SET_IP4_ADDR 192 168 1 100));
  mk_item "ip_mask" (TYPE_IPADDR ipmask (SET_IP4_ADDR 255 255 255 0));
  mk_item "ip_gw" (TYPE_IPADDR ipgw (SET_IP4_ADDR 192 168 1 1));
  mk_item "httpd" (TYPE_INT httpd (fun v c => c <| httpd := v |>) 1);
  mk_item "httpd_port" (TYPE_INT httpd_port (fun v c => c <| httpd_port := v |>) 80);
  mk_item "http_docroot" (TYPE_STRING httpd_docroot "/www") ].

(** ** Character classes and C strings *)

Definition isalpha (c : Z) : bool :=
  ((chr "a" <=? c) && (c <=? chr "z")) || ((chr "A" <=? c) && (c <=? chr "Z")).

Definition isdigit (c : Z) : bool := is_digit c.

Definition tolower (c : Z) : Z :=
  if (chr "A" <=? c) && (c <=? chr "Z") then c + 32 else c.

(** The string at index [i] of a buffer: up to the next NUL. *)
Fixpoint cstr (l : list Z) : list Z :=
  match l with [] => [] | c :: l => if c =? 0 then [] else c :: cstr l end.

Definition string_at (buf : list Z) (i : Z) : list Z := cstr (drop (Z.to_nat i) buf).

(** [char_match c s] *)
Definition char_match (c : Z) (s : list Z) : bool := existsb (Z.eqb c) s.

(** Case-insensitive comparison, [stricmp (a, b) == 0]. *)
Definition stricmp_eq (a b : list Z) : bool :=
  bool_decide (map tolower a = map tolower b).

Definition blanks : list Z := [chr " "; 9; 10].
Definition signs : list Z := bytes_of_string "+-".

Definition ident_char (c : Z) : bool := isalpha c || isdigit c || (c =? chr "_").

(** ** The tokenizer *)

(** The line buffer and the two static variables of [get_token]. *)
Record tokenizer := mk_tok { line : list Z; pNext : option Z; saved : Z }.

#[export] Instance eta_tok : Eta tokenizer := fun t => mk_tok (line t) (pNext t) (saved t).

(** [while ( *pNext && p( *pNext)) pNext++] *)
Fixpoint run_length (p : Z -> bool) (l : list Z) : Z :=
  match l with
  | [] => 0
  | c :: l => if c_true c && p c then 1 + run_length p l else 0
  end.

Definition skip (p : Z -> bool) (buf : list Z) (i : Z) : Z :=
  i + run_length p (drop (Z.to_nat i) buf).

(** The end of the token that starts at [i]. *)
Definition token_end (buf : list Z) (i : Z) : Z :=
  let c := arr buf i in
  if isalpha c then skip ident_char buf i
  else if isdigit c || char_match c signs then
    let j := skip isdigit buf (i + 1) in
    if c_true (arr buf j) && (arr buf j =? chr ".") then skip isdigit buf (j + 1) else j
  else i + 1.

(** [get_token (pLine)] at the start of a line, [get_token (NULL)] after it:
    the result is the index of a token in the line, which is cut off by a NUL. *)
Definition get_token (new_line : option (list Z)) (t : tokenizer)
  : option Z * tokenizer :=
  let t :=
    match new_line with
    | Some l => t <| line := l |> <| pNext := Some 0 |>
    | None =>
        match pNext t with
        | Some n => t <| line := set_arr (line t) n (saved t) |>
        | None => t
        end
    end in
  match pNext t with
  | None => (None, t)
  | Some n =>
      let n := skip (fun c => char_match c blanks) (line t) n in
      if arr (line t) n =? 0 then (None, t <| pNext := Some n |>)
      else
        let e := token_end (line t) n in
        (Some n, mk_tok (set_arr (line t) e 0) (Some e) (arr (line t) e))
  end.

(** ** Numbers *)

Fixpoint digits_value (acc : Z) (l : list Z) : Z :=
  match l with
  | [] => acc
  | c :: l => if isdigit c then digits_value (10 * acc + (c - c0)) l else acc
  end.

Fixpoint skip_space (l : list Z) : list Z :=
  match l with
  | c :: l' => if (c =? 32) || ((9 <=? c) && (c <=? 13)) then skip_space l' else l
  | [] => []
  end.

(** The C library's [atoi]: blanks, a sign, digits; [strtol] saturates. *)
Definition atoi (s : list Z) : Z :=
  let v :=
    match skip_space s with
    | [] => 0
    | c :: l =>
        if c =? chr "-" then - digits_value 0 l
        else if c =? chr "+" then digits_value 0 l
        else digits_value 0 (c :: l)
    end in
  clamp (- 2 ^ 31) (2 ^ 31 - 1) v.

(** [while ( *s && *s != '.')]: every other character counts as a digit. *)
Fixpoint atod_int (result : double) (s : list Z) : double * list Z :=
  match s with
  | [] => (result, [])
  | c :: l =>
      if c =? chr "." then (result, s)
      else atod_int (dadd (dmul result (d_of_Z 10)) (d_of_Z (c - c0))) l
  end.

Fixpoint atod_frac (frac : double) (places : nat) (s : list Z) : double * nat :=
  match s with
  | [] => (frac, places)
  | c :: l => atod_frac (dadd (dmul frac (d_of_Z 10)) (d_of_Z (c - c0))) (S places) l
  end.

Definition atod (s : list Z) : double :=
  match atod_int d0 s with
  | (result, _ :: l) =>
      let '(frac, places) := atod_frac d0 0 l in
      dadd result (Nat.iter places (fun f => ddiv f (d_of_Z 10)) frac)
  | (result, []) => result
  end.

(** ** Defaults *)

Definition set_default (it : tConfigItem) (c : configuration) : configuration :=
  match value it with
  | TYPE_INT _ assign v => assign v c
  | TYPE_DOUBLE _ assign v => assign v c
  | _ => c
  end.

Definition set_defaults (c : configuration) : configuration :=
  fold_left (fun c it => set_default it c) config_lookup c.

(** ** The keys of config.txt *)

(** The assignment to the key's variable. *)
Definition assign_value (it : tConfigItem) (token : list Z) (c : configuration)
  : configuration :=
  match value it with
  | TYPE_INT _ assign _ => assign (atoi token) c
  | TYPE_DOUBLE _ assign _ => assign (atod token) c
  | _ => c
  end.

Definition find_key (token : list Z) : option tConfigItem :=
  find (fun it => stricmp_eq token (bytes_of_string (name it))) config_lookup.

(** After a known key: an equals sign and a value are expected. *)
Definition key_value (it : tConfigItem) (t : tokenizer) (c : configuration)
  : option (configuration * tokenizer * list Z) :=
  let key := bytes_of_string (name it) in
  let '(tok, t) := get_token None t in
  match tok with
  | Some e =>
      if arr (line t) e =? chr "=" then
        let '(tok, t) := get_token None t in
        match tok with
        | Some v => Some (assign_value it (string_at (line t) v) c, t, [])
        | None =>
            option_map (fun out => (c, t, out))
              (sersendf ("Missing value for %s" ++ crlf) [AStr key])
        end
      else
        option_map (fun out => (c, t, out))
          (sersendf ("Expected '='%s" ++ crlf) [AStr (string_at (line t) 0)])
  | None =>
      option_map (fun out => (c, t, out))
        (sersendf ("Expected '='%s" ++ crlf) [AStr (string_at (line t) 0)])
  end.

(** One line of config.txt: the new configuration and the messages sent. A
    buffer holds the characters of the line and a NUL. *)
Definition config_line (l : list Z) (t : tokenizer) (c : configuration)
  : option (configuration * tokenizer * list Z) :=
  let '(tok, t) := get_token (Some (l ++ [0])) t in
  match tok with
  | None => Some (c, t, [])
  | Some n =>
      if arr (line t) n =? chr "#" then Some (c, t, [])
      else
        let token := string_at (line t) n in
        match find_key token with
        | Some it => key_value it t c
        | None =>
            option_map (fun out => (c, t, out))
              (sersendf ("Unknown config: %s" ++ crlf) [AStr token])
        end
  end.

(** FatFs's [f_gets] with carriage returns stripped, on the bytes left in the
    file: at most [len - 1] characters up to and including a line feed. *)
Fixpoint f_gets_loop (n : nat) (file : list Z) : list Z * list Z :=
  match file with
  | [] => ([], [])
  | c :: file' =>
      match n with
      | O => ([], file)
      | S n' =>
          if c =? 13 then f_gets_loop n file'
          else if c =? 10 then ([c], file')
          else let '(l, rest) := f_gets_loop n' file' in (c :: l, rest)
      end
  end.

Definition f_gets (len : Z) (file : list Z) : option (list Z * list Z) :=
  let '(l, rest) := f_gets_loop (Z.to_nat (len - 1)) file in
  match l with [] => None | _ => Some (l, rest) end.

(** The [while (pLine)] loop over config.txt; every round consumes a byte, so
    the length of the file bounds the rounds. *)
Fixpoint config_lines (fuel : nat) (file : list Z) (t : tokenizer) (c : configuration)
  (out : list Z) : option (configuration * list Z) :=
  match fuel with
  | O => None
  | S fuel =>
      match f_gets 80 file with
      | None => Some (c, out)
      | Some (l, file) =>
          match config_line l t c with
          | None => None
          | Some (c, t, o) => config_lines fuel file t c (out ++ o)
          end
      end
  end.

(** The part of [read_config] that fills [config]: [None] for a missing
    config.txt. *)
Definition read_config_txt (config_txt : option (list Z)) (c : configuration)
  : option (configuration * list Z) :=
  let c := set_defaults c in
  match config_txt with
  | None => Some (c, [])
  | Some file => config_lines (S (length file)) file (mk_tok [] None 0) c []
  end.

(** ** Printing *)

Definition print_item (c : configuration) (it : tConfigItem) : option (list Z) :=
  let key := AStr (bytes_of_string (name it)) in
  match value it with
  | TYPE_INT get _ _ => sersendf ("%s = %d" ++ crlf) [key; AInt (get c)]
  | TYPE_DOUBLE get _ _ => sersendf ("%s = %g" ++ crlf) [key; ADouble (get c)]
  | _ => Some []
  end.

Definition print_config (c : configuration) : option (list Z) :=
  fold_right (fun it out =>
    match print_item c it, out with
    | Some a, Some b => Some (a ++ b)
    | _, _ => None
    end) (Some []) config_lookup.

(** ** Behaviour on concrete files *)

Example comment_line :
  read_config_txt (Some (bytes_of_string "# home_pos_x = 7")) config_start
  = Some (set_defaults config_start, []).
Proof. vm_compute. reflexivity. Qed.

Example crlf_line :
  read_config_txt (Some (bytes_of_string ("Home_Pos_X= -12" ++ crlf ++ "rest_pos_y =4"))) config_start
  = Some ((set_defaults config_start) <| home_pos_x := -12 |> <| rest_pos_y := 4 |>, []).
Proof. vm_compute. reflexivity. Qed.

(** ** The tokenizer on a line *)

(** The state after a token that ends at [e] of the line [L], and the next
    token from position [n]: the NUL of the previous token is undone first. *)
Definition at_pos (L : list Z) (e : Z) : tokenizer :=
  mk_tok (set_arr L e 0) (Some e) (arr L e).

Definition next_token (L : list Z) (n : Z) : option Z * tokenizer :=
  let n := skip (fun c => char_match c blanks) L n in
  if arr L n =? 0 then (None, mk_tok L (Some n) (arr L 0))
  else (Some n, at_pos L (token_end L n)).

Lemma restore_line (L : list Z) e :
  0 <= e < Z.of_nat (length L) -> set_arr (set_arr L e 0) e (arr L e) = L.
Proof.
  intros He. unfold set_arr. rewrite list_insert_insert, decide_True by done.
  apply list_insert_id. destruct (lookup_lt_is_Some_2 L (Z.to_nat e) ltac:(lia)) as [x Hx].
  rewrite Hx. f_equal. unfold arr. by erewrite nth_lookup_Some by exact Hx.
Qed.

Lemma get_token_first L t : fst (get_token (Some L) t) = fst (next_token L 0) /\
  (fst (next_token L 0) <> None -> get_token (Some L) t = next_token L 0).
Proof.
  unfold get_token, next_token. simpl update. cbn [pNext line].
  by destruct (arr L _ =? 0).
Qed.

Lemma get_token_next L e :
  0 <= e < Z.of_nat (length L) -> fst (get_token None (at_pos L e)) = fst (next_token L e) /\
  (fst (next_token L e) <> None -> get_token None (at_pos L e) = next_token L e).
Proof.
  intros He. unfold get_token, next_token, at_pos. simpl update. cbn [pNext line saved].
  rewrite restore_line by done. by destruct (arr L _ =? 0).
Qed.

Lemma run_length_app (p : Z -> bool) (w : list Z) x rest :
  Forall (fun c => c <> 0 /\ p c = true) w -> x = 0 \/ p x = false ->
  run_length p (w ++ x :: rest) = Z.of_nat (length w).
Proof.
  intros Hw Hx. induction Hw as [|c w [Hc Hp] _ IH]; cbn [app run_length].
  - unfold c_true. destruct Hx as [-> | ->]; [done|]. by rewrite andb_false_r.
  - unfold c_true. destruct (Z.eqb_spec c 0); [done|]. rewrite Hp, IH. cbn [length]. simpl. lia.
Qed.

Lemma skip_app (p : Z -> bool) (pre w : list Z) x rest n :
  n = Z.of_nat (length pre) ->
  Forall (fun c => c <> 0 /\ p c = true) w -> x = 0 \/ p x = false ->
  skip p (pre ++ w ++ x :: rest) n = n + Z.of_nat (length w).
Proof.
  intros -> Hw Hx. unfold skip. rewrite Nat2Z.id, drop_app_length. by rewrite run_length_app.
Qed.

Lemma arr_app_at (pre : list Z) x rest n : n = Z.of_nat (length pre) -> arr (pre ++ x :: rest) n = x.
Proof. intros ->. unfold arr. rewrite Nat2Z.id, app_nth2, Nat.sub_diag by lia. done. Qed.

Lemma cstr_app (w rest : list Z) : Forall (fun c => c <> 0) w -> cstr (w ++ 0 :: rest) = w.
Proof.
  induction 1 as [|c w Hc _ IH]; [done|]. cbn [app cstr].
  destruct (Z.eqb_spec c 0); [done|]. by rewrite IH.
Qed.

Lemma set_arr_app (pre : list Z) x rest y n :
  n = Z.of_nat (length pre) -> set_arr (pre ++ x :: rest) n y = pre ++ y :: rest.
Proof.
  intros ->. unfold set_arr. rewrite Nat2Z.id, insert_app_r_alt, Nat.sub_diag by lia. done.
Qed.

(** The three kinds of word and the character that ends them. *)
Inductive word_before : list Z -> Z -> Prop :=
  | word_ident c w x :
      isalpha c = true -> Forall (fun c => ident_char c = true) w ->
      ident_char x = false -> word_before (c :: w) x
  | word_number c w x :
      isalpha c = false -> isdigit c || char_match c signs = true ->
      Forall (fun c => isdigit c = true) w ->
      isdigit x = false -> x <> chr "." -> word_before (c :: w) x
  | word_symbol c x :
      isalpha c = false -> isdigit c || char_match c signs = false ->
      c <> 0 -> char_match c blanks = false -> word_before [c] x.

Lemma class_nonzero p w :
  p 0 = false -> Forall (fun c => p c = true) w -> Forall (fun c => c <> 0 /\ p c = true) w.
Proof. intros Hp. apply Forall_impl. intros c Hc. split; [by intros ->; congruence|done]. Qed.

Lemma token_end_word (pre w : list Z) x rest n :
  n = Z.of_nat (length pre) -> word_before w x ->
  token_end (pre ++ w ++ x :: rest) n = n + Z.of_nat (length w).
Proof.
  intros -> Hw. unfold token_end. destruct Hw as [c w x Ha Hw Hx|c w x Ha Hd Hw Hx Hdot|c x Ha Hd Hc Hb].
  - rewrite <- (app_comm_cons w), arr_app_at by done. rewrite Ha.
    rewrite app_comm_cons. apply skip_app; [done| |by right].
    apply class_nonzero; [done|]. constructor; [|done].
    unfold ident_char. by rewrite Ha.
  - rewrite <- (app_comm_cons w), arr_app_at by done. rewrite Ha, Hd.
    change (pre ++ c :: w ++ x :: rest) with (pre ++ [c] ++ w ++ x :: rest). rewrite app_assoc.
    rewrite (skip_app isdigit (pre ++ [c]) w x rest);
      [|rewrite length_app; cbn [length]; lia|by apply class_nonzero|by right].
    rewrite app_assoc, arr_app_at by (rewrite !length_app; cbn [length]; lia).
    destruct (Z.eqb_spec x (chr ".")); [done|]. rewrite andb_false_r. cbn [length]. lia.
  - cbn [app]. rewrite arr_app_at by done. rewrite Ha, Hd. cbn [length]. lia.
Qed.

Lemma isalpha_range c : isalpha c = true -> 65 <= c.
Proof.
  unfold isalpha. change (chr "a") with 97. change (chr "A") with 65. lia.
Qed.

Lemma isdigit_range c : isdigit c = true -> 48 <= c <= 57.
Proof. unfold isdigit, is_digit. change c0 with 48. lia. Qed.

Lemma sign_range c : char_match c signs = true -> c = 43 \/ c = 45.
Proof. unfold char_match. change signs with [43; 45]. cbn [existsb]. lia. Qed.

Lemma blank_range c : char_match c blanks = true -> c = 32 \/ c = 9 \/ c = 10.
Proof. unfold char_match. change blanks with [32; 9; 10]. cbn [existsb]. lia. Qed.

Lemma ident_nonzero c : ident_char c = true -> c <> 0.
Proof. by intros H ->. Qed.

Lemma digit_nonzero c : isdigit c = true -> c <> 0.
Proof. by intros H ->. Qed.

(** A word starts with a character that is no blank and has no NUL. *)
Lemma word_chars w x :
  word_before w x ->
  Forall (fun c => c <> 0) w /\
  exists c w', w = c :: w' /\ c <> 0 /\ char_match c blanks = false.
Proof.
  intros Hw. destruct Hw as [c w x Ha Hw Hx|c w x Ha Hd Hw Hx Hdot|c x Ha Hd Hc Hb].
  - pose proof (isalpha_range c Ha). split.
    + constructor; [lia|]. revert Hw. apply Forall_impl. exact ident_nonzero.
    + exists c, w. split_and!; [done|lia|].
      destruct (char_match c blanks) eqn:E; [|done]. apply blank_range in E. lia.
  - assert (43 <= c) as Hc.
    { apply orb_true_iff in Hd. destruct Hd as [Hd|Hd];
        [apply isdigit_range in Hd; lia|apply sign_range in Hd; lia]. }
    split.
    + constructor; [lia|]. revert Hw. apply Forall_impl. exact digit_nonzero.
    + exists c, w. split_and!; [done|lia|].
      destruct (char_match c blanks) eqn:E; [|done]. apply blank_range in E. lia.
  - split; [by constructor|]. by exists c, [].
Qed.

(** The next token of a line that continues with blanks and a word. *)
Lemma next_token_word (pre sp w : list Z) x rest n m :
  n = Z.of_nat (length pre) -> m = n + Z.of_nat (length sp) ->
  Forall (fun c => char_match c blanks = true) sp -> word_before w x ->
  next_token (pre ++ sp ++ w ++ x :: rest) n
  = (Some m, at_pos (pre ++ sp ++ w ++ x :: rest) (m + Z.of_nat (length w))) /\
  string_at (set_arr (pre ++ sp ++ w ++ x :: rest) (m + Z.of_nat (length w)) 0) m = w /\
  arr (set_arr (pre ++ sp ++ w ++ x :: rest) (m + Z.of_nat (length w)) 0) m = hd 0 w.
Proof.
  intros Hn Hm Hsp Hw.
  destruct (word_chars w x Hw) as (Hnz & c & w' & Ew & Hc & Hb).
  assert (skip (fun c => char_match c blanks) (pre ++ sp ++ w ++ x :: rest) n = m) as Hskip.
  { rewrite Ew, Hm. cbn [app]. apply skip_app; [done| |by right].
    apply class_nonzero; [done|exact Hsp]. }
  assert (m = Z.of_nat (length (pre ++ sp))) as Hm' by (rewrite length_app; lia).
  unfold next_token. rewrite Hskip. rewrite (app_assoc pre sp).
  assert (arr ((pre ++ sp) ++ w ++ x :: rest) m = c) as Harr
    by (rewrite Ew; cbn [app]; by apply arr_app_at).
  rewrite Harr. destruct (Z.eqb_spec c 0); [done|].
  rewrite (token_end_word (pre ++ sp) w x rest m) by done. split; [done|].
  rewrite (app_assoc (pre ++ sp) w).
  rewrite set_arr_app by (rewrite !length_app in *; lia).
  rewrite <- (app_assoc (pre ++ sp) w). split.
  - unfold string_at. rewrite Hm', Nat2Z.id, drop_app_length. by apply cstr_app.
  - rewrite Ew. cbn [app hd]. by apply arr_app_at.
Qed.

(** ** Reading back a printed key *)

Lemma digits_value_all acc l :
  Forall (fun c => isdigit c = true) l ->
  digits_value acc l = fold_left (fun a c => 10 * a + (c - c0)) l acc.
Proof.
  intros Hl. revert acc. induction Hl as [|c l Hc _ IH]; intros acc; [done|].
  cbn [digits_value fold_left]. by rewrite Hc, IH.
Qed.

Lemma decimal_head v : exists c l, decimal v = c :: l.
Proof.
  unfold decimal. cbn [decimal_upto].
  repeat case_bool; try (by eexists _, _);
  match goal with |- context [?a ++ [?b]] => destruct a; by eexists _, _ end.
Qed.

Lemma int32_word v x :
  - 2 ^ 31 <= v < 2 ^ 31 -> isdigit x = false -> x <> chr "." ->
  word_before (serwrite_int32 v) x.
Proof.
  intros Hv Hx Hd. rewrite int32_numeral by done.
  pose proof (decimal_digits (Z.abs v) ltac:(lia)) as Hdig.
  destruct (Z.ltb_spec v 0); cbn [app].
  - by apply word_number.
  - destruct (decimal_head (Z.abs v)) as (c & l & E). rewrite E in *.
    inversion Hdig as [|? ? Hc Hl]; subst.
    apply word_number; try done.
    + destruct (isalpha c) eqn:Ea; [|done]. apply isalpha_range in Ea.
      apply isdigit_range in Hc. lia.
    + unfold isdigit. by rewrite Hc.
Qed.

Lemma atoi_int32 v : - 2 ^ 31 <= v < 2 ^ 31 -> atoi (serwrite_int32 v) = v.
Proof.
  intros Hv. rewrite int32_numeral by done.
  pose proof (decimal_digits (Z.abs v) ltac:(lia)) as Hdig.
  pose proof (decimal_value (Z.abs v) ltac:(lia)) as Hval.
  unfold atoi. destruct (Z.ltb_spec v 0); cbn [app].
  - cbn [skip_space]. change (chr "-") with 45. cbn [Z.eqb Z.leb Z.compare Pos.eqb Pos.compare Pos.compare_cont andb orb].
    rewrite digits_value_all by done. unfold dec_value in Hval. rewrite Hval.
    unfold clamp. lia.
  - destruct (decimal_head (Z.abs v)) as (c & l & E). rewrite E in *.
    inversion Hdig as [|? ? Hc Hl]; subst. apply isdigit_range in Hc.
    cbn [skip_space]. change (chr "-") with 45. change (chr "+") with 43.
    destruct (Z.eqb_spec c 32), (Z.leb_spec 9 c), (Z.leb_spec c 13); cbn [andb orb]; try lia.
    destruct (Z.eqb_spec c 45); [lia|]. destruct (Z.eqb_spec c 43); [lia|].
    rewrite digits_value_all by done. unfold dec_value in Hval. rewrite Hval.
    unfold clamp. lia.
Qed.

(** The table's keys are identifiers, found by their own name. *)
Definition key_ok (it : tConfigItem) : bool :=
  match bytes_of_string (name it) with
  | [] => false
  | c :: w => isalpha c && forallb ident_char w
  end.

Definition same_key (it it' : tConfigItem) : bool := String.eqb (name it) (name it').

Definition keys_found : bool :=
  forallb (fun it => key_ok it && (Z.of_nat (length (bytes_of_string (name it))) <? 30) &&
    match find_key (bytes_of_string (name it)) with
    | Some it' => same_key it it'
    | None => false
    end) config_lookup.

Lemma keys_found_true : keys_found = true.
Proof. vm_compute. reflexivity. Qed.

#[local] Instance key_eq_dec : EqDecision string := String.string_dec.

Lemma names_distinct it it' :
  In it config_lookup -> In it' config_lookup -> name it = name it' -> it = it'.
Proof.
  assert (NoDup (map name config_lookup)) as Hnd by (apply (bool_decide_unpack _); vm_compute; done).
  revert Hnd. generalize config_lookup as l. intros l. induction l as [|x l IH]; [done|].
  cbn [map]. intros Hnd. inversion Hnd as [|? ? Hx Hl]; subst.
  intros [->|H1] [->|H2] E; try done; [| |by apply IH];
    exfalso; apply Hx; apply list_elem_of_In, in_map_iff; eauto.
Qed.

Lemma key_found it :
  In it config_lookup ->
  find_key (bytes_of_string (name it)) = Some it /\
  (forall x, ident_char x = false -> word_before (bytes_of_string (name it)) x) /\
  Z.of_nat (length (bytes_of_string (name it))) < 30 /\
  Forall (fun c => c <> chr "%") (bytes_of_string (name it)) /\
  hd 0 (bytes_of_string (name it)) <> chr "#".
Proof.
  intros Hin. pose proof keys_found_true as H. unfold keys_found in H.
  rewrite forallb_forall in H. specialize (H it Hin).
  apply andb_true_iff in H. destruct H as [H Hf].
  apply andb_true_iff in H. destruct H as [Hk Hl].
  unfold key_ok in Hk. destruct (bytes_of_string (name it)) as [|c w] eqn:E; [done|].
  apply andb_true_iff in Hk. destruct Hk as [Hc Hw].
  assert (Forall (fun c => ident_char c = true) w) as HF
    by (apply Forall_forall; by apply forallb_forall).
  assert (Forall (fun c => ident_char c = true) (c :: w)) as HF'
    by (constructor; [unfold ident_char; by rewrite Hc|done]).
  split_and!.
  - rewrite <- E in Hf |- *. destruct (find_key (bytes_of_string (name it))) as [it'|] eqn:Ef; [|done].
    f_equal. apply String.eqb_eq in Hf. symmetry. apply names_distinct; [done| |done].
    unfold find_key in Ef. apply List.find_some in Ef. apply Ef.
  - intros x Hx. by apply word_ident.
  - lia.
  - revert HF'. apply Forall_impl. intros a Ha ->. by vm_compute in Ha.
  - cbn [hd]. intros ->. by vm_compute in Hc.
Qed.

Lemma print_int_line (key : list Z) v :
  Z.of_nat (length key) < 256 -> - 2 ^ 31 <= v < 2 ^ 31 ->
  sersendf ("%s = %d" ++ crlf) [AStr key; AInt v]
  = Some (key ++ [32; 61; 32] ++ serwrite_int32 v ++ [13; 10]).
Proof.
  intros Hk Hv. unfold sersendf.
  change (bytes_of_string ("%s = %d" ++ crlf)) with [37; 115; 32; 61; 32; 37; 100; 13; 10].
  cbn [sersendf_loop].
  change (chr "%") with 37. change (chr "l") with 108.
  cbn [Z.eqb negb Pos.eqb].
  unfold sersendf_conv. change (chr "u") with 117. change (chr "d") with 100.
  change (chr "g") with 103. change (chr "p") with 112. change (chr "x") with 120.
  change (chr "c") with 99. change (chr "s") with 115.
  cbn [Z.eqb Pos.eqb orb].
  destruct (Z.ltb_spec (Z.of_nat (length key)) 256); [|lia].
  rewrite i32_small by done. reflexivity.
Qed.

(** Three words: key, equals sign, number. *)
Lemma config_line_int it get assign d v t c :
  In it config_lookup -> value it = TYPE_INT get assign d -> - 2 ^ 31 <= v < 2 ^ 31 ->
  exists t', config_line (bytes_of_string (name it) ++ [32; 61; 32] ++ serwrite_int32 v ++ [10]) t c
    = Some (assign v c, t', []).
Proof.
  intros Hin Hval Hv. destruct (key_found it Hin) as (Hfind & Hword & Hlen & _ & Hhash).
  set (key := bytes_of_string (name it)) in *. set (num := serwrite_int32 v).
  assert (char_match 32 blanks = true) as Hb by done.
  assert (word_before num 10) as Hnum by (apply int32_word; done).
  assert (word_before [61] 32) as Heq by (by apply word_symbol).
  set (L := key ++ 32 :: 61 :: 32 :: num ++ [10; 0]).
  assert ((key ++ [32; 61; 32] ++ num ++ [10]) ++ [0] = L) as EL
    by (unfold L; by rewrite <- !app_assoc).
  destruct (next_token_word [] [] key 32 ([61; 32] ++ num ++ [10; 0]) 0 0
    eq_refl eq_refl ltac:(constructor) (Hword 32 eq_refl)) as (N1 & S1 & A1).
  destruct (next_token_word key [32] [61] 32 (num ++ [10; 0]) (0 + Z.of_nat (length key))
    (0 + Z.of_nat (length key) + 1) ltac:(lia) eq_refl ltac:(by repeat constructor) Heq) as (N2 & S2 & A2).
  destruct (next_token_word (key ++ [32; 61]) [32] num 10 [0]
    (0 + Z.of_nat (length key) + 1 + 1) (0 + Z.of_nat (length key) + 1 + 1 + 1)
    ltac:(rewrite length_app; cbn [length]; lia) eq_refl ltac:(by repeat constructor) Hnum)
    as (N3 & S3 & A3).
  rewrite <- (app_assoc key) in N3, S3, A3. cbn [app] in N1, N2, N3, S1, S2, S3, A1, A2, A3.
  fold L in N1, N2, N3, S1, S2, S3, A1, A2, A3. cbn [length] in N2, S2, A2.
  change (Z.of_nat 1) with 1 in N2, S2, A2.
  assert (Z.of_nat (length L) = Z.of_nat (length key) + 3 + Z.of_nat (length num) + 2) as HL
    by (unfold L; rewrite length_app; cbn [length]; rewrite length_app; cbn [length]; lia).
  unfold config_line. rewrite EL.
  destruct (get_token_first L t) as [_ ->]; [|by rewrite N1].
  rewrite N1. cbn [at_pos line]. rewrite A1.
  destruct (Z.eqb_spec (hd 0 key) (chr "#")); [done|].
  rewrite S1, Hfind. unfold key_value.
  destruct (get_token_next L (0 + Z.of_nat (length key))) as [_ ->]; [lia|..]; [|by rewrite N2].
  rewrite N2. cbn [at_pos line]. rewrite A2. cbn [hd].
  change (61 =? chr "=") with true. cbv iota.
  destruct (get_token_next L (0 + Z.of_nat (length key) + 1 + 1)) as [_ E3]; [lia|].
  rewrite E3 by (by rewrite N3). rewrite N3. cbn [at_pos line].
  rewrite S3. eexists. unfold assign_value. rewrite Hval.
  unfold num. rewrite atoi_int32 by done. reflexivity.
Qed.

(** C26: What [print_config] writes for an integer key is read back by
    [read_config]: the printed line, with its carriage return stripped as
    [f_gets] strips it, assigns to the key's variable the 32-bit value it was
    printed from, whatever the configuration it is read into, and sends no
    message. *)
Theorem printed_key_reads_back (it : tConfigItem) (get : configuration -> Z)
  (assign : Z -> configuration -> configuration) (d : Z) (c : configuration)
  (Hin : In it config_lookup) (Hty : value it = TYPE_INT get assign d)
  (Hv : - 2 ^ 31 <= get c < 2 ^ 31) :
  exists text, print_item c it = Some (text ++ [13; 10]) /\
    forall t c', exists t', config_line (text ++ [10]) t c' = Some (assign (get c) c', t', []).
Proof.
  destruct (key_found it Hin) as (_ & _ & Hlen & _).
  exists (bytes_of_string (name it) ++ [32; 61; 32] ++ serwrite_int32 (get c)). split.
  - unfold print_item. rewrite Hty, print_int_line by (done || lia).
    by rewrite <- !app_assoc.
  - intros t c'. rewrite <- !app_assoc. by apply (config_line_int it get assign d).
Qed.

Lemma printed_key_reads_back_witness :
  exists text, text = bytes_of_string "home_direction_x = -1" /\
    exists t', config_line (text ++ [10]) (mk_tok [] None 0) config_start
      = Some (config_start <| home_direction_x := -1 |>, t', []).
Proof.
  destruct (printed_key_reads_back (nth 17 config_lookup (mk_item "" (TYPE_IPADDR ipaddr 0)))
    home_direction_x (fun v c => c <| home_direction_x := v |>) (-1) (set_defaults config_start)
    ltac:(apply nth_In; vm_compute; lia) eq_refl ltac:(vm_compute; split; [discriminate|reflexivity]))
    as (text & Hp & Hr).
  exists text. split.
  - apply (f_equal (option_map (fun l => take (length l - 2) l))) in Hp. cbn [option_map] in Hp.
    rewrite length_app in Hp. cbn [length] in Hp.
    rewrite (take_app_length' text) in Hp by lia.
    vm_compute in Hp. injection Hp as <-. reflexivity.
  - exact (Hr (mk_tok [] None 0) config_start).
Defined.

(** ** Every file is read to its end *)

Lemma run_length_range (p : Z -> bool) l : 0 <= run_length p l <= Z.of_nat (length l).
Proof.
  induction l as [|c l IH]; [done|]. cbn [run_length length].
  destruct (c_true c && p c); lia.
Qed.

Lemma get_token_line nl t :
  length (line (snd (get_token nl t))) =
  match nl with Some l => length l | None => length (line t) end.
Proof.
  unfold get_token. destruct nl as [l|].
  - simpl update. cbn [pNext line]. destruct (arr l _ =? 0); [done|].
    cbn [snd line]. unfold set_arr. by rewrite length_insert.
  - destruct (pNext t) as [n|] eqn:E.
    + simpl update. cbn [pNext line]. rewrite E.
      destruct (arr _ _ =? 0); cbn [snd line]; unfold set_arr; by rewrite ?length_insert.
    + rewrite E. done.
Qed.

Lemma cstr_length l : (length (cstr l) <= length l)%nat.
Proof.
  induction l as [|c l IH]; [done|]. cbn [cstr]. destruct (c =? 0); cbn [length]; lia.
Qed.

Lemma string_at_length l i : (length (string_at l i) <= length l)%nat.
Proof. unfold string_at. etransitivity; [apply cstr_length|]. rewrite length_drop. lia. Qed.

Lemma sersendf_string text rest s :
  Forall (fun c => c <> chr "%") text -> Forall (fun c => c <> chr "%") rest ->
  Z.of_nat (length s) < 256 ->
  sersendf_loop (text ++ [37; 115] ++ rest) 0 [AStr s] = Some (text ++ s ++ rest).
Proof.
  intros Ht Hr Hs. rewrite sersendf_literal by done. cbn [app sersendf_loop].
  change (chr "%") with 37 in *. change (chr "l") with 108. cbn [Z.eqb Pos.eqb negb].
  unfold sersendf_conv. change (chr "u") with 117. change (chr "d") with 100.
  change (chr "g") with 103. change (chr "p") with 112. change (chr "x") with 120.
  change (chr "c") with 99. change (chr "s") with 115. cbn [Z.eqb Pos.eqb orb].
  destruct (Z.ltb_spec (Z.of_nat (length s)) 256); [|lia].
  rewrite <- (app_nil_r rest) at 1. rewrite sersendf_literal by done. cbn. by rewrite app_nil_r.
Qed.

Lemma message_sent (fmt : string) text rest s :
  bytes_of_string fmt = text ++ [37; 115] ++ rest ->
  forallb (fun c => negb (c =? 37)) (text ++ rest) = true ->
  Z.of_nat (length s) < 256 -> exists out, sersendf fmt [AStr s] = Some out.
Proof.
  intros E Hf Hs. unfold sersendf. rewrite E.
  assert (Forall (fun c => c <> chr "%") (text ++ rest)) as HF.
  { apply Forall_forall. rewrite forallb_forall in Hf. intros c Hc.
    specialize (Hf c Hc). change (chr "%") with 37. lia. }
  apply Forall_app in HF. destruct HF. eexists. by apply sersendf_string.
Qed.

Lemma key_value_total it t c :
  Z.of_nat (length (line t)) < 256 -> Z.of_nat (length (bytes_of_string (name it))) < 256 ->
  exists r, key_value it t c = Some r.
Proof.
  intros Hl Hk. unfold key_value.
  pose proof (get_token_line None t) as L1. destruct (get_token None t) as [[e|] t1]; cbn [snd] in L1.
  - destruct (arr (line t1) e =? chr "=").
    + destruct (get_token None t1) as [[v|] t2]; [by eexists|].
      destruct (message_sent ("Missing value for %s" ++ crlf)
        (bytes_of_string "Missing value for ") [13; 10] (bytes_of_string (name it)))
        as [out ->]; [reflexivity|reflexivity|done|]. by eexists.
    + destruct (message_sent ("Expected '='%s" ++ crlf)
        (bytes_of_string "Expected '='") [13; 10] (string_at (line t1) 0)) as [out ->];
        [reflexivity|reflexivity|pose proof (string_at_length (line t1) 0); lia|]. by eexists.
  - destruct (message_sent ("Expected '='%s" ++ crlf)
      (bytes_of_string "Expected '='") [13; 10] (string_at (line t1) 0)) as [out ->];
      [reflexivity|reflexivity|pose proof (string_at_length (line t1) 0); lia|]. by eexists.
Qed.

Lemma config_line_total l t c :
  Z.of_nat (length l) < 255 -> exists r, config_line l t c = Some r.
Proof.
  intros Hl. unfold config_line.
  pose proof (get_token_line (Some (l ++ [0])) t) as L1. cbn beta match in L1. rewrite length_app in L1. cbn [length] in L1.
  destruct (get_token (Some (l ++ [0])) t) as [[n|] t1]; cbn [snd] in L1; [|by eexists].
  destruct (arr (line t1) n =? chr "#"); [by eexists|].
  destruct (find_key _) as [it|] eqn:Hk.
  - apply key_value_total; [lia|]. unfold find_key in Hk. apply List.find_some in Hk.
    destruct (key_found it (proj1 Hk)) as (_ & _ & Hlen & _). lia.
  - destruct (message_sent ("Unknown config: %s" ++ crlf)
      (bytes_of_string "Unknown config: ") [13; 10] (string_at (line t1) n)) as [out ->];
      [reflexivity|reflexivity|pose proof (string_at_length (line t1) n); lia|]. by eexists.
Qed.

Lemma f_gets_loop_length n file :
  (length (fst (f_gets_loop n file)) <= n)%nat /\
  (length (fst (f_gets_loop n file)) + length (snd (f_gets_loop n file)) <= length file)%nat.
Proof.
  revert n. induction file as [|c file IH]; intros n; cbn [f_gets_loop]; [cbn; lia|].
  destruct n as [|n]; [cbn; lia|].
  destruct (c =? 13); [pose proof (IH (S n)); cbn [length]; lia|].
  destruct (c =? 10); [cbn; lia|].
  pose proof (IH n). destruct (f_gets_loop n file). cbn in *. lia.
Qed.

Lemma f_gets_spec len file l rest :
  0 <= len -> f_gets len file = Some (l, rest) ->
  Z.of_nat (length l) <= Z.max 0 (len - 1) /\ (length rest < length file)%nat.
Proof.
  unfold f_gets. intros Hlen. pose proof (f_gets_loop_length (Z.to_nat (len - 1)) file) as H.
  destruct (f_gets_loop _ file) as [[|c l'] r]; [done|]. intros [= <- <-]. cbn in H |- *. lia.
Qed.

(** The variables no key assigns. *)
Definition unassigned (c : configuration) : Z * Z * Z * Z * Z * option string :=
  (dump_pos_y c, ipaddr c, ipmask c, ipgw c, ipdns c, httpd_docroot c).

Lemma assign_unassigned it :
  In it config_lookup ->
  (forall token c, unassigned (assign_value it token c) = unassigned c) /\
  (forall c, unassigned (set_default it c) = unassigned c).
Proof.
  intros Hin. cut (Forall (fun it =>
    (forall token c, unassigned (assign_value it token c) = unassigned c) /\
    (forall c, unassigned (set_default it c) = unassigned c)) config_lookup).
  { intros HF. rewrite Forall_forall in HF. by apply HF. }
  unfold config_lookup. repeat (constructor; [split; reflexivity|]). constructor.
Qed.

Lemma defaults_unassigned c : unassigned (set_defaults c) = unassigned c.
Proof.
  unfold set_defaults.
  assert (forall l c, (forall it, In it l -> In it config_lookup) ->
    unassigned (fold_left (fun c it => set_default it c) l c) = unassigned c) as H.
  { clear c. intros l. induction l as [|it l IH]; intros c Hl; [done|]. cbn [fold_left].
    rewrite IH by (intros; apply Hl; by right).
    apply assign_unassigned, Hl. by left. }
  by apply H.
Qed.

Lemma key_value_unassigned it t c r :
  In it config_lookup -> key_value it t c = Some r -> unassigned (fst (fst r)) = unassigned c.
Proof.
  intros Hin. unfold key_value.
  destruct (get_token None t) as [[e|] t1].
  - destruct (arr (line t1) e =? chr "=").
    + destruct (get_token None t1) as [[v|] t2].
      * intros [= <-]. by apply assign_unassigned.
      * by destruct (sersendf _ _); intros [= <-].
    + by destruct (sersendf _ _); intros [= <-].
  - by destruct (sersendf _ _); intros [= <-].
Qed.

Lemma config_line_unassigned l t c r :
  config_line l t c = Some r -> unassigned (fst (fst r)) = unassigned c.
Proof.
  unfold config_line. destruct (get_token _ t) as [[n|] t1]; [|by intros [= <-]].
  destruct (arr (line t1) n =? chr "#"); [by intros [= <-]|].
  destruct (find_key _) as [it|] eqn:Hk.
  - apply key_value_unassigned. unfold find_key in Hk. apply List.find_some in Hk. apply Hk.
  - by destruct (sersendf _ _); intros [= <-].
Qed.

Lemma config_lines_total fuel file t c out :
  (length file < fuel)%nat ->
  exists c' out', config_lines fuel file t c out = Some (c', out') /\ unassigned c' = unassigned c.
Proof.
  revert file t c out. induction fuel as [|fuel IH]; intros file t c out Hf; [lia|].
  cbn [config_lines]. destruct (f_gets 80 file) as [[l rest]|] eqn:Hg; [|by eexists _, _].
  destruct (f_gets_spec 80 file l rest ltac:(lia) Hg) as [Hl Hr].
  destruct (config_line_total l t c ltac:(lia)) as [[[c1 t1] o] Hc]. rewrite Hc.
  pose proof (config_line_unassigned _ _ _ _ Hc) as Hu. cbn [fst] in Hu.
  destruct (IH rest t1 c1 (out ++ o) ltac:(lia)) as (c' & out' & E & U).
  exists c', out'. split; [done|congruence].
Qed.

(** C27: Reading the configuration always ends: for every content of config.txt
    (or none) the loop over its lines stops after finitely many of them and
    every message fits the writer. But no file and no default ever sets the
    network addresses, the document root or the second dump coordinate: the
    address and string keys have a declared default that is never assigned,
    and the key dump_pos_y is bound to the variable of dump_pos_x. *)
Theorem read_config_total (config_txt : option (list Z)) (c : configuration) :
  exists c' out, read_config_txt config_txt c = Some (c', out) /\
    ipaddr c' = ipaddr c /\ ipmask c' = ipmask c /\ ipgw c' = ipgw c /\
    httpd_docroot c' = httpd_docroot c /\ dump_pos_y c' = dump_pos_y c.
Proof.
  assert (exists c' out, read_config_txt config_txt c = Some (c', out) /\
    unassigned c' = unassigned c) as (c' & out & E & U).
  { unfold read_config_txt. destruct config_txt as [file|].
    - destruct (config_lines_total (S (length file)) file (mk_tok [] None 0) (set_defaults c) []
        ltac:(lia)) as (c' & out & E & U).
      exists c', out. split; [exact E|]. by rewrite U, defaults_unassigned.
    - exists (set_defaults c), []. split; [done|apply defaults_unassigned]. }
  exists c', out. unfold unassigned in U. injection U as -> -> -> -> _ ->. done.
Qed.

(** ** Numbers with a decimal point *)

Lemma atod_int_exact l acc :
  Forall (fun c => isdigit c = true) l -> 0 <= acc ->
  (acc + 1) * 10 ^ Z.of_nat (length l) < 2 ^ 53 ->
  atod_int (d_of_Z acc) l = (d_of_Z (fold_left (fun a c => 10 * a + (c - c0)) l acc), []).
Proof.
  intros Hl. revert acc. induction Hl as [|c l Hc _ IH]; intros acc Ha Hb; [done|].
  cbn [atod_int fold_left length] in *.
  pose proof (isdigit_range c Hc). change c0 with 48 in *.
  destruct (Z.eqb_spec c (chr ".")) as [->|_]; [by vm_compute in Hc|].
  rewrite Nat2Z.inj_succ, Z.pow_succ_r in Hb by lia.
  assert (1 <= 10 ^ Z.of_nat (length l)) by (pose proof (Z.pow_pos_nonneg 10 (Z.of_nat (length l))); lia).
  rewrite dmul_exact by nia. rewrite dadd_exact by nia.
  replace (acc * 10 + (c - 48)) with (10 * acc + (c - 48)) by lia.
  apply IH; [lia|]. nia.
Qed.


