(* ===== verification/Planner.v ===== *)
(** * The motion planner (libraries/grbl/src/planner.c)

    The ring of blocks, the junction-speed passes, the trapezoid calculation
    and the operations that append a block. The operations that wait for a free
    slot or wake the stepper are completed in Motion.v; here are the parts of
    planner.c that run without the stepper. *)

From S2P Require Import Prelude CDouble MotionTypes Config.

Definition BLOCK_BUFFER_SIZE : Z := 5.
Definition NUM_AXES : Z := 4.
Definition X_AXIS : Z := 0.
Definition Y_AXIS : Z := 1.
Definition Z_AXIS : Z := 2.
Definition E_AXIS : Z := 3.
Definition X_DIRECTION_BIT : Z := 23.
Definition Y_DIRECTION_BIT : Z := 26.
Definition Z_DIRECTION_BIT : Z := 0.
Definition E_DIRECTION_BIT : Z := 11.
Definition ACCELERATION_TICKS_PER_SECOND : Z := 1000.
Definition MINIMUM_PLANNER_SPEED : double := d0.

(** The static variables. [previous_unit_vec] holds the X, Y and Z components:
    the copied fourth one is never set or read. *)
Record planner := mk_planner {
  block_buffer : list block_t;
  block_buffer_head : Z;
  block_buffer_tail : Z;
  position : list Z;
  previous_unit_vec : list double;
  previous_nominal_speed : double;
  acceleration_manager_enabled : Z;
  startpoint : tTarget
}.

#[export] Instance eta_planner : Eta planner := fun p =>
  mk_planner (block_buffer p) (block_buffer_head p) (block_buffer_tail p) (position p)
    (previous_unit_vec p) (previous_nominal_speed p) (acceleration_manager_enabled p)
    (startpoint p).

(** The zero-initialised variables. *)
Definition planner_start : planner :=
  mk_planner (repeat zero_block 5) 0 0 [0; 0; 0; 0] [d0; d0; d0] d0 0 zero_target.

Definition next_block_index (block_index : Z) : Z :=
  let i := i8 (block_index + 1) in if i =? BLOCK_BUFFER_SIZE then 0 else i.

Definition prev_block_index (block_index : Z) : Z :=
  i8 ((if block_index =? 0 then BLOCK_BUFFER_SIZE else block_index) - 1).

(** [block_buffer[i]], read and updated. *)
Definition block_at (buf : list block_t) (i : Z) : block_t := nth (Z.to_nat i) buf zero_block.
Definition upd_block (i : Z) (f : block_t -> block_t) (buf : list block_t) : list block_t :=
  set_arr buf i (f (block_at buf i)).

(** ** Speeds and distances *)

Definition estimate_acceleration_distance (initial_rate target_rate acc : double) : double :=
  ddiv (dsub (dmul target_rate target_rate) (dmul initial_rate initial_rate))
       (dmul (d_of_Z 2) acc).

Definition intersection_distance (initial_rate final_rate acc distance : double) : double :=
  ddiv (dadd (dsub (dmul (dmul (d_of_Z 2) acc) distance) (dmul initial_rate initial_rate))
             (dmul final_rate final_rate))
       (dmul (d_of_Z 4) acc).

Definition max_allowable_speed (acc target_velocity distance : double) : double :=
  dsqrt (dsub (dmul target_velocity target_velocity)
    (dmul (dmul (dmul (dmul (d_of_Z 2) acc) (d_of_Z 60)) (d_of_Z 60)) distance)).

(** ** The reverse and forward passes

    A [block_t] pointer is the index of a block of the ring, [None] for NULL. *)

Definition planner_reverse_pass_kernel (cfg : configuration)
  (previous current next : option Z) (buf : list block_t) : list block_t :=
  match current, next with
  | Some c, Some n =>
      let cur := block_at buf c in
      let nxt := block_at buf n in
      if negb (deqb (entry_speed cur) (max_entry_speed cur)) then
        let v :=
          if negb (nominal_length_flag cur) && dgtb (max_entry_speed cur) (entry_speed nxt)
          then dmin (max_entry_speed cur)
                 (max_allowable_speed (dopp (acceleration cfg)) (entry_speed nxt)
                    (millimeters cur))
          else max_entry_speed cur in
        upd_block c (fun b => b <| entry_speed := v |> <| recalculate_flag := true |>) buf
      else buf
  | _, _ => buf
  end.

(** The loop state: the index, the window of three pointers, the ring. *)
Record pass := mk_pass {
  block_index : Z;
  w0 : option Z;
  w1 : option Z;
  w2 : option Z;
  ring : list block_t
}.

Definition reverse_body (cfg : configuration) (s : pass) : pass :=
  let i := prev_block_index (block_index s) in
  let b2 := w1 s in
  let b1 := w0 s in
  let b0 := Some i in
  mk_pass i b0 b1 b2 (planner_reverse_pass_kernel cfg b0 b1 b2 (ring s)).

Definition planner_reverse_pass (cfg : configuration) (p : planner) : option planner :=
  s ← while_loop (S (Z.to_nat BLOCK_BUFFER_SIZE))
        (fun s => negb (block_index s =? block_buffer_tail p)) (reverse_body cfg)
        (mk_pass (i8 (block_buffer_head p)) None None None (block_buffer p));
  Some (p <| block_buffer := ring s |>).

Definition planner_forward_pass_kernel (cfg : configuration)
  (previous current next : option Z) (buf : list block_t) : list block_t :=
  match previous, current with
  | Some p, Some c =>
      let prev := block_at buf p in
      let cur := block_at buf c in
      if negb (nominal_length_flag prev) then
        if dltb (entry_speed prev) (entry_speed cur) then
          let v := dmin (entry_speed cur)
                     (max_allowable_speed (dopp (acceleration cfg)) (entry_speed prev)
                        (millimeters prev)) in
          if negb (deqb (entry_speed cur) v) then
            upd_block c (fun b => b <| entry_speed := v |> <| recalculate_flag := true |>) buf
          else buf
        else buf
      else buf
  | _, _ => buf
  end.

Definition forward_body (cfg : configuration) (s : pass) : pass :=
  let b0 := w1 s in
  let b1 := w2 s in
  let b2 := Some (block_index s) in
  mk_pass (next_block_index (block_index s)) b0 b1 b2
    (planner_forward_pass_kernel cfg b0 b1 b2 (ring s)).

Definition planner_forward_pass (cfg : configuration) (p : planner) : option planner :=
  s ← while_loop (S (Z.to_nat BLOCK_BUFFER_SIZE))
        (fun s => negb (block_index s =? block_buffer_head p)) (forward_body cfg)
        (mk_pass (i8 (block_buffer_tail p)) None None None (block_buffer p));
  Some (p <| block_buffer := planner_forward_pass_kernel cfg (w1 s) (w2 s) None (ring s) |>).

(** ** Trapezoids *)

(** The steps per minute squared of the block's rate change. *)
Definition acceleration_per_minute (b : block_t) : Z :=
  d2i32 (dmul (d_of_Z (i32 (rate_delta b * ACCELERATION_TICKS_PER_SECOND))) (d_of_Z 60)).

(** A rate of the profile: the nominal rate times the entry or exit factor. *)
Definition profile_rate (b : block_t) (factor : double) : Z :=
  d2u32 (d_ceil (dmul (d_of_Z (nominal_rate b)) factor)).

(** The steps the ramps would need to and from the nominal rate. *)
Definition ramp_up_steps (b : block_t) (initial : Z) : Z :=
  d2i32 (d_ceil (estimate_acceleration_distance (d_of_Z initial) (d_of_Z (nominal_rate b))
                   (d_of_Z (acceleration_per_minute b)))).
Definition ramp_down_steps (b : block_t) (final : Z) : Z :=
  d2i32 (d_floor (estimate_acceleration_distance (d_of_Z (nominal_rate b)) (d_of_Z final)
                    (d_of_Z (i32 (- acceleration_per_minute b))))).

Definition calculate_trapezoid_for_block (b : block_t) (entry_factor exit_factor : double)
  : block_t :=
  let initial := profile_rate b entry_factor in
  let final := profile_rate b exit_factor in
  let accelerate_steps := ramp_up_steps b initial in
  let decelerate_steps := ramp_down_steps b final in
  let plateau_steps :=
    i32 (i32 (step_event_count b - accelerate_steps) - decelerate_steps) in
  let '(accelerate_steps, plateau_steps) :=
    if plateau_steps <? 0 then
      let a := d2i32 (d_ceil (intersection_distance (d_of_Z initial) (d_of_Z final)
                 (d_of_Z (acceleration_per_minute b)) (d_of_Z (step_event_count b)))) in
      (Z.min (Z.max a 0) (step_event_count b), 0)
    else (accelerate_steps, plateau_steps) in
  b <| initial_rate := initial |> <| final_rate := final |>
    <| accelerate_until := u32 accelerate_steps |>
    <| decelerate_after := u32 (i32 (accelerate_steps + plateau_steps)) |>.

Record traps := mk_traps { t_index : Z; t_next : option Z; t_ring : list block_t }.

Definition trapezoid_body (s : traps) : traps :=
  let current := t_next s in
  let n := t_index s in
  let buf :=
    match current with
    | None => t_ring s
    | Some c =>
        let cur := block_at (t_ring s) c in
        let nxt := block_at (t_ring s) n in
        if recalculate_flag cur || recalculate_flag nxt then
          upd_block c (fun b =>
            (calculate_trapezoid_for_block b
              (ddiv (entry_speed cur) (nominal_speed cur))
              (ddiv (entry_speed nxt) (nominal_speed cur))) <| recalculate_flag := false |>)
            (t_ring s)
        else t_ring s
    end in
  mk_traps (next_block_index n) (Some n) buf.

(** After the loop [next] is dereferenced; [None] when it is still NULL. *)
Definition planner_recalculate_trapezoids (p : planner) : option planner :=
  s ← while_loop (S (Z.to_nat BLOCK_BUFFER_SIZE))
        (fun s => negb (t_index s =? block_buffer_head p)) trapezoid_body
        (mk_traps (i8 (block_buffer_tail p)) None (block_buffer p));
  n ← t_next s;
  Some (p <| block_buffer := upd_block n (fun b =>
    (calculate_trapezoid_for_block b
      (ddiv (entry_speed b) (nominal_speed b))
      (ddiv MINIMUM_PLANNER_SPEED (nominal_speed b))) <| recalculate_flag := false |>)
    (t_ring s) |>).

Definition planner_recalculate (cfg : configuration) (p : planner) : option planner :=
  p ← planner_reverse_pass cfg p;
  p ← planner_forward_pass cfg p;
  planner_recalculate_trapezoids p.

(** ** The queue *)

Definition plan_discard_current_block (p : planner) : planner :=
  if negb (block_buffer_head p =? block_buffer_tail p)
  then p <| block_buffer_tail := u8 (next_block_index (i8 (block_buffer_tail p))) |>
  else p.

(** The pointer returned is the index of the tail block. *)
Definition plan_get_current_block (p : planner) : option Z :=
  if block_buffer_head p =? block_buffer_tail p then None else Some (block_buffer_tail p).

Definition plan_queue_full (p : planner) : Z :=
  if block_buffer_tail p =? next_block_index (i8 (block_buffer_head p)) then 1 else 0.

Definition plan_queue_empty (p : planner) : Z :=
  if block_buffer_head p =? block_buffer_tail p then 1 else 0.

Definition plan_is_acceleration_manager_enabled (p : planner) : Z :=
  acceleration_manager_enabled p.

Definition calc_inverse_minute (invert : bool) (feed inverse_millimeters : double) : double :=
  if negb invert then dmul feed inverse_millimeters else ddiv d1 feed.

(** ** A new move *)

(** The four absolute step targets of [plan_buffer_line]. *)
Definition target_steps (cfg : configuration) (t : tTarget) : list Z :=
  [ lround (dmul (tx t) (steps_per_mm_x cfg));
    lround (dmul (ty t) (steps_per_mm_y cfg));
    lround (dmul (tz t) (steps_per_mm_z cfg));
    lround (dmul (te t) (steps_per_mm_e cfg)) ].

(** Direction bits, step counts and event count of the block. *)
Definition set_steps (tgt pos : list Z) (b : block_t) : block_t :=
  let dir (axis dbit : Z) : Z := if arr tgt axis <? arr pos axis then bit dbit else 0 in
  let steps (axis : Z) : Z := u32 (Z.abs (i32 (arr tgt axis - arr pos axis))) in
  let xyz := Z.max (steps X_AXIS) (Z.max (steps Y_AXIS) (steps Z_AXIS)) in
  mk_block AT_MOVE (steps X_AXIS) (steps Y_AXIS) (steps Z_AXIS) (steps E_AXIS)
    (Z.lor (Z.lor (Z.lor (dir X_AXIS X_DIRECTION_BIT) (dir Y_AXIS Y_DIRECTION_BIT))
       (dir Z_AXIS Z_DIRECTION_BIT)) (dir E_AXIS E_DIRECTION_BIT))
    (i32 (u32 (Z.max (u32 (i32 xyz)) (steps E_AXIS))))
    (nominal_rate b) (nominal_speed b) (entry_speed b) (max_entry_speed b) (millimeters b)
    (recalculate_flag b) (nominal_length_flag b) (initial_rate b) (final_rate b)
    (rate_delta b) (accelerate_until b) (decelerate_after b) (check_endstops b).

(** The path vector in millimetres. *)
Definition delta_mm (cfg : configuration) (tgt pos : list Z) : list double :=
  let d (axis : Z) (steps_per_mm : double) : double :=
    ddiv (d_of_Z (i32 (arr tgt axis - arr pos axis))) steps_per_mm in
  [ d X_AXIS (steps_per_mm_x cfg); d Y_AXIS (steps_per_mm_y cfg);
    d Z_AXIS (steps_per_mm_z cfg); d E_AXIS (steps_per_mm_e cfg) ].

Definition darr (l : list double) (i : Z) : double := nth (Z.to_nat i) l d0.

Definition square (x : double) : double := dmul x x.

(** The length of the move: of an extruder-only move, the extruder's. *)
Definition move_length (d : list double) : double :=
  let mm := dsqrt (dadd (dadd (square (darr d X_AXIS)) (square (darr d Y_AXIS)))
                        (square (darr d Z_AXIS))) in
  if deqb mm d0 then dabs (darr d E_AXIS) else mm.

(** One axis of the speed limit: the factor of an axis that is too fast
    replaces a larger one. *)
Definition limit_axis (speed : double) (maximum : Z) (speed_factor : double) : double :=
  if dgtb (dabs speed) (d_of_Z maximum) then
    let tmp := ddiv (d_of_Z maximum) (dabs speed) in
    if dgtb speed_factor tmp then tmp else speed_factor
  else speed_factor.

(** The X axis comes first and assigns its factor without a comparison. *)
Definition speed_limit (cfg : configuration) (d : list double) (multiplier : double) : double :=
  let speed_x := dmul (darr d X_AXIS) multiplier in
  let f :=
    if dgtb (dabs speed_x) (d_of_Z (maximum_feedrate_x cfg))
    then ddiv (d_of_Z (maximum_feedrate_x cfg)) (dabs speed_x) else d1 in
  let f := limit_axis (dmul (darr d Y_AXIS) multiplier) (maximum_feedrate_y cfg) f in
  let f := limit_axis (dmul (darr d Z_AXIS) multiplier) (maximum_feedrate_z cfg) f in
  limit_axis (dmul (darr d E_AXIS) multiplier) (maximum_feedrate_e cfg) f.

(** Length, nominal speed and nominal rate, limited per axis, and the rate
    change per acceleration tick. *)
Definition set_rates (cfg : configuration) (d : list double) (feed : double) (b : block_t)
  : block_t :=
  let mm := move_length d in
  let inverse_millimeters := ddiv d1 mm in
  let microseconds :=
    d_of_Z (lround (dmul (dmul (ddiv mm feed) (d_of_Z 60)) (d_of_Z 1000000))) in
  let multiplier := ddiv (dmul (d_of_Z 60) (d_of_Z 1000000)) microseconds in
  let multiplier := dmul multiplier (speed_limit cfg d multiplier) in
  let count := d_of_Z (step_event_count b) in
  mk_block (action_type b) (steps_x b) (steps_y b) (steps_z b) (steps_e b)
    (direction_bits b) (step_event_count b)
    (d2u32 (d_ceil (dmul count multiplier)))
    (dmul mm multiplier)
    (entry_speed b) (max_entry_speed b) mm (recalculate_flag b) (nominal_length_flag b)
    (initial_rate b) (final_rate b)
    (d2i32 (d_ceil (ddiv (dmul (dmul (dmul count inverse_millimeters)
      (acceleration cfg)) (d_of_Z 60)) (d_of_Z ACCELERATION_TICKS_PER_SECOND))))
    (accelerate_until b) (decelerate_after b) (check_endstops b).

(** The speed limit at the junction with the previous move. *)
Definition junction_speed (cfg : configuration) (p : planner) (unit_vec : list double)
  (nominal : double) : double :=
  if negb (block_buffer_head p =? block_buffer_tail p) && dgtb (previous_nominal_speed p) d0 then
    let prev := previous_unit_vec p in
    let cos_theta :=
      dsub (dsub (dmul (dopp (darr prev X_AXIS)) (darr unit_vec X_AXIS))
                 (dmul (darr prev Y_AXIS) (darr unit_vec Y_AXIS)))
           (dmul (darr prev Z_AXIS) (darr unit_vec Z_AXIS)) in
    if dltb cos_theta (d_lit 95 100) then
      let vmax := dmin (previous_nominal_speed p) nominal in
      if dgtb cos_theta (dopp (d_lit 95 100)) then
        let sin_theta_d2 := dsqrt (dmul (d_lit 5 10) (dsub d1 cos_theta)) in
        dmin vmax (dsqrt (ddiv (dmul (dmul (dmul (dmul (acceleration cfg) (d_of_Z 60))
          (d_of_Z 60)) (junction_deviation cfg)) sin_theta_d2) (dsub d1 sin_theta_d2)))
      else vmax
    else MINIMUM_PLANNER_SPEED
  else MINIMUM_PLANNER_SPEED.

(** The acceleration-management fields, or the constant-rate profile. *)
Definition set_profile (cfg : configuration) (p : planner) (d : list double) (b : block_t)
  : block_t * planner :=
  if c_true (acceleration_manager_enabled p) then
    let inverse_millimeters := ddiv d1 (millimeters b) in
    let unit_vec := [ dmul (darr d X_AXIS) inverse_millimeters;
                      dmul (darr d Y_AXIS) inverse_millimeters;
                      dmul (darr d Z_AXIS) inverse_millimeters ] in
    let vmax_junction := junction_speed cfg p unit_vec (nominal_speed b) in
    let v_allowable := max_allowable_speed (dopp (acceleration cfg)) MINIMUM_PLANNER_SPEED
                         (millimeters b) in
    (mk_block (action_type b) (steps_x b) (steps_y b) (steps_z b) (steps_e b)
       (direction_bits b) (step_event_count b) (nominal_rate b) (nominal_speed b)
       (dmin vmax_junction v_allowable) vmax_junction (millimeters b) true
       (dleb (nominal_speed b) v_allowable) (initial_rate b) (final_rate b)
       (rate_delta b) (accelerate_until b) (decelerate_after b) (check_endstops b),
     p <| previous_unit_vec := unit_vec |> <| previous_nominal_speed := nominal_speed b |>)
  else
    (mk_block (action_type b) (steps_x b) (steps_y b) (steps_z b) (steps_e b)
       (direction_bits b) (step_event_count b) (nominal_rate b) (nominal_speed b)
       (entry_speed b) (max_entry_speed b) (millimeters b) (recalculate_flag b)
       (nominal_length_flag b) (nominal_rate b) (nominal_rate b) 0 0
       (u32 (step_event_count b)) (check_endstops b), p).

(** [plan_buffer_line] after the wait for a free slot: the new planner and
    whether a block was queued. [pAction->ActionType], set at the end, belongs
    to a request that is a local variable of every caller. *)
Definition plan_line (cfg : configuration) (pAction : tActionRequest) (p : planner)
  : option (planner * bool) :=
  let tgt := target_steps cfg (target pAction) in
  let next_buffer_head := next_block_index (i8 (block_buffer_head p)) in
  let h := block_buffer_head p in
  let b := set_steps tgt (position p) (block_at (block_buffer p) h) in
  if step_event_count b =? 0 then
    Some (p <| block_buffer := set_arr (block_buffer p) h b |>, false)
  else
    let d := delta_mm cfg tgt (position p) in
    let b := set_rates cfg d (feed_rate (target pAction)) b in
    let '(b, p) := set_profile cfg p d b in
    let b := b <| check_endstops := negb (bool_decide (ActionType pAction = AT_MOVE)) |> in
    let p := p <| block_buffer := set_arr (block_buffer p) h b |>
               <| block_buffer_head := u8 next_buffer_head |>
               <| position := tgt |>
               <| startpoint := target pAction |> in
    p ← (if c_true (acceleration_manager_enabled p) then planner_recalculate cfg p else Some p);
    Some (p, true).

(** [plan_buffer_wait] after the wait for a free slot: fields that are not
    assigned keep the values of the slot's last move. *)
Definition plan_wait (cfg : configuration) (pAction : tActionRequest) (p : planner)
  : option planner :=
  let next_buffer_head := next_block_index (i8 (block_buffer_head p)) in
  let h := block_buffer_head p in
  let b := block_at (block_buffer p) h in
  let b := mk_block (ActionType pAction) (steps_x b) (steps_y b) (steps_z b) (steps_e b)
    (direction_bits b) 1000 (20 * 60) (d_of_Z 600) (d_of_Z 600) (max_entry_speed b)
    (d_of_Z 10) (recalculate_flag b) (nominal_length_flag b) (20 * 60) (20 * 60) 0 0 1000
    (check_endstops b) in
  let p := p <| block_buffer := set_arr (block_buffer p) h b |>
             <| block_buffer_head := u8 next_buffer_head |> in
  if c_true (acceleration_manager_enabled p) then planner_recalculate cfg p else Some p.

(** ** Position and feed rate *)

Definition plan_set_current_position (cfg : configuration) (new_position : tTarget)
  (p : planner) : planner :=
  p <| startpoint := new_position |>
    <| position := target_steps cfg new_position |>
    <| previous_nominal_speed := d0 |>
    <| previous_unit_vec := [d0; d0; d0] |>.

Definition plan_set_current_position_xyz (cfg : configuration) (x y z : double)
  (p : planner) : planner :=
  plan_set_current_position cfg
    ((startpoint p) <| tx := x |> <| ty := y |> <| tz := z |>) p.

Definition plan_set_feed_rate (new_position : tTarget) (p : planner) : planner :=
  p <| startpoint := (startpoint p) <| feed_rate := feed_rate new_position |>
         <| invert_feed_rate := invert_feed_rate new_position |> |>.

(** ** Well-formed planners and their queue *)

Definition planner_wf (p : planner) : Prop :=
  length (block_buffer p) = 5%nat /\ 0 <= block_buffer_head p < 5 /\
  0 <= block_buffer_tail p < 5 /\ length (position p) = 4%nat /\
  Forall (fun z => - 2 ^ 31 <= z < 2 ^ 31) (position p).

(** Number of queued blocks and the slot of the k-th. *)
Definition queue_length (p : planner) : Z := (block_buffer_head p - block_buffer_tail p) mod 5.
Definition queue_slot (p : planner) (k : Z) : Z := (block_buffer_tail p + k) mod 5.

(** The queue, oldest block first. *)
Definition queue (p : planner) : list block_t :=
  map (fun k => block_at (block_buffer p) (queue_slot p (Z.of_nat k)))
      (seq 0 (Z.to_nat (queue_length p))).

Lemma mod5 z : 0 <= z < 5 -> z mod 5 = z.
Proof. apply Z.mod_small. Qed.

Lemma next_index i : 0 <= i < 5 -> next_block_index (i8 i) = (i + 1) mod 5.
Proof.
  intros Hi. unfold next_block_index, BLOCK_BUFFER_SIZE. rewrite (i8_small i) by lia.
  rewrite i8_small by lia. destruct (Z.eqb_spec (i + 1) 5) as [->|]; [done|].
  rewrite Z.mod_small; lia.
Qed.

Lemma next_plain i : 0 <= i < 5 -> next_block_index i = (i + 1) mod 5.
Proof. intros Hi. rewrite <- next_index by done. by rewrite i8_small by lia. Qed.

Lemma prev_index i : 0 <= i < 5 -> prev_block_index i = (i - 1) mod 5.
Proof.
  intros Hi. unfold prev_block_index, BLOCK_BUFFER_SIZE.
  destruct (Z.eqb_spec i 0) as [->|]; [done|]. rewrite i8_small by lia. rewrite Z.mod_small; lia.
Qed.

Lemma queue_length_range p : 0 <= queue_length p < 5.
Proof. apply Z.mod_pos_bound. lia. Qed.

(** ** Rings related slot by slot *)

Definition ring_rel (P : block_t -> block_t -> Prop) (r r' : list block_t) : Prop :=
  length r' = length r /\ forall i, P (block_at r i) (block_at r' i).

Lemma block_at_upd r i f j :
  0 <= i -> 0 <= j -> (Z.to_nat i < length r)%nat ->
  block_at (upd_block i f r) j = if i =? j then f (block_at r i) else block_at r j.
Proof.
  intros Hi Hj Hl. unfold upd_block, set_arr. unfold block_at at 1. rewrite nth_lookup.
  destruct (Z.eqb_spec i j) as [->|Hn].
  - by rewrite list_lookup_insert_eq by lia.
  - rewrite list_lookup_insert_ne by lia. by rewrite <- nth_lookup.
Qed.

Lemma ring_rel_upd (P : block_t -> block_t -> Prop) r i f :
  (forall b, P b b) -> P (block_at r i) (f (block_at r i)) -> ring_rel P r (upd_block i f r).
Proof.
  intros Hr Hf. split; [unfold upd_block, set_arr; by rewrite length_insert|].
  intros j. unfold upd_block, set_arr. unfold block_at at 2. rewrite nth_lookup.
  destruct (decide (Z.to_nat i = Z.to_nat j)) as [E|E].
  - rewrite <- E. destruct (decide (Z.to_nat i < length r)%nat) as [Hl|Hl].
    + rewrite list_lookup_insert_eq by lia. cbn. unfold block_at at 1. rewrite <- E. exact Hf.
    + rewrite list_insert_ge by lia. rewrite <- nth_lookup. unfold block_at. rewrite E. apply Hr.
  - rewrite list_lookup_insert_ne by lia. rewrite <- nth_lookup. apply Hr.
Qed.

Lemma ring_rel_refl (P : block_t -> block_t -> Prop) r : (forall b, P b b) -> ring_rel P r r.
Proof. intros H. by split. Qed.

Lemma ring_rel_trans (P : block_t -> block_t -> Prop) r1 r2 r3 :
  (forall a b c, P a b -> P b c -> P a c) -> ring_rel P r1 r2 -> ring_rel P r2 r3 ->
  ring_rel P r1 r3.
Proof. intros HP [L1 H1] [L2 H2]. split; [congruence|]. intros i. by eapply HP. Qed.

(** What the recalculation leaves alone: everything but the entry speed, the
    recalculation flag and the trapezoid. *)
Definition same_job (b b' : block_t) : Prop :=
  action_type b' = action_type b /\ steps_x b' = steps_x b /\ steps_y b' = steps_y b /\
  steps_z b' = steps_z b /\ steps_e b' = steps_e b /\
  direction_bits b' = direction_bits b /\ step_event_count b' = step_event_count b /\
  check_endstops b' = check_endstops b /\ nominal_rate b' = nominal_rate b /\
  nominal_speed b' = nominal_speed b /\ max_entry_speed b' = max_entry_speed b /\
  millimeters b' = millimeters b /\ rate_delta b' = rate_delta b /\
  nominal_length_flag b' = nominal_length_flag b.

(** The entry speed does not exceed the junction limit. *)
Definition capped (b : block_t) : Prop := dltb (max_entry_speed b) (entry_speed b) = false.

Definition replanned (b b' : block_t) : Prop := same_job b b' /\ (capped b -> capped b').

Lemma replanned_refl b : replanned b b.
Proof. split; [repeat split|done]. Qed.

Lemma replanned_trans a b c : replanned a b -> replanned b c -> replanned a c.
Proof.
  unfold replanned, same_job. intros [H1 C1] [H2 C2].
  split; [split_and!; etransitivity; (apply H2 || apply H1)|tauto].
Qed.

#[local] Hint Resolve replanned_refl : core.

Lemma replanned_upd r i f :
  replanned (block_at r i) (f (block_at r i)) -> ring_rel replanned r (upd_block i f r).
Proof. apply ring_rel_upd. auto. Qed.

Lemma ring_replanned_refl r : ring_rel replanned r r.
Proof. apply ring_rel_refl. auto. Qed.

Lemma ring_replanned_trans r1 r2 r3 :
  ring_rel replanned r1 r2 -> ring_rel replanned r2 r3 -> ring_rel replanned r1 r3.
Proof. apply ring_rel_trans. apply replanned_trans. Qed.

(** ** The passes *)

Lemma capped_min (b : block_t) v :
  is_nan (entry_speed b) = false -> capped b ->
  dltb (max_entry_speed b) (dmin (entry_speed b) v) = false.
Proof.
  intros Hn Hc. unfold dmin. destruct (dltb (entry_speed b) v) eqn:E; [exact Hc|].
  destruct (dltb (max_entry_speed b) v) eqn:E2; [|done].
  unfold capped in Hc. by rewrite (dltb_le_trans _ _ _ E2 E Hn) in Hc.
Qed.

Lemma reverse_kernel_replanned cfg prev cur next r :
  ring_rel replanned r (planner_reverse_pass_kernel cfg prev cur next r).
Proof.
  unfold planner_reverse_pass_kernel.
  destruct cur as [c|], next as [n|]; try apply ring_replanned_refl.
  destruct (negb (deqb _ _)); [|apply ring_replanned_refl].
  apply replanned_upd. split; [repeat split|]. intros _. unfold capped. simpl.
  destruct (_ && _); [apply dmin_not_above|apply dltb_irrefl].
Qed.

Lemma forward_kernel_replanned cfg prev cur next r :
  ring_rel replanned r (planner_forward_pass_kernel cfg prev cur next r).
Proof.
  unfold planner_forward_pass_kernel.
  destruct prev as [c|], cur as [n|]; try apply ring_replanned_refl.
  destruct (negb (nominal_length_flag _)); [|apply ring_replanned_refl].
  destruct (dltb (entry_speed (block_at r c)) _) eqn:E; [|apply ring_replanned_refl].
  destruct (negb (deqb _ _)); [|apply ring_replanned_refl].
  apply replanned_upd. split; [repeat split|]. intros Hc.
  apply (capped_min (block_at r n)); [by eapply dltb_not_nan|exact Hc].
Qed.

Lemma trapezoid_replanned b en ex : replanned b (calculate_trapezoid_for_block b en ex).
Proof.
  unfold calculate_trapezoid_for_block. destruct (if _ <? 0 then _ else _).
  split; [repeat split|done].
Qed.

Lemma clear_flag_replanned b b' :
  replanned b b' -> replanned b (b' <| recalculate_flag := false |>).
Proof. intros H. exact H. Qed.

(** Walking the ring up or down from an index of the range reaches every other
    index within five steps. *)
Lemma walk_down i t : 0 <= i < 5 -> 0 <= t < 5 -> i <> t ->
  0 <= (i - 1) mod 5 < 5 /\ ((i - 1) mod 5 - t) mod 5 = (i - t) mod 5 - 1 /\ 0 < (i - t) mod 5.
Proof.
  intros Hi Ht Hn. assert (i = 0 \/ i = 1 \/ i = 2 \/ i = 3 \/ i = 4) as Hic by lia.
  assert (t = 0 \/ t = 1 \/ t = 2 \/ t = 3 \/ t = 4) as Htc by lia.
  destruct Hic as [->|[->|[->|[->| ->]]]], Htc as [->|[->|[->|[->| ->]]]];
    (done || (cbn; lia)).
Qed.

Lemma walk_up i h : 0 <= i < 5 -> 0 <= h < 5 -> i <> h ->
  0 <= (i + 1) mod 5 < 5 /\ (h - (i + 1) mod 5) mod 5 = (h - i) mod 5 - 1 /\ 0 < (h - i) mod 5.
Proof.
  intros Hi Hh Hn. assert (i = 0 \/ i = 1 \/ i = 2 \/ i = 3 \/ i = 4) as Hic by lia.
  assert (h = 0 \/ h = 1 \/ h = 2 \/ h = 3 \/ h = 4) as Hhc by lia.
  destruct Hic as [->|[->|[->|[->| ->]]]], Hhc as [->|[->|[->|[->| ->]]]];
    (done || (cbn; lia)).
Qed.

Lemma reverse_pass_spec cfg p :
  planner_wf p -> exists r, planner_reverse_pass cfg p = Some (p <| block_buffer := r |>) /\
    ring_rel replanned (block_buffer p) r.
Proof.
  intros (_ & Hh & Ht & _). unfold planner_reverse_pass.
  edestruct (while_loop_total (fun s => negb (block_index s =? block_buffer_tail p))
    (reverse_body cfg)
    (fun s => 0 <= block_index s < 5 /\ ring_rel replanned (block_buffer p) (ring s))
    (fun s => Z.to_nat ((block_index s - block_buffer_tail p) mod 5))) as (s & Hs & [_ Hr] & _);
    [| | |rewrite Hs; by eexists].
  - intros s [Hi Hr] Hc. assert (block_index s <> block_buffer_tail p) as Hne by lia.
    destruct (walk_down _ _ Hi Ht Hne) as (Hw & Hm & Hp).
    unfold reverse_body. cbn [block_index ring]. rewrite prev_index by done.
    split; [split; [done|]|rewrite Hm; lia].
    eapply ring_replanned_trans; [exact Hr|apply reverse_kernel_replanned].
  - cbn [block_index ring]. rewrite i8_small by lia. split; [done|apply ring_replanned_refl].
  - cbn [block_index]. pose proof (Z.mod_pos_bound (i8 (block_buffer_head p) - block_buffer_tail p) 5).
    unfold BLOCK_BUFFER_SIZE. lia.
Qed.

Lemma forward_pass_spec cfg p :
  planner_wf p -> exists r, planner_forward_pass cfg p = Some (p <| block_buffer := r |>) /\
    ring_rel replanned (block_buffer p) r.
Proof.
  intros (_ & Hh & Ht & _). unfold planner_forward_pass.
  edestruct (while_loop_total (fun s => negb (block_index s =? block_buffer_head p))
    (forward_body cfg)
    (fun s => 0 <= block_index s < 5 /\ ring_rel replanned (block_buffer p) (ring s))
    (fun s => Z.to_nat ((block_buffer_head p - block_index s) mod 5))) as (s & Hs & [_ Hr] & _);
    [| | |rewrite Hs; eexists; split; [reflexivity|]].
  - intros s [Hi Hr] Hc. assert (block_index s <> block_buffer_head p) as Hne by lia.
    destruct (walk_up _ _ Hi Hh Hne) as (Hw & Hm & Hp).
    unfold forward_body. cbn [block_index ring].
    rewrite next_plain by done.
    split; [split; [done|]|rewrite Hm; lia].
    eapply ring_replanned_trans; [exact Hr|apply forward_kernel_replanned].
  - cbn [block_index ring]. rewrite i8_small by lia. split; [done|apply ring_replanned_refl].
  - cbn [block_index]. pose proof (Z.mod_pos_bound (block_buffer_head p - i8 (block_buffer_tail p)) 5).
    unfold BLOCK_BUFFER_SIZE. lia.
  - eapply ring_replanned_trans; [exact Hr|apply forward_kernel_replanned].
Qed.

Lemma trapezoid_body_replanned s :
  ring_rel replanned (t_ring s) (t_ring (trapezoid_body s)).
Proof.
  unfold trapezoid_body. cbn [t_ring]. destruct (t_next s) as [c|]; [|apply ring_replanned_refl].
  destruct (_ || _); [|apply ring_replanned_refl].
  apply replanned_upd, clear_flag_replanned, trapezoid_replanned.
Qed.

Lemma trapezoids_spec p :
  planner_wf p -> block_buffer_head p <> block_buffer_tail p ->
  exists r, planner_recalculate_trapezoids p = Some (p <| block_buffer := r |>) /\
    ring_rel replanned (block_buffer p) r.
Proof.
  intros (_ & Hh & Ht & _) Hne. unfold planner_recalculate_trapezoids.
  edestruct (while_loop_total (fun s => negb (t_index s =? block_buffer_head p))
    trapezoid_body
    (fun s => 0 <= t_index s < 5 /\ ring_rel replanned (block_buffer p) (t_ring s) /\
       (t_next s = None -> t_index s = block_buffer_tail p))
    (fun s => Z.to_nat ((block_buffer_head p - t_index s) mod 5)))
    as (s & Hs & (_ & Hr & Hn) & Hc);
    [| | |rewrite Hs; cbn [mbind option_bind]].
  - intros s (Hi & Hr & _) Hc. assert (t_index s <> block_buffer_head p) as Hne2 by lia.
    destruct (walk_up _ _ Hi Hh Hne2) as (Hw & Hm & Hp).
    pose proof (trapezoid_body_replanned s) as Hb. unfold trapezoid_body in Hb |- *.
    cbn [t_index t_ring t_next] in *.
    rewrite next_plain by done.
    split; [|rewrite Hm; lia].
    split_and!; [lia|lia| |done]. eapply ring_replanned_trans; [exact Hr|exact Hb].
  - cbn [t_index t_ring t_next]. rewrite i8_small by lia.
    split_and!; [lia|lia|apply ring_replanned_refl|done].
  - cbn [t_index]. pose proof (Z.mod_pos_bound (block_buffer_head p - i8 (block_buffer_tail p)) 5).
    unfold BLOCK_BUFFER_SIZE. lia.
  - destruct (t_next s) as [n|]; [|specialize (Hn eq_refl); lia]. cbn [mbind option_bind].
    eexists. split; [reflexivity|].
    eapply ring_replanned_trans; [exact Hr|].
    apply replanned_upd, clear_flag_replanned, trapezoid_replanned.
Qed.

Lemma ring_wf p r :
  planner_wf p -> ring_rel replanned (block_buffer p) r -> planner_wf (p <| block_buffer := r |>).
Proof. intros (H1 & H2) [Hl _]. split; [simpl; lia|exact H2]. Qed.

Lemma recalculate_spec cfg p :
  planner_wf p -> block_buffer_head p <> block_buffer_tail p ->
  exists r, planner_recalculate cfg p = Some (p <| block_buffer := r |>) /\
    ring_rel replanned (block_buffer p) r.
Proof.
  intros Hwf Hne. unfold planner_recalculate.
  destruct (reverse_pass_spec cfg p Hwf) as (r1 & -> & R1). cbn [mbind option_bind].
  pose proof (ring_wf p r1 Hwf R1) as Hwf1.
  destruct (forward_pass_spec cfg _ Hwf1) as (r2 & -> & R2). cbn [mbind option_bind].
  pose proof (ring_wf _ r2 Hwf1 R2) as Hwf2.
  destruct (trapezoids_spec _ Hwf2 Hne) as (r3 & -> & R3).
  exists r3. split; [reflexivity|].
  eapply ring_replanned_trans; [exact R1|]. eapply ring_replanned_trans; [exact R2|exact R3].
Qed.

(** ** Queue operations *)

Ltac ring_cases h t :=
  let H := fresh in let G := fresh in
  assert (h = 0 \/ h = 1 \/ h = 2 \/ h = 3 \/ h = 4) as H by lia;
  assert (t = 0 \/ t = 1 \/ t = 2 \/ t = 3 \/ t = 4) as G by lia;
  destruct H as [->|[->|[->|[->| ->]]]], G as [->|[->|[->|[->| ->]]]].

Lemma queue_length_queue p : length (queue p) = Z.to_nat (queue_length p).
Proof. unfold queue. by rewrite length_map, length_seq. Qed.

Lemma queue_empty_iff p : planner_wf p -> queue p = [] <-> block_buffer_head p = block_buffer_tail p.
Proof.
  intros (_ & Hh & Ht & _). rewrite <- length_zero_iff_nil, queue_length_queue.
  unfold queue_length. revert Hh Ht. generalize (block_buffer_head p) (block_buffer_tail p).
  intros h t Hh Ht. ring_cases h t; vm_compute; split; intros; (reflexivity || discriminate).
Qed.

Lemma queue_full_iff p :
  planner_wf p -> plan_queue_full p = 1 <-> length (queue p) = 4%nat.
Proof.
  intros (_ & Hh & Ht & _). rewrite queue_length_queue. unfold plan_queue_full, queue_length.
  rewrite next_index by done. revert Hh Ht.
  generalize (block_buffer_head p) (block_buffer_tail p).
  intros h t Hh Ht. ring_cases h t; vm_compute; split; intros; (reflexivity || discriminate).
Qed.

Lemma queue_bound p : (length (queue p) <= 4)%nat.
Proof. rewrite queue_length_queue. pose proof (queue_length_range p). lia. Qed.

(** A recalculated ring holds a recalculated queue. *)
Lemma queue_ring_rel (P : block_t -> block_t -> Prop) p r :
  ring_rel P (block_buffer p) r -> Forall2 P (queue p) (queue (p <| block_buffer := r |>)).
Proof.
  intros [_ Hr]. unfold queue. simpl. change (queue_length _) with (queue_length p).
  induction (seq 0 (Z.to_nat (queue_length p))) as [|k ks IH]; [constructor|].
  cbn [map]. constructor; [apply Hr|exact IH].
Qed.

Lemma queue_push p b :
  planner_wf p -> plan_queue_full p = 0 ->
  let p' := p <| block_buffer := set_arr (block_buffer p) (block_buffer_head p) b |>
              <| block_buffer_head := u8 (next_block_index (i8 (block_buffer_head p))) |> in
  planner_wf p' /\ queue p' = queue p ++ [b] /\ block_buffer_head p' <> block_buffer_tail p'.
Proof.
  intros (Hl & Hh & Ht & Hp) Hf. destruct p as [r h t pos u v a s]. simpl in *.
  unfold plan_queue_full in Hf. simpl in Hf. rewrite next_index in * by done.
  rewrite u8_small by (pose proof (Z.mod_pos_bound (h + 1) 5); lia).
  split; [|split].
  - split; [simpl; unfold set_arr; by rewrite length_insert|].
    pose proof (Z.mod_pos_bound (h + 1) 5). simpl. repeat split; try lia; apply Hp.
  - do 5 (destruct r as [|? r]; [done|]). destruct r; [|done].
    ring_cases h t; try done; reflexivity.
  - ring_cases h t; done.
Qed.

Lemma queue_pop p b q :
  planner_wf p -> queue p = b :: q ->
  planner_wf (plan_discard_current_block p) /\ queue (plan_discard_current_block p) = q /\
  plan_get_current_block p = Some (block_buffer_tail p) /\
  block_at (block_buffer p) (block_buffer_tail p) = b.
Proof.
  intros Hwf Hq. pose proof Hwf as (Hl & Hh & Ht & Hp).
  assert (block_buffer_head p <> block_buffer_tail p) as Hne
    by (intros E; apply queue_empty_iff in E; [congruence|done]).
  unfold plan_discard_current_block, plan_get_current_block.
  destruct (Z.eqb_spec (block_buffer_head p) (block_buffer_tail p)); [done|]. cbn [negb].
  destruct p as [r h t pos u v a s]. simpl in *. rewrite next_index by done.
  rewrite u8_small by (pose proof (Z.mod_pos_bound (t + 1) 5); lia).
  split_and!.
  - split; [done|]. pose proof (Z.mod_pos_bound (t + 1) 5). simpl.
    repeat split; try lia; apply Hp.
  - do 5 (destruct r as [|? r]; [done|]). destruct r; [|done].
    ring_cases h t; try done; injection Hq as <- <-; reflexivity.
  - done.
  - do 5 (destruct r as [|? r]; [done|]). destruct r; [|done].
    ring_cases h t; try done; injection Hq as <- <-; reflexivity.
Qed.

Lemma set_slot_rel p b :
  planner_wf p -> ring_rel (fun x y => True) (block_buffer p) (set_arr (block_buffer p) (block_buffer_head p) b).
Proof. intros _. split; [unfold set_arr; by rewrite length_insert|done]. Qed.

(** A write to the free slot at the head does not touch the queue. *)
Lemma queue_free_slot p b :
  planner_wf p ->
  planner_wf (p <| block_buffer := set_arr (block_buffer p) (block_buffer_head p) b |>) /\
  queue (p <| block_buffer := set_arr (block_buffer p) (block_buffer_head p) b |>) = queue p.
Proof.
  intros (Hl & Hh & Ht & Hp). destruct p as [r h t pos u v a s]. simpl in *.
  split; [split; [simpl; unfold set_arr; by rewrite length_insert|exact (conj Hh (conj Ht Hp))]|].
  do 5 (destruct r as [|? r]; [done|]). destruct r; [|done].
  ring_cases h t; reflexivity.
Qed.

(** The block of a move before the recalculation. *)
Definition new_block (cfg : configuration) (pAction : tActionRequest) (p : planner) : block_t :=
  let tgt := target_steps cfg (target pAction) in
  let d := delta_mm cfg tgt (position p) in
  let b := set_rates cfg d (feed_rate (target pAction))
             (set_steps tgt (position p) (block_at (block_buffer p) (block_buffer_head p))) in
  (fst (set_profile cfg p d b))
    <| check_endstops := negb (bool_decide (ActionType pAction = AT_MOVE)) |>.

Definition move_count (cfg : configuration) (pAction : tActionRequest) (p : planner) : Z :=
  step_event_count (set_steps (target_steps cfg (target pAction)) (position p) zero_block).

Lemma set_steps_fields tgt pos b b' :
  let x := set_steps tgt pos b in let y := set_steps tgt pos b' in
  action_type x = AT_MOVE /\ steps_x x = steps_x y /\ steps_y x = steps_y y /\
  steps_z x = steps_z y /\ steps_e x = steps_e y /\ direction_bits x = direction_bits y /\
  step_event_count x = step_event_count y.
Proof. intros x y. subst x y. unfold set_steps. cbn [action_type steps_x steps_y steps_z steps_e direction_bits step_event_count]. done. Qed.

Lemma set_profile_frame cfg p d b :
  let '(b', p') := set_profile cfg p d b in
  block_buffer p' = block_buffer p /\ block_buffer_head p' = block_buffer_head p /\
  block_buffer_tail p' = block_buffer_tail p /\ position p' = position p /\
  startpoint p' = startpoint p /\
  acceleration_manager_enabled p' = acceleration_manager_enabled p /\
  action_type b' = action_type b /\ steps_x b' = steps_x b /\ steps_y b' = steps_y b /\
  steps_z b' = steps_z b /\ steps_e b' = steps_e b /\
  direction_bits b' = direction_bits b /\ step_event_count b' = step_event_count b.
Proof.
  unfold set_profile. destruct (c_true (acceleration_manager_enabled p)); repeat split.
Qed.

Lemma target_steps_range cfg t :
  length (target_steps cfg t) = 4%nat /\
  Forall (fun z => - 2 ^ 31 <= z < 2 ^ 31) (target_steps cfg t).
Proof. split; [done|]. repeat constructor; apply lround_range. Qed.

(** ** What [plan_buffer_line] and [plan_buffer_wait] do to the queue *)

Lemma plan_line_spec cfg pAction p :
  planner_wf p -> plan_queue_full p = 0 ->
  exists p' queued, plan_line cfg pAction p = Some (p', queued) /\ planner_wf p' /\
    acceleration_manager_enabled p' = acceleration_manager_enabled p /\
    block_buffer_tail p' = block_buffer_tail p /\
    if move_count cfg pAction p =? 0
    then queued = false /\ queue p' = queue p /\ position p' = position p /\
         startpoint p' = startpoint p
    else queued = true /\
      Forall2 replanned (queue p ++ [new_block cfg pAction p]) (queue p') /\
      position p' = target_steps cfg (target pAction) /\ startpoint p' = target pAction.
Proof.
  intros Hwf Hf. unfold plan_line, move_count.
  set (tgt := target_steps cfg (target pAction)).
  set (b0 := set_steps tgt (position p) (block_at (block_buffer p) (block_buffer_head p))).
  assert (step_event_count (set_steps tgt (position p) zero_block) = step_event_count b0) as ->
    by (apply (set_steps_fields tgt (position p) zero_block)).
  destruct (step_event_count b0 =? 0).
  - eexists _, _. split; [reflexivity|]. destruct (queue_free_slot p b0 Hwf) as [W Q].
    clearbody b0. split_and!; (exact W || exact Q || reflexivity).
  - set (d := delta_mm cfg tgt (position p)).
    set (b1 := set_rates cfg d (feed_rate (target pAction)) b0).
    assert (new_block cfg pAction p = (fst (set_profile cfg p d b1))
      <| check_endstops := negb (bool_decide (ActionType pAction = AT_MOVE)) |>) as Hnew by done.
    pose proof (set_profile_frame cfg p d b1) as HF.
    destruct (set_profile cfg p d b1) as [b2 p2]. cbn [fst] in Hnew.
    destruct HF as (F1 & F2 & F3 & F4 & F5 & F6 & _).
    set (b3 := b2 <| check_endstops := negb (bool_decide (ActionType pAction = AT_MOVE)) |>) in *.
    assert (planner_wf p2) as Hwf2 by (unfold planner_wf; rewrite F1, F2, F3, F4; exact Hwf).
    assert (plan_queue_full p2 = 0) as Hf2 by (unfold plan_queue_full; rewrite F2, F3; exact Hf).
    destruct (queue_push p2 b3 Hwf2 Hf2) as (W3 & Q3 & N3).
    rewrite F2 in W3, Q3, N3.
    set (p3 := _ <| startpoint := target pAction |>).
    assert (planner_wf p3) as W3'.
    { destruct W3 as (A & B & C & _). destruct (target_steps_range cfg (target pAction)) as [L R].
      exact (conj A (conj B (conj C (conj L R)))). }
    assert (queue p3 = queue p ++ [new_block cfg pAction p]) as Q3'.
    { rewrite Hnew. transitivity (queue p2 ++ [b3]); [exact Q3|].
      f_equal. unfold queue, queue_length, queue_slot. by rewrite F1, F2, F3. }
    change (acceleration_manager_enabled p3) with (acceleration_manager_enabled p2).
    rewrite F6. destruct (c_true (acceleration_manager_enabled p)).
    + destruct (recalculate_spec cfg p3 W3' N3) as (r & -> & R). cbn [mbind option_bind].
      eexists _, _. split; [reflexivity|]. split_and!; try done.
      * by apply ring_wf.
      * rewrite <- Q3'. by apply queue_ring_rel.
    + cbn [mbind option_bind]. eexists _, _. split; [reflexivity|]. split_and!; try done.
      rewrite <- Q3'. apply Forall2_same_length_lookup_2; [done|].
      intros i x y Hx Hy. rewrite Hx in Hy. injection Hy as ->. apply replanned_refl.
Qed.

Lemma plan_wait_spec cfg pAction p :
  planner_wf p -> plan_queue_full p = 0 ->
  exists p' b, plan_wait cfg pAction p = Some p' /\ planner_wf p' /\
    acceleration_manager_enabled p' = acceleration_manager_enabled p /\
    block_buffer_tail p' = block_buffer_tail p /\
    action_type b = ActionType pAction /\ step_event_count b = 1000 /\
    Forall2 replanned (queue p ++ [b]) (queue p') /\
    position p' = position p /\ startpoint p' = startpoint p.
Proof.
  intros Hwf Hf. unfold plan_wait.
  set (b := mk_block _ _ _ _ _ _ 1000 _ _ _ _ _ _ _ _ _ _ _ _ _).
  destruct (queue_push p b Hwf Hf) as (W & Q & N).
  set (p1 := _ <| block_buffer_head := _ |>) in *.
  change (acceleration_manager_enabled p1) with (acceleration_manager_enabled p).
  destruct (c_true (acceleration_manager_enabled p)).
  - destruct (recalculate_spec cfg p1 W N) as (r & -> & R).
    eexists _, b. split; [reflexivity|]. split_and!; try done.
    + by apply ring_wf.
    + rewrite <- Q. by apply queue_ring_rel.
  - eexists _, b. split; [reflexivity|]. split_and!; try done.
    rewrite <- Q. apply Forall2_same_length_lookup_2; [done|].
    intros i x y Hx Hy. rewrite Hx in Hy. injection Hy as ->. apply replanned_refl.
Qed.

(** ** The shape of a trapezoid *)

Lemma ramps_nonneg b f r :
  0 < rate_delta b <= 35000 -> 0 <= f <= nominal_rate b -> nominal_rate b < 2 ^ 26 ->
  0 <= r <= nominal_rate b -> 0 <= ramp_up_steps b f /\ 0 <= ramp_down_steps b r.
Proof.
  intros Hd Hf Hn Hr.
  assert (acceleration_per_minute b = rate_delta b * 60000) as Ha.
  { unfold acceleration_per_minute, ACCELERATION_TICKS_PER_SECOND.
    rewrite i32_small, dmul_exact, d2i32_of_Z by lia. lia. }
  unfold ramp_up_steps, ramp_down_steps. rewrite Ha, i32_small by lia.
  unfold estimate_acceleration_distance. rewrite !dmul_exact by nia.
  set (A := rate_delta b * 60000) in *.
  assert (0 < A < 2 ^ 40) as HA by lia.
  destruct (dsub_sign (nominal_rate b * nominal_rate b) (f * f)) as [S1 _]; [nia|nia|].
  destruct (dsub_sign (nominal_rate b * nominal_rate b) (r * r)) as [_ S2]; [nia|nia|].
  split; apply d2i32_nonneg; [apply d_ceil_sign|apply d_floor_sign].
  - apply (ddiv_sign false false); [exact S1|replace false with (2 * A <? 0) by lia; apply d_of_Z_sign|].
    intros z. destruct A as [|q|q]; try lia.
    change (2 * Z.pos q) with (Z.pos (2 * q)). by rewrite d_of_pos by (apply bits_53; lia).
  - destruct A as [|q|q]; try lia. change (- Z.pos q) with (Z.neg q).
    change (d_of_Z 2) with (d_of_Z (Z.pos 2)).
    rewrite dmul_neg_exact by (try apply bits_53; lia).
    by apply (ddiv_sign true true).
Qed.

(** C21: The speed profile of a block fits the block. For every block with a
    positive rate change and factors that do not raise the rates above the
    nominal one, both ramps have a length that is not negative, and, when their
    sum is representable, acceleration ends before deceleration begins and
    deceleration begins within the block:
    accelerate_until <= decelerate_after <= step_event_count. *)
Theorem trapezoid_fits_block (b : block_t) (en ex : double)
  (Hd : 0 < rate_delta b <= 35000) (Hn : nominal_rate b < 2 ^ 26)
  (Hc : 0 <= step_event_count b < 2 ^ 31)
  (Hen : profile_rate b en <= nominal_rate b) (Hex : profile_rate b ex <= nominal_rate b)
  (Hsum : ramp_up_steps b (profile_rate b en) + ramp_down_steps b (profile_rate b ex) < 2 ^ 31) :
  let b' := calculate_trapezoid_for_block b en ex in
  0 <= accelerate_until b' <= decelerate_after b' /\
  decelerate_after b' <= step_event_count b' /\
  initial_rate b' <= nominal_rate b' /\ final_rate b' <= nominal_rate b'.
Proof.
  assert (0 <= profile_rate b en) as E1 by apply d2u32_range.
  assert (0 <= profile_rate b ex) as E2 by apply d2u32_range.
  destruct (ramps_nonneg b _ _ Hd (conj E1 Hen) Hn (conj E2 Hex)) as [Hu Hdn].
  unfold calculate_trapezoid_for_block.
  set (u := ramp_up_steps b (profile_rate b en)) in *.
  set (d := ramp_down_steps b (profile_rate b ex)) in *.
  set (a := d2i32 (d_ceil (intersection_distance _ _ _ _))).
  rewrite (i32_small (step_event_count b - u)), i32_small by lia.
  destruct (Z.ltb_spec (step_event_count b - u - d) 0);
    cbn [accelerate_until decelerate_after step_event_count initial_rate final_rate nominal_rate
      update updater]; rewrite i32_small by lia; rewrite !u32_small by lia; lia.
Qed.

(** A block of a real move: 800 step events at 60000 steps per minute. *)
Definition sample_block : block_t :=
  mk_block AT_MOVE 800 0 0 0 0 800 60000 (d_of_Z 750) d0 d0 (d_of_Z 10) true false
    0 0 480 0 0 false.

Lemma trapezoid_fits_block_witness :
  profile_rate sample_block d0 = 0 /\
  accelerate_until (calculate_trapezoid_for_block sample_block d0 (d_lit 1 2))
  <= decelerate_after (calculate_trapezoid_for_block sample_block d0 (d_lit 1 2)) <= 800.
Proof.
  split; [vm_compute; reflexivity|].
  pose proof (trapezoid_fits_block sample_block d0 (d_lit 1 2)
    ltac:(cbn; lia) ltac:(cbn; lia) ltac:(cbn; lia)
    ltac:(vm_compute; discriminate) ltac:(vm_compute; discriminate)
    ltac:(vm_compute; reflexivity)) as (H1 & H2 & _).
  split; [exact (proj2 H1)|exact H2].
Defined.

(** ** The planner as a bounded queue of moves *)

(** C4: The block ring is a first-in first-out queue of at most four blocks.
    It is full exactly when it holds four. With room in it, [plan_buffer_line]
    ends (each of its three passes over the ring does), and either drops a move
    without a single step or appends one block for it; the recalculation
    changes no step count, direction or limit of a queued block, and position
    and start point become those of the move. [plan_discard_current_block]
    removes the oldest block, the one [plan_get_current_block] returns. *)
Theorem planner_is_move_queue (cfg : configuration) (pAction : tActionRequest) (p : planner)
  (Hwf : planner_wf p) :
  (length (queue p) <= 4)%nat /\
  (plan_queue_full p = 1 <-> length (queue p) = 4%nat) /\
  (plan_queue_full p = 0 ->
   exists p' queued, plan_line cfg pAction p = Some (p', queued) /\ planner_wf p' /\
     if move_count cfg pAction p =? 0
     then queued = false /\ queue p' = queue p /\ position p' = position p
     else queued = true /\
       Forall2 same_job (queue p ++ [new_block cfg pAction p]) (queue p') /\
       position p' = target_steps cfg (target pAction) /\ startpoint p' = target pAction) /\
  (forall b q, queue p = b :: q ->
   option_map (block_at (block_buffer p)) (plan_get_current_block p) = Some b /\
   queue (plan_discard_current_block p) = q /\ planner_wf (plan_discard_current_block p)).
Proof.
  split; [apply queue_bound|]. split; [by apply queue_full_iff|]. split.
  - intros Hf. destruct (plan_line_spec cfg pAction p Hwf Hf)
      as (p' & queued & E & W & _ & _ & H).
    exists p', queued. split; [exact E|]. split; [exact W|].
    destruct (move_count cfg pAction p =? 0); [tauto|].
    destruct H as (H1 & H2 & H3). split; [exact H1|]. split; [|exact H3].
    revert H2. apply Forall2_impl. by intros x y [Hj _].
  - intros b q Hq. destruct (queue_pop p b q Hwf Hq) as (W & Q & G & B).
    rewrite G. cbn [option_map]. by rewrite B.
Qed.

Definition sample_config : configuration := set_defaults config_start.
Definition sample_planner : planner := planner_start <| acceleration_manager_enabled := 1 |>.
Definition sample_move (x y f : Z) : tActionRequest :=
  mk_request AT_MOVE (mk_target (d_of_Z x) (d_of_Z y) d0 d0 (d_of_Z f) 0).

Lemma sample_planner_wf : planner_wf sample_planner.
Proof. split; [done|]. repeat split; simpl; try lia. repeat constructor; lia. Qed.

Lemma planner_is_move_queue_witness :
  exists p', plan_line sample_config (sample_move 10 5 3000) sample_planner = Some (p', true) /\
    position p' = [800; 400; 0; 0].
Proof.
  destruct (planner_is_move_queue sample_config (sample_move 10 5 3000) sample_planner
    sample_planner_wf) as (_ & _ & H & _).
  destruct (H eq_refl) as (p' & queued & E & _ & Hm).
  assert ((move_count sample_config (sample_move 10 5 3000) sample_planner =? 0) = false) as Hc
    by (vm_compute; reflexivity).
  rewrite Hc in Hm. destruct Hm as (-> & _ & Hp & _).
  exists p'. split; [exact E|]. rewrite Hp. vm_compute. reflexivity.
Defined.

(** C18: No junction is taken faster than its limit. If every queued block's
    entry speed is at most its maximum junction speed, the same holds after a
    new move has been planned: the reverse and the forward pass only ever set
    an entry speed to the limit or below it, whatever the rounding, and a
    result that is not a number is never above the limit. *)
Theorem junction_speeds_capped (cfg : configuration) (pAction : tActionRequest) (p p' : planner)
  (queued : bool) (Hwf : planner_wf p) (Hroom : plan_queue_full p = 0)
  (Hacc : c_true (acceleration_manager_enabled p) = true)
  (Hcap : Forall capped (queue p)) (Hrun : plan_line cfg pAction p = Some (p', queued)) :
  Forall capped (queue p').
Proof.
  destruct (plan_line_spec cfg pAction p Hwf Hroom) as (p1 & q1 & E & _ & _ & _ & H).
  rewrite E in Hrun. injection Hrun as -> ->.
  destruct (move_count cfg pAction p =? 0); [by destruct H as (_ & -> & _)|].
  destruct H as (_ & H & _).
  assert (Forall capped (queue p ++ [new_block cfg pAction p])) as Hall.
  { apply Forall_app. split; [done|]. constructor; [|constructor].
    unfold new_block, set_profile, capped. rewrite Hacc. cbn [fst].
    apply dmin_not_above. }
  revert Hall. induction H as [|b b' l l' [_ Hb] _ IH]; intros Hall; [constructor|].
  inversion Hall; subst. constructor; auto.
Qed.

Lemma junction_speeds_capped_witness :
  exists p' p'', plan_line sample_config (sample_move 10 5 3000) sample_planner = Some (p', true) /\
    plan_line sample_config (sample_move 20 20 3000) p' = Some (p'', true) /\
    Forall capped (queue p'').
Proof.
  destruct (plan_line sample_config (sample_move 10 5 3000) sample_planner) as [[p' q]|] eqn:E1;
    [|by vm_compute in E1].
  destruct (plan_line sample_config (sample_move 20 20 3000) p') as [[p'' q']|] eqn:E2;
    [|vm_compute in E1; injection E1 as <- <-; by vm_compute in E2].
  exists p', p''.
  assert (q = true) as -> by (vm_compute in E1; by injection E1).
  assert (q' = true) as ->
    by (vm_compute in E1; injection E1 as <-; vm_compute in E2; by injection E2).
  split; [done|]. split; [done|].
  apply (junction_speeds_capped sample_config (sample_move 20 20 3000) p' p'' true).
  - vm_compute in E1. injection E1 as <-. split; [done|]. repeat split; simpl; try lia.
    repeat constructor; lia.
  - vm_compute in E1. injection E1 as <-. reflexivity.
  - vm_compute in E1. injection E1 as <-. reflexivity.
  - vm_compute in E1. injection E1 as <-. repeat constructor.
  - exact E2.
Defined.
