(* ===== verification/Stepper.v ===== *)
(** * The stepper interrupt (libraries/grbl/src/stepper.c)

    The Bresenham tracer, the trapezoid generator, the step pins and their
    flashing, and [st_interrupt], which executes the planner's blocks. The
    static variables are grouped by what they serve. Inputs the interrupt
    samples (the end stops and whether the extruder has reached its
    temperature) are arguments. *)

From S2P Require Import Prelude CDouble MotionTypes Config Hardware Planner.

Definition X_STEP_BIT : Z := 20.
Definition Y_STEP_BIT : Z := 25.
Definition Z_STEP_BIT : Z := 29.
Definition E_STEP_BIT : Z := 10.
Definition TICKS_PER_MICROSECOND : Z := 100000000 / 1000000.
Definition CYCLES_PER_ACCELERATION_TICK : Z :=
  TICKS_PER_MICROSECOND * 1000000 / ACCELERATION_TICKS_PER_SECOND.
Definition MINIMUM_STEPS_PER_MINUTE : Z := 1200.
Definition mm_per_sec_per_volt : Z := 200.

(** The LED state: the step pins double as LED outputs. *)
Record leds := mk_leds { led_count : list Z; led_on : Z; leds_enabled : Z }.
#[export] Instance eta_leds : Eta leds := fun l =>
  mk_leds (led_count l) (led_on l) (leds_enabled l).

(** The Bresenham counters and the bits of the current step event. *)
Record tracer := mk_tracer {
  counter_x : Z; counter_y : Z; counter_z : Z; counter_e : Z;
  step_events_completed : Z;
  step_bits_xyz : Z;
  step_bits_e : Z;
  out_direction : Z
}.
#[export] Instance eta_tracer : Eta tracer := fun t =>
  mk_tracer (counter_x t) (counter_y t) (counter_z t) (counter_e t)
    (step_events_completed t) (step_bits_xyz t) (step_bits_e t) (out_direction t).

(** The step rate. *)
Record speed := mk_speed {
  cycles_per_step_event : Z;
  trapezoid_tick_cycle_counter : Z;
  trapezoid_adjusted_rate : Z;
  min_safe_rate : Z;
  accel_flag : bool;
  dac_scale : Z
}.
#[export] Instance eta_speed : Eta speed := fun s =>
  mk_speed (cycles_per_step_event s) (trapezoid_tick_cycle_counter s)
    (trapezoid_adjusted_rate s) (min_safe_rate s) (accel_flag s) (dac_scale s).

(** [current_block] is the index of a block of the planner's ring, [None] for
    NULL. *)
Record stepper := mk_stepper {
  steptimeout : Z;
  st_leds : leds;
  current_block : option Z;
  st_trace : tracer;
  busy : bool;
  st_speed : speed
}.
#[export] Instance eta_stepper : Eta stepper := fun s =>
  mk_stepper (steptimeout s) (st_leds s) (current_block s) (st_trace s) (busy s) (st_speed s).

Definition stepper_start : stepper :=
  mk_stepper 0 (mk_leds [0; 0; 0; 0] 0 0) None (mk_tracer 0 0 0 0 0 0 0 0) false
    (mk_speed 0 0 0 0 false 0).

(** ** Hardware timers *)

Definition setHwTimerInterval (timer ticks : Z) : list hw_event := [TIM_MR0 timer ticks].
Definition enableHwTimer (timer : Z) : list hw_event := [TIM_Enable timer].
Definition disableHwTimer (timer : Z) : list hw_event := [TIM_Disable timer].
Definition setupHwTimer (timer : Z) : list hw_event := [TIM_Setup timer].

(** ** Pins *)

Definition inc_led_count (axis led_mask : Z) (l : leds) : leds :=
  let c := u8 (arr (led_count l) axis + 1) in
  if c =? 128
  then mk_leds (set_arr (led_count l) axis 0) (u8 (Z.lxor (led_on l) led_mask)) (leds_enabled l)
  else mk_leds (set_arr (led_count l) axis c) (led_on l) (leds_enabled l).

Definition direction_pin (dir_bits port pin : Z) : hw_event :=
  if c_true (Z.land dir_bits pin) then GPIO_ClearValue port pin else GPIO_SetValue port pin.

Definition set_direction_pins (dir_bits : Z) : list hw_event :=
  [ direction_pin dir_bits X_DIR_PORT X_DIR_PIN; direction_pin dir_bits Y_DIR_PORT Y_DIR_PIN;
    direction_pin dir_bits Z_DIR_PORT Z_DIR_PIN; direction_pin dir_bits E_DIR_PORT E_DIR_PIN ].

Definition set_step_pins (t : tracer) (l : leds) : leds * list hw_event :=
  let xyz := step_bits_xyz t in
  let l := if has_bit xyz X_STEP_BIT then inc_led_count X_AXIS (bit X_AXIS) l else l in
  let l := if has_bit xyz Y_STEP_BIT then inc_led_count Y_AXIS (bit Y_AXIS) l else l in
  let l := if has_bit xyz Z_STEP_BIT then inc_led_count Z_AXIS (bit Z_AXIS) l else l in
  if c_true (step_bits_e t) then
    (if has_bit (step_bits_e t) E_STEP_BIT then inc_led_count E_AXIS (bit E_AXIS) l else l,
     [GPIO_SetValue X_STEP_PORT xyz; GPIO_SetValue E_STEP_PORT (step_bits_e t)])
  else (l, [GPIO_SetValue X_STEP_PORT xyz]).

Definition clear_all_step_pins : list hw_event :=
  [ GPIO_ClearValue X_STEP_PORT (Z.lor (Z.lor X_STEP_PIN Y_STEP_PIN) Z_STEP_PIN);
    GPIO_ClearValue E_STEP_PORT E_STEP_PIN ].

Definition clear_step_pins (t : tracer) : list hw_event :=
  GPIO_ClearValue X_STEP_PORT (step_bits_xyz t) ::
  (if c_true (step_bits_e t) then [GPIO_ClearValue E_STEP_PORT (step_bits_e t)] else []).

Definition clear_step_pins_by_state (l : leds) : list hw_event :=
  let off (axis pin : Z) : Z := if has_bit (led_on l) axis then 0 else pin in
  GPIO_ClearValue X_STEP_PORT
    (Z.lor (Z.lor (off X_AXIS X_STEP_PIN) (off Y_AXIS Y_STEP_PIN)) (off Z_AXIS Z_STEP_PIN)) ::
  (if has_bit (led_on l) E_AXIS then [] else [GPIO_ClearValue E_STEP_PORT E_STEP_PIN]).

(** ** The step rate *)

Definition config_step_timer (cycles : Z) : Z * list hw_event :=
  let cycles := if 67108863 <? cycles then 67108864 else cycles in
  (cycles, setHwTimerInterval 1 cycles).

(** Unsigned division; a division by zero yields 0, as the Cortex-M3 divider
    does ([dac_scale] is 0 until the first [st_wake_up]). *)
Definition set_step_events_per_minute (steps_per_minute : Z) (s : speed)
  : speed * list hw_event :=
  let r := if steps_per_minute <? MINIMUM_STEPS_PER_MINUTE
           then MINIMUM_STEPS_PER_MINUTE else steps_per_minute in
  let '(c, e) := config_step_timer
    (u32 (TICKS_PER_MICROSECOND * 1000000 * 6 / r * 10)) in
  (s <| cycles_per_step_event := c |>, e ++ [DAC_UpdateValue (r / dac_scale s)]).

Definition trapezoid_generator_reset (b : block_t) (s : speed) : speed * list hw_event :=
  set_step_events_per_minute (initial_rate b)
    (mk_speed (cycles_per_step_event s) (CYCLES_PER_ACCELERATION_TICK / 2) (initial_rate b)
       (u32 (i32 (rate_delta b + Z.shiftr (rate_delta b) 1))) (accel_flag s) (dac_scale s)).

(** The de- and acceleration events of a step event that is not the last. *)
Definition adjust_rate (b : block_t) (done : Z) (s : speed) : speed * list hw_event :=
  if done <? accelerate_until b then
    if accel_flag s then
      let r := u32 (trapezoid_adjusted_rate s + rate_delta b) in
      let r := if nominal_rate b <=? r then nominal_rate b else r in
      let '(s, e) := set_step_events_per_minute r (s <| trapezoid_adjusted_rate := r |>) in
      (s <| accel_flag := false |>, e)
    else (s, [])
  else if decelerate_after b <=? done then
    if done =? decelerate_after b then
      (s <| trapezoid_tick_cycle_counter := CYCLES_PER_ACCELERATION_TICK / 2 |>, [])
    else if accel_flag s then
      let r := trapezoid_adjusted_rate s in
      let r := if u32 (rate_delta b) <? r then u32 (r - rate_delta b) else r in
      let r := if r <? final_rate b then final_rate b else r in
      let '(s, e) := set_step_events_per_minute r (s <| trapezoid_adjusted_rate := r |>) in
      (s <| accel_flag := false |>, e)
    else (s, [])
  else if negb (trapezoid_adjusted_rate s =? nominal_rate b) then
    set_step_events_per_minute (nominal_rate b)
      (s <| trapezoid_adjusted_rate := nominal_rate b |>)
  else (s, []).

(** ** The tracer *)

(** One axis of a step event: the new counter and whether the axis steps. *)
Definition axis_step (counter steps count : Z) : Z * bool :=
  let c := i32 (counter + steps) in
  if 0 <? c then (i32 (c - count), true) else (c, false).

Definition step_bit (stepped : bool) (b : Z) : Z := if stepped then bit b else 0.

(** The step event of a block: counters, step bits and the count of events. *)
Definition trace_event (b : block_t) (t : tracer) : tracer :=
  let n := step_event_count b in
  let '(cx, x) := axis_step (counter_x t) (steps_x b) n in
  let '(cy, y) := axis_step (counter_y t) (steps_y b) n in
  let '(cz, z) := axis_step (counter_z t) (steps_z b) n in
  let '(ce, e) := axis_step (counter_e t) (steps_e b) n in
  mk_tracer cx cy cz ce (u32 (step_events_completed t + 1))
    (Z.lor (Z.lor (step_bit x X_STEP_BIT) (step_bit y Y_STEP_BIT)) (step_bit z Z_STEP_BIT))
    (step_bit e E_STEP_BIT) (out_direction t).

(** The inputs sampled by the interrupt; the end-stop functions get the masked
    direction bit. *)
Record inputs := mk_inputs {
  hit_home_stop_x : Z -> bool;
  hit_home_stop_y : Z -> bool;
  hit_home_stop_z : Z -> bool;
  extruder_temp_achieved : bool
}.

Definition endstop_hit (i : inputs) (b : block_t) (dir_bits : Z) : bool :=
  (c_true (steps_x b) && hit_home_stop_x i (Z.land dir_bits (bit X_DIRECTION_BIT))) ||
  (c_true (steps_y b) && hit_home_stop_y i (Z.land dir_bits (bit Y_DIRECTION_BIT))) ||
  (c_true (steps_z b) && hit_home_stop_z i (Z.land dir_bits (bit Z_DIRECTION_BIT))).

(** A hit end stop ends the block without the pending step. *)
Definition check_stops (i : inputs) (b : block_t) (t : tracer) : tracer :=
  if check_endstops b && endstop_hit i b (out_direction t)
  then mk_tracer (counter_x t) (counter_y t) (counter_z t) (counter_e t)
         (u32 (step_event_count b)) 0 0 (out_direction t)
  else t.

(** ** The interrupt *)

(** The planner and the stepper share the block ring. *)
Record motion := mk_motion { plan : planner; st : stepper }.
#[export] Instance eta_motion : Eta motion := fun m => mk_motion (plan m) (st m).

Definition st_go_idle : list hw_event := disableHwTimer 1 ++ clear_all_step_pins.

(** A new block: the tracer starts half an event late on every axis. *)
Definition load_block (m : motion) : motion * list hw_event :=
  match plan_get_current_block (plan m) with
  | Some i =>
      let s := st m in
      let b := block_at (block_buffer (plan m)) i in
      let '(sp, e) := trapezoid_generator_reset b (st_speed s) in
      let c := i32 (- Z.shiftr (step_event_count b) 1) in
      (mk_motion (plan m)
         (mk_stepper (steptimeout s) (st_leds s) (Some i)
            (mk_tracer c c c c 0 0 0 (direction_bits b)) (busy s) sp),
       e ++ set_direction_pins (direction_bits b))
  | None => (m, st_go_idle)
  end.

(** One step event of the block [b] at index [i]. *)
Definition run_move (inp : inputs) (i : Z) (b : block_t) (m : motion)
  : motion * list hw_event :=
  let s := st m in
  let t := trace_event b (st_trace s) in
  let e1 := clear_step_pins t in
  let t := check_stops inp b t in
  let '(l, e2) := set_step_pins t (st_leds s) in
  if step_events_completed t <? u32 (step_event_count b) then
    let '(sp, e3) := adjust_rate b (step_events_completed t) (st_speed s) in
    (mk_motion (plan m) (mk_stepper (steptimeout s) l (Some i) t (busy s) sp), e1 ++ e2 ++ e3)
  else
    (mk_motion (plan_discard_current_block (plan m))
       (mk_stepper (steptimeout s) l None t (busy s) (st_speed s)), e1 ++ e2).

Definition no_bits (t : tracer) : tracer :=
  mk_tracer (counter_x t) (counter_y t) (counter_z t) (counter_e t)
    (step_events_completed t) 0 0 (out_direction t).

(** The block in progress. A block that is neither a move nor a temperature
    wait is left alone: it stays the current block. *)
Definition run_block (inp : inputs) (m : motion) : motion * list hw_event :=
  let s := st m in
  match current_block s with
  | Some i =>
      let b := block_at (block_buffer (plan m)) i in
      match action_type b with
      | AT_MOVE => run_move inp i b m
      | AT_WAIT_TEMPS =>
          let s := s <| st_trace := no_bits (st_trace s) |> in
          if extruder_temp_achieved inp
          then (mk_motion (plan_discard_current_block (plan m)) (s <| current_block := None |>), [])
          else (mk_motion (plan m) s, [])
      | _ => (m, [])
      end
  | None => (mk_motion (plan m) (s <| st_trace := no_bits (st_trace s) |>), [])
  end.

(** The pins at the end of the interrupt. *)
Definition release_pins (m : motion) : motion * list hw_event :=
  let s := st m in
  match current_block s with
  | None =>
      (mk_motion (plan m) (s <| st_leds := mk_leds (led_count (st_leds s)) 0 0 |>),
       clear_all_step_pins)
  | Some _ => (m, clear_step_pins_by_state (st_leds s))
  end.

Definition st_interrupt (inp : inputs) (m : motion) : motion * list hw_event :=
  if busy (st m) then (m, [])
  else
    let '(m, e1) := match current_block (st m) with None => load_block m | Some _ => (m, []) end in
    let '(m, e2) := run_block inp m in
    let '(m, e3) := release_pins m in
    (m, e1 ++ e2 ++ e3).

(** ** Callbacks and control *)

Definition accelCallback (m : motion) : motion :=
  mk_motion (plan m)
    ((st m) <| st_speed := (st_speed (st m)) <| accel_flag := true |> |>).

Definition stepCallback (inp : inputs) (m : motion) : motion * list hw_event :=
  let '(m, e) := st_interrupt inp m in
  (m, digital_write 1 (bit 15) 1 ++ e ++ digital_write 1 (bit 15) 0).

Definition st_reset_interrupt : list hw_event := clear_all_step_pins.

Definition st_wake_up (cfg : configuration) (m : motion) : motion * list hw_event :=
  let scale := d2u32 (ddiv (ddiv (dmul (dmul (d_of_Z (33 * 60)) (steps_per_mm_x cfg))
    (d_of_Z mm_per_sec_per_volt)) (d_of_Z 1024)) (d_of_Z 10)) in
  (mk_motion (plan m) ((st m) <| st_speed := (st_speed (st m)) <| dac_scale := scale |> |>),
   enableHwTimer 1).

(** [st_init] after [init_dac], which only configures the DAC pin. *)
Definition st_init (m : motion) : motion * list hw_event :=
  let '(sp, e) := set_step_events_per_minute 6000 (st_speed (st m)) in
  (mk_motion (plan m) ((st m) <| st_speed := sp <| trapezoid_tick_cycle_counter := 0 |> |>),
   setupHwTimer 1 ++ setupHwTimer 0 ++ setHwTimerInterval 0 (TICKS_PER_MICROSECOND * 1000) ++
   enableHwTimer 0 ++ pin_mode 1 (bit 15) 1 ++ e ++ st_go_idle).

(** ** The motors seen through the pins

    A driver moves its motor by one step on each rising edge of its step pin,
    in the direction of its direction pin: high is positive. *)

Inductive axis := AX | AY | AZ | AE.

#[export] Instance axis_eq_dec : EqDecision axis.
Proof. solve_decision. Defined.

Definition step_pin (a : axis) : Z * Z :=
  match a with
  | AX => (X_STEP_PORT, X_STEP_BIT) | AY => (Y_STEP_PORT, Y_STEP_BIT)
  | AZ => (Z_STEP_PORT, Z_STEP_BIT) | AE => (E_STEP_PORT, E_STEP_BIT)
  end.
Definition dir_pin (a : axis) : Z * Z :=
  match a with
  | AX => (X_DIR_PORT, X_DIRECTION_BIT) | AY => (Y_DIR_PORT, Y_DIRECTION_BIT)
  | AZ => (Z_DIR_PORT, Z_DIRECTION_BIT) | AE => (E_DIR_PORT, E_DIRECTION_BIT)
  end.

Record motor := mk_motor { m_dir : bool; m_step : bool; m_pos : Z }.

Definition pin_change (e : hw_event) : option (bool * Z * Z) :=
  match e with
  | GPIO_SetValue p m | FIO_SetValue p m => Some (true, p, m)
  | GPIO_ClearValue p m | FIO_ClearValue p m => Some (false, p, m)
  | _ => None
  end.

Definition touches (pin : Z * Z) (port mask : Z) : bool :=
  (port =? fst pin) && Z.testbit mask (snd pin).

Definition motor_event (a : axis) (w : motor) (e : hw_event) : motor :=
  match pin_change e with
  | Some (v, port, mask) =>
      let d := if touches (dir_pin a) port mask then v else m_dir w in
      if touches (step_pin a) port mask then
        mk_motor d v (if v && negb (m_step w) then m_pos w + (if d then 1 else -1) else m_pos w)
      else mk_motor d (m_step w) (m_pos w)
  | None => w
  end.

Definition motor_run (a : axis) (es : list hw_event) (w : motor) : motor :=
  fold_left (motor_event a) es w.

Lemma motor_run_app a es1 es2 w : motor_run a (es1 ++ es2) w = motor_run a es2 (motor_run a es1 w).
Proof. apply fold_left_app. Qed.

Definition counter_of (a : axis) (t : tracer) : Z :=
  match a with AX => counter_x t | AY => counter_y t | AZ => counter_z t | AE => counter_e t end.
Definition steps_of (a : axis) (b : block_t) : Z :=
  match a with AX => steps_x b | AY => steps_y b | AZ => steps_z b | AE => steps_e b end.
Definition axis_index (a : axis) : Z :=
  match a with AX => X_AXIS | AY => Y_AXIS | AZ => Z_AXIS | AE => E_AXIS end.

(** Whether the block moves the axis forwards, and its signed steps. *)
Definition forward (a : axis) (b : block_t) : bool :=
  negb (Z.testbit (direction_bits b) (snd (dir_pin a))).
Definition sgn (fwd : bool) : Z := if fwd then 1 else -1.
Definition travel (a : axis) (b : block_t) : Z := sgn (forward a b) * steps_of a b.

(** ** Pin events of each part of the interrupt *)

(** Events that move no pin of a motor. *)
Definition silent (es : list hw_event) : Prop := forall a w, motor_run a es w = w.

Lemma silent_app es1 es2 : silent es1 -> silent es2 -> silent (es1 ++ es2).
Proof. intros H1 H2 a w. by rewrite motor_run_app, H1, H2. Qed.

Lemma rate_silent r s : silent (snd (set_step_events_per_minute r s)).
Proof. intros a w. reflexivity. Qed.

Lemma adjust_silent b k s : silent (snd (adjust_rate b k s)).
Proof.
  unfold adjust_rate. repeat case_bool; cbn [snd]; try done; intros a w; reflexivity.
Qed.

Lemma direction_pins_motor a d w :
  motor_run a (set_direction_pins d) w =
  mk_motor (negb (Z.testbit d (snd (dir_pin a)))) (m_step w) (m_pos w).
Proof.
  unfold set_direction_pins, direction_pin.
  change (c_true (Z.land d X_DIR_PIN)) with (has_bit d X_DIRECTION_BIT).
  change (c_true (Z.land d Y_DIR_PIN)) with (has_bit d Y_DIRECTION_BIT).
  change (c_true (Z.land d Z_DIR_PIN)) with (has_bit d Z_DIRECTION_BIT).
  change (c_true (Z.land d E_DIR_PIN)) with (has_bit d E_DIRECTION_BIT).
  rewrite !has_bit_testbit by (cbv; discriminate). destruct w as [dir step pos].
  destruct a; cbn [dir_pin snd];
    destruct (Z.testbit d X_DIRECTION_BIT), (Z.testbit d Y_DIRECTION_BIT),
             (Z.testbit d Z_DIRECTION_BIT), (Z.testbit d E_DIRECTION_BIT); reflexivity.
Qed.

Definition stepped (a : axis) (t : tracer) : bool :=
  Z.testbit (match a with AE => step_bits_e t | _ => step_bits_xyz t end) (snd (step_pin a)).

(** A tracer whose bits come from four step decisions. *)
Definition bits_of (x y z e : bool) (t : tracer) : Prop :=
  step_bits_xyz t = Z.lor (Z.lor (step_bit x X_STEP_BIT) (step_bit y Y_STEP_BIT))
                          (step_bit z Z_STEP_BIT) /\
  step_bits_e t = step_bit e E_STEP_BIT.

(** Clearing and then setting the step pins gives each stepping axis exactly
    one rising edge, whatever the LED flashing has left on the pin. *)
Lemma step_pins_motor a x y z e t l w :
  bits_of x y z e t ->
  let w' := motor_run a (clear_step_pins t ++ snd (set_step_pins t l)) w in
  m_dir w' = m_dir w /\
  m_pos w' = m_pos w + (if stepped a t then sgn (m_dir w) else 0).
Proof.
  intros [H1 H2]. unfold clear_step_pins, set_step_pins, stepped. rewrite H1, H2.
  destruct w as [dir step pos].
  destruct a, x, y, z, e, dir, step; cbv -[Z.add inc_led_count]; split; (done || lia).
Qed.

Lemma release_motor a m w :
  let w' := motor_run a (snd (release_pins m)) w in
  m_dir w' = m_dir w /\ m_pos w' = m_pos w.
Proof.
  unfold release_pins. destruct w as [dir step pos]. destruct (current_block (st m)).
  - cbn [snd]. unfold clear_step_pins_by_state.
    destruct (has_bit _ X_AXIS), (has_bit _ Y_AXIS), (has_bit _ Z_AXIS), (has_bit _ E_AXIS);
      destruct a; cbn; done.
  - destruct a; cbn; done.
Qed.

Lemma idle_motor a w :
  m_dir (motor_run a st_go_idle w) = m_dir w /\ m_pos (motor_run a st_go_idle w) = m_pos w.
Proof. destruct w, a; cbn; done. Qed.

(** ** The Bresenham counters *)

(** After [k] events of a block of [n] events, [p] of them steps of an axis
    with [s] steps, the axis counter is [c]. *)
Definition traced (n s k p c : Z) : Prop :=
  c = - (n / 2) + k * s - n * p /\ - n < c <= 0.

Lemma traced_start n s : 0 < n -> traced n s 0 0 (- (n / 2)).
Proof.
  intros Hn. pose proof (Z.div_mod n 2 ltac:(lia)). pose proof (Z.mod_pos_bound n 2 ltac:(lia)).
  split; lia.
Qed.

Lemma traced_step n s k p c :
  0 < n < 2 ^ 30 -> 0 <= s <= n -> traced n s k p c ->
  traced n s (k + 1) (p + if snd (axis_step c s n) then 1 else 0) (fst (axis_step c s n)).
Proof.
  intros Hn Hs [Hc Hb]. unfold axis_step. rewrite (i32_small (c + s)) by lia.
  destruct (Z.ltb_spec 0 (c + s)); cbn [fst snd]; [rewrite i32_small by lia|]; split; lia.
Qed.

(** After all [n] events the axis has made exactly its [s] steps. *)
Lemma traced_end n s p c : 0 < n -> traced n s n p c -> p = s.
Proof.
  intros Hn [Hc Hb]. pose proof (Z.div_mod n 2 ltac:(lia)).
  pose proof (Z.mod_pos_bound n 2 ltac:(lia)).
  assert (n * (s - p) = c + n / 2) as Hd by lia.
  assert (- n < n * (s - p) < n) by lia. nia.
Qed.

Lemma traced_bound n s k p c :
  0 < n -> 0 <= s <= n -> 0 <= k <= n -> traced n s k p c -> 0 <= p <= s.
Proof.
  intros Hn Hs Hk [Hc Hb]. pose proof (Z.div_mod n 2 ltac:(lia)).
  pose proof (Z.mod_pos_bound n 2 ltac:(lia)). split.
  - assert (- n < n * p) by nia. nia.
  - assert (n * p < k * s + n) by lia. assert (k * s <= n * s) by nia. nia.
Qed.

(** ** Executing the queue *)

(** A move as [plan_buffer_line] queues it, without end-stop checks. *)
Definition plain_move (b : block_t) : Prop :=
  action_type b = AT_MOVE /\ check_endstops b = false /\
  0 < step_event_count b < 2 ^ 30 /\ forall a, 0 <= steps_of a b <= step_event_count b.

(** The steps of an axis still to come from a list of blocks. *)
Definition pending (a : axis) (bs : list block_t) : Z :=
  fold_right (fun b z => travel a b + z) 0 bs.
Definition events (bs : list block_t) : Z :=
  fold_right (fun b z => step_event_count b + z) 0 bs.

(** The stepper is in the middle of the oldest block: [k] of its events are
    done, [p a] of them steps of axis [a]. *)
Definition tracing (b : block_t) (t : tracer) (k : Z) (p : axis -> Z) : Prop :=
  step_events_completed t = k /\ 0 <= k < step_event_count b /\
  out_direction t = direction_bits b /\
  forall a, traced (step_event_count b) (steps_of a b) k (p a) (counter_of a t).

Definition target_of (a : axis) (m : motion) : Z := arr (position (plan m)) (axis_index a).

(** The motors, the block in progress and the queue together make up the
    planner's position; [r] step events are still to come. *)
Definition on_course (m : motion) (w : axis -> motor) (r : Z) : Prop :=
  planner_wf (plan m) /\ busy (st m) = false /\ Forall plain_move (queue (plan m)) /\
  match current_block (st m) with
  | None =>
      r = events (queue (plan m)) /\
      forall a, m_pos (w a) + pending a (queue (plan m)) = target_of a m
  | Some i =>
      exists b q k p, queue (plan m) = b :: q /\ i = block_buffer_tail (plan m) /\
        tracing b (st_trace (st m)) k p /\ r = step_event_count b - k + events q /\
        forall a, m_dir (w a) = forward a b /\
          m_pos (w a) + (travel a b - sgn (forward a b) * p a) + pending a q = target_of a m
  end.

Definition motors_run (es : list hw_event) (w : axis -> motor) : axis -> motor :=
  fun a => motor_run a es (w a).

Lemma queue_tail_block p b q :
  planner_wf p -> queue p = b :: q ->
  plan_get_current_block p = Some (block_buffer_tail p) /\
  block_at (block_buffer p) (block_buffer_tail p) = b.
Proof. intros Hwf Hq. destruct (queue_pop p b q Hwf Hq) as (_ & _ & ? & ?). done. Qed.

(** One step event of the block in progress. *)
Lemma trace_event_spec b t k p :
  plain_move b -> tracing b t k p ->
  let t' := trace_event b t in
  exists st', step_events_completed t' = k + 1 /\ out_direction t' = direction_bits b /\
    (forall a, stepped a t' = st' a) /\
    (exists x y z e, bits_of x y z e t') /\
    forall a, traced (step_event_count b) (steps_of a b) (k + 1)
      (p a + if st' a then 1 else 0) (counter_of a t').
Proof.
  intros (_ & _ & Hn & Hs) (Hk & Hkn & Hd & Ht). cbv zeta.
  exists (fun a => snd (axis_step (counter_of a t) (steps_of a b) (step_event_count b))).
  assert (forall a, traced (step_event_count b) (steps_of a b) (k + 1)
      (p a + if snd (axis_step (counter_of a t) (steps_of a b) (step_event_count b)) then 1 else 0)
      (fst (axis_step (counter_of a t) (steps_of a b) (step_event_count b)))) as Hstep
    by (intros a; by apply traced_step).
  unfold trace_event.
  change (counter_x t) with (counter_of AX t). change (counter_y t) with (counter_of AY t).
  change (counter_z t) with (counter_of AZ t). change (counter_e t) with (counter_of AE t).
  change (steps_x b) with (steps_of AX b). change (steps_y b) with (steps_of AY b).
  change (steps_z b) with (steps_of AZ b). change (steps_e b) with (steps_of AE b).
  pose proof (Hstep AX) as SX. pose proof (Hstep AY) as SY.
  pose proof (Hstep AZ) as SZ. pose proof (Hstep AE) as SE.
  destruct (axis_step (counter_of AX t) _ _) as [cx x] eqn:EX.
  destruct (axis_step (counter_of AY t) _ _) as [cy y] eqn:EY.
  destruct (axis_step (counter_of AZ t) _ _) as [cz z] eqn:EZ.
  destruct (axis_step (counter_of AE t) _ _) as [ce e] eqn:EE.
  cbn [fst snd step_events_completed out_direction] in *.
  split_and!.
  - rewrite Hk. apply u32_small. lia.
  - done.
  - intros a. unfold stepped. cbn [step_bits_xyz step_bits_e].
    destruct a; rewrite ?EX, ?EY, ?EZ, ?EE; destruct x, y, z, e; reflexivity.
  - by exists x, y, z, e.
  - intros a. destruct a; rewrite ?EX, ?EY, ?EZ, ?EE; cbn [counter_of snd counter_x counter_y counter_z counter_e]; done.
Qed.

Lemma discard_position p : position (plan_discard_current_block p) = position p.
Proof. unfold plan_discard_current_block. by destruct (negb _). Qed.

Lemma check_stops_off inp b t : check_endstops b = false -> check_stops inp b t = t.
Proof. intros H. unfold check_stops. by rewrite H. Qed.

Lemma plain_move_travel b b' :
  same_job b b' -> (plain_move b -> plain_move b') /\
  (forall a, travel a b' = travel a b) /\ step_event_count b' = step_event_count b.
Proof.
  intros (J1 & J2 & J3 & J4 & J5 & J6 & J7 & J8 & _). split_and!.
  - intros (P1 & P2 & P3 & P4). split_and!; try congruence; try lia.
    intros a. specialize (P4 a). destruct a; cbn in *; lia.
  - intros a. unfold travel, forward. rewrite J6. destruct a; cbn; congruence.
  - done.
Qed.

(** One step event, with the pins left as [release_pins] leaves them. *)
Lemma run_move_course inp b q k p i (m : motion) w :
  planner_wf (plan m) -> busy (st m) = false -> queue (plan m) = b :: q ->
  i = block_buffer_tail (plan m) -> Forall plain_move (b :: q) ->
  current_block (st m) = Some i -> tracing b (st_trace (st m)) k p ->
  (forall a, m_dir (w a) = forward a b /\
     m_pos (w a) + (travel a b - sgn (forward a b) * p a) + pending a q = target_of a m) ->
  let '(m1, e1) := run_move inp i b m in
  let '(m2, e2) := release_pins m1 in
  on_course m2 (motors_run (e1 ++ e2) w) (step_event_count b - (k + 1) + events q) /\
  position (plan m2) = position (plan m).
Proof.
  intros Hwf Hbusy Hq Hi Hplain Hcur Htr Hw.
  assert (plain_move b) as Hpb by (by inversion Hplain).
  destruct (trace_event_spec b _ k p Hpb Htr) as (sd & Hk & Hdir & Hst & (x & y & z & e & Hbits) & Htr').
  destruct Htr as (Hk0 & Hkn & _ & _). pose proof Hpb as (_ & Hes & Hn & Hs).
  unfold run_move. rewrite check_stops_off by done.
  set (t' := trace_event b (st_trace (st m))) in *.
  assert (forall a es, silent es ->
    let w' := motor_run a (clear_step_pins t' ++ snd (set_step_pins t' (st_leds (st m))) ++ es) (w a) in
    m_dir w' = forward a b /\
    m_pos w' = m_pos (w a) + (if sd a then sgn (forward a b) else 0)) as Hpins.
  { intros a es Hsil. cbv zeta. rewrite (app_assoc (clear_step_pins t')), motor_run_app, Hsil.
    destruct (step_pins_motor a x y z e t' (st_leds (st m)) (w a) Hbits) as [D P].
    destruct (Hw a) as [Hwd _]. rewrite D, P, Hst, Hwd. done. }
  destruct (set_step_pins t' (st_leds (st m))) as [l e2]. cbn [snd] in Hpins.
  rewrite Hk, u32_small by lia.
  destruct (Z.ltb_spec (k + 1) (step_event_count b)) as [Hlt|Hge].
  - pose proof (adjust_silent b (k + 1) (st_speed (st m))) as Hsil.
    destruct (adjust_rate b (k + 1) (st_speed (st m))) as [sp e3]. cbn [snd] in Hsil.
    pose proof (release_motor) as Hrel.
    set (m1 := mk_motion (plan m) _).
    assert (exists e4, release_pins m1 = (m1, e4)) as [e4 E4] by (unfold release_pins; by eexists).
    rewrite E4. split; [|done].
    split; [exact Hwf|]. split; [exact Hbusy|]. cbn [plan st current_block m1].
    split; [by rewrite Hq|].
    exists b, q, (k + 1), (fun a => p a + if sd a then 1 else 0).
    split; [done|]. split; [done|]. split; [split_and!; try done; lia|]. split; [lia|].
    intros a. unfold motors_run. rewrite motor_run_app.
    destruct (Hrel a m1 (motor_run a (clear_step_pins t' ++ e2 ++ e3) (w a))) as [R1 R2].
    rewrite E4 in R1, R2. cbn [snd] in R1, R2. rewrite R1, R2.
    destruct (Hpins a e3 Hsil) as [D P]. cbv zeta in D, P. rewrite D, P.
    split; [done|]. destruct (Hw a) as [_ Hpos]. unfold target_of in *.
    change (plan m1) with (plan m).
    unfold travel, sgn in *. destruct (forward a b), (sd a); lia.
  - assert (k + 1 = step_event_count b) as Hend by lia.
    destruct (queue_pop (plan m) b q Hwf Hq) as (W & Q & _ & _).
    set (m1 := mk_motion _ _).
    assert (forall a v, m_pos (motor_run a (snd (release_pins m1)) v) = m_pos v) as Hrel
      by (intros; apply release_motor).
    assert (plan m1 = plan_discard_current_block (plan m)) as Hp1 by done.
    assert (busy (st m1) = false) as Hb1 by done.
    assert (current_block (st m1) = None) as Hc1 by done. clearbody m1.
    unfold release_pins in *. rewrite Hc1 in *. cbn [snd] in Hrel.
    unfold on_course, target_of. cbn [plan st current_block busy update updater].
    rewrite Hp1, Hb1, Hc1, discard_position, Q. split; [|done].
    split; [exact W|]. split; [done|]. split; [by inversion Hplain|]. split; [lia|].
    intros a. unfold motors_run. rewrite motor_run_app, Hrel.
    destruct (Hpins a [] ltac:(by intros ? ?)) as [_ P]. cbv zeta in P. rewrite app_nil_r in P.
    rewrite P. pose proof (Htr' a) as Ha. rewrite Hend in Ha. apply traced_end in Ha; [|lia].
    destruct (Hw a) as [_ Hpos]. unfold target_of in Hpos.
    unfold travel, sgn in *. destruct (forward a b), (sd a); lia.
Qed.

(** Loading the oldest block. *)
Lemma load_course b q (m : motion) w :
  planner_wf (plan m) -> busy (st m) = false -> queue (plan m) = b :: q -> plain_move b ->
  (forall a, m_pos (w a) + pending a (b :: q) = target_of a m) ->
  let '(m1, e1) := load_block m in
  plan m1 = plan m /\ busy (st m1) = false /\
  current_block (st m1) = Some (block_buffer_tail (plan m)) /\
  tracing b (st_trace (st m1)) 0 (fun _ => 0) /\
  forall a, m_dir (motor_run a e1 (w a)) = forward a b /\
    m_pos (motor_run a e1 (w a)) = m_pos (w a).
Proof.
  intros Hwf Hbusy Hq (_ & _ & Hn & Hs) Hpos.
  destruct (queue_tail_block _ _ _ Hwf Hq) as [Hg Hb].
  unfold load_block. rewrite Hg, Hb.
  pose proof (rate_silent (initial_rate b) (mk_speed (cycles_per_step_event (st_speed (st m)))
     (CYCLES_PER_ACCELERATION_TICK / 2) (initial_rate b)
     (u32 (i32 (rate_delta b + Z.shiftr (rate_delta b) 1))) (accel_flag (st_speed (st m)))
     (dac_scale (st_speed (st m))))) as Hsil.
  fold (trapezoid_generator_reset b (st_speed (st m))) in Hsil.
  destruct (trapezoid_generator_reset b (st_speed (st m))) as [sp e]. cbn [snd] in Hsil.
  cbn [plan st current_block st_trace busy]. split_and!; try done.
  - split; [done|]. split; [lia|]. split; [done|].
    assert (Z.shiftr (step_event_count b) 1 = step_event_count b / 2) as ->
      by (by rewrite Z.shiftr_div_pow2).
    assert (0 <= step_event_count b / 2 <= step_event_count b) as Hh
      by (split; [apply Z.div_pos; lia|apply Z.div_le_upper_bound; lia]).
    rewrite i32_small by lia.
    intros a.
    destruct a; cbn [counter_of counter_x counter_y counter_z counter_e];
      apply traced_start; lia.
  - intros a. rewrite motor_run_app, Hsil, direction_pins_motor. done.
Qed.

Lemma events_nonneg q : Forall plain_move q -> 0 <= events q.
Proof.
  induction 1 as [|b q (_ & _ & Hn & _) _ IH]; cbn [events fold_right]; [done|].
  fold (events q). lia.
Qed.

(** [on_course] through one interrupt, with any inputs: nothing to do when the
    queue is drained, and otherwise exactly one step event. *)
Lemma interrupt_on_course inp m w r :
  on_course m w r ->
  let '(m', es) := st_interrupt inp m in
  on_course m' (motors_run es w) (Z.max 0 (r - 1)) /\ position (plan m') = position (plan m).
Proof.
  intros (Hwf & Hbusy & Hplain & Hcur). unfold st_interrupt. rewrite Hbusy.
  destruct (current_block (st m)) as [i|] eqn:Hc.
  - destruct Hcur as (b & q & k & p & Hq & -> & Htr & -> & Hw).
    rewrite Hq in Hplain. assert (plain_move b) as Hpb by (by inversion Hplain).
    destruct (queue_tail_block _ _ _ Hwf Hq) as [_ Hb].
    unfold run_block. rewrite Hc, Hb. destruct Hpb as (Hact & _ & Hn & _). rewrite Hact.
    pose proof (run_move_course inp b q k p _ m w Hwf Hbusy Hq eq_refl Hplain Hc Htr Hw) as H.
    destruct (run_move inp (block_buffer_tail (plan m)) b m) as [m1 e1].
    destruct (release_pins m1) as [m2 e2]. cbn [app].
    assert (0 <= events q) as Hev by (apply events_nonneg; by inversion Hplain).
    destruct Htr as (_ & Hkn & _).
    replace (Z.max 0 (step_event_count b - k + events q - 1))
      with (step_event_count b - (k + 1) + events q) by lia. exact H.
  - destruct Hcur as [-> Hpos]. destruct (queue (plan m)) as [|b q] eqn:Hq.
    + pose proof (proj1 (queue_empty_iff _ Hwf) Hq) as He.
      unfold load_block, plan_get_current_block. rewrite (proj2 (Z.eqb_eq _ _) He).
      unfold run_block. rewrite Hc. unfold release_pins. cbn [st current_block update updater].
      rewrite Hc. cbn [app snd]. split; [|done].
      split; [exact Hwf|]. split; [exact Hbusy|]. unfold target_of.
      cbn [plan st current_block update updater].
      rewrite Hq. split; [done|]. split; [done|]. intros a. unfold motors_run. rewrite motor_run_app.
      specialize (Hpos a). unfold target_of in Hpos.
      pose proof (idle_motor a (w a)) as [_ I1].
      assert (forall v, m_pos (motor_run a clear_all_step_pins v) = m_pos v) as I2
        by (intros []; destruct a; cbn; done).
      rewrite I2, I1. exact Hpos.
    + assert (plain_move b) as Hpb by (by inversion Hplain).
      pose proof (load_course b q m w Hwf Hbusy Hq Hpb Hpos) as H.
      destruct (load_block m) as [m1 e1]. destruct H as (Hp & Hb1 & Hc1 & Htr & Hl).
      unfold run_block. rewrite Hc1, Hp.
      destruct (queue_tail_block _ _ _ Hwf Hq) as [_ Hbt]. rewrite Hbt.
      destruct Hpb as (Hact & _ & Hn & _). rewrite Hact.
      assert (forall a, m_dir (motors_run e1 w a) = forward a b /\
        m_pos (motors_run e1 w a) + (travel a b - sgn (forward a b) * 0) + pending a q
          = target_of a m1) as Hw1.
      { intros a. unfold motors_run. destruct (Hl a) as [D P]. rewrite D, P. split; [done|].
        specialize (Hpos a). unfold target_of in *. rewrite Hp.
        cbn [pending fold_right] in Hpos. fold (pending a q) in Hpos. lia. }
      rewrite <- Hp in Hwf, Hq.
      pose proof (run_move_course inp b q 0 (fun _ => 0) (block_buffer_tail (plan m)) m1
        (motors_run e1 w) Hwf Hb1 Hq ltac:(by rewrite Hp) Hplain Hc1 Htr Hw1) as H2.
      destruct (run_move inp (block_buffer_tail (plan m)) b m1) as [m2 e2].
      destruct (release_pins m2) as [m3 e3]. destruct H2 as [H2 H3].
      split; [|by rewrite H3, Hp].
      assert (0 <= events q) as Hev by (apply events_nonneg; by inversion Hplain).
      cbn [events fold_right]. fold (events q).
      replace (Z.max 0 (step_event_count b + events q - 1))
        with (step_event_count b - (0 + 1) + events q) by lia.
      assert (forall a, motors_run (e1 ++ e2 ++ e3) w a = motors_run (e2 ++ e3) (motors_run e1 w) a) as HM
        by (intros a; unfold motors_run; by rewrite !motor_run_app).
      destruct H2 as (A & B & C & D). split; [done|]. split; [done|]. split; [done|].
      destruct (current_block (st m3)).
      * destruct D as (b' & q' & k & p & D1 & D2 & D3 & D4 & D5).
        exists b', q', k, p. split_and!; try done. intros a. rewrite HM. apply D5.
      * destruct D as [D1 D2]. split; [done|]. intros a. rewrite HM. apply D2.
Qed.
