(* ===== verification/Motion.v ===== *)
(** * Planner and stepper together (libraries/grbl/src/planner.c, stepper.c)

    The operations of the two files that wait for each other: a full ring makes
    [plan_buffer_line] and [plan_buffer_wait] spin until the interrupt has
    freed a slot, and [st_synchronize] spins until the ring is empty. A spin is
    a list of the inputs the successive timer interrupts sample; [None] means
    that they have all fired and the loop still spins. An operation of the main
    program is one step with respect to the interrupt, except where it spins. *)

From stdpp Require Import relations.
From S2P Require Import Prelude CDouble MotionTypes Config Hardware Planner Stepper.

(** [while (cond) sleep_mode ();] *)
Fixpoint spin (cond : motion -> bool) (inps : list inputs) (m : motion)
  : option (motion * list hw_event) :=
  if cond m then
    match inps with
    | [] => None
    | inp :: inps =>
        let '(m, e) := stepCallback inp m in
        option_map (fun '(m', e') => (m', e ++ e')) (spin cond inps m)
    end
  else Some (m, []).

Definition ring_full (m : motion) : bool := c_true (plan_queue_full (plan m)).

Definition st_synchronize (inps : list inputs) (m : motion) : option (motion * list hw_event) :=
  spin (fun m => bool_decide (plan_get_current_block (plan m) <> None)) inps m.

Definition plan_buffer_line (cfg : configuration) (pAction : tActionRequest)
  (inps : list inputs) (m : motion) : option (motion * list hw_event) :=
  '(m, e1) ← spin ring_full inps m;
  '(p, queued) ← plan_line cfg pAction (plan m);
  if queued : bool then
    let '(m, e2) := st_wake_up cfg (mk_motion p (st m)) in Some (m, e1 ++ e2)
  else Some (mk_motion p (st m), e1).

Definition plan_buffer_wait (cfg : configuration) (pAction : tActionRequest)
  (inps : list inputs) (m : motion) : option (motion * list hw_event) :=
  '(m, e1) ← spin ring_full inps m;
  p ← plan_wait cfg pAction (plan m);
  let '(m, e2) := st_wake_up cfg (mk_motion p (st m)) in Some (m, e1 ++ e2).

Definition plan_buffer_action (cfg : configuration) (pAction : tActionRequest)
  (inps : list inputs) (m : motion) : option (motion * list hw_event) :=
  match ActionType pAction with
  | AT_MOVE | AT_MOVE_ENDSTOP => plan_buffer_line cfg pAction inps m
  | AT_WAIT | AT_WAIT_TEMPS => plan_buffer_wait cfg pAction inps m
  end.

Definition plan_set_acceleration_manager_enabled (enabled : Z) (inps : list inputs)
  (m : motion) : option (motion * list hw_event) :=
  if negb (Bool.eqb (c_true (acceleration_manager_enabled (plan m))) (c_true enabled)) then
    '(m, e) ← st_synchronize inps m;
    Some (m <| plan := (plan m) <| acceleration_manager_enabled := c_bool (c_true enabled) |> |>, e)
  else Some (m, []).

Definition plan_init (inps : list inputs) (m : motion) : option (motion * list hw_event) :=
  let p := plan m in
  let m := m <| plan := mk_planner (block_buffer p) 0 0 (position p) (previous_unit_vec p)
    (previous_nominal_speed p) (acceleration_manager_enabled p) (startpoint p) |> in
  '(m, e) ← plan_set_acceleration_manager_enabled 1 inps m;
  let p := plan m in
  Some (m <| plan := mk_planner (block_buffer p) (block_buffer_head p) (block_buffer_tail p)
    [0; 0; 0; 0] [d0; d0; d0] d0 (acceleration_manager_enabled p) zero_target |>, e).

(** ** A planned move *)

(** The reachable positions: half of the range in which step differences do
    not overflow. *)
Definition in_reach (pos : list Z) : Prop := Forall (fun z => - 2 ^ 29 < z < 2 ^ 29) pos.

Lemma in_reach_arr pos i : in_reach pos -> - 2 ^ 29 < arr pos i < 2 ^ 29.
Proof.
  intros H. unfold arr. destruct (nth_in_or_default (Z.to_nat i) pos 0) as [Hin| ->]; [|lia].
  unfold in_reach in H. rewrite Forall_forall in H. by apply H.
Qed.

Lemma abs_diff tgt pos axis :
  in_reach tgt -> in_reach pos ->
  u32 (Z.abs (i32 (arr tgt axis - arr pos axis))) = Z.abs (arr tgt axis - arr pos axis) /\
  Z.abs (arr tgt axis - arr pos axis) < 2 ^ 30.
Proof.
  intros Ht Hp. pose proof (in_reach_arr tgt axis Ht). pose proof (in_reach_arr pos axis Hp).
  rewrite i32_small, u32_small by lia. lia.
Qed.

Lemma set_steps_travel tgt pos b a :
  in_reach tgt -> in_reach pos ->
  steps_of a (set_steps tgt pos b) = Z.abs (arr tgt (axis_index a) - arr pos (axis_index a)) /\
  forward a (set_steps tgt pos b) = negb (arr tgt (axis_index a) <? arr pos (axis_index a)).
Proof.
  intros Ht Hp. split.
  - unfold set_steps. destruct a; cbn [steps_of steps_x steps_y steps_z steps_e axis_index];
      by apply abs_diff.
  - unfold forward, set_steps. cbn [direction_bits].
    destruct (arr tgt X_AXIS <? arr pos X_AXIS) eqn:EX, (arr tgt Y_AXIS <? arr pos Y_AXIS) eqn:EY,
      (arr tgt Z_AXIS <? arr pos Z_AXIS) eqn:EZ, (arr tgt E_AXIS <? arr pos E_AXIS) eqn:EE;
      destruct a; cbn [axis_index]; rewrite ?EX, ?EY, ?EZ, ?EE; reflexivity.
Qed.

Lemma count_small x y z e :
  0 <= x < 2 ^ 30 -> 0 <= y < 2 ^ 30 -> 0 <= z < 2 ^ 30 -> 0 <= e < 2 ^ 30 ->
  i32 (u32 (Z.max (u32 (i32 (Z.max x (Z.max y z)))) e)) = Z.max (Z.max x (Z.max y z)) e.
Proof.
  intros. assert (0 <= Z.max x (Z.max y z) < 2 ^ 30) by lia.
  rewrite (i32_small (Z.max x _)), (u32_small (Z.max x _)) by lia.
  assert (0 <= Z.max (Z.max x (Z.max y z)) e < 2 ^ 30) by lia.
  rewrite u32_small, i32_small by lia. done.
Qed.

Lemma set_steps_count tgt pos b :
  in_reach tgt -> in_reach pos ->
  let n := step_event_count (set_steps tgt pos b) in
  0 <= n < 2 ^ 30 /\ (forall a, steps_of a (set_steps tgt pos b) <= n) /\
  (n = 0 -> forall a, arr tgt (axis_index a) = arr pos (axis_index a)).
Proof.
  intros Ht Hp.
  pose proof (set_steps_travel tgt pos b AX Ht Hp) as [SX _].
  pose proof (set_steps_travel tgt pos b AY Ht Hp) as [SY _].
  pose proof (set_steps_travel tgt pos b AZ Ht Hp) as [SZ _].
  pose proof (set_steps_travel tgt pos b AE Ht Hp) as [SE _].
  destruct (abs_diff tgt pos X_AXIS Ht Hp) as [DX BX].
  destruct (abs_diff tgt pos Y_AXIS Ht Hp) as [DY BY].
  destruct (abs_diff tgt pos Z_AXIS Ht Hp) as [DZ BZ].
  destruct (abs_diff tgt pos E_AXIS Ht Hp) as [DE BE].
  assert (step_event_count (set_steps tgt pos b) =
    Z.max (Z.max (Z.abs (arr tgt X_AXIS - arr pos X_AXIS))
             (Z.max (Z.abs (arr tgt Y_AXIS - arr pos Y_AXIS)) (Z.abs (arr tgt Z_AXIS - arr pos Z_AXIS))))
          (Z.abs (arr tgt E_AXIS - arr pos E_AXIS))) as Hn.
  { unfold set_steps. cbn [step_event_count]. rewrite DX, DY, DZ, DE.
    apply count_small; (split; [apply Z.abs_nonneg|assumption]). }
  cbn [axis_index] in *. cbv zeta. rewrite Hn.
  clear Hn DX DY DZ DE. revert BX BY BZ BE.
  assert (forall i, arr tgt i = arr pos i <-> Z.abs (arr tgt i - arr pos i) = 0) as Hzero by (intros; lia).
  pose proof (Z.abs_nonneg (arr tgt X_AXIS - arr pos X_AXIS)).
  pose proof (Z.abs_nonneg (arr tgt Y_AXIS - arr pos Y_AXIS)).
  pose proof (Z.abs_nonneg (arr tgt Z_AXIS - arr pos Z_AXIS)).
  pose proof (Z.abs_nonneg (arr tgt E_AXIS - arr pos E_AXIS)).
  intros. split; [split; [apply Z.le_trans with (2 := Z.le_max_r _ _); done|]|split].
  - repeat apply Z.max_lub_lt; assumption.
  - intros a. destruct a; rewrite ?SX, ?SY, ?SZ, ?SE; clear; lia.
  - intros Hz a. apply Hzero. destruct a; cbn [axis_index]; lia.
Qed.

Lemma set_rates_frame cfg d f b :
  let b' := set_rates cfg d f b in
  action_type b' = action_type b /\ steps_x b' = steps_x b /\ steps_y b' = steps_y b /\
  steps_z b' = steps_z b /\ steps_e b' = steps_e b /\
  direction_bits b' = direction_bits b /\ step_event_count b' = step_event_count b.
Proof. repeat split. Qed.

Lemma new_block_fields cfg act p :
  let b := new_block cfg act p in
  let c := set_steps (target_steps cfg (target act)) (position p) zero_block in
  action_type b = AT_MOVE /\ (forall a, steps_of a b = steps_of a c) /\
  direction_bits b = direction_bits c /\ step_event_count b = step_event_count c /\
  check_endstops b = negb (bool_decide (ActionType act = AT_MOVE)).
Proof.
  intros b c. subst b c. unfold new_block.
  set (tgt := target_steps cfg (target act)). set (d := delta_mm cfg tgt (position p)).
  set (b0 := set_steps tgt (position p) (block_at (block_buffer p) (block_buffer_head p))).
  destruct (set_rates_frame cfg d (feed_rate (target act)) b0)
    as (R1 & R2 & R3 & R4 & R5 & R6 & R7).
  destruct (set_steps_fields tgt (position p)
    (block_at (block_buffer p) (block_buffer_head p)) zero_block)
    as (G1 & G2 & G3 & G4 & G5 & G6 & G7).
  fold b0 in G1, G2, G3, G4, G5, G6, G7. clearbody b0.
  revert R1 R2 R3 R4 R5 R6 R7. generalize (set_rates cfg d (feed_rate (target act)) b0) as b1.
  intros b1 R1 R2 R3 R4 R5 R6 R7.
  pose proof (set_profile_frame cfg p d b1) as HF.
  destruct (set_profile cfg p d b1) as [b2 p2]. cbn [fst].
  destruct HF as (_ & _ & _ & _ & _ & _ & F7 & F8 & F9 & F10 & F11 & F12 & F13).
  cbn [action_type direction_bits step_event_count check_endstops update updater].
  rewrite F7, F12, F13, R1, R6, R7. split_and!; [exact G1| |exact G6|exact G7|done].
  intros a. destruct a; cbn [steps_of steps_x steps_y steps_z steps_e update updater].
  - by rewrite F8, R2. - by rewrite F9, R3. - by rewrite F10, R4. - by rewrite F11, R5.
Qed.

(** A move within reach is planned as a plain block that travels exactly the
    difference of the positions, or is dropped when there is none. *)
Lemma new_block_travel cfg act p :
  in_reach (target_steps cfg (target act)) -> in_reach (position p) ->
  ActionType act = AT_MOVE ->
  if move_count cfg act p =? 0
  then forall a, arr (target_steps cfg (target act)) (axis_index a) = arr (position p) (axis_index a)
  else plain_move (new_block cfg act p) /\
    forall a, travel a (new_block cfg act p) =
      arr (target_steps cfg (target act)) (axis_index a) - arr (position p) (axis_index a).
Proof.
  intros Ht Hp Hact. unfold move_count.
  pose proof (set_steps_count _ (position p) zero_block Ht Hp) as (Hn & Hs & Hz). cbv zeta in Hz.
  destruct (new_block_fields cfg act p) as (N1 & N2 & N3 & N4 & N5).
  set (c := set_steps (target_steps cfg (target act)) (position p) zero_block) in *.
  destruct (Z.eqb_spec (step_event_count c) 0) as [H0|H0]; [by apply Hz|]. split.
  - split_and!; [done| | | |].
    + rewrite N5, Hact. by rewrite bool_decide_eq_true_2.
    + rewrite N4. lia.
    + rewrite N4. lia.
    + intros a. rewrite N2, N4.
      destruct (set_steps_travel _ (position p) zero_block a Ht Hp) as [Hst _].
      fold c in Hst. specialize (Hs a). lia.
  - intros a. unfold travel, forward. rewrite N2, N3.
    destruct (set_steps_travel _ (position p) zero_block a Ht Hp) as [Hst Hf].
    fold c in Hst, Hf. unfold forward in Hf. rewrite Hst, Hf. unfold sgn.
    destruct (Z.ltb_spec (arr (target_steps cfg (target act)) (axis_index a))
      (arr (position p) (axis_index a))); cbn [negb]; lia.
Qed.

(** ** The machine

    Main program and interrupts, interleaved. [world] is the motion state and
    the four motors. *)
Definition world : Type := motion * (axis -> motor).

Definition run_on (es : list hw_event) (m' : motion) (w : axis -> motor) : world :=
  (m', motors_run es w).

Inductive machine_step (cfg : configuration) : world -> world -> Prop :=
  | step_move act m w p queued :
      (* plan_buffer_line once the ring has room *)
      ActionType act = AT_MOVE -> in_reach (target_steps cfg (target act)) ->
      ring_full m = false -> plan_line cfg act (plan m) = Some (p, queued) ->
      machine_step cfg (m, w)
        (let '(m', es) := if queued then st_wake_up cfg (mk_motion p (st m))
                          else (mk_motion p (st m), []) in run_on es m' w)
  | step_timer inp m w :
      machine_step cfg (m, w) (let '(m', es) := stepCallback inp m in run_on es m' w)
  | step_accel m w :
      machine_step cfg (m, w) (accelCallback m, w).

(** The invariant. *)
Definition sound (x : world) : Prop :=
  in_reach (position (plan (fst x))) /\ exists r, on_course (fst x) (snd x) r.

Lemma travel_pending a q q' :
  Forall2 same_job q q' -> pending a q' = pending a q /\ events q' = events q /\
  (Forall plain_move q -> Forall plain_move q').
Proof.
  induction 1 as [|b b' q q' Hj _ (IH1 & IH2 & IH3)]; [done|].
  destruct (plain_move_travel b b' Hj) as (P & T & C).
  cbn [pending events fold_right]. fold (pending a q') (pending a q) (events q') (events q).
  rewrite T, C, IH1, IH2. split_and!; [done|done|].
  intros HF. inversion HF; subst. constructor; auto.
Qed.

Lemma pending_app a q b : pending a (q ++ [b]) = pending a q + travel a b.
Proof.
  induction q as [|x q IH]; cbn [app pending fold_right]; [lia|].
  fold (pending a (q ++ [b])) (pending a q). lia.
Qed.

Lemma events_app q b : events (q ++ [b]) = events q + step_event_count b.
Proof.
  induction q as [|x q IH]; cbn [app events fold_right]; [lia|].
  fold (events (q ++ [b])) (events q). lia.
Qed.

Lemma Forall2_jobs q q' : Forall2 replanned q q' -> Forall2 same_job q q'.
Proof. apply Forall2_impl. by intros x y [Hj _]. Qed.

(** A block in progress stays in progress when its speeds are replanned. *)
Lemma tracing_same_job b b' t k p : same_job b b' -> tracing b t k p -> tracing b' t k p.
Proof.
  intros (_ & J2 & J3 & J4 & J5 & J6 & J7 & _) (T1 & T2 & T3 & T4).
  split; [done|]. split; [lia|]. split; [congruence|].
  intros a. specialize (T4 a). rewrite J7. destruct a; cbn in *; congruence.
Qed.

(** Replacing the queue by one that continues it with one more move. *)
Lemma extend_course m w r p' nb :
  on_course m w r -> planner_wf p' -> block_buffer_tail p' = block_buffer_tail (plan m) ->
  Forall2 same_job (queue (plan m) ++ [nb]) (queue p') -> plain_move nb ->
  (forall a, travel a nb = arr (position p') (axis_index a) - target_of a m) ->
  on_course (mk_motion p' (st m)) w (r + step_event_count nb).
Proof.
  intros (Hwf & Hbusy & Hplain & Hcur) Hwf' Htail Hq Hnb Htr.
  assert (Forall plain_move (queue (plan m) ++ [nb])) as Hpl
    by (apply Forall_app; split; [done|by constructor]).
  split; [exact Hwf'|]. split; [exact Hbusy|]. cbn [plan st].
  split; [by eapply (travel_pending AX)|].
  destruct (current_block (st m)) as [i|].
  - destruct Hcur as (b & q & k & p & Eq & -> & Ht & -> & Hw).
    rewrite Eq in Hq. cbn [app] in Hq. inversion Hq as [|? b' ? q' Hj Hq']. subst.
    exists b', q', k, p. split; [done|]. split; [done|].
    split; [by eapply tracing_same_job|].
    destruct (travel_pending AX _ _ Hq') as (_ & -> & _). rewrite events_app.
    destruct (plain_move_travel b b' Hj) as (_ & T & C). rewrite C. split; [lia|].
    intros a. destruct (Hw a) as [D P]. destruct (travel_pending a _ _ Hq') as (-> & _ & _).
    rewrite pending_app, T. specialize (Htr a). unfold target_of in *. cbn [plan].
    assert (forward a b' = forward a b) as Hf by (unfold forward; by destruct Hj as (_&_&_&_&_&->&_)).
    rewrite Hf. split; [done|lia].
  - destruct Hcur as [-> Hpos]. destruct (travel_pending AX _ _ Hq) as (_ & -> & _).
    rewrite events_app. split; [done|]. intros a.
    destruct (travel_pending a _ _ Hq) as (-> & _ & _). rewrite pending_app.
    specialize (Hpos a). specialize (Htr a). unfold target_of in *. cbn [plan]. lia.
Qed.

(** Replacing the queue by itself, at a position that is the same step by step. *)
Lemma same_course m w r p' :
  on_course m w r -> planner_wf p' -> block_buffer_tail p' = block_buffer_tail (plan m) ->
  queue p' = queue (plan m) -> position p' = position (plan m) ->
  on_course (mk_motion p' (st m)) w r.
Proof.
  intros (Hwf & Hbusy & Hplain & Hcur) Hwf' Htail Hq Hpos.
  split; [exact Hwf'|]. split; [exact Hbusy|]. cbn [plan st]. rewrite Hq.
  split; [exact Hplain|]. unfold target_of in *. cbn [plan]. rewrite Hpos, Htail. exact Hcur.
Qed.

Lemma on_course_motors m w w' r :
  on_course m w r -> (forall a, w' a = w a) -> on_course m w' r.
Proof.
  intros (A & B & C & D) Hw. split; [done|]. split; [done|]. split; [done|].
  destruct (current_block (st m)).
  - destruct D as (b & q & k & p & D1 & D2 & D3 & D4 & D5).
    exists b, q, k, p. split_and!; try done. intros a. rewrite Hw. apply D5.
  - destruct D as [D1 D2]. split; [done|]. intros a. rewrite Hw. apply D2.
Qed.

(** The planning of a move keeps the course. *)
Lemma plan_line_course cfg act m w r p' queued :
  on_course m w r -> in_reach (position (plan m)) -> in_reach (target_steps cfg (target act)) ->
  ActionType act = AT_MOVE -> ring_full m = false ->
  plan_line cfg act (plan m) = Some (p', queued) ->
  in_reach (position p') /\ exists r', r <= r' /\ on_course (mk_motion p' (st m)) w r' /\
  forall a, arr (position p') (axis_index a) = arr (target_steps cfg (target act)) (axis_index a).
Proof.
  intros Hc Hpos Htgt Hact Hroom Hplan. pose proof Hc as (Hwf & _).
  assert (plan_queue_full (plan m) = 0) as Hfull.
  { unfold ring_full, c_true in Hroom. destruct (Z.eqb_spec (plan_queue_full (plan m)) 0); done. }
  destruct (plan_line_spec cfg act (plan m) Hwf Hfull) as (p1 & q1 & E & W & _ & T & H).
  rewrite Hplan in E. injection E as <- <-.
  pose proof (new_block_travel cfg act (plan m) Htgt Hpos Hact) as Hb.
  destruct (move_count cfg act (plan m) =? 0).
  - destruct H as (_ & Q & P & _). rewrite P. split; [done|].
    exists r. split; [lia|]. split; [by apply same_course|]. intros a. symmetry. apply Hb.
  - destruct H as (_ & Q & P & _). destruct Hb as [Hb Htr]. rewrite P. split; [done|].
    exists (r + step_event_count (new_block cfg act (plan m))).
    split; [destruct Hb as (_ & _ & ? & _); lia|]. split; [|done].
    eapply (extend_course m w r p' (new_block cfg act (plan m))); try done.
    + by apply Forall2_jobs.
    + intros a. rewrite P. apply Htr.
Qed.

Lemma wake_course cfg m w r : on_course m w r ->
  let '(m', es) := st_wake_up cfg m in on_course m' (motors_run es w) r /\ plan m' = plan m.
Proof. intros H. split; [|done]. exact H. Qed.

(** The pulse on the debug pin around the interrupt moves no motor. *)
Lemma debug_pin_silent v : silent (digital_write 1 (bit 15) v).
Proof. intros a [d s p]. unfold digital_write. destruct (c_true v), a; reflexivity. Qed.

Lemma timer_course inp m w r : on_course m w r ->
  let '(m', es) := stepCallback inp m in
  on_course m' (motors_run es w) (Z.max 0 (r - 1)) /\ position (plan m') = position (plan m).
Proof.
  intros H. pose proof (interrupt_on_course inp m w r H) as Hi. unfold stepCallback.
  destruct (st_interrupt inp m) as [m' e]. destruct Hi as [Hi Hp]. split; [|done].
  eapply on_course_motors; [exact Hi|]. intros a. unfold motors_run.
  by rewrite !motor_run_app, !debug_pin_silent.
Qed.

Lemma step_sound cfg x y : sound x -> machine_step cfg x y -> sound y.
Proof.
  intros (Hr & r & Hc) Hs. destruct Hs as [act m w p queued Hact Htgt Hroom Hplan|inp m w|m w];
    cbn [fst snd] in Hr, Hc.
  - destruct (plan_line_course cfg act m w r p queued Hc Hr Htgt Hact Hroom Hplan)
      as (Hr' & r' & _ & Hc' & _).
    destruct queued; [|by split; [|exists r']].
    split; [exact Hr'|exists r'; exact Hc'].
  - pose proof (timer_course inp m w r Hc) as H. destruct (stepCallback inp m) as [m' es].
    destruct H as [H1 H2]. split; cbn; [by rewrite H2|by eexists].
  - split; [exact Hr|]. exists r. exact Hc.
Qed.

(** C1: No step is lost or invented. Start from any state in which the motors,
    the block in progress and the queued blocks account for the planner's
    position, as after a reset with an empty ring. Then after every
    interleaving of planned moves, step-timer interrupts (with any end-stop and
    temperature inputs) and acceleration ticks, whenever the ring is empty the
    net number of steps the drivers have counted on the step and direction pins
    is, on each of the four axes, exactly the planner's position. *)
Theorem no_lost_steps (cfg : configuration) (m0 m : motion) (w0 w : axis -> motor)
  (Hwf : planner_wf (plan m0)) (Hidle : queue (plan m0) = [] /\ current_block (st m0) = None)
  (Hbusy : busy (st m0) = false) (Hreach : in_reach (position (plan m0)))
  (H0 : forall a, m_pos (w0 a) = arr (position (plan m0)) (axis_index a))
  (Hrun : rtc (machine_step cfg) (m0, w0) (m, w)) (Hempty : queue (plan m) = []) (a : axis) :
  m_pos (w a) = arr (position (plan m)) (axis_index a).
Proof.
  assert (sound (m0, w0)) as Hs.
  { destruct Hidle as [Hq Hcur]. split; [exact Hreach|]. exists 0. cbn [fst snd].
    split; [done|]. split; [done|]. rewrite Hq, Hcur. split; [done|]. split; [done|].
    intros b. cbn [pending fold_right]. unfold target_of. rewrite H0. lia. }
  assert (sound (m, w)) as (_ & r & _ & _ & _ & Hc).
  { revert Hs. clear -Hrun. induction Hrun as [x|x y z Hxy _ IH]; [done|].
    intros Hx. apply IH. by eapply step_sound. }
  cbn [fst snd] in Hc. rewrite Hempty in Hc. destruct (current_block (st m)) as [i|].
  - by destruct Hc as (b & q & k & p & Hq & _).
  - destruct Hc as [_ Hc]. specialize (Hc a). cbn [pending fold_right] in Hc.
    unfold target_of in Hc. lia.
Qed.

(** ** A run on a concrete machine *)

Definition no_stops : inputs := mk_inputs (fun _ => false) (fun _ => false) (fun _ => false) true.
Definition motors_at_rest : axis -> motor := fun _ => mk_motor false false 0.
Definition rest : motion := mk_motion sample_planner stepper_start.

(** Two steps in X and one in Y: 0.025 mm and -0.0125 mm. *)
Definition tiny_move : tActionRequest :=
  mk_request AT_MOVE (mk_target (d_lit 25 1000) (dopp (d_lit 125 10000)) d0 d0 (d_of_Z 600) 0).

Definition planned : planner :=
  match plan_line sample_config tiny_move sample_planner with
  | Some (p, _) => p
  | None => sample_planner
  end.

Definition world1 : world :=
  let '(m', es) := st_wake_up sample_config (mk_motion planned stepper_start) in
  run_on es m' motors_at_rest.
Definition world2 : world :=
  let '(m', es) := stepCallback no_stops (fst world1) in run_on es m' (snd world1).
Definition world3 : world :=
  let '(m', es) := stepCallback no_stops (fst world2) in run_on es m' (snd world2).

Lemma timer_step cfg inp (x : world) :
  machine_step cfg x (let '(m', es) := stepCallback inp (fst x) in run_on es m' (snd x)).
Proof. destruct x as [m w]. apply (step_timer cfg inp m w). Qed.

Lemma tiny_target : in_reach (target_steps sample_config (target tiny_move)).
Proof.
  assert (target_steps sample_config (target tiny_move) = [2; -1; 0; 0]) as ->
    by (vm_compute; reflexivity).
  repeat constructor; lia.
Qed.

Lemma no_lost_steps_witness :
  queue (plan (fst world3)) = [] /\
  m_pos (snd world3 AX) = 2 /\ m_pos (snd world3 AY) = -1 /\ m_pos (snd world3 AZ) = 0.
Proof.
  assert (queue (plan (fst world3)) = []) as Hq by (vm_compute; reflexivity).
  assert (rtc (machine_step sample_config) (rest, motors_at_rest) world3) as Hrun.
  { apply rtc_l with world1.
    { apply (step_move sample_config tiny_move rest motors_at_rest planned true);
        [reflexivity|apply tiny_target|vm_compute; reflexivity|vm_compute; reflexivity]. }
    apply rtc_l with world2; [exact (timer_step sample_config no_stops world1)|].
    apply rtc_once. exact (timer_step sample_config no_stops world2). }
  assert (forall a, m_pos (snd world3 a) = arr (position (plan (fst world3))) (axis_index a)) as H.
  { intros a.
    rewrite (surjective_pairing world3) in Hrun.
    exact (no_lost_steps sample_config rest (fst world3) motors_at_rest (snd world3)
      sample_planner_wf (conj eq_refl eq_refl) eq_refl ltac:(repeat constructor; lia)
      ltac:(intros []; reflexivity) Hrun Hq a). }
  split; [exact Hq|]. rewrite !H. vm_compute. repeat split.
Defined.

(** ** The waits end *)

Lemma spin_app cond inps m : spin cond inps m <> None ->
  forall more, spin cond (inps ++ more) m = spin cond inps m.
Proof.
  revert m. induction inps as [|inp inps IH]; intros m Hn more; cbn [app spin] in *.
  - destruct (cond m) eqn:E; [done|]. destruct more; cbn [spin]; by rewrite E.
  - destruct (cond m); [|done]. destruct (stepCallback inp m) as [m' e].
    destruct (spin cond inps m') as [r|] eqn:E; [|done].
    rewrite IH by (by rewrite E). by rewrite E.
Qed.

Lemma course_nonneg m w r : on_course m w r -> 0 <= r.
Proof.
  intros (_ & _ & Hpl & Hcur). destruct (current_block (st m)).
  - destruct Hcur as (b & q & k & p & Eq & _ & (_ & Hk & _) & -> & _).
    rewrite Eq in Hpl. inversion Hpl as [|? ? _ Hq]. subst.
    pose proof (events_nonneg q Hq). lia.
  - destruct Hcur as [-> _]. by apply events_nonneg.
Qed.

(** Spinning while a condition holds that fails once nothing is pending. *)
Lemma spin_course cond m w r :
  on_course m w r -> (forall m w, on_course m w 0 -> cond m = false) ->
  forall inps, r <= Z.of_nat (length inps) ->
  exists m' es r', spin cond inps m = Some (m', es) /\ 0 <= r' <= r /\ cond m' = false /\
    on_course m' (motors_run es w) r' /\ position (plan m') = position (plan m).
Proof.
  intros Hc Hend inps. revert m w r Hc. induction inps as [|inp inps IH]; intros m w r Hc Hr.
  - pose proof (course_nonneg _ _ _ Hc) as Hr0.
    cbn [length] in Hr. assert (r = 0) as -> by lia. cbn [spin].
    rewrite (Hend m w Hc). exists m, [], 0. split; [done|]. split; [lia|].
    split; [by eapply Hend|]. by split.
  - cbn [spin]. destruct (cond m) eqn:E.
    + pose proof (timer_course inp m w r Hc) as H. destruct (stepCallback inp m) as [m1 e1].
      destruct H as [H1 H2]. cbn [length] in Hr.
      destruct (IH m1 (motors_run e1 w) (Z.max 0 (r - 1)) H1 ltac:(lia))
        as (m2 & e2 & r2 & E2 & Hr2 & Hc2 & Ho2 & Hp2).
      rewrite E2. cbn [option_map]. exists m2, (e1 ++ e2), r2.
      pose proof (course_nonneg _ _ _ Hc) as Hr0.
      split; [done|]. split; [lia|]. split; [done|]. split; [|congruence].
      eapply on_course_motors; [exact Ho2|]. intros a. unfold motors_run. by rewrite motor_run_app.
    + exists m, [], r. pose proof (course_nonneg _ _ _ Hc).
      split; [done|]. split; [lia|]. split; [done|]. by split.
Qed.

Lemma nothing_pending m w : on_course m w 0 -> queue (plan m) = [] /\ current_block (st m) = None.
Proof.
  intros (_ & _ & Hpl & Hcur). destruct (current_block (st m)) as [i|].
  - destruct Hcur as (b & q & k & p & Eq & _ & (_ & Hk & _) & H0 & _).
    rewrite Eq in Hpl. inversion Hpl as [|? ? _ Hq]. subst.
    pose proof (events_nonneg q Hq). lia.
  - destruct Hcur as [H0 _]. split; [|done]. destruct (queue (plan m)) as [|b q]; [done|].
    inversion Hpl as [|? ? (_ & _ & Hn & _) Hq]. subst. pose proof (events_nonneg q Hq).
    cbn [events fold_right] in H0. fold (events q) in H0. lia.
Qed.

Lemma empty_no_block p : planner_wf p -> plan_get_current_block p = None -> queue p = [].
Proof.
  intros Hwf Hg. apply queue_empty_iff; [done|]. unfold plan_get_current_block in Hg.
  destruct (Z.eqb_spec (block_buffer_head p) (block_buffer_tail p)); done.
Qed.


