(* ===== verification/SlowTimer.v ===== *)
(** * Software timers and the buzzer (libraries/R2C2/src/r2c2_timer.c, buzzer.c)

    The list of slow timers that the millisecond tick serves, the hardware
    timer callbacks, the delays, the time-outs of the SD card driver that the
    tick counts down, and the buzzer, the client of a one-shot timer. The timer
    objects are static: a pointer to one is its number, and an object never
    written is the zero-initialised one. Callbacks are an argument: a timer
    stores the name of its callback. *)

From stdpp Require Import gmap.
From Stdlib Require Import SpecFloat.
From S2P Require Import Prelude CDouble Hardware.

(** ** Data *)

Record tTimer (K : Type) := mk_timer {
  pNext : option Z;
  timerCallback : option K;
  Current : Z;
  Reload : Z;
  Running : bool;
  Expired : bool;
  AutoReload : bool
}.
Arguments mk_timer {K}.
Arguments pNext {K}.
Arguments timerCallback {K}.
Arguments Current {K}.
Arguments Reload {K}.
Arguments Running {K}.
Arguments Expired {K}.
Arguments AutoReload {K}.

(** The time-out counters and the status byte of sdcard.c. *)
Record disk_timers := mk_disk { Timer1 : Z; Timer2 : Z; Stat : Z }.

Record slow_timers (K : Type) := mk_slow {
  objects : gmap Z (tTimer K);
  SlowTimerHead : option Z;
  SlowTimerTail : option Z;
  millis_ticks : Z;
  tick_counter : Z;
  disk : disk_timers
}.
Arguments mk_slow {K}.
Arguments objects {K}.
Arguments SlowTimerHead {K}.
Arguments SlowTimerTail {K}.
Arguments millis_ticks {K}.
Arguments tick_counter {K}.
Arguments disk {K}.

Definition timer_zero {K} : tTimer K := mk_timer None None 0 0 false false false.

(** [Stat] starts as STA_NOINIT. *)
Definition slow_start {K} : slow_timers K := mk_slow ∅ None None 0 0 (mk_disk 0 0 1).

(** [*p] and [*p = t] *)
Definition timer_at {K} (s : slow_timers K) (p : Z) : tTimer K :=
  default timer_zero (objects s !! p).
Definition set_timer {K} (p : Z) (t : tTimer K) (s : slow_timers K) : slow_timers K :=
  mk_slow (<[p := t]> (objects s)) (SlowTimerHead s) (SlowTimerTail s) (millis_ticks s)
    (tick_counter s) (disk s).
Definition set_list {K} (head tail : option Z) (s : slow_timers K) : slow_timers K :=
  mk_slow (objects s) head tail (millis_ticks s) (tick_counter s) (disk s).
Definition set_next {K} (next : option Z) (t : tTimer K) : tTimer K :=
  mk_timer next (timerCallback t) (Current t) (Reload t) (Running t) (Expired t) (AutoReload t).

(** ** Operations *)

(** One branch of the [if] dereferences the tail, which is not null when the
    head is not. *)
Definition AddSlowTimer {K} (p : Z) (s : slow_timers K) : slow_timers K :=
  let s := set_timer p (set_next None (timer_at s p)) s in
  match SlowTimerHead s, SlowTimerTail s with
  | None, _ => set_list (Some p) (Some p) s
  | Some h, Some q =>
      set_list (Some h) (Some p) (set_timer q (set_next (Some p) (timer_at s q)) s)
  | Some h, None => s
  end.

Definition StartSlowTimer {K} (p : Z) (intervalMillis : Z) (k : K) (s : slow_timers K)
  : slow_timers K :=
  let t := timer_at s p in
  set_timer p (mk_timer (pNext t) (Some k) intervalMillis intervalMillis true false
                 (AutoReload t)) s.

Definition StopSlowTimer {K} (p : Z) (s : slow_timers K) : slow_timers K :=
  let t := timer_at s p in
  set_timer p (mk_timer (pNext t) (timerCallback t) (Current t) (Reload t) false (Expired t)
                 (AutoReload t)) s.

Definition millis {K} (s : slow_timers K) : Z := millis_ticks s.

(** [MMC_disk_timerproc] of sdcard.c. *)
Definition MMC_disk_timerproc (d : disk_timers) : disk_timers :=
  let n := u8 (Timer1 d) in
  let t1 := if c_true n then n - 1 else Timer1 d in
  let n := u8 (Timer2 d) in
  let t2 := if c_true n then n - 1 else Timer2 d in
  mk_disk t1 t2 0.

Section tick.
Context {K W : Type}.
Variable call : K -> Z -> slow_timers K * W -> slow_timers K * W.

(** The body of the loop over the timers. *)
Definition visit (x : slow_timers K * W) (p : Z) : slow_timers K * W :=
  let '(s, w) := x in
  let t := timer_at s p in
  if Running t then
    let current := if 0 <? Current t then Current t - 1 else Current t in
    if current =? 0 then
      let t := if AutoReload t
               then mk_timer (pNext t) (timerCallback t) (Reload t) (Reload t) true true true
               else mk_timer (pNext t) (timerCallback t) current (Reload t) false true false in
      let s := set_timer p t s in
      match timerCallback t with Some k => call k p (s, w) | None => (s, w) end
    else
      (set_timer p (mk_timer (pNext t) (timerCallback t) current (Reload t) true (Expired t)
                      (AutoReload t)) s, w)
  else (s, w).

(** [while (pTimer)]; the next timer is read after the body. [None] is fuel
    exhausted. *)
Fixpoint serve (fuel : nat) (p : option Z) (x : slow_timers K * W)
  : option (slow_timers K * W) :=
  match p with
  | None => Some x
  | Some p =>
      match fuel with
      | O => None
      | S fuel => let x := visit x p in serve fuel (pNext (timer_at (fst x) p)) x
      end
  end.

Definition count_tick (s : slow_timers K) : slow_timers K :=
  let c := u8 (tick_counter s + 1) in
  if 99 <? c
  then mk_slow (objects s) (SlowTimerHead s) (SlowTimerTail s) (i32 (millis_ticks s + 1)) 0
         (MMC_disk_timerproc (disk s))
  else mk_slow (objects s) (SlowTimerHead s) (SlowTimerTail s) (i32 (millis_ticks s + 1)) c
         (disk s).

Definition SysTick_Handler (fuel : nat) (x : slow_timers K * W) : option (slow_timers K * W) :=
  let '(s, w) := x in
  let s := count_tick s in
  serve fuel (SlowTimerHead s) (s, w).

Fixpoint tick_times (fuel n : nat) (x : slow_timers K * W) : option (slow_timers K * W) :=
  match n with
  | O => Some x
  | S n => x ← SysTick_Handler fuel x; tick_times fuel n x
  end.
End tick.

(** [delay_ms] polls the clock while the events of [l] change the state. *)
Definition delay_over (ms start now : Z) : bool := negb (i32 (now - start) <=? ms).

Definition delay_ms {S P : Type} (clock_of : S -> Z) (run : P -> S -> option S) (ms : Z)
  (l : list P) (s : S) : option S :=
  let start := clock_of s in spin_until run (fun s => delay_over ms start (clock_of s)) l s.

(** ** Hardware timers *)

(** Which callback a hardware timer calls; the four handlers of the vector
    table are the generic one at their number. *)
Definition IRQHandlerGeneric {C W : Type} (call : C -> Z -> W -> W)
  (callbacks : list (option C)) (timerNum int_mask : Z) (w : W) : W :=
  match nth (Z.to_nat timerNum) callbacks None with
  | Some c => call c int_mask w
  | None => w
  end.

(** ** The buzzer *)

Section buzzer.
Context {K : Type}.
Variable buzzerTimer : Z.
Variable buzzerTimerCallback : K.

(** [float] is binary32: 24 bits of precision, maximal exponent 128. *)
Definition buzzer_match (frequency : Z) : Z :=
  let f z := binary_normalize 24 128 z 0 false in
  d2u32 (SFmul 24 128 (SFdiv 24 128 (f 1) (f frequency)) (f 1000000)).

Definition buzzer_pwm_set_frequency (frequency : Z) : list hw_event :=
  let match_value := buzzer_match frequency in
  [PWM_Match 0 match_value; PWM_Match 3 (Z.quot match_value 2)].
Definition buzzer_pwm_start : list hw_event := [PWM_Start].
Definition buzzer_pwm_stop : list hw_event := [PWM_Stop].

Definition buzzer_play (frequency duration : Z) (s : slow_timers K)
  : slow_timers K * list hw_event :=
  (StartSlowTimer buzzerTimer duration buzzerTimerCallback s,
   buzzer_pwm_set_frequency frequency ++ buzzer_pwm_start).

Definition buzzer_init (s : slow_timers K) : slow_timers K := AddSlowTimer buzzerTimer s.

(** The condition [buzzer_wait] spins on. *)
Definition buzzer_busy (s : slow_timers K) : bool := Running (timer_at s buzzerTimer).
End buzzer.

(** ** The list of timers *)

(** From [p] the timers of [l] follow each other, in order. *)
Fixpoint chain {K} (s : slow_timers K) (p : option Z) (l : list Z) : Prop :=
  match l with
  | [] => p = None
  | x :: l => p = Some x /\ chain s (pNext (timer_at s x)) l
  end.

Definition timers_wf {K} (s : slow_timers K) (l : list Z) : Prop :=
  chain s (SlowTimerHead s) l /\ SlowTimerTail s = list.last l /\ NoDup l.

Section lists.
Context {K : Type}.
Implicit Types (s : slow_timers K) (t : tTimer K).

Lemma timer_at_set s p t q : timer_at (set_timer p t s) q = if decide (p = q) then t else timer_at s q.
Proof.
  unfold timer_at, set_timer. cbn [objects].
  case_decide; subst; [by rewrite lookup_insert_eq|by rewrite lookup_insert_ne].
Qed.

(** Only the links of its members matter to a chain. *)
Lemma chain_ext s s' p l :
  (forall q, q ∈ l -> pNext (timer_at s' q) = pNext (timer_at s q)) ->
  chain s p l -> chain s' p l.
Proof.
  revert p. induction l as [|x l IH]; intros p Hext H; [done|]. destruct H as [-> H].
  split; [done|]. rewrite Hext by left. apply IH; [|done]. intros q Hq. apply Hext. by right.
Qed.

Lemma chain_snoc s p l x :
  x ∉ l -> NoDup l -> chain s p l -> pNext (timer_at s x) = None ->
  chain (match list.last l with
         | Some q => set_timer q (set_next (Some x) (timer_at s q)) s
         | None => s end)
    (match l with [] => Some x | _ => p end) (l ++ [x]).
Proof.
  revert p. induction l as [|y l IH]; intros p Hx Hnd H Hn; [by split|].
  apply not_elem_of_cons in Hx as [Hxy Hx]. apply list.NoDup_cons in Hnd as [Hy Hnd].
  destruct H as [-> H]. split; [done|]. destruct l as [|z l].
  - cbn [list.last app chain]. rewrite !timer_at_set, (decide_True _ _ (eq_refl y)).
    rewrite decide_False by done. by split.
  - specialize (IH _ Hx Hnd H Hn).
    change (list.last (y :: z :: l)) with (list.last (z :: l)).
    assert (y ≠ default y (list.last (z :: l)) ) as Hne.
    { intros E. apply Hy. destruct (last_is_Some (z :: l)) as [_ [q Hq]]; [done|].
      rewrite Hq in E. cbn in E. subst q. by apply last_Some_elem_of. }
    destruct (list.last (z :: l)) as [q|] eqn:El; [|by apply last_None in El].
    cbn in Hne. rewrite timer_at_set, decide_False by done. exact IH.
Qed.

Lemma add_appends s l p :
  timers_wf s l -> p ∉ l -> timers_wf (AddSlowTimer p s) (l ++ [p]).
Proof.
  intros (Hc & Ht & Hnd) Hp. unfold AddSlowTimer, set_list.
  set (s1 := set_timer p (set_next None (timer_at s p)) s).
  assert (pNext (timer_at s1 p) = None) as Hn
    by (unfold s1; by rewrite timer_at_set, decide_True).
  assert (forall q, q ∈ l -> pNext (timer_at s1 q) = pNext (timer_at s q)) as Hext.
  { intros q Hq. unfold s1. rewrite timer_at_set, decide_False; [done|congruence]. }
  assert (NoDup (l ++ [p])) as Hnd'.
  { apply list.NoDup_app. split; [done|]. split; [|apply list.NoDup_singleton].
    intros x Hx Hx'. apply list_elem_of_singleton in Hx'. by subst. }
  pose proof (chain_snoc s1 _ l p Hp Hnd (chain_ext s s1 _ l Hext Hc) Hn) as H.
  change (SlowTimerHead s1) with (SlowTimerHead s). change (SlowTimerTail s1) with (SlowTimerTail s).
  rewrite Ht. unfold timers_wf. rewrite last_snoc.
  destruct l as [|x l].
  - cbn [chain] in Hc. rewrite Hc. cbn in H |- *. by destruct H.
  - destruct Hc as [Hx _]. rewrite Hx.
    destruct (list.last (x :: l)) as [q|] eqn:El; [|by apply last_None in El].
    rewrite Hx in H. cbn [SlowTimerHead SlowTimerTail]. split; [|done].
    revert H. apply chain_ext. intros q' _. done.
Qed.
End lists.

(** ** One tick *)

Definition due {K} (t : tTimer K) : bool := Running t && (Current t <=? 1).

(** A timer after a tick whose callback leaves it alone. *)
Definition advance {K} (t : tTimer K) : tTimer K :=
  if Running t then
    if Current t <=? 1 then
      if AutoReload t
      then mk_timer (pNext t) (timerCallback t) (Reload t) (Reload t) true true true
      else mk_timer (pNext t) (timerCallback t) 0 (Reload t) false true false
    else mk_timer (pNext t) (timerCallback t) (Current t - 1) (Reload t) true (Expired t)
           (AutoReload t)
  else t.

Definition current_ok {K} (t : tTimer K) : Prop := 0 <= Current t /\ 0 <= Reload t.

Lemma advance_ok {K} (t : tTimer K) : current_ok t -> current_ok (advance t).
Proof.
  unfold current_ok, advance. intros [H1 H2].
  repeat case_bool; cbn [Current Reload]; lia.
Qed.

Lemma advance_next {K} (t : tTimer K) : pNext (advance t) = pNext t.
Proof. unfold advance. by repeat case_bool. Qed.

(** The callback a timer names, when it fires. *)
Definition fires {K} (p : Z) (t : tTimer K) : list (K * Z) :=
  if due t then match timerCallback t with Some k => [(k, p)] | None => [] end else [].

Section quiet.
Context {K W : Type}.
Variable eff : K -> Z -> W -> W.

(** Callbacks that leave the timers alone, as those of the buzzer and the
    temperature control do. *)
Definition quiet (k : K) (p : Z) (x : slow_timers K * W) : slow_timers K * W :=
  (fst x, eff k p (snd x)).

Definition run_log (log : list (K * Z)) (w : W) : W :=
  fold_left (fun w kp => eff (fst kp) (snd kp) w) log w.

Lemma run_log_app l1 l2 w : run_log (l1 ++ l2) w = run_log l2 (run_log l1 w).
Proof. apply fold_left_app. Qed.

Lemma visit_quiet s w p :
  current_ok (timer_at s p) ->
  exists s', visit quiet (s, w) p = (s', run_log (fires p (timer_at s p)) w) /\
    SlowTimerHead s' = SlowTimerHead s /\ SlowTimerTail s' = SlowTimerTail s /\
    forall q, timer_at s' q = if decide (p = q) then advance (timer_at s q) else timer_at s q.
Proof.
  intros [Hc _]. unfold visit, quiet, fires, due, advance. cbn [fst snd]. set (t := timer_at s p) in *.
  destruct (Running t) eqn:Er.
  2:{ exists s. split; [done|]. split; [done|]. split; [done|]. intros q.
      case_decide as Hq; [|done]. subst q. fold t. by rewrite Er. }
  assert (((if 0 <? Current t then Current t - 1 else Current t) =? 0) = (Current t <=? 1)) as ->.
  { destruct (Z.ltb_spec 0 (Current t)), (Z.leb_spec (Current t) 1); lia. }
  destruct (Z.leb_spec (Current t) 1) as [Hle|Hgt].
  - assert ((if 0 <? Current t then Current t - 1 else Current t) = 0) as ->
      by (destruct (Z.ltb_spec 0 (Current t)); lia).
    destruct (AutoReload t) eqn:Ea; cbn [timerCallback andb];
      destruct (timerCallback t) as [k|] eqn:Ek;
      (eexists; split; [reflexivity|];
       split; [done|]; split; [done|]; intros q; rewrite timer_at_set;
       case_decide as Hq; [|done]; subst q; fold t; rewrite Er, Ea, ?Ek;
       by destruct (Z.leb_spec (Current t) 1); [|lia]).
  - destruct (Z.ltb_spec 0 (Current t)); [|lia]. eexists; split; [reflexivity|].
    split; [done|]. split; [done|]. intros q. rewrite timer_at_set.
    case_decide as Hq; [|done]. subst q. fold t. rewrite Er.
    destruct (Z.leb_spec (Current t) 1); [lia|done].
Qed.

Lemma serve_quiet l : forall fuel s w p,
  chain s p l -> NoDup l -> (length l <= fuel)%nat -> (forall q, current_ok (timer_at s q)) ->
  exists s', serve quiet fuel p (s, w)
    = Some (s', run_log (concat (map (fun q => fires q (timer_at s q)) l)) w) /\
    SlowTimerHead s' = SlowTimerHead s /\ SlowTimerTail s' = SlowTimerTail s /\
    forall q, timer_at s' q = if decide (q ∈ l) then advance (timer_at s q) else timer_at s q.
Proof.
  induction l as [|x l IH]; intros fuel s w p Hc Hnd Hf Hok.
  - cbn [chain] in Hc. subst p. exists s. destruct fuel; (split; [done|]); (split; [done|]);
      (split; [done|]); intros q; (rewrite decide_False; [done|apply not_elem_of_nil]).
  - destruct Hc as [-> Hc]. destruct fuel as [|fuel]; [cbn in Hf; lia|].
    apply list.NoDup_cons in Hnd as [Hx Hnd].
    destruct (visit_quiet s w x (Hok x)) as (s1 & E1 & Hh1 & Ht1 & Ha1).
    cbn [serve]. rewrite E1. cbn [fst].
    assert (forall q, q ∈ l -> timer_at s1 q = timer_at s q) as Hl.
    { intros q Hq. rewrite Ha1. rewrite decide_False; [done|]. congruence. }
    destruct (IH fuel s1 (run_log (fires x (timer_at s x)) w) (pNext (timer_at s1 x)))
      as (s' & E & Hh & Ht & Ha); [| exact Hnd | cbn in Hf; lia | |].
    { rewrite Ha1, decide_True, advance_next by done. revert Hc. apply chain_ext.
      intros q Hq. by rewrite Hl. }
    { intros q. rewrite Ha1. case_decide; [by apply advance_ok|done]. }
    exists s'. rewrite E. split; [|split; [congruence|split; [congruence|]]].
    + cbn [map concat]. rewrite run_log_app. f_equal. f_equal. f_equal. f_equal.
      apply map_ext_in. intros q Hq. rewrite Hl; [done|by apply list_elem_of_In].
    + intros q. rewrite Ha, Ha1. destruct (decide (q ∈ l)) as [Hq|Hq].
      * rewrite decide_False by congruence. rewrite decide_True; [done|by right].
      * destruct (decide (x = q)) as [->|Hne]; [rewrite decide_True; [done|by left]|].
        rewrite decide_False; [done|]. intros H. apply elem_of_cons in H as [H|H]; [|done].
        congruence.
Qed.

(** How often the callback of [p] has been called. *)
Definition calls (p : Z) (log : list (K * Z)) : nat :=
  length (List.filter (fun kp => snd kp =? p) log).

Lemma calls_app p l1 l2 : calls p (l1 ++ l2) = (calls p l1 + calls p l2)%nat.
Proof. unfold calls. by rewrite List.filter_app, length_app. Qed.

Lemma calls_fires p q (t : tTimer K) :
  calls p (fires q t) = if decide (q = p) then length (fires q t) else 0%nat.
Proof.
  unfold calls, fires. destruct (due t); [|by case_decide].
  destruct (timerCallback t); [|by case_decide]. cbn.
  destruct (Z.eqb_spec q p); case_decide; done.
Qed.

Lemma calls_round p (f : Z -> tTimer K) l :
  NoDup l -> calls p (concat (map (fun q => fires q (f q)) l))
             = if decide (p ∈ l) then length (fires p (f p)) else 0%nat.
Proof.
  induction l as [|x l IH]; intros Hnd; [by rewrite decide_False by apply not_elem_of_nil|].
  apply list.NoDup_cons in Hnd as [Hx Hnd]. cbn [map concat].
  rewrite calls_app, calls_fires, IH by done.
  destruct (decide (x = p)) as [->|Hne].
  - rewrite decide_False by done. rewrite decide_True by left. lia.
  - destruct (decide (p ∈ l)); [rewrite decide_True by (by right); done|].
    rewrite decide_False; [done|]. intros H. apply elem_of_cons in H as [H|H]; congruence.
Qed.

(** A tick serves every timer of the list once, in list order. *)
Lemma tick_quiet fuel s w l :
  timers_wf s l -> (length l <= fuel)%nat -> (forall q, current_ok (timer_at s q)) ->
  exists s', SysTick_Handler quiet fuel (s, w)
    = Some (s', run_log (concat (map (fun q => fires q (timer_at s q)) l)) w) /\
    timers_wf s' l /\
    forall q, timer_at s' q = if decide (q ∈ l) then advance (timer_at s q) else timer_at s q.
Proof.
  intros (Hc & Ht & Hnd) Hf Hok. unfold SysTick_Handler.
  assert (objects (count_tick s) = objects s /\ SlowTimerHead (count_tick s) = SlowTimerHead s /\
          SlowTimerTail (count_tick s) = SlowTimerTail s) as (Ho & Hh & Htl)
    by (unfold count_tick; case_bool; done).
  assert (forall q, timer_at (count_tick s) q = timer_at s q) as Hat
    by (intros q; unfold timer_at; by rewrite Ho).
  destruct (serve_quiet l fuel (count_tick s) w (SlowTimerHead (count_tick s)))
    as (s' & E & Hh' & Ht' & Ha); [|done|done| |].
  { rewrite Hh. revert Hc. apply chain_ext. intros q _. by rewrite Hat. }
  { intros q. by rewrite Hat. }
  exists s'. split; [|split].
  - rewrite E. f_equal. f_equal. f_equal. f_equal. apply map_ext. intros q. by rewrite Hat.
  - split; [|split; [congruence|done]]. rewrite Hh', Hh. revert Hc. apply chain_ext.
    intros q Hq. rewrite Ha, Hat. by rewrite decide_True, advance_next by done.
  - intros q. rewrite Ha. by rewrite Hat.
Qed.

(** The number of times a timer fires in [m] ticks. *)
Fixpoint fire_count (m : nat) (t : tTimer K) : nat :=
  match m with
  | O => 0
  | S m => length (fires 0 t) + fire_count m (advance t)
  end.

Lemma fires_length p q (t : tTimer K) : length (fires p t) = length (fires q t).
Proof. unfold fires. destruct (due t); [|done]. by destruct (timerCallback t). Qed.

Lemma ticks_quiet fuel l p m : forall s w,
  timers_wf s l -> p ∈ l -> (length l <= fuel)%nat -> (forall q, current_ok (timer_at s q)) ->
  exists s' log, tick_times quiet fuel m (s, w) = Some (s', run_log log w) /\ timers_wf s' l /\
    calls p log = fire_count m (timer_at s p) /\
    timer_at s' p = Nat.iter m advance (timer_at s p).
Proof.
  induction m as [|m IH]; intros s w Hwf Hp Hf Hok.
  - exists s, []. split; [done|]. split; [exact Hwf|]. by split.
  - destruct (tick_quiet fuel s w l Hwf Hf Hok) as (s1 & E1 & Hwf1 & Ha1).
    set (w1 := run_log _ w) in E1.
    destruct (IH s1 w1 Hwf1 Hp Hf) as (s' & log & E & Hwf' & Hcalls & Hat).
    { intros q. rewrite Ha1. case_decide; [by apply advance_ok|done]. }
    eexists s', (_ ++ log). cbn [tick_times mbind option_bind]. rewrite E1. cbn [mbind option_bind].
    rewrite E. unfold w1. rewrite <- run_log_app. split; [reflexivity|]. split; [done|].
    rewrite Ha1, decide_True in Hcalls, Hat by done. split.
    + rewrite calls_app, calls_round by apply Hwf. rewrite decide_True by done.
      cbn [fire_count]. rewrite (fires_length p 0). by rewrite Hcalls.
    + rewrite Hat. by rewrite <- Nat.iter_succ_r.
Qed.

(** The closed form, from a running timer with [c] ticks to go. *)
Lemma fire_count_stopped m (t : tTimer K) : Running t = false -> fire_count m t = 0%nat.
Proof.
  intros Hr. assert (advance t = t) as Ha by (unfold advance; by rewrite Hr).
  induction m as [|m IH]; [done|]. cbn [fire_count]. rewrite Ha, IH.
  unfold fires, due. by rewrite Hr.
Qed.

Lemma fire_count_once m : forall nx k (c n : Z) e, 0 < c ->
  fire_count m (mk_timer nx (Some k) c n true e false) = if c <=? Z.of_nat m then 1%nat else 0%nat.
Proof.
  induction m as [|m IH]; intros nx k c n e Hc.
  - cbn [fire_count]. destruct (Z.leb_spec c (Z.of_nat 0)); [lia|done].
  - cbn [fire_count]. unfold fires, due, advance. cbn [Running Current timerCallback AutoReload andb].
    destruct (Z.leb_spec c 1).
    + rewrite fire_count_stopped by done. destruct (Z.leb_spec c (Z.of_nat (S m))); [done|lia].
    + cbn [pNext Reload Expired]. rewrite IH by lia. cbn [length Nat.add].
      destruct (Z.leb_spec (c - 1) (Z.of_nat m)), (Z.leb_spec c (Z.of_nat (S m))); lia.
Qed.

Lemma fire_count_periodic m : forall nx k (c n : Z) e, 0 < c <= n ->
  Z.of_nat (fire_count m (mk_timer nx (Some k) c n true e true)) = (Z.of_nat m + n - c) / n.
Proof.
  induction m as [|m IH]; intros nx k c n e Hc.
  - cbn [fire_count]. rewrite Z.div_small by lia. done.
  - cbn [fire_count]. unfold fires, due, advance. cbn [Running Current timerCallback AutoReload andb].
    destruct (Z.leb_spec c 1).
    + cbn [pNext Reload Expired length]. rewrite Nat2Z.inj_add, IH by lia.
      replace (Z.of_nat (S m) + n - c) with (Z.of_nat m + 1 * n) by lia.
      rewrite Z.div_add by lia. replace (Z.of_nat m + n - n) with (Z.of_nat m) by lia. lia.
    + cbn [pNext Reload Expired length Nat.add]. rewrite IH by lia. f_equal. lia.
Qed.
End quiet.

(** ** Timers fire on time *)

Lemma running_iter {K} m : forall nx (k : K) (c n : Z) e ar, 0 < c -> 0 < n ->
  Running (Nat.iter m advance (mk_timer nx (Some k) c n true e ar))
  = ar || (Z.of_nat m <? c).
Proof.
  induction m as [|m IH]; intros nx k c n e ar Hc Hn.
  - cbn [Nat.iter nat_rect Running]. rewrite (proj2 (Z.ltb_lt (Z.of_nat 0) c)) by lia.
    by rewrite orb_true_r.
  - rewrite Nat.iter_succ_r. unfold advance at 2. cbn [Running Current AutoReload].
    destruct (Z.leb_spec c 1); [destruct ar|]; cbn [pNext timerCallback Reload Expired].
    + by rewrite IH by lia.
    + assert (forall t : tTimer K, Running t = false -> Nat.iter m advance t = t) as Hs.
      { intros t Ht. assert (advance t = t) as Ha by (unfold advance; by rewrite Ht).
        clear -Ha. induction m as [|m IH]; [done|]. by rewrite Nat.iter_succ_r, Ha. }
      rewrite Hs by done. cbn [Running orb]. symmetry. apply Z.ltb_ge. lia.
    + rewrite IH by lia. f_equal.
      destruct (Z.ltb_spec (Z.of_nat m) (c - 1)), (Z.ltb_spec (Z.of_nat (S m)) c); lia.
Qed.

Lemma start_keeps_list {K} (s : slow_timers K) l p n k :
  timers_wf s l -> timers_wf (StartSlowTimer p n k s) l.
Proof.
  intros (Hc & Ht & Hnd). unfold StartSlowTimer. split; [|done].
  revert Hc. apply chain_ext. intros q _. rewrite timer_at_set.
  case_decide as E; [by subst|done].
Qed.

Lemma start_ok {K} (s : slow_timers K) p n k :
  0 <= n -> (forall q, current_ok (timer_at s q)) ->
  forall q, current_ok (timer_at (StartSlowTimer p n k s) q).
Proof.
  intros Hn Hok q. unfold StartSlowTimer. rewrite timer_at_set.
  case_decide; [split; cbn; lia|apply Hok].
Qed.

Lemma set_ok {K} (s : slow_timers K) p t :
  current_ok t -> (forall q, current_ok (timer_at s q)) ->
  forall q, current_ok (timer_at (set_timer p t s) q).
Proof. intros Ht Hok q. rewrite timer_at_set. by case_decide. Qed.

Lemma add_ok {K} (s : slow_timers K) p :
  (forall q, current_ok (timer_at s q)) -> forall q, current_ok (timer_at (AddSlowTimer p s) q).
Proof.
  intros Hok. unfold AddSlowTimer. set (s1 := set_timer p (set_next None (timer_at s p)) s).
  assert (forall q, current_ok (timer_at s1 q)) as H1 by (apply set_ok; [exact (Hok p)|done]).
  destruct (SlowTimerHead s1), (SlowTimerTail s1) as [q|]; try exact H1.
  apply (set_ok s1); [exact (H1 q)|done].
Qed.

(** C19: A slow timer fires on time. A listed timer that is started with an
    interval of [n] milliseconds has, after [m] ticks, called its callback
    [m / n] times if it reloads itself, and otherwise once if [n] ticks have
    passed and never before; a timer without reload runs exactly until then.
    The list serves every timer of it, whatever the others do. *)
Theorem slow_timer_period {K W : Type} (eff : K -> Z -> W -> W) (s : slow_timers K) (w : W)
  (l : list Z) (p n : Z) (k : K) (m fuel : nat)
  (Hwf : timers_wf s l) (Hp : p ∈ l) (Hn : 0 < n < 2 ^ 32) (Hfuel : (length l <= fuel)%nat)
  (Hok : forall q, current_ok (timer_at s q)) :
  exists s' log,
    tick_times (quiet eff) fuel m (StartSlowTimer p n k s, w) = Some (s', run_log eff log w) /\
    Z.of_nat (calls p log)
    = (if AutoReload (timer_at s p) then Z.of_nat m / n else if n <=? Z.of_nat m then 1 else 0) /\
    Running (timer_at s' p) = AutoReload (timer_at s p) || (Z.of_nat m <? n).
Proof.
  destruct (ticks_quiet eff fuel l p m (StartSlowTimer p n k s) w) as (s' & log & E & _ & Hcl & Hat);
    [by apply start_keeps_list|done|done|apply start_ok; [lia|done]|].
  exists s', log. split; [exact E|]. rewrite Hcl, Hat. unfold StartSlowTimer.
  rewrite timer_at_set, decide_True by done. split.
  - destruct (AutoReload (timer_at s p)).
    + rewrite fire_count_periodic by lia. f_equal. lia.
    + rewrite fire_count_once by lia. by case_bool.
  - apply running_iter; lia.
Qed.

(** Two timers in the list, the second reloading itself every three ticks. *)
Definition two_timers : slow_timers bool :=
  AddSlowTimer 5 (AddSlowTimer 9
    (set_timer 5 (mk_timer None None 0 0 false false true) slow_start)).

Lemma two_timers_wf : timers_wf two_timers [9; 5].
Proof.
  apply (add_appends _ [9]); [apply (add_appends _ [])|]; [|apply not_elem_of_nil|].
  - split; [done|]. split; [done|constructor].
  - intros H. apply list_elem_of_singleton in H. discriminate.
Qed.

Lemma two_timers_ok q : current_ok (timer_at two_timers q).
Proof.
  revert q. apply add_ok, add_ok. intros q. rewrite timer_at_set. by case_decide.
Qed.

Lemma slow_timer_period_witness :
  exists s' (log : list (bool * Z)),
    tick_times (quiet (fun k p (w : list Z) => w ++ [p])) 2 10 (StartSlowTimer 5 3 true two_timers, [])
    = Some (s', run_log (fun k p w => w ++ [p]) log []) /\
    Z.of_nat (calls 5 log) = 3 /\ Running (timer_at s' 5) = true.
Proof.
  destruct (slow_timer_period (fun k p (w : list Z) => w ++ [p]) two_timers [] [9; 5] 5 3 true 10 2
    two_timers_wf) as (s' & log & E & H1 & H2).
  - right. left.
  - lia.
  - cbn. lia.
  - apply two_timers_ok.
  - exists s', log. split; [exact E|]. split; [rewrite H1; reflexivity|rewrite H2; reflexivity].
Defined.

(** ** Callbacks in general *)

(** A relation that every callback respects relates the state before and after
    a tick. *)
Lemma SysTick_rel {K W : Type} (call : K -> Z -> slow_timers K * W -> slow_timers K * W)
  (R : W -> W -> Prop) `{!PreOrder R} :
  (forall k p s w, R w (snd (call k p (s, w)))) ->
  forall fuel s w s' w', SysTick_Handler call fuel (s, w) = Some (s', w') -> R w w'.
Proof.
  intros Hcall.
  assert (forall s w p, R w (snd (visit call (s, w) p))) as Hvisit.
  { intros s w p. unfold visit. set (t := timer_at s p). destruct (Running t); [|reflexivity].
    set (c := if 0 <? Current t then _ else _). destruct (c =? 0); [|reflexivity].
    destruct (AutoReload t); cbn [timerCallback];
      (destruct (timerCallback t); [apply Hcall|reflexivity]). }
  assert (forall fuel p s w s' w', serve call fuel p (s, w) = Some (s', w') -> R w w') as Hserve.
  { induction fuel as [|fuel IH]; intros [p|] s w s' w' E; cbn [serve] in E; try done;
      try (injection E as _ ->; reflexivity).
    pose proof (Hvisit s w p) as H1. destruct (visit call (s, w) p) as [s1 w1].
    apply IH in E. by etransitivity. }
  intros fuel s w s' w' E. unfold SysTick_Handler in E. by apply Hserve in E.
Qed.

(** ** The clock and the time-outs of the SD card driver *)

Definition clock {K} (s : slow_timers K) : Z * Z * disk_timers :=
  (millis_ticks s, tick_counter s, disk s).

Lemma visit_clock {K W} (eff : K -> Z -> W -> W) s w p :
  clock (fst (visit (quiet eff) (s, w) p)) = clock s.
Proof.
  unfold visit, quiet. set (t := timer_at s p). destruct (Running t); [|done].
  set (c := if 0 <? Current t then _ else _). destruct (c =? 0); [|done].
  destruct (AutoReload t); cbn [timerCallback]; by destruct (timerCallback t).
Qed.

Lemma serve_clock {K W} (eff : K -> Z -> W -> W) fuel : forall p s w x,
  serve (quiet eff) fuel p (s, w) = Some x -> clock (fst x) = clock s.
Proof.
  induction fuel as [|fuel IH]; intros [p|] s w x E; cbn [serve] in E.
  - done.
  - injection E as <-. done.
  - destruct (visit (quiet eff) (s, w) p) as [s1 w1] eqn:Ev.
    apply IH in E. rewrite E. change s1 with (fst (s1, w1)). rewrite <- Ev. apply visit_clock.
  - injection E as <-. done.
Qed.

(** A down-counter of the SD driver after some calls of its tick. *)
Definition count_down (v n : Z) : Z := Z.max 0 (v - n).

(** The time-out that [v] stands for in the comments of sdcard.c, which take
    the driver's tick for 10 ms, and the ticks of 1 ms it takes. *)
Definition documented_timeout (v : Z) : Z := 10 * v.
Definition actual_timeout (v : Z) : Z := 100 * v.

Lemma count_tick_clock {K} (s : slow_timers K) :
  0 <= tick_counter s < 100 -> 0 <= Timer2 (disk s) < 256 ->
  let s' := count_tick s in
  millis_ticks s' = i32 (millis_ticks s + 1) /\ 0 <= tick_counter s' < 100 /\
  tick_counter s' = (tick_counter s + 1) mod 100 /\
  Timer2 (disk s') = count_down (Timer2 (disk s)) ((tick_counter s + 1) / 100).
Proof.
  intros Hc Hv. unfold count_tick. rewrite u8_small by lia.
  destruct (Z.ltb_spec 99 (tick_counter s + 1)); cbn [millis_ticks tick_counter disk].
  - replace (tick_counter s + 1) with 100 by lia. split; [done|]. split; [lia|]. split; [done|].
    unfold MMC_disk_timerproc, count_down. cbn [Timer2]. rewrite (u8_small (Timer2 _)) by lia.
    unfold c_true. destruct (Z.eqb_spec (Timer2 (disk s)) 0) as [E|E]; cbn [negb].
    + rewrite E. reflexivity.
    + change (100 / 100) with 1. lia.
  - split; [done|]. split; [lia|]. rewrite Z.mod_small, Z.div_small by lia. split; [done|].
    unfold count_down. lia.
Qed.

Lemma carry c m : (c + (1 + m)) / 100 = (c + 1) / 100 + ((c + 1) mod 100 + m) / 100.
Proof.
  pose proof (Z.div_mod (c + 1) 100 ltac:(done)) as H.
  rewrite Z.add_assoc. rewrite H at 1.
  replace (100 * ((c + 1) / 100) + (c + 1) mod 100 + m)
    with ((c + 1) mod 100 + m + (c + 1) / 100 * 100) by ring.
  rewrite Z.div_add by done. apply Z.add_comm.
Qed.


Definition idle_clock : slow_timers bool := mk_slow ∅ None None 0 0 (mk_disk 0 2 0).
Definition no_effect (k : bool) (p : Z) (w : unit) : unit := w.


(** ** Delays *)

Section delays.
Context {S P : Type}.
Variables (clock_of : S -> Z) (run : P -> S -> option S) (gain : P -> Z).

(** What happens between two polls advances the clock by its gain. *)
Definition advances : Prop :=
  forall p s, exists s', run p s = Some s' /\ clock_of s' = i32 (clock_of s + gain p).

Definition elapsed (l : list P) : Z := fold_right (fun p n => gain p + n) 0 l.

Lemma elapsed_cons p l : elapsed (p :: l) = gain p + elapsed l.
Proof. done. Qed.

Lemma elapsed_nonneg l : Forall (fun p => 0 <= gain p < 2 ^ 29) l -> 0 <= elapsed l.
Proof. induction 1; [done|]. rewrite elapsed_cons. lia. Qed.

Lemma i32_diff a e : 0 <= e < 2 ^ 31 -> i32 (i32 (a + e) - a) = e.
Proof.
  intros He. unfold i32.
  replace ((a + e + 2 ^ 31) mod 2 ^ 32 - 2 ^ 31 - a + 2 ^ 31)
    with ((a + e + 2 ^ 31) mod 2 ^ 32 - a) by lia.
  rewrite Zminus_mod_idemp_l. rewrite Z.mod_small; lia.
Qed.

Lemma i32_add a b : i32 (i32 a + b) = i32 (a + b).
Proof.
  unfold i32. replace ((a + 2 ^ 31) mod 2 ^ 32 - 2 ^ 31 + b + 2 ^ 31)
    with ((a + 2 ^ 31) mod 2 ^ 32 + b) by lia.
  rewrite Zplus_mod_idemp_l. f_equal. f_equal. lia.
Qed.

Lemma run_all_advances l : advances -> forall s, exists s', run_all run l s = Some s'.
Proof.
  intros Hadv. induction l as [|p l IH]; intros s; [by exists s|].
  destruct (Hadv p s) as (s1 & E & _). cbn [run_all]. rewrite E. apply IH.
Qed.

Lemma delay_loop_waits ms start l : forall s e,
  advances -> Forall (fun p => 0 <= gain p < 2 ^ 29) l ->
  0 <= ms < 2 ^ 30 -> 0 <= e < 2 ^ 31 -> clock_of s = i32 (start + e) ->
  (e <= ms \/ ms < e) ->
  spin_until run (fun s => delay_over ms start (clock_of s)) l s
  = if ms <? e + elapsed l then run_all run l s else None.
Proof.
  induction l as [|p l IH]; intros s e Hadv Hf Hms He Hc Hor; cbn [spin_until run_all];
    unfold delay_over at 1; rewrite Hc, i32_diff by lia.
  - change (elapsed []) with 0. rewrite Z.add_0_r, Z.leb_antisym, negb_involutive.
    by destruct (ms <? e).
  - apply Forall_cons_1 in Hf as [Hp Hf]. pose proof (elapsed_nonneg l Hf).
    rewrite elapsed_cons, Z.leb_antisym, negb_involutive.
    destruct (Z.ltb_spec ms e).
    + by rewrite (proj2 (Z.ltb_lt ms (e + (gain p + elapsed l)))) by lia.
    + destruct (Hadv p s) as (s1 & E & Hc1). rewrite E. cbn [mbind option_bind].
      rewrite (IH s1 (e + gain p)); [by rewrite Z.add_assoc|done|done|lia|lia| |lia].
      rewrite Hc1, Hc, i32_add. f_equal. lia.
Qed.

(** C31: [delay_ms] waits long enough and does not wait for ever: while the
    events of [l] happen, each advancing the clock by its gain, the delay ends
    exactly if more than [ms] milliseconds elapse in all. *)
Theorem delay_waits (ms : Z) (l : list P) (s : S)
  (Hadv : advances) (Hms : 0 <= ms < 2 ^ 30) (Hclock : - 2 ^ 31 <= clock_of s < 2 ^ 31)
  (Hgain : Forall (fun p => 0 <= gain p < 2 ^ 29) l) :
  delay_ms clock_of run ms l s = if ms <? elapsed l then run_all run l s else None.
Proof.
  apply (delay_loop_waits ms (clock_of s) l s 0 Hadv Hgain Hms); [lia| |lia].
  rewrite Z.add_0_r. symmetry. by apply i32_small.
Qed.
End delays.

(** The clock wraps around while the delay runs. *)
Lemma delay_waits_witness :
  delay_ms (fun now => now) (fun d now => Some (i32 (now + d))) 3 [1; 0; 2; 1; 5] 2147483646
  = Some (-2147483641).
Proof.
  rewrite (delay_waits (fun now => now) (fun d now => Some (i32 (now + d))) (fun d => d) 3
    [1; 0; 2; 1; 5] 2147483646 ltac:(intros ? ?; by eexists) ltac:(lia) ltac:(lia)
    ltac:(repeat constructor; lia)).
  reflexivity.
Defined.
