(* ===== verification/Machine.v ===== *)
(** * The state of the firmware and its interrupts

    The globals of the program as one record, the interrupts that change it
    (libraries/grbl/src/stepper.c, libraries/R2C2/src/r2c2_timer.c), and the
    wait loops of the main program. The interrupts that arrive during an
    operation of the main program are part of the state: each operation that
    may wait takes the next list of [schedule]. The SD card volume with its
    open file is reached through the interface [FatFs]. *)

From S2P Require Import Prelude CDouble SerialFifo SerMsg MotionTypes GcodeParse Hardware Temp.
From S2P Require Import Config Planner Stepper Motion SlowTimer.

(** ** The file system *)

(** A directory entry: the directory attribute and the name. *)
Record filinfo := mk_filinfo { is_directory : bool; fname : list Z }.

(** What the firmware uses of FatFs: the volume, with the one file object of
    gcode_process.c in it. An opened directory is the list of the results that
    the calls of [f_readdir] on it will give; after them it reports the end. *)
Class FatFs (V : Type) := {
  f_open : V -> list Z -> Z -> Z * V;
  f_close : V -> V;
  f_rest : V -> list Z;
  f_set_rest : list Z -> V -> V;
  f_write : V -> list Z -> Z * V;
  f_size : V -> Z;
  f_lseek : V -> Z -> V;
  f_opendir : V -> list Z -> Z * list (Z * filinfo)
}.

Definition FR_OK : Z := 0.
Definition FA_READ : Z := 1.
Definition FA_WRITE : Z := 2.
Definition FA_CREATE_ALWAYS : Z := 8.

(** ** State *)

(** The callbacks and the objects of the slow timers. *)
Inductive callback := CB_buzzer | CB_temperature | CB_blink.
Definition buzzerTimer : Z := 1.
Definition temperatureTimer : Z := 2.
Definition blinkTimer : Z := 3.

(** An interrupt and what it samples: the end stops, the analogue inputs. *)
Inductive irq :=
  | IRQ_step (stop_x stop_y stop_z : Z -> bool)
  | IRQ_acceleration
  | IRQ_tick (analog : Z -> Z).

Record sd_state := mk_sd {
  filesize : Z;
  sd_pos : Z;
  sd_printing : bool;
  sd_active : bool;
  sd_writing_file : bool
}.
#[export] Instance eta_sd : Eta sd_state := fun s =>
  mk_sd (filesize s) (sd_pos s) (sd_printing s) (sd_active s) (sd_writing_file s).

Record extruder_state := mk_extruder {
  extruders_on : Z;
  extruder_1_speed : double;
  auto_prime_steps : Z;
  auto_reverse_steps : Z;
  auto_prime_factor : double;
  auto_reverse_factor : double
}.
#[export] Instance eta_extruder : Eta extruder_state := fun e =>
  mk_extruder (extruders_on e) (extruder_1_speed e) (auto_prime_steps e) (auto_reverse_steps e)
    (auto_prime_factor e) (auto_reverse_factor e).

Definition sd_start : sd_state := mk_sd 0 0 false false false.
Definition extruder_start : extruder_state :=
  mk_extruder 0 d0 0 0 (d_of_Z 640) (d_of_Z 640).

Record machine (V : Type) := mk_machine {
  config : configuration;
  motion_state : motion;
  temps : temp_state;
  timers : slow_timers callback;
  volume : V;
  sd : sd_state;
  extruder : extruder_state;
  port2 : Z;
  trace : list hw_event;
  sent : list Z;
  schedule : list (list irq)
}.
Arguments mk_machine {V}.
Arguments config {V}.
Arguments motion_state {V}.
Arguments temps {V}.
Arguments timers {V}.
Arguments volume {V}.
Arguments sd {V}.
Arguments extruder {V}.
Arguments port2 {V}.
Arguments trace {V}.
Arguments sent {V}.
Arguments schedule {V}.

Section machine.
Context {V : Type}.
Implicit Types m : machine V.

#[export] Instance eta_machine : Eta (machine V) := fun m =>
  mk_machine (config m) (motion_state m) (temps m) (timers m) (volume m) (sd m) (extruder m)
    (port2 m) (trace m) (sent m) (schedule m).

Definition send (bs : list Z) m : machine V := m <| sent ::= fun o => o ++ bs |>.
Definition pins (es : list hw_event) m : machine V := m <| trace ::= fun t => t ++ es |>.

(** [_planner_startpoint] *)
Definition start m : tTarget := startpoint (plan (motion_state m)).

(** ** The step LEDs (stepper.c) *)

(** The blink times are never set. *)
Definition led_on_time : Z := 0.
Definition led_off_time : Z := 0.

Definition with_leds (f : leds -> leds) m : machine V :=
  let st0 := st (motion_state m) in
  m <| motion_state := mk_motion (plan (motion_state m)) (st0 <| st_leds ::= f |>) |>.

Definition startBlink m : machine V :=
  with_leds (fun l => mk_leds (led_count l) 0 1) m.

Definition stopBlink m : machine V :=
  let m := with_leds (fun l => mk_leds (led_count l) 0 0) m in
  pins unstep (m <| timers ::= StopSlowTimer blinkTimer |>).

Definition blinkTimerCallback m (s : slow_timers callback) : slow_timers callback * machine V :=
  let l := st_leds (st (motion_state m)) in
  if c_true (leds_enabled l) then
    let on := Z.lxor (led_on l) 15 in
    (StartSlowTimer blinkTimer (if c_true on then led_on_time else led_off_time) CB_blink s,
     with_leds (fun l => mk_leds (led_count l) on (leds_enabled l)) m)
  else (s, with_leds (fun l => mk_leds (led_count l) 0 (leds_enabled l)) m).

(** ** Interrupts *)

(** The callbacks run on the timers and on the rest of the state. *)
Definition run_callback (analog : Z -> Z) (k : callback) (p : Z)
  (x : slow_timers callback * machine V) : slow_timers callback * machine V :=
  let '(s, m) := x in
  match k with
  | CB_buzzer => (s, pins buzzer_pwm_stop m)
  | CB_temperature =>
      let '(t, es) := temp_tick analog (temps m) in (s, pins es (m <| temps := t |>))
  | CB_blink => blinkTimerCallback m s
  end.

(** The fuel covers the three timer objects of the program. *)
Definition interrupt (i : irq) m : option (machine V) :=
  match i with
  | IRQ_step sx sy sz =>
      let inp := mk_inputs sx sy sz (c_true (temp_achieved (temps m) EXTRUDER_0)) in
      let '(mo, es) := stepCallback inp (motion_state m) in
      Some (pins es (m <| motion_state := mo |>))
  | IRQ_acceleration => Some (m <| motion_state ::= accelCallback |>)
  | IRQ_tick analog =>
      '(s, m) ← SysTick_Handler (run_callback analog) 3 (timers m, m);
      Some (m <| timers := s |>)
  end.

(** ** Waiting *)

(** A wait of the main program takes the next list of the schedule; no
    interrupt arrives when there is none. *)
Definition wait_until (cond : machine V -> bool) m : option (machine V) :=
  match schedule m with
  | [] => spin_until interrupt cond [] m
  | l :: rest => spin_until interrupt cond l (m <| schedule := rest |>)
  end.

Definition queue_has_room m : bool := negb (ring_full (motion_state m)).
Definition queue_is_empty m : bool :=
  bool_decide (plan_get_current_block (plan (motion_state m)) = None).

(** [plan_buffer_action], which spins while the queue is full. *)
Definition buffer_action (request : tActionRequest) m : option (machine V) :=
  m ← wait_until queue_has_room m;
  '(mo, es) ← plan_buffer_action (config m) request [] (motion_state m);
  Some (pins es (m <| motion_state := mo |>)).

(** [synch_queue] *)
Definition synch_queue m : option (machine V) := wait_until queue_is_empty m.

(** [delay_ms (ms)] *)
Definition wait_ms (ms : Z) m : option (machine V) :=
  let start := millis (timers m) in
  wait_until (fun m => delay_over ms start (millis (timers m))) m.

Definition buzzer_wait m : option (machine V) :=
  wait_until (fun m => negb (buzzer_busy buzzerTimer (timers m))) m.

Definition play (frequency duration : Z) m : machine V :=
  let '(s, es) := buzzer_play buzzerTimer CB_buzzer frequency duration (timers m) in
  pins es (m <| timers := s |>).

(** ** What interrupts leave alone *)

(** The part of the state that belongs to the main program: settings, SD card,
    extruder, replies, and of the planner the start point and the position. *)
Record same_host m m' : Prop := {
  host_config : config m' = config m;
  host_volume : volume m' = volume m;
  host_sd : sd m' = sd m;
  host_extruder : extruder m' = extruder m;
  host_port : port2 m' = port2 m;
  host_sent : sent m' = sent m;
  host_start : start m' = start m;
  host_position : position (plan (motion_state m')) = position (plan (motion_state m))
}.

#[export] Instance same_host_preorder : PreOrder same_host.
Proof.
  split; [by split|]. intros m1 m2 m3 [] []. split; congruence.
Qed.

Lemma discard_start p : startpoint (plan_discard_current_block p) = startpoint p.
Proof. unfold plan_discard_current_block. by destruct (negb _). Qed.

Lemma run_block_plan inp mo :
  plan (fst (run_block inp mo)) = plan mo \/
  plan (fst (run_block inp mo)) = plan_discard_current_block (plan mo).
Proof.
  unfold run_block. destruct (current_block (st mo)) as [i|]; [|by left].
  set (b := block_at _ _). destruct (action_type b); [| by left | by left |].
  - unfold run_move. destruct (set_step_pins _ _) as [l e2].
    destruct (_ <? _); [|by right]. destruct (adjust_rate _ _ _) as [sp e3]. by left.
  - destruct (extruder_temp_achieved inp); [by right|by left].
Qed.

Lemma stepCallback_plan inp mo :
  plan (fst (stepCallback inp mo)) = plan mo \/
  plan (fst (stepCallback inp mo)) = plan_discard_current_block (plan mo).
Proof.
  unfold stepCallback, st_interrupt. destruct (busy (st mo)); [by left|].
  assert (exists mo1 e1, match current_block (st mo) with None => load_block mo | Some _ => (mo, []) end
    = (mo1, e1) /\ plan mo1 = plan mo) as (mo1 & e1 & -> & <-).
  { destruct (current_block (st mo)); [by eexists _, _|].
    unfold load_block. destruct (plan_get_current_block (plan mo)); [|by eexists _, _].
    destruct (trapezoid_generator_reset _ _) as [sp e]. by eexists _, _. }
  pose proof (run_block_plan inp mo1) as H. destruct (run_block inp mo1) as [mo2 e2].
  assert (exists mo3 e3, release_pins mo2 = (mo3, e3) /\ plan mo3 = plan mo2) as (mo3 & e3 & -> & E).
  { unfold release_pins. destruct (current_block (st mo2)); by eexists _, _. }
  cbn [fst] in *. by rewrite E.
Qed.

Lemma run_callback_host analog k p s m :
  same_host m (snd (run_callback analog k p (s, m))).
Proof.
  destruct k; unfold run_callback.
  - by split.
  - destruct (temp_tick analog (temps m)) as [t es]. by split.
  - unfold blinkTimerCallback. destruct (c_true _); by split.
Qed.

Lemma interrupt_host i m m' : interrupt i m = Some m' -> same_host m m'.
Proof.
  destruct i as [sx sy sz| |analog]; unfold interrupt.
  - set (inp := mk_inputs sx sy sz _).
    pose proof (stepCallback_plan inp (motion_state m)) as H.
    destruct (stepCallback inp (motion_state m)) as [mo es]. cbn [fst] in H.
    intros E. injection E as <-. split; try done.
    + unfold start, pins. cbn [motion_state update updater].
      destruct H as [->| ->]; [done|apply discard_start].
    + unfold pins. cbn [motion_state update updater].
      destruct H as [->| ->]; [done|apply discard_position].
  - intros E. injection E as <-. by split.
  - destruct (SysTick_Handler _ _ _) as [[s m1]|] eqn:E; [|done].
    intros H. injection H as <-.
    assert (same_host m m1) as [] by
      (eapply (SysTick_rel _ same_host); [|exact E]; intros; apply run_callback_host).
    by split.
Qed.

(** A preorder that every interrupt respects holds across any number of them. *)
Lemma run_all_rel (R : machine V -> machine V -> Prop) `{!PreOrder R} :
  (forall i m m', interrupt i m = Some m' -> R m m') ->
  forall l m m', run_all interrupt l m = Some m' -> R m m'.
Proof.
  intros Hi l. induction l as [|i l IH]; intros m m' E; cbn [run_all] in E.
  - by injection E as ->.
  - destruct (interrupt i m) as [m1|] eqn:E1; [|done]. cbn in E.
    etransitivity; [by eapply Hi|by apply IH].
Qed.

Definition set_schedule (l : list (list irq)) m : machine V := m <| schedule := l |>.

Lemma wait_until_rel (R : machine V -> machine V -> Prop) `{!PreOrder R} cond :
  (forall i m m', interrupt i m = Some m' -> R m m') ->
  (forall l m, R m (set_schedule l m)) ->
  forall m m', wait_until cond m = Some m' -> R m m'.
Proof.
  intros Hi Hs m m'. unfold wait_until. destruct (schedule m) as [|l rest]; intros E;
    apply spin_until_run in E; apply (run_all_rel R Hi) in E; [done|].
  etransitivity; [apply (Hs rest m)|exact E].
Qed.

Lemma wait_until_host cond m m' : wait_until cond m = Some m' -> same_host m m'.
Proof.
  apply wait_until_rel; [apply _|apply interrupt_host|]. intros l m1. by split.
Qed.

(** Two preorders: keeping the value of a function, keeping a property. *)
#[export] Instance preorder_same {A B} (f : A -> B) : PreOrder (fun x y => f y = f x).
Proof. split; [by intros x|]. intros x y z H1 H2. by rewrite H2. Qed.

#[export] Instance preorder_keeps {A} (P : A -> Prop) : PreOrder (fun x y => P x -> P y).
Proof. split; [by intros x|]. intros x y z H1 H2 H. auto. Qed.

(** ** When a wait is over *)

Lemma spin_until_cond cond :
  (forall i m m', interrupt i m = Some m' -> cond m = true -> cond m' = true) ->
  forall l m m', spin_until interrupt cond l m = Some m' -> cond m' = true.
Proof.
  intros Hst l. induction l as [|i l IH]; intros m m' E; cbn [spin_until] in E.
  - destruct (cond m) eqn:Ec; [|done]. cbn in E. by injection E as <-.
  - destruct (cond m) eqn:Ec.
    + assert (forall l m m', run_all interrupt l m = Some m' -> cond m = true -> cond m' = true) as H.
      { clear -Hst. induction l as [|i l IH]; intros m m' E Ec; cbn [run_all] in E.
        - by injection E as <-.
        - destruct (interrupt i m) as [m1|] eqn:E1; [|done]. cbn in E.
          eapply IH; [exact E|by eapply Hst]. }
      by eapply H.
    + destruct (interrupt i m) as [m1|]; [|done]. cbn in E. by eapply IH.
Qed.

Lemma interrupt_keeps_empty i m m' :
  interrupt i m = Some m' -> queue_is_empty m = true -> queue_is_empty m' = true.
Proof.
  unfold queue_is_empty, interrupt. intros E H%bool_decide_eq_true. apply bool_decide_eq_true.
  destruct i as [sx sy sz| |analog].
  - set (inp := mk_inputs sx sy sz _) in E.
    pose proof (stepCallback_plan inp (motion_state m)) as Hp.
    destruct (stepCallback inp (motion_state m)) as [mo es]. injection E as <-.
    unfold pins. cbn [motion_state update updater fst] in *.
    destruct Hp as [->| ->]; [done|]. unfold plan_get_current_block in H.
    unfold plan_discard_current_block.
    destruct (Z.eqb_spec (block_buffer_head (plan (motion_state m)))
                (block_buffer_tail (plan (motion_state m)))) as [Heq|]; [|done].
    cbn [negb]. unfold plan_get_current_block. by rewrite Heq, Z.eqb_refl.
  - injection E as <-. done.
  - destruct (SysTick_Handler _ _ _) as [[s m1]|] eqn:E1; [|done]. injection E as <-.
    cbn [motion_state update updater]. revert H.
    assert (plan (motion_state m1) = plan (motion_state m)) as ->; [|done].
    revert E1. apply (SysTick_rel (run_callback analog) _
      (PreOrder0 := preorder_same (fun m : machine V => plan (motion_state m)))).
    intros k p s0 m0. destruct k; unfold run_callback; [done| |].
    + by destruct (temp_tick analog (temps m0)).
    + unfold blinkTimerCallback. by destruct (c_true _).
Qed.

Lemma synch_queue_empty m m' : synch_queue m = Some m' -> queue_is_empty m' = true.
Proof.
  unfold synch_queue, wait_until. destruct (schedule m); apply spin_until_cond;
    apply interrupt_keeps_empty.
Qed.

(** ** The motors of the machine *)

(** The motors as the pins have moved them since [w0] keep account of the
    planner's position. *)
Definition aligned (w0 : axis -> motor) m : Prop :=
  in_reach (position (plan (motion_state m))) /\
  exists r, on_course (motion_state m) (motors_run (trace m) w0) r.

Lemma aligned_pins w0 m mo es r :
  on_course mo (motors_run es (motors_run (trace m) w0)) r ->
  on_course mo (motors_run (trace m ++ es) w0) r.
Proof.
  intros H. eapply on_course_motors; [exact H|]. intros a. unfold motors_run.
  by rewrite motor_run_app.
Qed.

Lemma aligned_same w0 m m' :
  position (plan (motion_state m')) = position (plan (motion_state m)) ->
  (forall w r, on_course (motion_state m) w r -> on_course (motion_state m') w r) ->
  (exists es, trace m' = trace m ++ es /\ silent es) -> aligned w0 m -> aligned w0 m'.
Proof.
  intros Hp Hc (es & Ht & Hs) (Hr & r & Ho). split; [by rewrite Hp|]. exists r. rewrite Ht.
  apply Hc in Ho. eapply on_course_motors; [exact Ho|]. intros a. unfold motors_run.
  by rewrite motor_run_app, Hs.
Qed.

Lemma heater_silent (b1 b2 : bool) :
  silent ((if b1 then extruder_heater_on else extruder_heater_off) ++
          (if b2 then heated_bed_on else heated_bed_off)).
Proof. intros a w. destruct w, a, b1, b2; reflexivity. Qed.

Lemma temp_tick_silent analog s : silent (snd (temp_tick analog s)).
Proof.
  unfold temp_tick. destruct (read_temp analog EXTRUDER_0 s) as [t0 s0].
  destruct (read_temp analog HEATED_BED_0 _) as [t1 s1].
  set (s2 := update ticks _ _). destruct (ticks s2 =? NUM_TICKS); [|by intros a w].
  apply heater_silent.
Qed.

Lemma run_callback_aligned analog w0 k p s m :
  aligned w0 m -> aligned w0 (snd (run_callback analog k p (s, m))).
Proof.
  destruct k; unfold run_callback.
  - apply aligned_same; [done|done|]. exists buzzer_pwm_stop. split; [done|by intros a []].
  - pose proof (temp_tick_silent analog (temps m)) as Hs.
    destruct (temp_tick analog (temps m)) as [t es]. cbn [snd] in *.
    apply aligned_same; [done|done|]. by exists es.
  - unfold blinkTimerCallback.
    assert (forall f, aligned w0 m -> aligned w0 (with_leds f m)) as H; [|destruct (c_true _); apply H].
    intros f. apply aligned_same; [done|done|]. exists []. split; [by rewrite app_nil_r|done].
Qed.

Lemma interrupt_aligned w0 i m m' : interrupt i m = Some m' -> aligned w0 m -> aligned w0 m'.
Proof.
  intros E Ha. destruct i as [sx sy sz| |analog]; unfold interrupt in E.
  - set (inp := mk_inputs sx sy sz _) in E. destruct Ha as (Hr & r & Ho).
    pose proof (timer_course inp (motion_state m) _ r Ho) as H.
    destruct (stepCallback inp (motion_state m)) as [mo es]. destruct H as [H1 H2].
    injection E as <-. unfold pins. split; cbn [motion_state trace update updater]; [by rewrite H2|].
    eexists. by apply aligned_pins.
  - injection E as <-. revert Ha. apply aligned_same; [done|done|].
    exists []. split; [by rewrite app_nil_r|done].
  - destruct (SysTick_Handler _ _ _) as [[s m1]|] eqn:E1; [|done]. injection E as <-.
    cut (aligned w0 m1); [done|]. revert E1 Ha.
    apply (SysTick_rel (run_callback analog) _ (PreOrder0 := preorder_keeps (aligned w0))).
    intros k p s0 m0. apply run_callback_aligned.
Qed.

Lemma wait_until_aligned w0 cond m m' :
  wait_until cond m = Some m' -> aligned w0 m -> aligned w0 m'.
Proof.
  apply (wait_until_rel _ (PreOrder0 := preorder_keeps (aligned w0))).
  - intros i m1 m2. apply interrupt_aligned.
  - intros l m1. done.
Qed.

Lemma wait_until_empty cond m m' :
  wait_until cond m = Some m' -> queue_is_empty m = true -> queue_is_empty m' = true.
Proof.
  apply (wait_until_rel _ (PreOrder0 := preorder_keeps (fun m => queue_is_empty m = true))).
  - intros i m1 m2. apply interrupt_keeps_empty.
  - intros l m1. done.
Qed.

(** With the ring empty and everything accounted for, the motors stand at the
    planner's position. *)
Lemma aligned_empty w0 m :
  aligned w0 m -> queue_is_empty m = true ->
  forall a, m_pos (motors_run (trace m) w0 a)
            = arr (position (plan (motion_state m))) (axis_index a).
Proof.
  intros (_ & r & Hwf & _ & _ & Hc) Hq a. unfold queue_is_empty in Hq.
  apply bool_decide_eq_true in Hq. apply empty_no_block in Hq; [|done].
  rewrite Hq in Hc. destruct (current_block (st (motion_state m))) as [i|].
  - by destruct Hc as (b & q & k & p & Hb & _).
  - destruct Hc as [_ Hc]. specialize (Hc a). cbn [pending fold_right] in Hc.
    unfold target_of in Hc. lia.
Qed.

(** ** Buffering a move *)

(** The part of the state that moves and interrupts leave alone. *)
Record same_shell m m' : Prop := {
  shell_config : config m' = config m;
  shell_volume : volume m' = volume m;
  shell_sd : sd m' = sd m;
  shell_extruder : extruder m' = extruder m;
  shell_port : port2 m' = port2 m;
  shell_sent : sent m' = sent m
}.

#[export] Instance same_shell_preorder : PreOrder same_shell.
Proof. split; [by split|]. intros m1 m2 m3 [] []. split; congruence. Qed.

Lemma host_shell m m' : same_host m m' -> same_shell m m'.
Proof. intros []. by split. Qed.

Lemma wait_until_shell cond m m' : wait_until cond m = Some m' -> same_shell m m'.
Proof. intros E. by eapply host_shell, wait_until_host. Qed.

Lemma buffer_action_shell req m m' : buffer_action req m = Some m' -> same_shell m m'.
Proof.
  unfold buffer_action. destruct (wait_until queue_has_room m) as [m1|] eqn:E1; [|done].
  cbn [mbind option_bind].
  destruct (plan_buffer_action _ _ _ _) as [[mo es]|]; [|done]. cbn [mbind option_bind].
  intros E. injection E as <-. etransitivity; [by eapply wait_until_shell|]. by split.
Qed.

Lemma spin_nil cond mo : spin cond [] mo = if cond mo then None else Some (mo, []).
Proof. reflexivity. Qed.

(** Without a wait left, [plan_buffer_line] is the planning itself. *)
Lemma buffer_line_direct cfg req mo mo' es :
  plan_buffer_line cfg req [] mo = Some (mo', es) ->
  ring_full mo = false /\
  exists p queued, plan_line cfg req (plan mo) = Some (p, queued) /\
    (mo', es) = if queued then st_wake_up cfg (mk_motion p (st mo)) else (mk_motion p (st mo), []).
Proof.
  unfold plan_buffer_line. rewrite spin_nil. generalize (plan_line cfg req) as line.
  generalize (st_wake_up cfg) as wake. intros wake line.
  destruct (ring_full mo); [discriminate|]. cbn [mbind option_bind].
  destruct (line (plan mo)) as [[p queued]|]; [|discriminate]. cbn [mbind option_bind].
  intros E. split; [reflexivity|]. exists p, queued. split; [reflexivity|].
  destruct queued; [|by injection E as <- <-].
  destruct (wake (mk_motion p (st mo))) as [m2 e2]. by injection E as <- <-.
Qed.

(** A buffered move: the planner's position becomes the target, and the motors
    stay accounted for. *)
Lemma buffer_move_aligned w0 t m m' :
  aligned w0 m -> in_reach (target_steps (config m) t) ->
  buffer_action (mk_request AT_MOVE t) m = Some m' ->
  aligned w0 m' /\
  forall a, arr (position (plan (motion_state m'))) (axis_index a)
            = arr (target_steps (config m) t) (axis_index a).
Proof.
  intros Ha Hin. unfold buffer_action.
  destruct (wait_until queue_has_room m) as [m1|] eqn:E1; [|done]. cbn [mbind option_bind].
  pose proof (wait_until_aligned w0 _ _ _ E1 Ha) as (Hr1 & r & Ho).
  pose proof (wait_until_host _ _ _ E1) as [Hcfg _ _ _ _ _ _ Hpos]. rewrite Hcfg.
  unfold plan_buffer_action. cbn [ActionType].
  destruct (plan_buffer_line (config m) (mk_request AT_MOVE t) [] (motion_state m1))
    as [[mo es]|] eqn:E2; [|done]. cbn [mbind option_bind]. intros E. injection E as <-.
  apply buffer_line_direct in E2 as (Hf & p & queued & Hp & Hmo).
  destruct (plan_line_course (config m) (mk_request AT_MOVE t) (motion_state m1) _ r p queued
    Ho Hr1 Hin eq_refl Hf Hp) as (Hr' & r' & _ & Hc' & Hpa).
  destruct queued.
  - pose proof (wake_course (config m) _ _ r' Hc') as Hw.
    destruct (st_wake_up (config m) (mk_motion p (st (motion_state m1)))) as [mo2 es2] eqn:Ew.
    injection Hmo as -> ->.
    assert (plan mo2 = p) as Hp2 by (unfold st_wake_up in Ew; injection Ew as <- <-; done).
    unfold pins. split; cbn [motion_state trace update updater]; [|by rewrite Hp2].
    split; cbn [motion_state trace update updater]; [by rewrite Hp2|].
    exists r'. apply aligned_pins. apply Hw.
  - injection Hmo as -> ->. unfold pins.
    split; cbn [motion_state trace update updater]; [|done].
    split; cbn [motion_state trace update updater]; [done|].
    exists r'. apply aligned_pins. exact Hc'.
Qed.
End machine.
