(* ===== verification/GcodeProcess.v ===== *)
(** * The command processor (libraries/Mendel/src/gcode_process.c)

    What a parsed line makes the firmware do: moves, homing, waiting, the SD
    card commands, the extruder, temperature and settings commands, and the
    reply to the host. A command is a function on the state of the firmware;
    [None] is a wait that its interrupts do not end, or a write past the end of
    a buffer. *)

From S2P Require Import Prelude CDouble SerialFifo SerMsg MotionTypes GcodeParse Hardware Temp.
From S2P Require Import Config Planner Stepper Motion SlowTimer Machine.

Section process.
Context {V : Type} `{FatFs V}.
Implicit Types m : machine V.

(** ** Moves *)

(** [ABS]: a comparison with zero is false for a value that is not a number. *)
Definition ABS (v : double) : double := if dleb d0 v then v else dopp v.

(** geometry.c *)
Definition calc_distance (dx dy : double) : double := dsqrt (dadd (dmul dx dx) (dmul dy dy)).

Definition enqueue_moved (pTarget : tTarget) m : option (machine V) :=
  let p := start m in
  if negb (deqb (tx pTarget) (tx p)) || negb (deqb (ty pTarget) (ty p)) ||
     negb (deqb (tz pTarget) (tz p)) || negb (deqb (te pTarget) (te p))
  then
    let t := pTarget <| invert_feed_rate := 0 |> in
    let t := if enable_extruder_1 (config m) =? 0 then t <| te := te p |> else t in
    buffer_action (mk_request AT_MOVE t) m
  else
    Some (m <| motion_state :=
      mk_motion (plan_set_feed_rate pTarget (plan (motion_state m))) (st (motion_state m)) |>).

Definition enqueue_wait_temp m : option (machine V) :=
  buffer_action (mk_request AT_WAIT_TEMPS zero_target) m.

Definition SpecialMoveXY (x y f : double) m : option (machine V) :=
  buffer_action (mk_request AT_MOVE_ENDSTOP
    (mk_target x y (tz (start m)) (te (start m)) f 0)) m.

Definition SpecialMoveZ (z f : double) m : option (machine V) :=
  buffer_action (mk_request AT_MOVE_ENDSTOP
    (mk_target (tx (start m)) (ty (start m)) z (te (start m)) f 0)) m.

Definition SpecialMoveE (e feed : double) m : option (machine V) :=
  if c_true (enable_extruder_1 (config m)) then
    let p := start m in
    enqueue_moved (mk_target (tx p) (ty p) (tz p) (dadd (te p) e) feed (invert_feed_rate p)) m
  else Some m.

(** [plan_set_current_position (&new_pos)] *)
Definition set_position (new_pos : tTarget) m : machine V :=
  m <| motion_state :=
    mk_motion (plan_set_current_position (config m) new_pos (plan (motion_state m)))
      (st (motion_state m)) |>.

(** ** Homing *)

Definition zero_x m : option (machine V) :=
  let c := config m in
  m ← SpecialMoveXY (dsub (tx (start m)) (d_of_Z 300)) (ty (start m)) (d_of_Z (homing_feedrate_x c)) m;
  m ← synch_queue m;
  m ← SpecialMoveXY (dadd (tx (start m)) (d_of_Z 3)) (ty (start m)) (d_of_Z (search_feedrate_x c)) m;
  m ← SpecialMoveXY (dsub (tx (start m)) (d_of_Z 6)) (ty (start m)) (d_of_Z (search_feedrate_x c)) m;
  m ← synch_queue m;
  Some (set_position ((start m) <| tx := d_of_Z (home_pos_x c) |>) m).

Definition zero_y m : option (machine V) :=
  let c := config m in
  let dir := if home_direction_y c <? 0 then -1 else 1 in
  m ← SpecialMoveXY (tx (start m)) (dadd (ty (start m)) (d_of_Z (dir * 250)))
        (d_of_Z (homing_feedrate_y c)) m;
  m ← synch_queue m;
  m ← SpecialMoveXY (tx (start m)) (dsub (ty (start m)) (d_of_Z (dir * 3)))
        (d_of_Z (search_feedrate_y c)) m;
  m ← SpecialMoveXY (tx (start m)) (dadd (ty (start m)) (d_of_Z (dir * 6)))
        (d_of_Z (search_feedrate_y c)) m;
  m ← synch_queue m;
  Some (set_position ((start m) <| ty := d_of_Z (home_pos_y c) |>) m).

Definition zero_z m : option (machine V) :=
  let c := config m in
  m ← SpecialMoveZ (dsub (tz (start m)) (d_of_Z 250)) (d_of_Z (homing_feedrate_z c)) m;
  m ← synch_queue m;
  m ← SpecialMoveZ (dadd (tz (start m)) d1) (d_of_Z (search_feedrate_z c)) m;
  m ← synch_queue m;
  m ← SpecialMoveZ (dsub (tz (start m)) (d_of_Z 6)) (d_of_Z (search_feedrate_z c)) m;
  m ← synch_queue m;
  Some (set_position ((start m) <| tz := d_of_Z (home_pos_z c) |>) m).

Definition zero_e m : machine V := set_position ((start m) <| te := d0 |>) m.

(** ** The SD card *)

Definition sd_initialise m : machine V := m <| sd := (sd m) <| sd_active := true |> |>.

(** A character string in memory ends at its first NUL. *)
Fixpoint c_string (s : list Z) : list Z :=
  match s with
  | [] => []
  | c :: s => if c =? 0 then [] else c :: c_string s
  end.

(** The reply of a format whose arguments fit. *)
Definition sendf (fmt : string) (args : list sarg) m : option (machine V) :=
  o ← sersendf fmt args; Some (send o m).

Definition PATH_SIZE : Z := 120.

(** [strcat (path, s)]: [None] past the end of the buffer. *)
Definition path_cat (path s : list Z) : option (list Z) :=
  let p := path ++ s in
  if Z.of_nat (length p) <? PATH_SIZE then Some p else None.

(** The loop over the entries of a directory and the recursion into its
    subdirectories. The result is the last [FRESULT]; a failing subdirectory
    ends the loop. [fuel] bounds the depth. *)
Fixpoint sd_list_dir_sub (fuel : nat) (path : list Z) m : option (Z * machine V) :=
  match fuel with
  | O => None
  | S fuel =>
      let '(res, entries) := f_opendir (volume m) path in
      if negb (res =? FR_OK) then Some (res, m)
      else
        (fix loop (entries : list (Z * filinfo)) m : option (Z * machine V) :=
           match entries with
           | [] => Some (FR_OK, m)
           | (res, fno) :: entries =>
               if negb (res =? FR_OK) || bool_decide (c_string (fname fno) = []) then Some (res, m)
               else if (arr (fname fno) 0 =? chr ".") then loop entries m
               else
                 let fn := c_string (fname fno) in
                 if is_directory fno then
                   m ← sendf ("%s/%s/" ++ Prelude.crlf) [AStr path; AStr fn] m;
                   sub ← path_cat path (bytes_of_string "/");
                   sub ← path_cat sub fn;
                   '(res, m) ← sd_list_dir_sub fuel sub m;
                   if negb (res =? FR_OK) then Some (res, m) else loop entries m
                 else
                   m ← sendf ("%s/%s" ++ Prelude.crlf) [AStr path; AStr fn] m;
                   loop entries m
           end) entries m
  end.

Definition sd_list_dir m : option (machine V) :=
  option_map snd (sd_list_dir_sub (Z.to_nat PATH_SIZE) [] m).

Definition sd_open (path : list Z) (flags : Z) m : option (bool * machine V) :=
  let '(res, v) := f_open (volume m) path flags in
  let m := m <| volume := v |> in
  if res =? FR_OK then Some (true, m)
  else m ← sendf "sd_open:%d" [AInt res] m; Some (false, m).

Definition sd_close m : machine V := m <| volume ::= f_close |>.

(** [f_gets] into the line buffer, of [MAX_LINE] bytes. *)
Definition sd_read_file (pLine : tLineBuffer) m : bool * tLineBuffer * machine V :=
  match f_gets MAX_LINE (f_rest (volume m)) with
  | Some (l, rest) =>
      let n := Z.of_nat (length (c_string l)) in
      (true,
       mk_line (l ++ 0 :: drop (S (length l)) (data pLine)) n (seen_lf pLine),
       m <| volume ::= f_set_rest rest |>
         <| sd := (sd m) <| sd_pos := u32 (sd_pos (sd m) + n) |> |>)
  | None => (false, pLine, m)
  end.

Definition sd_write_to_file (bytes : list Z) m : bool * machine V :=
  let '(res, v) := f_write (volume m) bytes in (res =? FR_OK, m <| volume := v |>).

Definition sd_filesize m : Z := f_size (volume m).
Definition sd_seek (pos : Z) m : machine V := m <| volume ::= fun v => f_lseek v pos |>.

(** ** The target of a command *)

(** Relative coordinates are added to the start point; of absolute ones only
    those of the line replace it. *)
Definition command_target (g : GCODE_COMMAND) (p : tTarget) : tTarget :=
  let t := gtarget g in
  let f := if seen_F g then feed_rate t else feed_rate p in
  if option_relative g then
    mk_target (dadd (tx p) (tx t)) (dadd (ty p) (ty t)) (dadd (tz p) (tz t)) (dadd (te p) (te t))
      f (invert_feed_rate p)
  else
    mk_target (if seen_X g then tx t else tx p) (if seen_Y g then ty t else ty p)
      (if seen_Z g then tz t else tz p) (if seen_E g then te t else te p) f (invert_feed_rate p).

(** ** G commands *)

(** G1 without an E word, the extruder switched on by M101: the length to
    extrude follows from the move. *)
Definition auto_extrude (g : GCODE_COMMAND) (t : tTarget) m : tTarget :=
  if (extruders_on (extruder m) =? 1) && negb (seen_E g) then
    let p := start m in
    let d := calc_distance (ABS (dsub (tx t) (tx p))) (ABS (dsub (ty t) (ty p))) in
    t <| te := dadd (te p) (dmul (ddiv (dmul d (extruder_1_speed (extruder m))) (feed_rate t))
                              (d_of_Z 24)) |>
  else t.

Definition any_axis (g : GCODE_COMMAND) : bool :=
  seen_X g || seen_Y g || seen_Z g || seen_E g.

(** An axis command that is skipped when its word is missing. *)
Definition when (b : bool) (f : machine V -> option (machine V)) m : option (machine V) :=
  if b then f m else Some m.

(** G28: the named axes, or all of them after moving up. *)
Definition go_home (g : GCODE_COMMAND) m : option (machine V) :=
  m ← when (seen_X g) zero_x m;
  m ← when (seen_Y g) zero_y m;
  m ← when (seen_Z g) zero_z m;
  m ← when (seen_E g) (fun m => Some (zero_e m)) m;
  if any_axis g then Some m
  else
    let p := start m in
    m ← enqueue_moved (mk_target (tx p) (ty p) (dadd (tz p) (d_of_Z 3)) (te p)
          (d_of_Z (homing_feedrate_z (config m))) (invert_feed_rate p)) m;
    m ← zero_x m;
    m ← zero_y m;
    m ← zero_z m;
    Some (zero_e m).

(** G92: the named axes become 0, or all of them. *)
Definition set_home (g : GCODE_COMMAND) m : option (machine V) :=
  m ← synch_queue m;
  let p := start m in
  let all := negb (any_axis g) in
  let z (seen : bool) (v : double) : double := if seen || all then d0 else v in
  Some (set_position
    (mk_target (z (seen_X g) (tx p)) (z (seen_Y g) (ty p)) (z (seen_Z g) (tz p))
       (z (seen_E g) (te p)) (feed_rate p) (invert_feed_rate p)) m).

Definition rapid_move (t : tTarget) m : option (machine V) :=
  enqueue_moved (t <| feed_rate := d_of_Z (i32 (maximum_feedrate_x (config m) * 2)) |>) m.

Definition bad_code (what : string) (n : Z) m : machine V :=
  send (bytes_of_string what ++ serwrite_uint32 n ++ GcodeParse.crlf) m.

Definition process_G (g : GCODE_COMMAND) (t : tTarget) m : option (GCODE_COMMAND * machine V) :=
  let keep := option_map (fun m' => (g, m')) in
  let n := gG g in
  if n =? 0 then keep (rapid_move t m)
  else if n =? 1 then keep (enqueue_moved (auto_extrude g t m) m)
  else if n =? 4 then keep (m ← synch_queue m; wait_ms (gP g) m)
  else if n =? 20 then Some (g <| option_inches := true |>, m)
  else if n =? 21 then Some (g <| option_inches := false |>, m)
  else if n =? 30 then keep (m ← enqueue_moved t m; go_home g m)
  else if n =? 28 then keep (go_home g m)
  else if n =? 90 then Some (g <| option_relative := false |>, m)
  else if n =? 91 then Some (g <| option_relative := true |>, m)
  else if n =? 92 then keep (set_home g m)
  else Some (g, bad_code "E: Bad G-code " n m).

(** ** M commands: the SD card *)

Definition with_sd (f : sd_state -> sd_state) m : machine V := m <| sd ::= f |>.
Definition message (s : string) m : machine V := send (bytes_of_string s) m.

(** M20 *)
Definition list_files m : option (machine V) :=
  m ← sd_list_dir (message ("Begin file list" ++ Prelude.crlf) m);
  Some (message ("End file list" ++ Prelude.crlf) m).

(** M21, M22 *)
Definition init_card m : machine V :=
  sd_initialise (with_sd (fun s => s <| sd_printing := false |>) m).
Definition release_card m : machine V :=
  with_sd (fun s => s <| sd_printing := false |> <| sd_active := false |>) m.

Definition ensure_active m : machine V :=
  if sd_active (sd m) then m else sd_initialise m.

(** M23 *)
Definition select_file (g : GCODE_COMMAND) m : option (machine V) :=
  let m := ensure_active m in
  let m := sd_close (with_sd (fun s => s <| sd_printing := false |>) m) in
  '(ok, m) ← sd_open (c_string (filename g)) FA_READ m;
  if ok : bool then
    let m := with_sd (fun s => s <| filesize := sd_filesize m |>) m in
    m ← sendf ("File opened: %s Size: %d" ++ Prelude.crlf)
          [AStr (c_string (filename g)); AInt (filesize (sd m))] m;
    sendf ("File selected" ++ Prelude.crlf) [] (with_sd (fun s => s <| sd_pos := 0 |>) m)
  else sendf ("file.open failed" ++ Prelude.crlf) [] m.

(** M24, M25 *)
Definition start_print m : machine V :=
  if sd_active (sd m) then with_sd (fun s => s <| sd_printing := true |>) m else m.
Definition pause_print m : machine V :=
  if sd_printing (sd m) then with_sd (fun s => s <| sd_printing := false |>) m else m.

(** M26: the position is the 16-bit number of the S word. *)
Definition set_sd_pos (g : GCODE_COMMAND) m : machine V :=
  if sd_active (sd m) && seen_S g then
    let m := with_sd (fun s => s <| sd_pos := u32 (gS g) |>) m in
    sd_seek (sd_pos (sd m)) m
  else m.

(** M27 *)
Definition sd_status m : option (machine V) :=
  if sd_active (sd m) then
    sendf ("SD printing byte %d/%d" ++ Prelude.crlf) [AInt (sd_pos (sd m)); AInt (filesize (sd m))] m
  else Some (message ("Not SD printing" ++ Prelude.crlf) m).

(** M28 *)
Definition start_write (g : GCODE_COMMAND) m : option (machine V) :=
  let m := ensure_active m in
  let m := with_sd (fun s => s <| sd_printing := false |>) (sd_close m) in
  '(ok, m) ← sd_open (c_string (filename g)) (Z.lor FA_CREATE_ALWAYS FA_WRITE) m;
  if ok : bool then
    sendf ("Writing to file: %s" ++ Prelude.crlf) [AStr (c_string (filename g))]
      (with_sd (fun s => s <| sd_writing_file := true |>) m)
  else sendf ("open failed, File: %s." ++ Prelude.crlf) [AStr (c_string (filename g))] m.

Definition sd_command (g : GCODE_COMMAND) m : option (machine V) :=
  let n := gM g in
  if n =? 20 then list_files m
  else if n =? 21 then Some (init_card m)
  else if n =? 22 then Some (release_card m)
  else if n =? 23 then select_file g m
  else if n =? 24 then Some (start_print m)
  else if n =? 25 then Some (pause_print m)
  else if n =? 26 then Some (set_sd_pos g m)
  else if n =? 27 then sd_status m
  else if n =? 28 then start_write g m
  else Some m.

(** ** M commands: extruder and temperature *)

(** [temp_set] also clears the idle count of stepper.c. *)
Definition set_temperature (t sensor : Z) m : machine V :=
  let s := st (motion_state m) in
  let '(ts, idle) := temp_set (u16 t) sensor (temps m) (steptimeout s) in
  m <| temps := ts |> <| motion_state := mk_motion (plan (motion_state m)) (s <| steptimeout := idle |>) |>.

Definition with_extruder (f : extruder_state -> extruder_state) m : machine V :=
  m <| extruder ::= f |>.

(** M101, M103 *)
Definition extruder_forward m : option (machine V) :=
  let m := with_extruder (fun e => e <| extruders_on := 1 |>) m in
  let e := extruder m in
  if c_true (auto_prime_steps e) then
    SpecialMoveE (ddiv (d_of_Z (auto_prime_steps e)) (auto_prime_factor e)) (d_of_Z 18000) m
  else Some m.
Definition extruder_stop m : option (machine V) :=
  let m := with_extruder (fun e => e <| extruders_on := 0 |>) m in
  let e := extruder m in
  if c_true (auto_reverse_steps e) then
    SpecialMoveE (ddiv (dopp (d_of_Z (auto_reverse_steps e))) (auto_reverse_factor e))
      (d_of_Z 18000) m
  else Some m.

(** M104, M109 *)
Definition set_extruder_temperature (g : GCODE_COMMAND) m : option (machine V) :=
  if c_true (enable_extruder_1 (config m)) then
    let m := set_temperature (gS g) EXTRUDER_0 m in
    if c_true (wait_on_temp (config m)) then enqueue_wait_temp m else Some m
  else Some m.
Definition wait_extruder_temperature (g : GCODE_COMMAND) m : option (machine V) :=
  if c_true (enable_extruder_1 (config m))
  then enqueue_wait_temp (set_temperature (gS g) EXTRUDER_0 m)
  else Some m.

(** M108 *)
Definition set_extruder_speed (g : GCODE_COMMAND) m : machine V :=
  if seen_S g
  then with_extruder (fun e => e <| extruder_1_speed := ddiv (d_of_Z (gS g)) (d_of_Z 10) |>) m
  else m.

(** M227, M228, M229: the S word primes, the P word reverses. *)
Definition auto_steps (prime reverse : Z) m : machine V :=
  with_extruder (fun e => e <| auto_prime_steps := prime |> <| auto_reverse_steps := reverse |>) m.
Definition set_auto_steps (g : GCODE_COMMAND) (scale : Z) m : machine V :=
  if seen_S g && seen_P g then auto_steps (u32 (gS g * scale)) (u32 (gP g * scale)) m else m.

(** M551 *)
Definition prime_extruder (g : GCODE_COMMAND) m : option (machine V) :=
  if seen_S g && seen_P g
  then SpecialMoveE (ddiv (d_of_Z (gP g)) (d_of_Z 256)) (d_of_Z (gS g)) m
  else Some m.

Definition extruder_command (g : GCODE_COMMAND) m : option (machine V) :=
  let n := gM g in
  if n =? 101 then extruder_forward m
  else if n =? 103 then extruder_stop m
  else if n =? 104 then set_extruder_temperature g m
  else if n =? 108 then Some (set_extruder_speed g m)
  else if n =? 109 then wait_extruder_temperature g m
  else if n =? 140 then Some (set_temperature (gS g) HEATED_BED_0 m)
  else if n =? 227 then Some (set_auto_steps g 1 m)
  else if n =? 228 then Some (auto_steps 0 0 m)
  else if n =? 229 then Some (set_auto_steps g (steps_per_revolution_e (config m)) m)
  else if n =? 551 then prime_extruder g m
  else Some m.

(** ** M commands: pins *)

(** M112 stops hardware timer 0; [power_off] is empty. *)
Definition emergency_stop m : machine V := pins (disableHwTimer 0) m.

(** M190, M191 *)
Definition enable_motors m : machine V :=
  let s := st (motion_state m) in
  pins (x_enable ++ y_enable ++ z_enable ++ e_enable)
    (m <| motion_state := mk_motion (plan (motion_state m)) (s <| steptimeout := 0 |>) |>).
Definition disable_motors m : machine V :=
  pins (x_disable ++ y_disable ++ z_disable ++ e_disable) m.

Definition pin_command (n : Z) m : machine V :=
  if n =? 106 then pins extruder_fan_on m
  else if n =? 107 then pins extruder_fan_off m
  else if n =? 112 then emergency_stop m
  else if n =? 190 then enable_motors m
  else if n =? 191 then disable_motors m
  else m.

(** ** M commands: reports and settings

    The boolean of the result is [reply_sent]. *)

(** M114: nothing is sent when the units are inches. *)
Definition report_position (g : GCODE_COMMAND) m : option (bool * machine V) :=
  if option_inches g then Some (true, m)
  else
    let p := start m in
    m ← sendf ("ok C: X:%g Y:%g Z:%g E:%g" ++ Prelude.crlf)
          [ADouble (tx p); ADouble (ty p); ADouble (tz p); ADouble (te p)] m;
    Some (true, m).

Definition report_firmware m : option (machine V) :=
  sendf ("FIRMWARE_NAME:Teacup_R2C2 FIRMWARE_URL:http%%3A//github.com/bitboxelectronics/R2C2 PROTOCOL_VERSION:1.0 MACHINE_TYPE:Mendel"
         ++ Prelude.crlf) [] m.

(** M119 *)
Definition level (b : bool) : string := if b then "H " else "L ".
Definition report_endstops m : machine V :=
  message ("x_min:" ++ level (x_min (port2 m)) ++ "y_min:" ++ level (y_min (port2 m))
           ++ "z_min:" ++ level (z_min (port2 m)) ++ Prelude.crlf) m.

(** [gcode_parse_init] *)
Definition gcode_parse_init (c : configuration) (g : GCODE_COMMAND) : GCODE_COMMAND :=
  g <| gtarget := (gtarget g) <| feed_rate := d_of_Z (homing_feedrate_z c) |> |>.

(** M200, M202, M206: an axis setting that the line names. *)
Definition steps_setting (g : GCODE_COMMAND) (c : configuration) : configuration :=
  let t := gtarget g in
  let c := if seen_X g then c <| steps_per_mm_x := tx t |> else c in
  let c := if seen_Y g then c <| steps_per_mm_y := ty t |> else c in
  let c := if seen_Z g then c <| steps_per_mm_z := tz t |> else c in
  if seen_E g then c <| steps_per_mm_e := te t |> else c.
Definition feedrate_setting (g : GCODE_COMMAND) (c : configuration) : configuration :=
  let t := gtarget g in
  let c := if seen_X g then c <| maximum_feedrate_x := d2i32 (tx t) |> else c in
  let c := if seen_Y g then c <| maximum_feedrate_y := d2i32 (ty t) |> else c in
  let c := if seen_Z g then c <| maximum_feedrate_z := d2i32 (tz t) |> else c in
  if seen_E g then c <| maximum_feedrate_e := d2i32 (te t) |> else c.
Definition acceleration_setting (g : GCODE_COMMAND) (c : configuration) : configuration :=
  if seen_X g then c <| acceleration := tx (gtarget g) |> else c.

Definition reported (r : option (machine V)) : option (bool * machine V) :=
  m ← r; Some (true, m).
Definition unreported (r : option (machine V)) : option (bool * machine V) :=
  m ← r; Some (false, m).

Definition setting_command (g : GCODE_COMMAND) m : option (bool * machine V) :=
  let c := config m in
  let n := gM g in
  if n =? 200 then
    if any_axis g then Some (false, m <| config := steps_setting g c |>)
    else reported (sendf ("ok X%g Y%g Z%g E%g" ++ Prelude.crlf)
           [ADouble (steps_per_mm_x c); ADouble (steps_per_mm_y c); ADouble (steps_per_mm_z c);
            ADouble (steps_per_mm_e c)] m)
  else if n =? 202 then
    if any_axis g then Some (false, m <| config := feedrate_setting g c |>)
    else reported (sendf ("ok X%d Y%d Z%d E%d" ++ Prelude.crlf)
           [AInt (maximum_feedrate_x c); AInt (maximum_feedrate_y c); AInt (maximum_feedrate_z c);
            AInt (maximum_feedrate_e c)] m)
  else if n =? 206 then
    if any_axis g then Some (false, m <| config := acceleration_setting g c |>)
    else reported (sendf ("ok X%g" ++ Prelude.crlf) [ADouble (acceleration c)] m)
  else Some (false, m).

(** M300 *)
Definition beep (g : GCODE_COMMAND) m : option (machine V) :=
  let frequency := if seen_S g then u16 (gS g) else 1000 in
  let duration := if seen_P g then gP g else 1000 in
  m ← buzzer_wait m;
  Some (play frequency duration m).

(** M500, M501 *)
Definition table_command (sensor : Z) (g : GCODE_COMMAND) m : option (bool * machine V) :=
  if seen_S g && seen_P g then
    Some (false, m <| temps := snd (temp_set_table_entry sensor (u16 (gS g)) (gP g) (temps m)) |>)
  else if seen_S g then
    reported (sendf ("ok [%d] = %d" ++ Prelude.crlf)
      [AInt (gS g); AInt (temp_get_table_entry sensor (u16 (gS g)) (temps m))] m)
  else Some (false, message ("E: bad param" ++ Prelude.crlf) m).

(** M542 *)
Definition go_to_rest (t : tTarget) m : option (machine V) :=
  let c := config m in
  if c_true (have_rest_pos c) then
    let p := start m in
    '(t, m) ← (if dltb (tz p) (d_of_Z 2) then
                 let t := mk_target (tx p) (ty p) (d_of_Z 2) (te p)
                            (d_of_Z (maximum_feedrate_z c)) (invert_feed_rate p) in
                 m ← enqueue_moved t m; Some (t, m)
               else Some (t, m));
    enqueue_moved (mk_target (d_of_Z (rest_pos_x c)) (d_of_Z (rest_pos_y c)) (tz (start m)) (te t)
      (d_of_Z (maximum_feedrate_x c)) (invert_feed_rate t)) m
  else Some m.

(** The codes that do nothing. *)
Definition idle_code (n : Z) : bool :=
  bool_decide (n ∈ [29; 82; 111; 113; 130; 131; 132; 133; 134; 141; 142; 543]).

Definition process_M (g : GCODE_COMMAND) (t : tTarget) m
  : option (GCODE_COMMAND * bool * machine V) :=
  let n := gM g in
  let keep := option_map (fun '(b, m') => (g, b, m')) in
  if (20 <=? n) && (n <=? 28) then keep (unreported (sd_command g m))
  else if bool_decide (n ∈ [101; 103; 104; 108; 109; 140; 227; 228; 229; 551])
  then keep (unreported (extruder_command g m))
  else if bool_decide (n ∈ [106; 107; 112; 190; 191]) then Some (g, false, pin_command n m)
  else if n =? 105 then keep (reported (o ← temp_print (temps m); Some (send o m)))
  else if n =? 110 then Some (g <| N_expected := u32 (gS g - 1) |>, false, m)
  else if n =? 114 then keep (report_position g m)
  else if n =? 115 then keep (unreported (report_firmware m))
  else if n =? 119 then Some (g, false, report_endstops m)
  else if (n =? 200) || (n =? 202) || (n =? 206) then
    '(b, m) ← setting_command g m;
    Some (if (n =? 200) && any_axis g then gcode_parse_init (config m) g else g, b, m)
  else if n =? 300 then keep (unreported (beep g m))
  else if n =? 500 then keep (table_command EXTRUDER_0 g m)
  else if n =? 501 then keep (table_command HEATED_BED_0 g m)
  else if n =? 542 then keep (unreported (go_to_rest t m))
  else if n =? 600 then keep (unreported (o ← print_config (config m); Some (send o m)))
  else if idle_code n then Some (g, false, m)
  else Some (g, false, bad_code "E: Bad M-code " n m).

(** ** The processor *)

Definition ok_reply : list Z := bytes_of_string ("ok" ++ Prelude.crlf).

Definition process_gcode_command (g : GCODE_COMMAND) m
  : option (eParseResult * GCODE_COMMAND * machine V) :=
  let t := command_target g (start m) in
  '(g, reply_sent, m) ←
    (if seen_G g then '(g, m) ← process_G g t m; Some (g, false, m)
     else if seen_M g then process_M g t m
     else Some (g, false, m));
  Some (PR_OK, g, if reply_sent : bool then m else send ok_reply m).

(** What the line parser needs of the firmware. *)
#[export] Instance firmware_backend : Backend (machine V) := {
  be_send m bs := send bs m;
  be_sd_writing m := sd_writing_file (sd m);
  be_sd_stop_writing m := sd_close (with_sd (fun s => s <| sd_writing_file := false |>) m);
  be_sd_write m bs := sd_write_to_file bs m;
  be_process := process_gcode_command
}.
End process.

(** A machine without an SD card. *)
#[export] Instance no_card : FatFs unit := {
  f_open _ _ _ := (3, tt);
  f_close v := v;
  f_rest _ := [];
  f_set_rest _ v := v;
  f_write _ _ := (3, tt);
  f_size _ := 0;
  f_lseek v _ := v;
  f_opendir _ _ := (3, [])
}.

(** ** A move command moves the motors *)

Lemma deqb_cases x y :
  deqb x y = true -> x = y \/ (exists s s', x = SpecFloat.S754_zero s /\ y = SpecFloat.S754_zero s').
Proof.
  unfold deqb, SpecFloat.SFeqb.
  destruct x as [s|s| |s m e], y as [s'|s'| |s' m' e']; cbn; intros H;
    try (destruct s; discriminate); try (destruct s'; discriminate); try discriminate.
  - right. by exists s, s'.
  - left. by destruct s, s'.
  - left. destruct s, s'; try discriminate;
      destruct (Z.compare e e') eqn:Ee; cbn in H; try discriminate; apply Z.compare_eq in Ee;
      unfold Pos.compare in *; subst e';
      destruct (Pos.compare_cont Eq m m') eqn:Em; cbn in H; try discriminate;
      apply Pos.compare_eq in Em; by subst.
Qed.

Lemma lround_same x y k : deqb x y = true -> lround (dmul x k) = lround (dmul y k).
Proof.
  intros H. apply deqb_cases in H as [->|(s & s' & -> & ->)]; [done|].
  destruct k as [z|z| |z m e]; reflexivity.
Qed.

Section moves.
Context {V : Type}.
Implicit Types m : machine V.

(** The planner's position is that of its start point. *)
Definition coherent m : Prop := forall a,
  arr (position (plan (motion_state m))) (axis_index a)
  = arr (target_steps (config m) (start m)) (axis_index a).

Lemma enqueue_moved_reaches w0 t m m' :
  aligned w0 m -> coherent m -> enable_extruder_1 (config m) <> 0 ->
  in_reach (target_steps (config m) t) -> enqueue_moved t m = Some m' ->
  same_shell m m' /\ aligned w0 m' /\
  forall a, arr (position (plan (motion_state m'))) (axis_index a)
            = arr (target_steps (config m) t) (axis_index a).
Proof.
  intros Ha Hco Hen Hin. unfold enqueue_moved. rewrite (proj2 (Z.eqb_neq _ 0) Hen).
  destruct (negb _ || _ || _ || _) eqn:Ed.
  - intros E. split; [by eapply buffer_action_shell|]. refine (buffer_move_aligned w0 _ m m' Ha _ E). exact Hin.
  - apply orb_false_iff in Ed as [Ed E4]. apply orb_false_iff in Ed as [Ed E3].
    apply orb_false_iff in Ed as [E1 E2].
    apply negb_false_iff in E1, E2, E3, E4. intros E. injection E as <-.
    split; [by split|]. split.
    + revert Ha. apply aligned_same; [done|done|]. exists []. split; [by rewrite app_nil_r|done].
    + intros a. cbn [motion_state plan position update updater].
      change (arr (position (plan (motion_state m))) (axis_index a)
              = arr (target_steps (config m) t) (axis_index a)).
      rewrite (Hco a). unfold target_steps.
      rewrite (lround_same (tx t) (tx (start m))), (lround_same (ty t) (ty (start m))),
        (lround_same (tz t) (tz (start m))), (lround_same (te t) (te (start m))) by done.
      done.
Qed.
End moves.

(** ** What commands leave alone *)

Section respect.
Context {V : Type} `{FatFs V}.
Implicit Types m : machine V.

(** Whatever state the result is, it is related to [m]. *)
Definition respects (R : machine V -> machine V -> Prop) m (r : option (machine V)) : Prop :=
  forall m', r = Some m' -> R m m'.

Lemma respects_bind (R : machine V -> machine V -> Prop) `{!PreOrder R} m r f :
  respects R m r -> (forall m1, respects R m1 (f m1)) -> respects R m (r ≫= f).
Proof.
  intros Hr Hf m'. destruct r as [m1|]; [|done]. cbn. intros E.
  etransitivity; [by apply Hr|by apply (Hf m1)].
Qed.

Lemma respects_ret (R : machine V -> machine V -> Prop) m m' : R m m' -> respects R m (Some m').
Proof. intros HR m1 E. by injection E as <-. Qed.

Lemma buffer_respects m req : respects same_shell m (buffer_action req m).
Proof. intros m'. apply buffer_action_shell. Qed.

Lemma synch_respects m : respects same_shell m (synch_queue m).
Proof. intros m'. apply wait_until_shell. Qed.

Lemma wait_ms_respects m n : respects same_shell m (wait_ms n m).
Proof. intros m'. apply wait_until_shell. Qed.

Lemma enqueue_respects m t : respects same_shell m (enqueue_moved t m).
Proof.
  unfold enqueue_moved. destruct (_ || _ || _ || _); [apply buffer_respects|].
  apply respects_ret. by split.
Qed.

Lemma special_xy_respects m x y f : respects same_shell m (SpecialMoveXY x y f m).
Proof. apply buffer_respects. Qed.
Lemma special_z_respects m z f : respects same_shell m (SpecialMoveZ z f m).
Proof. apply buffer_respects. Qed.
Lemma special_e_respects m e f : respects same_shell m (SpecialMoveE e f m).
Proof.
  unfold SpecialMoveE. destruct (c_true _); [apply enqueue_respects|by apply respects_ret].
Qed.

Lemma position_respects m t : respects same_shell m (Some (set_position t m)).
Proof. apply respects_ret. by split. Qed.
End respect.

Create HintDb respect.
#[export] Hint Resolve buffer_respects synch_respects wait_ms_respects enqueue_respects
  special_xy_respects special_z_respects special_e_respects position_respects : respect.

(** Walk along the binds of a command. *)
Ltac respect_tac :=
  repeat first
    [ progress (intros; cbv beta zeta)
    | solve [auto with respect]
    | match goal with |- respects _ _ (_ ≫= _) => apply respects_bind; [apply _| |] end
    | apply respects_ret; reflexivity
    | match goal with |- respects _ _ (if ?b then _ else _) => destruct b end ].

Section keep.
Context {V : Type} `{FatFs V}.
Implicit Types m : machine V.

Lemma zero_x_respects m : respects same_shell m (zero_x m).
Proof. unfold zero_x. respect_tac. Qed.
Lemma zero_y_respects m : respects same_shell m (zero_y m).
Proof. unfold zero_y. respect_tac. Qed.
Lemma zero_z_respects m : respects same_shell m (zero_z m).
Proof. unfold zero_z. respect_tac. Qed.

#[local] Hint Resolve zero_x_respects zero_y_respects zero_z_respects : respect.

Lemma go_home_respects g m : respects same_shell m (go_home g m).
Proof. unfold go_home, when, zero_e. respect_tac. Qed.

Lemma set_home_respects g m : respects same_shell m (set_home g m).
Proof. unfold set_home. respect_tac. Qed.
End keep.

(** *** Replies *)

Section says.
Context {V : Type} `{FatFs V}.
Implicit Types m : machine V.

(** The state only gains output. *)
Definition says m m' : Prop := exists o, sent m' = sent m ++ o.

(** It only gains output and keeps the state of the SD card commands. *)
Definition talks m m' : Prop := says m m' /\ sd m' = sd m.

#[export] Instance says_preorder : PreOrder says.
Proof.
  split; [intros m; exists []; by rewrite app_nil_r|].
  intros m1 m2 m3 [o1 E1] [o2 E2]. exists (o1 ++ o2). by rewrite E2, E1, app_assoc.
Qed.

#[export] Instance talks_preorder : PreOrder talks.
Proof.
  split; [by intros m|]. intros m1 m2 m3 [A1 B1] [A2 B2].
  split; [by etransitivity|congruence].
Qed.

Lemma shell_talks m r : respects same_shell m r -> respects talks m r.
Proof.
  intros Hr m' E. destruct (Hr m' E) as [_ _ Hs _ _ Ho]. split; [|done].
  exists []. by rewrite app_nil_r.
Qed.

Lemma talks_says m r : respects talks m r -> respects says m r.
Proof. intros Hr m' E. by destruct (Hr m' E). Qed.

Lemma send_talks bs m : talks m (send bs m).
Proof. split; [by exists bs|done]. Qed.

Lemma sendf_talks fmt args m : respects talks m (sendf fmt args m).
Proof.
  unfold sendf. destruct (sersendf fmt args) as [o|]; [|done]. cbn.
  apply respects_ret, send_talks.
Qed.

Lemma silent_talks m m' : sent m' = sent m -> sd m' = sd m -> respects talks m (Some m').
Proof. intros E1 E2. apply respects_ret. split; [|done]. exists []. by rewrite app_nil_r. Qed.

Lemma send_respects bs m : respects talks m (Some (send bs m)).
Proof. apply respects_ret, send_talks. Qed.
Lemma message_respects s m : respects talks m (Some (message s m)).
Proof. apply send_respects. Qed.
Lemma bad_code_respects s n m : respects talks m (Some (bad_code s n m)).
Proof. apply send_respects. Qed.

Lemma buffer_talks m req : respects talks m (buffer_action req m).
Proof. apply shell_talks, buffer_respects. Qed.
Lemma enqueue_talks m t : respects talks m (enqueue_moved t m).
Proof. apply shell_talks, enqueue_respects. Qed.
Lemma special_e_talks m e f : respects talks m (SpecialMoveE e f m).
Proof. apply shell_talks, special_e_respects. Qed.
Lemma wait_talks m cond : respects talks m (wait_until cond m).
Proof. apply shell_talks. intros m'. apply wait_until_shell. Qed.

(** Composition after a step that changes neither output nor SD state. *)
Lemma talks_after m m1 r : sent m1 = sent m -> sd m1 = sd m -> respects talks m1 r -> respects talks m r.
Proof.
  intros E1 E2 Hr m' E. destruct (Hr m' E) as [[o Ho] Hs]. split; [|congruence].
  exists o. congruence.
Qed.

Lemma says_after m m1 r : says m m1 -> respects says m1 r -> respects says m r.
Proof. intros Hs Hr m' E. etransitivity; [exact Hs|by apply Hr]. Qed.
End says.

#[export] Hint Resolve sendf_talks send_respects message_respects bad_code_respects buffer_talks
  enqueue_talks special_e_talks wait_talks : respect.

Section commands.
Context {V : Type} `{FatFs V}.
Implicit Types m : machine V.

Lemma process_G_talks g t m g' m' : process_G g t m = Some (g', m') -> talks m m'.
Proof.
  assert (forall r, respects talks m r -> option_map (fun m' => (g, m')) r = Some (g', m') ->
    talks m m') as Hkeep.
  { intros [m1|] Hr E; [|done]. injection E as <- <-. by apply Hr. }
  unfold process_G, rapid_move.
  repeat (case_bool; [| clear E]); try (apply Hkeep; auto with respect);
    try (intros Eq; injection Eq as <- <-; reflexivity).
  - apply respects_bind; [apply _|apply shell_talks, synch_respects|].
    intros m1. apply shell_talks, wait_ms_respects.
  - apply respects_bind; [apply _|auto with respect|]. intros m1. apply shell_talks, go_home_respects.
  - apply shell_talks, go_home_respects.
  - apply shell_talks, set_home_respects.
  - intros Eq. injection Eq as <- <-. apply send_talks.
Qed.

Lemma extruder_talks g m : respects talks m (extruder_command g m).
Proof.
  unfold extruder_command, extruder_forward, extruder_stop, set_extruder_temperature,
    wait_extruder_temperature, set_extruder_speed, set_auto_steps, prime_extruder,
    enqueue_wait_temp, set_temperature.
  repeat (cbv zeta; case_bool); try (by apply silent_talks); auto with respect;
    try (eapply talks_after; [| |solve [auto with respect]]; done).
  all: destruct (temp_set _ _ _ _) as [ts idle].
  all: try (eapply talks_after; [| |solve [auto with respect]]; done).
  all: by apply silent_talks.
Qed.

Lemma pin_talks n m : talks m (pin_command n m).
Proof.
  unfold pin_command, emergency_stop, enable_motors, disable_motors.
  repeat case_bool; (split; [exists []; by rewrite app_nil_r|done]).
Qed.

(** Replies that begin with "ok". *)
Definition own_reply (o : list Z) : Prop := exists rest, o = bytes_of_string "ok" ++ rest.

Lemma sersendf_ok fmt args o : sersendf ("ok" ++ fmt) args = Some o -> own_reply o.
Proof.
  assert (sersendf ("ok" ++ fmt) args
    = option_map (cons 111) (option_map (cons 107) (sersendf fmt args))) as -> by reflexivity.
  destruct (sersendf fmt args) as [o'|]; [|done]. cbn. intros E. injection E as <-.
  by exists o'.
Qed.

(** A reporting command: its result and the reply it sends. *)
Definition answers m (r : option (bool * machine V)) : Prop :=
  forall b m', r = Some (b, m') ->
    sd m' = sd m /\ exists o, sent m' = sent m ++ o /\ (b = true -> own_reply o).

Lemma answers_no m r : respects talks m r -> answers m (unreported r).
Proof.
  intros Hr b m'. destruct r as [m1|]; [|done]. cbn. intros E. injection E as <- <-.
  destruct (Hr m1 eq_refl) as [[o Ho] Hs]. split; [done|]. by exists o.
Qed.

Lemma answers_plain m m' : talks m m' -> answers m (Some (false, m')).
Proof. intros [[o Ho] Hs] b m1 E. injection E as <- <-. split; [done|]. by exists o. Qed.

Lemma answers_ok m fmt args : answers m (reported (sendf ("ok" ++ fmt) args m)).
Proof.
  intros b m'. unfold sendf. destruct (sersendf _ args) as [o|] eqn:Eo; [|done].
  cbn. intros E. injection E as <- <-. split; [done|]. exists o. split; [done|].
  intros _. by eapply sersendf_ok.
Qed.

Lemma setting_answers g m : answers m (setting_command g m).
Proof.
  unfold setting_command. repeat case_bool; try (apply (answers_ok m)); apply answers_plain;
    (split; [exists []; by rewrite app_nil_r|done]).
Qed.

Lemma table_answers sensor g m : answers m (table_command sensor g m).
Proof.
  unfold table_command. repeat case_bool; try (apply (answers_ok m)); apply answers_plain.
  - split; [exists []; by rewrite app_nil_r|done].
  - apply send_talks.
Qed.

Lemma temperature_answers m :
  answers m (reported (o ← temp_print (temps m); Some (send o m))).
Proof.
  exact (answers_ok m (" T:%u.0 B:%u.0" ++ Prelude.crlf)
    [AInt (arr (current_temp (temps m)) EXTRUDER_0);
     AInt (arr (current_temp (temps m)) HEATED_BED_0)]).
Qed.

Lemma position_answers g m :
  forall b m', report_position g m = Some (b, m') ->
    sd m' = sd m /\ exists o, sent m' = sent m ++ o /\ (own_reply o \/ (o = [] /\ option_inches g = true)).
Proof.
  unfold report_position. intros b m'. destruct (option_inches g).
  - intros E. injection E as <- <-. split; [done|]. exists []. rewrite app_nil_r. auto.
  - intros E. pose proof (answers_ok m _ _ b m' E) as (Hs & o & Ho & Hr).
    split; [done|]. exists o. split; [done|]. left. apply Hr.
    destruct (sendf _ _ m); [|done]. cbn in E. by injection E.
Qed.

Lemma beep_talks g m : respects talks m (beep g m).
Proof.
  unfold beep. apply respects_bind; [apply _|apply wait_talks|]. intros m1.
  apply silent_talks; unfold play; by destruct (buzzer_play _ _ _ _ _).
Qed.

Lemma rest_talks t m : respects talks m (go_to_rest t m).
Proof.
  unfold go_to_rest. destruct (c_true _); [|by apply silent_talks].
  destruct (dltb _ _).
  - intros m'. destruct (enqueue_moved _ m) as [m1|] eqn:E1; [|done]. cbn. intros E2.
    etransitivity; [by eapply enqueue_talks|by eapply enqueue_talks].
  - apply enqueue_talks.
Qed.

(** *** The SD card commands *)

Lemma list_sub_talks fuel : forall path m r m',
  sd_list_dir_sub fuel path m = Some (r, m') -> talks m m'.
Proof.
  induction fuel as [|fuel IH]; intros path m r m'; [done|]. cbn [sd_list_dir_sub].
  destruct (f_opendir (volume m) path) as [res entries].
  destruct (negb (res =? FR_OK)); [intros E; injection E as _ ->; reflexivity|]. clear res.
  revert m. induction entries as [|[res fno] entries IHe]; intros m.
  - intros E. injection E as _ ->. reflexivity.
  - destruct (_ || _); [intros E; injection E as _ ->; reflexivity|].
    destruct (_ =? chr "."); [apply IHe|]. destruct (is_directory fno).
    + destruct (sendf _ _ m) as [m1|] eqn:E1; [|done]. cbn [mbind option_bind].
      apply sendf_talks in E1.
      destruct (path_cat path _) as [p1|]; [|done]. cbn [mbind option_bind].
      destruct (path_cat p1 _) as [p2|]; [|done]. cbn [mbind option_bind].
      destruct (sd_list_dir_sub fuel p2 m1) as [[r2 m2]|] eqn:E2; [|done]. cbn [mbind option_bind].
      apply IH in E2. destruct (negb (r2 =? FR_OK)).
      * intros E. injection E as _ ->. by etransitivity.
      * intros E. apply IHe in E. etransitivity; [exact E1|]. by etransitivity.
    + destruct (sendf _ _ m) as [m1|] eqn:E1; [|done]. cbn [mbind option_bind].
      apply sendf_talks in E1. intros E. apply IHe in E. by etransitivity.
Qed.

Lemma list_files_talks m : respects talks m (list_files m).
Proof.
  unfold list_files, sd_list_dir. apply respects_bind; [apply _| |intros; apply message_respects].
  intros m' E. destruct (sd_list_dir_sub _ _ _) as [[r m1]|] eqn:E1; [|done].
  injection E as <-. apply list_sub_talks in E1. etransitivity; [|exact E1]. apply send_talks.
Qed.

(** Printing only from an active card, and never while writing. *)
Definition modes_ok (s : sd_state) : Prop :=
  (sd_printing s = true -> sd_active s = true) /\
  ~ (sd_printing s = true /\ sd_writing_file s = true).

(** A command that may change the modes. *)
Definition sd_effect m (r : option (machine V)) : Prop :=
  forall m', r = Some m' ->
    says m m' /\
    (modes_ok (sd m) -> sd_writing_file (sd m) = false -> modes_ok (sd m')).

Lemma talks_effect m r : respects talks m r -> sd_effect m r.
Proof. intros Hr m' E. destruct (Hr m' E) as [Hs Hd]. split; [done|]. by rewrite Hd. Qed.

Lemma plain_effect m m' :
  sent m' = sent m ->
  (modes_ok (sd m) -> sd_writing_file (sd m) = false -> modes_ok (sd m')) ->
  sd_effect m (Some m').
Proof.
  intros E Hm m1 E1. injection E1 as <-. split; [exists []; by rewrite app_nil_r|done].
Qed.

Lemma effect_then m m1 r :
  sent m1 = sent m -> (modes_ok (sd m) -> sd_writing_file (sd m) = false -> modes_ok (sd m1)) ->
  respects talks m1 r -> sd_effect m r.
Proof.
  intros Es Hm Hr m' E. destruct (Hr m' E) as [[o Ho] Hd]. split.
  - exists o. by rewrite Ho, Es.
  - rewrite Hd. exact Hm.
Qed.

Lemma sd_open_talks path flags m b m' : sd_open path flags m = Some (b, m') -> talks m m'.
Proof.
  unfold sd_open. destruct (f_open (volume m) path flags) as [res v]. case_bool.
  - intros Eq. injection Eq as <- <-. split; [exists []; by rewrite app_nil_r|done].
  - destruct (sendf _ _ _) as [m1|] eqn:E1; [|done]. cbn. intros Eq. injection Eq as <- <-.
    apply sendf_talks in E1. exact E1.
Qed.

Lemma ensure_active_spec m :
  sent (ensure_active m) = sent m /\ sd_active (sd (ensure_active m)) = true /\
  sd_writing_file (sd (ensure_active m)) = sd_writing_file (sd m).
Proof. unfold ensure_active. by destruct (sd_active (sd m)) eqn:E. Qed.

(** Selecting a file, for reading or writing, ends printing. *)
Lemma select_file_effect g m : sd_effect m (select_file g m).
Proof.
  unfold select_file. destruct (ensure_active_spec m) as (Es & Ea & Ew).
  set (m0 := sd_close _). assert (sent m0 = sent m) as Es0 by exact Es.
  assert (sd_printing (sd m0) = false) as Hp0 by done.
  destruct (sd_open _ _ m0) as [[ok m1]|] eqn:E1; [|done]. cbn [mbind option_bind].
  apply sd_open_talks in E1 as [[o Ho] Hd].
  assert (forall m2, says m m2 -> sd_printing (sd m2) = false -> sd_effect m (Some m2)) as Hdone.
  { intros m2 Hs Hp m3 E3. injection E3 as <-. split; [done|]. intros _ _.
    split; [congruence|]. intros [? _]. congruence. }
  intros m' E. destruct ok.
  - destruct (sendf _ _ _) as [m2|] eqn:E2; [|done]. cbn [mbind option_bind] in E.
    apply sendf_talks in E2 as [[o2 Ho2] Hd2]. apply sendf_talks in E as [[o3 Ho3] Hd3].
    apply (Hdone m'); [|rewrite Hd3; cbn; rewrite Hd2; cbn; by rewrite Hd|done].
    exists (o ++ o2 ++ o3). rewrite Ho3. cbn. rewrite Ho2. cbn. rewrite Ho, Es0.
    by rewrite !app_assoc.
  - apply sendf_talks in E as [[o3 Ho3] Hd3]. apply (Hdone m'); [|by rewrite Hd3, Hd|done].
    exists (o ++ o3). by rewrite Ho3, Ho, Es0, app_assoc.
Qed.

Lemma start_write_effect g m : sd_effect m (start_write g m).
Proof.
  unfold start_write. destruct (ensure_active_spec m) as (Es & Ea & Ew).
  set (m0 := with_sd _ _). assert (sent m0 = sent m) as Es0 by exact Es.
  assert (sd_printing (sd m0) = false) as Hp0 by done.
  destruct (sd_open _ _ m0) as [[ok m1]|] eqn:E1; [|done]. cbn [mbind option_bind].
  apply sd_open_talks in E1 as [[o Ho] Hd]. intros m' E.
  assert (says m m' /\ sd_printing (sd m') = false) as [Hs Hp].
  { destruct ok; apply sendf_talks in E as [[o3 Ho3] Hd3].
    - split; [|rewrite Hd3; cbn; by rewrite Hd].
      exists (o ++ o3). rewrite Ho3. cbn. by rewrite Ho, Es0, app_assoc.
    - split; [|by rewrite Hd3, Hd]. exists (o ++ o3). by rewrite Ho3, Ho, Es0, app_assoc. }
  split; [done|]. intros _ _. split; [congruence|]. intros [? _]. congruence.
Qed.

Lemma sd_command_effect g m : sd_effect m (sd_command g m).
Proof.
  unfold sd_command. repeat (case_bool; [|clear E]).
  - apply talks_effect, list_files_talks.
  - apply plain_effect; [done|]. intros [H1 H2] _. split; cbn; [done|]. by intros [].
  - apply plain_effect; [done|]. intros [H1 H2] _. split; cbn; [done|]. by intros [].
  - apply select_file_effect.
  - unfold start_print. destruct (sd_active (sd m)) eqn:Ea; apply plain_effect; try done.
    intros [H1 H2] Hw. split; cbn; [done|]. rewrite Hw. by intros [].
  - unfold pause_print. destruct (sd_printing (sd m)) eqn:Ea; apply plain_effect; try done.
    intros [H1 H2] Hw. split; cbn; [done|]. by intros [].
  - unfold set_sd_pos. destruct (sd_active (sd m) && seen_S g); by apply plain_effect.
  - unfold sd_status. destruct (sd_active (sd m)); apply talks_effect; auto with respect.
  - apply start_write_effect.
  - by apply plain_effect.
Qed.

(** *** Every command *)

(** The reply of a command: its messages and "ok", a report that begins with
    "ok", or, for M114 in inches, nothing. *)
Definition answered (g : GCODE_COMMAND) (o : list Z) : Prop :=
  (exists msgs, o = msgs ++ ok_reply) \/ own_reply o \/
  (o = [] /\ seen_G g = false /\ gM g = 114 /\ option_inches g = true).

(** What [process_M] does to the reply and the modes. *)
Definition M_effect (g : GCODE_COMMAND) m (r : option (bool * machine V)) : Prop :=
  forall b m', r = Some (b, m') ->
    (modes_ok (sd m) -> sd_writing_file (sd m) = false -> modes_ok (sd m')) /\
    exists o, sent m' = sent m ++ o /\
      (b = true -> own_reply o \/ (o = [] /\ gM g = 114 /\ option_inches g = true)).

Lemma answers_M g m r : answers m r -> M_effect g m r.
Proof.
  intros Hr b m' E. destruct (Hr b m' E) as (Hs & o & Ho & Hb). split; [by rewrite Hs|].
  exists o. split; [done|]. intros H1. left. by apply Hb.
Qed.

Lemma effect_M g m r : sd_effect m r -> M_effect g m (unreported r).
Proof.
  intros Hr b m'. destruct r as [m1|]; [|done]. cbn. intros E. injection E as <- <-.
  destruct (Hr m1 eq_refl) as [[o Ho] Hm]. split; [done|]. by exists o.
Qed.

Lemma keep_M g m r b g' m' :
  M_effect g m r -> option_map (fun '(b, m') => (g, b, m')) r = Some (g', b, m') ->
  M_effect g m (Some (b, m')).
Proof.
  intros Hr. destruct r as [[b1 m1]|]; [|done]. cbn. intros E. injection E as <- <- <-. exact Hr.
Qed.

Lemma plain_M g m m' : talks m m' -> M_effect g m (Some (false, m')).
Proof. intros. by apply answers_M, answers_plain. Qed.

Lemma process_M_effect g t m g' b m' :
  process_M g t m = Some (g', b, m') -> M_effect g m (Some (b, m')).
Proof.
  unfold process_M.
  repeat match goal with
  | |- (if ?b then _ else _) = _ -> _ => destruct b eqn:E; [|clear E]
  end; try apply keep_M.
  - apply effect_M, sd_command_effect.
  - apply effect_M, talks_effect, extruder_talks.
  - intros Eq. injection Eq as <- <- <-. apply plain_M, pin_talks.
  - apply answers_M, temperature_answers.
  - intros Eq. injection Eq as <- <- <-. apply plain_M. reflexivity.
  - intros b1 m1 E1. apply position_answers in E1 as (Hs & o & Ho & Hr).
    split; [by rewrite Hs|]. exists o. split; [done|]. intros _.
    apply Z.eqb_eq in E. destruct Hr as [?|[? ?]]; auto.
  - apply answers_M, answers_no. unfold report_firmware. auto with respect.
  - intros Eq. injection Eq as <- <- <-. apply plain_M, send_talks.
  - pose proof (setting_answers g m) as Hs.
    destruct (setting_command g m) as [[b1 m1]|]; [|done]. cbn [mbind option_bind].
    intros Eq. injection Eq as <- <- <-. by apply answers_M.
  - apply answers_M, answers_no, beep_talks.
  - apply answers_M, table_answers.
  - apply answers_M, table_answers.
  - apply answers_M, answers_no, rest_talks.
  - apply answers_M, answers_no. destruct (print_config (config m)) as [o|]; [|done]. cbn.
    apply send_respects.
  - intros Eq. injection Eq as <- <- <-. apply plain_M. reflexivity.
  - intros Eq. injection Eq as <- <- <-. apply plain_M, send_talks.
Qed.

Lemma process_effect g m r g' m' :
  process_gcode_command g m = Some (r, g', m') ->
  r = PR_OK /\ (exists o, sent m' = sent m ++ o /\ answered g o) /\
  (modes_ok (sd m) -> sd_writing_file (sd m) = false -> modes_ok (sd m')).
Proof.
  unfold process_gcode_command. set (t := command_target g (start m)).
  assert (forall b m1, (seen_G g = false \/ b = false) -> M_effect g m (Some (b, m1)) ->
    (exists o, sent (if b then m1 else send ok_reply m1) = sent m ++ o /\ answered g o) /\
    (modes_ok (sd m) -> sd_writing_file (sd m) = false ->
     modes_ok (sd (if b then m1 else send ok_reply m1)))) as Hfin.
  { intros b m1 Hg Hm. destruct (Hm b m1 eq_refl) as (Hmod & o & Ho & Hb). destruct b.
    - destruct Hg as [Hg|]; [|done]. split; [|done]. exists o. split; [done|].
      destruct (Hb eq_refl) as [?|[? [? ?]]]; [right; by left|]. right. right. done.
    - split; [|done]. exists (o ++ ok_reply). split; [cbn; by rewrite Ho, app_assoc|].
      left. by exists o. }
  destruct (seen_G g) eqn:Eg.
  - destruct (process_G g t m) as [[g1 m1]|] eqn:E1; [|done]. cbn [mbind option_bind].
    intros E. injection E as <- <- <-. split; [done|]. apply (Hfin false m1); [by right|].
    apply process_G_talks in E1. by apply plain_M.
  - destruct (seen_M g).
    + destruct (process_M g t m) as [[[g1 b] m1]|] eqn:E1; [|done]. cbn [mbind option_bind].
      intros E. injection E as <- <- <-. split; [done|]. apply Hfin; [by left|].
      by eapply process_M_effect.
    + cbn [mbind option_bind]. intros E. injection E as <- <- <-. split; [done|].
      apply (Hfin false m); [by right|]. apply plain_M. reflexivity.
Qed.
End commands.

Section moving.
Context {V : Type} `{FatFs V}.
Implicit Types m : machine V.

Lemma send_aligned w0 bs m : aligned w0 m -> aligned w0 (send bs m).
Proof. done. Qed.

(** C3: A move command moves the motors to its target. Take any state in which
    the motors account for the planner's position, the position is that of the
    start point, and the extruder is enabled. When a G1 line and then a G4 line
    have been executed, with any interrupts arriving meanwhile, each motor has
    been stepped exactly to the rounded step position of the commanded target:
    the absolute or relative target of the line, with the automatic extrusion
    if it is on. Both lines are answered by "ok". *)
Theorem move_then_dwell_reaches (w0 : axis -> motor) m m1 m2 (g g1 d d1 : GCODE_COMMAND)
  (r1 r2 : eParseResult) (Ha : aligned w0 m) (Hco : coherent m)
  (Hen : enable_extruder_1 (config m) <> 0) (Hg : seen_G g = true /\ gG g = 1)
  (Hd : seen_G d = true /\ gG d = 4)
  (Hin : in_reach (target_steps (config m) (auto_extrude g (command_target g (start m)) m)))
  (Hrun1 : process_gcode_command g m = Some (r1, g1, m1))
  (Hrun2 : process_gcode_command d m1 = Some (r2, d1, m2)) :
  sent m2 = sent m ++ ok_reply ++ ok_reply /\
  forall a, m_pos (motors_run (trace m2) w0 a)
    = arr (target_steps (config m) (auto_extrude g (command_target g (start m)) m)) (axis_index a).
Proof.
  destruct Hg as [Hg1 Hg2], Hd as [Hd1 Hd2].
  unfold process_gcode_command in Hrun1, Hrun2. rewrite Hg1 in Hrun1. rewrite Hd1 in Hrun2.
  unfold process_G in Hrun1, Hrun2. rewrite Hg2 in Hrun1. rewrite Hd2 in Hrun2.
  cbn [Z.eqb Pos.eqb] in Hrun1, Hrun2.
  set (t := auto_extrude g (command_target g (start m)) m) in *.
  destruct (enqueue_moved t m) as [n1|] eqn:E1; [|discriminate].
  cbn [option_map mbind option_bind] in Hrun1. injection Hrun1 as <- <- <-.
  destruct (enqueue_moved_reaches w0 t m n1 Ha Hco Hen Hin E1) as ([_ _ _ _ _ Hs1] & Ha1 & Hp1).
  destruct (synch_queue (send ok_reply n1)) as [n2|] eqn:E2; [|discriminate].
  cbn [mbind option_bind] in Hrun2.
  destruct (wait_ms (gP d) n2) as [n3|] eqn:E3; [|discriminate].
  cbn [option_map mbind option_bind] in Hrun2. injection Hrun2 as <- <- <-.
  pose proof (wait_until_host _ _ _ E2) as [_ _ _ _ _ Hs2 _ Hp2].
  pose proof (wait_until_host _ _ _ E3) as [_ _ _ _ _ Hs3 _ Hp3].
  pose proof (wait_until_aligned w0 _ _ _ E3
    (wait_until_aligned w0 _ _ _ E2 (send_aligned w0 ok_reply n1 Ha1))) as Ha3.
  pose proof (wait_until_empty _ _ _ E3 (synch_queue_empty _ _ E2)) as Hq3.
  split.
  - change (sent (send ok_reply n3)) with (sent n3 ++ ok_reply).
    rewrite Hs3, Hs2. change (sent (send ok_reply n1)) with (sent n1 ++ ok_reply).
    by rewrite Hs1, <- app_assoc.
  - intros a. change (trace (send ok_reply n3)) with (trace n3).
    rewrite (aligned_empty w0 n3 Ha3 Hq3 a), Hp3, Hp2. apply Hp1.
Qed.
End moving.

(** *** A run: 0.025 mm in X and -0.0125 mm in Y *)

Definition no_stop (_ : Z) : bool := false.
Definition step_irq : irq := IRQ_step no_stop no_stop no_stop.
Definition room_temperature (_ : Z) : Z := 4089.

Definition idle_machine (sched : list (list irq)) : machine unit :=
  mk_machine sample_config rest temp_start slow_start tt sd_start extruder_start 0 [] [] sched.

Definition g_line (n p : Z) (t : tTarget) : GCODE_COMMAND :=
  gcode_zero <| seen_G := true |> <| gG := n |> <| gP := p |> <| seen_X := true |>
    <| seen_Y := true |> <| gtarget := t |>.

Definition short_schedule : list (list irq) :=
  [[]; [step_irq; IRQ_acceleration; step_irq; step_irq]; [IRQ_tick room_temperature]].

Lemma rest_aligned sched : aligned motors_at_rest (idle_machine sched).
Proof.
  split; [repeat constructor; lia|]. exists 0. split; [exact sample_planner_wf|].
  split; [done|]. split; [constructor|]. split; [done|]. by intros [].
Qed.

Lemma idle_coherent sched : coherent (idle_machine sched).
Proof. intros []; vm_compute; reflexivity. Qed.

Definition tiny_line : GCODE_COMMAND := g_line 1 0 (target tiny_move).

Lemma tiny_line_steps :
  let m := idle_machine short_schedule in
  target_steps (config m) (auto_extrude tiny_line (command_target tiny_line (start m)) m)
  = [2; -1; 0; 0].
Proof. vm_compute. reflexivity. Qed.

Lemma tiny_line_reach :
  let m := idle_machine short_schedule in
  in_reach (target_steps (config m) (auto_extrude tiny_line (command_target tiny_line (start m)) m)).
Proof. cbv zeta. rewrite tiny_line_steps. repeat constructor; lia. Qed.

Lemma idle_extruder : enable_extruder_1 (config (idle_machine short_schedule)) <> 0.
Proof. vm_compute. discriminate. Qed.

Lemma tiny_is_move : seen_G tiny_line = true /\ gG tiny_line = 1.
Proof. split; reflexivity. Qed.

(** The dwell line. *)
Definition dwell_line : GCODE_COMMAND := g_line 4 0 zero_target.

Lemma dwell_is_dwell : seen_G dwell_line = true /\ gG dwell_line = 4.
Proof. split; reflexivity. Qed.

(** Both lines end. *)
Definition after_both : option (machine unit * machine unit) :=
  '(_, _, m1) ← process_gcode_command tiny_line (idle_machine short_schedule);
  '(_, _, m2) ← process_gcode_command dwell_line m1;
  Some (m1, m2).

Lemma both_end : match after_both with Some _ => true | None => false end = true.
Proof. vm_compute. reflexivity. Qed.

Lemma move_then_dwell_reaches_witness :
  exists m1 m2 g1 d1 r1 r2,
    process_gcode_command tiny_line (idle_machine short_schedule) = Some (r1, g1, m1) /\
    process_gcode_command dwell_line m1 = Some (r2, d1, m2) /\
    m_pos (motors_run (trace m2) motors_at_rest AX) = 2 /\
    m_pos (motors_run (trace m2) motors_at_rest AY) = -1.
Proof.
  pose proof both_end as Hend. unfold after_both in Hend.
  destruct (process_gcode_command tiny_line (idle_machine short_schedule))
    as [[[r1 g1] m1]|] eqn:E1; [|discriminate]. cbn [mbind option_bind] in Hend.
  destruct (process_gcode_command dwell_line m1) as [[[r2 d1] m2]|] eqn:E2;
    [|discriminate]. clear Hend.
  exists m1, m2, g1, d1, r1, r2. split; [reflexivity|]. split; [exact E2|].
  pose proof (move_then_dwell_reaches motors_at_rest (idle_machine short_schedule) m1 m2
    tiny_line g1 dwell_line d1 r1 r2 (rest_aligned short_schedule)
    (idle_coherent short_schedule) idle_extruder
    tiny_is_move dwell_is_dwell tiny_line_reach E1 E2) as [_ H].
  rewrite tiny_line_steps in H. split; [exact (H AX)|exact (H AY)].
Defined.

(** ** Replies and modes *)



(** C9: The SD card modes exclude each other. Over every line the parser is
    given, whether it is executed, written to the SD file or rejected, the
    firmware prints from the card only while the card is active, and never
    while a file is being written. *)
Theorem sd_modes_exclusive {V : Type} `{FatFs V} (p p' : parser) (l l' : tLineBuffer)
  (m m' : machine V) (r : eParseResult) (Hok : modes_ok (sd m))
  (Hrun : gcode_parse_line p l m = Some (r, p', l', m')) : modes_ok (sd m').
Proof.
  unfold gcode_parse_line in Hrun.
  destruct (gcode_parse_chars p _) as [q|]; [|discriminate].
  destruct (checksum_ok (next_target q)).
  - unfold be_sd_writing, firmware_backend in Hrun.
    destruct (sd_writing_file (sd m)) eqn:Ew.
    + destruct (capture_line (next_target q) l m) as [[l1 m1]|] eqn:Ec; [|discriminate].
      injection Hrun as _ _ _ <-. unfold capture_line in Ec. destruct Hok as [H1 H2].
      revert Ec. case_bool; [case_bool|].
      * intros Ec. injection Ec as _ <-. split; cbn; [done|]. by intros [].
      * intros Ec. injection Ec as _ <-. by split.
      * destruct (fix_line_end l) as [l2|]; [|done].
        unfold be_sd_write, sd_write_to_file. destruct (f_write (volume m) _) as [res v].
        destruct (res =? FR_OK); intros Ec; injection Ec as _ <-; by split.
    + unfold execute_line, be_process in Hrun.
      destruct (process_gcode_command (next_target q) m) as [[[r1 g1] m1]|] eqn:E1; [|discriminate].
      injection Hrun as _ _ _ <-.
      destruct (process_effect _ _ _ _ _ E1) as (_ & _ & Hm). by apply Hm.
  - injection Hrun as _ _ _ <-. exact Hok.
Qed.

(** M21, then M24: the card is active and printing. *)
Lemma sd_modes_exclusive_witness :
  exists r p l m, gcode_parse_line parser_zero (mk_line (bytes_of_string "M24" ++ [10]) 4 false)
      (with_sd (fun s => s <| sd_active := true |>) (idle_machine [])) = Some (r, p, l, m) /\
    sd_printing (sd m) = true /\ modes_ok (sd m).
Proof.
  set (m0 := with_sd _ _).
  destruct (gcode_parse_line parser_zero _ m0) as [[[[r p] l] m]|] eqn:E;
    [|vm_compute in E; discriminate].
  exists r, p, l, m. split; [done|]. split.
  - vm_compute in E. injection E as _ _ _ <-. reflexivity.
  - refine (sd_modes_exclusive _ _ _ _ _ _ _ _ E). by split; [|intros []].
Defined.
