(* ===== verification/GcodeTypes.v ===== *)
(** * The fields of a command keep their C types

    [typed]: every integer of the parser's static variables is in the range of
    its C type and the file name is an array of 120 characters. The parser and
    the command processor preserve it over any lines. *)

From Stdlib Require Import SpecFloat.
From S2P Require Import Prelude CDouble SerialFifo SerMsg MotionTypes GcodeParse Machine GcodeProcess.

Definition in_u8 (z : Z) : Prop := 0 <= z < 2 ^ 8.
Definition in_u16 (z : Z) : Prop := 0 <= z < 2 ^ 16.
Definition in_u32 (z : Z) : Prop := 0 <= z < 2 ^ 32.
Definition in_i16 (z : Z) : Prop := - 2 ^ 15 <= z < 2 ^ 15.

Record command_typed (g : GCODE_COMMAND) : Prop := {
  ty_G : in_u8 (gG g);
  ty_M : in_u16 (gM g);
  ty_S : in_i16 (gS g);
  ty_P : in_u16 (gP g);
  ty_N : in_u32 (gN g);
  ty_N_expected : in_u32 (N_expected g);
  ty_checksum_read : in_u8 (checksum_read g);
  ty_checksum_calculated : in_u8 (checksum_calculated g);
  ty_chpos : 0 <= chpos g < FILENAME_SIZE;
  ty_filename : Z.of_nat (length (filename g)) = FILENAME_SIZE /\ Forall in_u8 (filename g)
}.

(** The number being read: [exponent] is an [int] that counts digits. *)
Definition typed (p : parser) : Prop :=
  command_typed (next_target p) /\ in_u8 (last_field p) /\ 0 <= rd_exponent p < 2 ^ 31.

Lemma in_u8_log z : in_u8 z <-> 0 <= z /\ Z.log2 z < 8.
Proof.
  unfold in_u8. split.
  - intros Hz. split; [lia|]. destruct (Z.eq_dec z 0) as [->|]; [done|]. apply Z.log2_lt_pow2; lia.
  - intros [Hz Hl]. split; [done|]. destruct (Z.eq_dec z 0) as [->|]; [lia|]. apply Z.log2_lt_pow2; lia.
Qed.

Lemma in_u8_xor a b : in_u8 a -> in_u8 b -> in_u8 (Z.lxor a b).
Proof.
  rewrite !in_u8_log. intros [Ha La] [Hb Lb]. split; [by apply Z.lxor_nonneg|].
  pose proof (Z.log2_lxor a b Ha Hb). lia.
Qed.

Lemma upcase_typed c : in_u8 c -> in_u8 (upcase c).
Proof.
  unfold upcase. case_bool; [|done]. rewrite !in_u8_log. intros [Hc Lc]. split; [by apply Z.land_nonneg; left|].
  pose proof (Z.log2_land c (255 - 32) Hc ltac:(lia)). lia.
Qed.

Lemma store_field_typed field v g : command_typed g -> command_typed (store_field field v g).
Proof.
  unfold store_field, d2u8, d2u16, d2i16. intros Hg.
  pose proof (d2u32_range v) as Hu.
  repeat match goal with |- command_typed (if ?b then _ else _) => destruct b end; try exact Hg;
    destruct Hg as [T1 T2 T3 T4 T5 T6 T7 T8 T9 T10]; split; cbn [gG gM gS gP gN N_expected checksum_read
      checksum_calculated chpos filename update updater]; try assumption;
    first [apply u8_range|apply u16_range|apply i16_range|exact Hu].
Qed.

Lemma collect_string_typed c g g' :
  in_u8 c -> command_typed g -> collect_string c g = Some g' -> command_typed g'.
Proof.
  unfold collect_string, FILENAME_SIZE. intros Hc Hg.
  destruct (getting_string g); [|by intros [= <-]]. case_bool.
  { intros [= <-]. by destruct Hg. }
  case_bool; [|by intros [= <-]]. cbv zeta. case_bool; [|done]. intros [= <-].
  apply Z.ltb_lt in E0, E1. destruct Hg as [T1 T2 T3 T4 T5 T6 T7 T8 T9 [T10 T11]].
  split; try assumption; cbn [chpos filename update updater].
  - pose proof (u8_range (chpos g + 1)). unfold FILENAME_SIZE. lia.
  - rewrite !length_insert. split; [done|]. by repeat apply Forall_insert.
Qed.

Lemma scan_char_typed c p :
  rd_exponent p < 2 ^ 31 - 1 -> typed p ->
  typed (scan_char c p) /\ rd_exponent (scan_char c p) <= rd_exponent p + 1.
Proof.
  intros Hlt (Hg & Hl & He). unfold scan_char, scan_digit.
  repeat match goal with |- context [if ?b then _ else _] => destruct b end;
    split; try (cbn [rd_exponent update updater]; lia);
    (split; [|split; [exact Hl|cbn [rd_exponent update updater]; lia]]);
    cbn [next_target update updater]; try exact Hg;
    destruct Hg; split; try assumption; cbn; unfold in_u8, in_u16; lia.
Qed.

Lemma scan_or_skip_typed c p :
  in_u8 c -> typed p -> rd_exponent p < 2 ^ 31 - 1 ->
  typed (scan_or_skip c p) /\ rd_exponent (scan_or_skip c p) <= rd_exponent p + 1.
Proof.
  intros Hc Hp Hlt. unfold scan_or_skip. case_bool.
  - set (q := if is_upper c || (c =? chr "*") then p <| last_field := c |> else p).
    assert (rd_exponent q = rd_exponent p /\ typed q) as [Heq Hq].
    { unfold q. case_bool; [|done]. split; [done|]. by destruct Hp as (H1 & _ & H3). }
    rewrite <- Heq in Hlt |- *. by apply scan_char_typed.
  - case_bool; [|split; [done|lia]]. destruct Hp as (H1 & H2 & H3).
    split; [|cbn [rd_exponent update updater]; lia]. split; [by destruct H1|done].
Qed.

Lemma parse_char_typed p ch p' :
  typed p -> in_u8 ch -> rd_exponent p < 2 ^ 31 - 1 -> gcode_parse_char p ch = Some p' ->
  typed p' /\ rd_exponent p' <= rd_exponent p + 1.
Proof.
  intros Hp Hch Hlt. unfold gcode_parse_char. pose proof (upcase_typed ch Hch) as Hc. set (c := upcase ch) in *.
  assert (typed (end_field c p) /\ rd_exponent (end_field c p) <= rd_exponent p) as [(E1 & E2 & E3) E4].
  { unfold end_field. case_bool; [|split; [done|lia]]. destruct Hp as (H1 & H2 & H3). split; [|cbn; lia].
    split; [by apply store_field_typed|]. by split. }
  destruct (collect_string c (next_target (end_field c p))) as [g|] eqn:Eg; [|done]. intros [= <-].
  pose proof (collect_string_typed c _ g Hc E1 Eg) as Hg.
  destruct (scan_or_skip_typed c ((end_field c p) <| next_target := g |>) Hc) as [(S1 & S2 & S3) S4];
    [by split|cbn [rd_exponent update updater]; lia|].
  cbn [rd_exponent update updater] in S4. unfold add_checksum.
  set (q := scan_or_skip c _) in *. case_bool; [split; [done|lia]|]. split; [|cbn [rd_exponent update updater]; lia].
  split; [|done]. destruct S1. split; try assumption.
  cbn [next_target update updater checksum_calculated]. by apply in_u8_xor.
Qed.

Lemma parse_chars_typed cs : forall p p',
  typed p -> Forall in_u8 cs -> rd_exponent p + Z.of_nat (length cs) < 2 ^ 31 ->
  gcode_parse_chars p cs = Some p' -> typed p'.
Proof.
  induction cs as [|c cs IH]; intros p p' Hp Hcs Hlen E; cbn [gcode_parse_chars] in E; [by injection E as <-|].
  apply list.Forall_cons in Hcs as [Hc Hcs]. destruct (gcode_parse_char p c) as [q|] eqn:Eq; [|done].
  cbn [length] in Hlen. destruct (parse_char_typed p c q Hp Hc ltac:(lia) Eq) as [Hq1 Hq2].
  apply (IH q p'); [done|done|lia|done].
Qed.

Lemma reset_line_typed p : typed p -> typed (reset_line p) /\ rd_exponent (reset_line p) = 0.
Proof.
  intros (Hg & _ & _). split; [|done]. unfold reset_line. cbv zeta.
  split; [|by split; cbn]. destruct Hg. case_bool; split; try assumption; done.
Qed.

(** ** The command processor *)

Section lines.
Context {V : Type} `{FatFs V}.
Implicit Types m : machine V.

Lemma process_G_typed g t m g' m' : command_typed g -> process_G g t m = Some (g', m') -> command_typed g'.
Proof.
  unfold process_G, option_map. intros Hg E.
  repeat match type of E with
  | (if ?b then _ else _) = _ => destruct b
  | match ?x with _ => _ end = _ => destruct x as [?|]; [|done]
  end; injection E as <- _; by destruct Hg.
Qed.

Lemma process_M_typed g t m g' b m' : command_typed g -> process_M g t m = Some (g', b, m') -> command_typed g'.
Proof.
  unfold process_M, option_map. cbv zeta. intros Hg E.
  repeat match type of E with (if ?b then _ else _) = _ => destruct b end;
    try (match type of E with
         | match ?x with _ => _ end = _ => destruct x as [[? ?]|]; [|done]
         end); try (injection E as <- _ _; by destruct Hg).
  - injection E as <- _ _. destruct Hg. split; try assumption. apply u32_range.
  - destruct (setting_command g m) as [[b1 m1]|]; [|done]. cbn [mbind option_bind] in E. injection E as <- _ _.
    case_bool; [|done]. by destruct Hg.
Qed.

Lemma process_typed g m r g' m' :
  command_typed g -> process_gcode_command g m = Some (r, g', m') -> command_typed g'.
Proof.
  unfold process_gcode_command. cbv zeta. intros Hg E. destruct (seen_G g).
  - destruct (process_G _ _ _) as [[g1 m1]|] eqn:E1; [|done]. injection E as _ <- _. by apply process_G_typed in E1.
  - destruct (seen_M g); [|by injection E as _ <- _].
    destruct (process_M _ _ _) as [[[g1 b1] m1]|] eqn:E1; [|done]. injection E as _ <- _. by apply process_M_typed in E1.
Qed.

(** Lines in a row, as the main loop hands them over. *)
Fixpoint parse_lines (ls : list tLineBuffer) (p : parser) m : option (parser * machine V) :=
  match ls with
  | [] => Some (p, m)
  | l :: ls => '(_, p, _, m) ← gcode_parse_line p l m; parse_lines ls p m
  end.

Definition line_typed (l : tLineBuffer) : Prop := len l <= MAX_LINE /\ Forall in_u8 (data l).

Lemma parse_line_typed p l m r p' l' m' :
  typed p -> rd_exponent p = 0 -> line_typed l -> gcode_parse_line p l m = Some (r, p', l', m') ->
  typed p' /\ rd_exponent p' = 0.
Proof.
  intros Hp He [Hlen Hd]. unfold gcode_parse_line, MAX_LINE in *.
  destruct (gcode_parse_chars p _) as [q|] eqn:Eq; [|done].
  assert (typed q) as Hq.
  { apply (parse_chars_typed (take (Z.to_nat (len l)) (data l)) p q); [done|by apply Forall_take| |done].
    rewrite length_take. lia. }
  destruct (checksum_ok (next_target q)).
  - destruct (be_sd_writing m).
    + destruct (capture_line _ _ _) as [[l1 m1]|]; [|done]. intros [= _ <- _ _]. by apply reset_line_typed.
    + unfold execute_line. destruct (be_process _ _) as [[[r1 g1] m1]|] eqn:E1; [|done]. intros [= _ <- _ _].
      apply reset_line_typed. destruct Hq as (Hg & Hq). split; [|done].
      pose proof (process_typed _ _ _ _ _ Hg E1) as Hg1. cbn [next_target update updater].
      case_bool; [|done]. destruct Hg1. split; try assumption. apply u32_range.
  - intros [= _ <- _ _]. by apply reset_line_typed.
Qed.

End lines.

Lemma parser_zero_typed : typed parser_zero.
Proof. by repeat split; try (apply (bool_decide_unpack _); vm_compute). Qed.

(** A move with a line number and a checksum, and a file name. *)
Definition some_lines : list tLineBuffer :=
  [mk_line (bytes_of_string "N7 G1 X1.25 F300*40" ++ [10]) 20 false;
   mk_line (bytes_of_string "M110 S-3.75" ++ [10]) 12 false].


(** After a file name that fills its line the next line goes on with the file
    name; when it is as long, the end mark is written behind the array. *)
Lemma long_lines_overflow :
  gcode_parse_chars parser_zero (bytes_of_string "M28" ++ repeat (chr "A") 117) <> None /\
  forall p, gcode_parse_chars parser_zero (bytes_of_string "M28" ++ repeat (chr "A") 117) = Some p ->
    gcode_parse_chars (reset_line p) (repeat (chr "A") 120) = None.
Proof. split; [by vm_compute|]. intros p E. vm_compute in E. injection E as <-. by vm_compute. Qed.
