(* ===== verification/Homing.v ===== *)
(** * Homing and emergency stop (libraries/Mendel/src/gcode_process.c)

    Where the axes are after G28, and what M112 stops. The definitions are
    those of [GcodeProcess]. *)

From S2P Require Import Prelude CDouble SerialFifo SerMsg MotionTypes GcodeParse Hardware Temp.
From S2P Require Import Config Planner Stepper Motion SlowTimer Machine GcodeProcess.

Section homing.
Context {V : Type} `{FatFs V}.
Implicit Types m : machine V.

(** The planner's ring and position are well-formed. *)
Definition ring_ok m : Prop := planner_wf (plan (motion_state m)).

Lemma discard_wf p : planner_wf p -> planner_wf (plan_discard_current_block p).
Proof.
  intros Hwf. destruct (queue p) as [|b q] eqn:Eq.
  - apply queue_empty_iff in Eq; [|done]. unfold plan_discard_current_block.
    by rewrite Eq, Z.eqb_refl.
  - by apply (queue_pop p b q).
Qed.

Lemma interrupt_ring i m m' : interrupt i m = Some m' -> ring_ok m -> ring_ok m'.
Proof.
  unfold ring_ok. intros E Hr. destruct i as [sx sy sz| |analog]; unfold interrupt in E.
  - set (inp := mk_inputs sx sy sz _) in E.
    pose proof (stepCallback_plan inp (motion_state m)) as Hp.
    destruct (stepCallback inp (motion_state m)) as [mo es]. injection E as <-.
    unfold pins. cbn [motion_state update updater fst] in *.
    destruct Hp as [->| ->]; [done|by apply discard_wf].
  - by injection E as <-.
  - destruct (SysTick_Handler _ _ _) as [[s m1]|] eqn:E1; [|done]. injection E as <-.
    cbn [motion_state update updater].
    assert (plan (motion_state m1) = plan (motion_state m)) as ->; [|done].
    revert E1. apply (SysTick_rel (run_callback analog) _
      (PreOrder0 := preorder_same (fun m : machine V => plan (motion_state m)))).
    intros k p s0 m0. destruct k; unfold run_callback; [done| |].
    + by destruct (temp_tick analog (temps m0)).
    + unfold blinkTimerCallback. by destruct (c_true _).
Qed.

Lemma wait_until_ring cond m m' : wait_until cond m = Some m' -> ring_ok m -> ring_ok m'.
Proof.
  apply (wait_until_rel _ (PreOrder0 := preorder_keeps ring_ok)); [|done].
  intros i m1 m2. apply interrupt_ring.
Qed.

(** Buffering a move leaves the start point or makes it the target. *)
Lemma buffer_start ty t m m' :
  (ty = AT_MOVE \/ ty = AT_MOVE_ENDSTOP) ->
  buffer_action (mk_request ty t) m = Some m' -> ring_ok m ->
  ring_ok m' /\ (start m' = start m \/ start m' = t).
Proof.
  intros Hty E Hr. unfold buffer_action in E.
  destruct (wait_until queue_has_room m) as [m1|] eqn:E1; [|discriminate].
  cbn [mbind option_bind] in E.
  pose proof (wait_until_ring _ _ _ E1 Hr) as Hr1.
  pose proof (wait_until_host _ _ _ E1) as [_ _ _ _ _ _ Hst _].
  assert (plan_buffer_action (config m1) (mk_request ty t) [] (motion_state m1)
    = plan_buffer_line (config m1) (mk_request ty t) [] (motion_state m1)) as Eb
    by (destruct Hty as [->| ->]; reflexivity).
  rewrite Eb in E.
  destruct (plan_buffer_line _ _ _ _) as [[mo es]|] eqn:E2; [|discriminate].
  cbn [mbind option_bind] in E. injection E as <-.
  apply buffer_line_direct in E2 as (Hf & p & queued & Hp & Hmo).
  assert (plan_queue_full (plan (motion_state m1)) = 0) as Hfull.
  { unfold ring_full, c_true in Hf.
    by destruct (Z.eqb_spec (plan_queue_full (plan (motion_state m1))) 0). }
  destruct (plan_line_spec (config m1) (mk_request ty t) (plan (motion_state m1)) Hr1 Hfull)
    as (p1 & q1 & Ep & W & _ & _ & Hspec).
  rewrite Hp in Ep. injection Ep as <- <-.
  assert (plan mo = p) as Hmp.
  { destruct queued; [|by injection Hmo as -> _]. unfold st_wake_up in Hmo. by injection Hmo as -> _. }
  assert (startpoint p = start m \/ startpoint p = t) as Hs.
  { rewrite <- Hst. unfold start.
    destruct (move_count _ _ _ =? 0); destruct Hspec as (_ & _ & _ & Hs); auto. }
  unfold ring_ok, start, pins. cbn [motion_state update updater]. rewrite Hmp.
  split; [exact W|exact Hs].
Qed.

(** ** One axis *)

Lemma special_xy_start x y f m m' :
  SpecialMoveXY x y f m = Some m' -> ring_ok m ->
  ring_ok m' /\ config m' = config m /\ tz (start m') = tz (start m) /\ te (start m') = te (start m) /\
  (x = tx (start m) -> tx (start m') = tx (start m)) /\
  (y = ty (start m) -> ty (start m') = ty (start m)).
Proof.
  intros E Hr. pose proof (special_xy_respects _ _ _ _ _ E) as [Hc _ _ _ _ _].
  destruct (buffer_start AT_MOVE_ENDSTOP _ m m' (or_intror eq_refl) E Hr) as [Hr' [Hs|Hs]];
    rewrite Hs; auto 10.
Qed.

Lemma special_z_start z f m m' :
  SpecialMoveZ z f m = Some m' -> ring_ok m ->
  ring_ok m' /\ config m' = config m /\ tx (start m') = tx (start m) /\
  ty (start m') = ty (start m) /\ te (start m') = te (start m).
Proof.
  intros E Hr. pose proof (special_z_respects _ _ _ _ E) as [Hc _ _ _ _ _].
  destruct (buffer_start AT_MOVE_ENDSTOP _ m m' (or_intror eq_refl) E Hr) as [Hr' [Hs|Hs]];
    rewrite Hs; auto 10.
Qed.

Lemma synch_start m m' :
  synch_queue m = Some m' -> ring_ok m ->
  ring_ok m' /\ config m' = config m /\ start m' = start m /\ queue_is_empty m' = true.
Proof.
  intros E Hr. pose proof (wait_until_host _ _ _ E) as [Hc _ _ _ _ _ Hs _].
  split; [by eapply wait_until_ring|]. split; [done|]. split; [done|].
  by eapply synch_queue_empty.
Qed.

Lemma set_position_ring t m : ring_ok m -> ring_ok (set_position t m).
Proof.
  intros (H1 & H2 & H3 & H4 & H5). unfold ring_ok, set_position, plan_set_current_position.
  destruct (target_steps_range (config m) t) as [L R].
  split; [exact H1|]. split; [exact H2|]. split; [exact H3|]. split; [exact L|exact R].
Qed.

Lemma set_position_spec t m :
  start (set_position t m) = t /\ coherent (set_position t m) /\
  queue_is_empty (set_position t m) = queue_is_empty m /\ config (set_position t m) = config m.
Proof. split; [done|]. split; [by intros a|]. by split. Qed.

(** What homing one of X, Y and Z establishes; [cx], [cy], [cz] say which
    coordinate is the new one. *)
Definition homed (m m' : machine V) (p : tTarget) : Prop :=
  ring_ok m' /\ config m' = config m /\ coherent m' /\ queue_is_empty m' = true /\
  tx (start m') = tx p /\ ty (start m') = ty p /\ tz (start m') = tz p /\ te (start m') = te p.

Lemma homed_intro t m m1 p :
  ring_ok m1 -> config m1 = config m -> queue_is_empty m1 = true ->
  tx t = tx p -> ty t = ty p -> tz t = tz p -> te t = te p ->
  homed m (set_position t m1) p.
Proof.
  intros Hr Hc Hq Hx Hy Hz He. destruct (set_position_spec t m1) as (Hs & Hco & Hqe & Hcf).
  unfold homed. rewrite Hs, Hqe, Hcf. split; [by apply set_position_ring|]. auto 10.
Qed.

(** The steps of a homing sequence, one lemma call each. *)
Tactic Notation "bind_step" hyp(E) ident(m) ident(Em) :=
  match type of E with
  | (?r ≫= _) = Some _ =>
      destruct r as [m|] eqn:Em; [|discriminate E];
      cbn [mbind option_bind] in E
  end.

Lemma zero_x_homed m m' :
  zero_x m = Some m' -> ring_ok m ->
  homed m m' ((start m) <| tx := d_of_Z (home_pos_x (config m)) |>).
Proof.
  unfold zero_x. cbv zeta. intros E Hr.
  bind_step E m1 Em. apply special_xy_start in Em as (R1 & C1 & Z1 & E1 & _ & Y1); [|done].
  bind_step E m2 Em. apply synch_start in Em as (R2 & C2 & S2 & _); [|done].
  bind_step E m3 Em. apply special_xy_start in Em as (R3 & C3 & Z3 & E3 & _ & Y3); [|done].
  bind_step E m4 Em. apply special_xy_start in Em as (R4 & C4 & Z4 & E4 & _ & Y4); [|done].
  bind_step E m5 Em. apply synch_start in Em as (R5 & C5 & S5 & Q5); [|done].
  injection E as <-.
  specialize (Y1 eq_refl). specialize (Y3 eq_refl). specialize (Y4 eq_refl).
  apply homed_intro; cbn [tx ty tz te update updater]; [done|by rewrite C5, C4, C3, C2, C1|done|..].
  - reflexivity.
  - by rewrite S5, Y4, Y3, S2, Y1.
  - by rewrite S5, Z4, Z3, S2, Z1.
  - by rewrite S5, E4, E3, S2, E1.
Qed.

Lemma zero_y_homed m m' :
  zero_y m = Some m' -> ring_ok m ->
  homed m m' ((start m) <| ty := d_of_Z (home_pos_y (config m)) |>).
Proof.
  unfold zero_y. cbv zeta. intros E Hr.
  bind_step E m1 Em. apply special_xy_start in Em as (R1 & C1 & Z1 & E1 & X1 & _); [|done].
  bind_step E m2 Em. apply synch_start in Em as (R2 & C2 & S2 & _); [|done].
  bind_step E m3 Em. apply special_xy_start in Em as (R3 & C3 & Z3 & E3 & X3 & _); [|done].
  bind_step E m4 Em. apply special_xy_start in Em as (R4 & C4 & Z4 & E4 & X4 & _); [|done].
  bind_step E m5 Em. apply synch_start in Em as (R5 & C5 & S5 & Q5); [|done].
  injection E as <-.
  specialize (X1 eq_refl). specialize (X3 eq_refl). specialize (X4 eq_refl).
  apply homed_intro; cbn [tx ty tz te update updater]; [done|by rewrite C5, C4, C3, C2, C1|done|..].
  - by rewrite S5, X4, X3, S2, X1.
  - reflexivity.
  - by rewrite S5, Z4, Z3, S2, Z1.
  - by rewrite S5, E4, E3, S2, E1.
Qed.

Lemma zero_z_homed m m' :
  zero_z m = Some m' -> ring_ok m ->
  homed m m' ((start m) <| tz := d_of_Z (home_pos_z (config m)) |>).
Proof.
  unfold zero_z. cbv zeta. intros E Hr.
  bind_step E m1 Em. apply special_z_start in Em as (R1 & C1 & X1 & Y1 & E1); [|done].
  bind_step E m2 Em. apply synch_start in Em as (R2 & C2 & S2 & _); [|done].
  bind_step E m3 Em. apply special_z_start in Em as (R3 & C3 & X3 & Y3 & E3); [|done].
  bind_step E m4 Em. apply synch_start in Em as (R4 & C4 & S4 & _); [|done].
  bind_step E m5 Em. apply special_z_start in Em as (R5 & C5 & X5 & Y5 & E5); [|done].
  bind_step E m6 Em. apply synch_start in Em as (R6 & C6 & S6 & Q6); [|done].
  injection E as <-.
  apply homed_intro; cbn [tx ty tz te update updater]; [done|by rewrite C6, C5, C4, C3, C2, C1|done|..].
  - by rewrite S6, X5, S4, X3, S2, X1.
  - by rewrite S6, Y5, S4, Y3, S2, Y1.
  - reflexivity.
  - by rewrite S6, E5, S4, E3, S2, E1.
Qed.

(** ** G28 *)

(** An axis is homed when the line names it, or names none. *)
Definition homes (seen : bool) (g : GCODE_COMMAND) : bool := seen || negb (any_axis g).

(** The state that homing some of the axes leads to: the reference position on
    the homed axes, the old one on the others. *)
Definition at_reference (x y z e : bool) (m m' : machine V) : Prop :=
  ring_ok m' /\ config m' = config m /\
  tx (start m') = (if x then d_of_Z (home_pos_x (config m)) else tx (start m)) /\
  ty (start m') = (if y then d_of_Z (home_pos_y (config m)) else ty (start m)) /\
  tz (start m') = (if z then d_of_Z (home_pos_z (config m)) else tz (start m)) /\
  te (start m') = (if e then d0 else te (start m)) /\
  (x || y || z || e = true -> coherent m') /\
  (x || y || z = true -> queue_is_empty m' = true).

Lemma zero_e_reference x y z m m1 :
  at_reference x y z false m m1 -> at_reference x y z true m (zero_e m1).
Proof.
  intros (R & C & X & Y & Z & E & _ & Q).
  destruct (set_position_spec ((start m1) <| te := d0 |>) m1) as (Hs & Hc & Hq & Hcf).
  unfold zero_e. split; [by apply set_position_ring|]. rewrite Hs, Hcf, Hq.
  split; [exact C|]. split; [exact X|]. split; [exact Y|]. split; [exact Z|].
  split; [reflexivity|]. split; [intros _; exact Hc|exact Q].
Qed.

Ltac reference :=
  unfold at_reference; repeat (split; [first [assumption|reflexivity|by intros _|intros; discriminate]|]);
  first [assumption|by intros _|intros; discriminate].

Lemma axis_x b m m1 :
  ring_ok m -> when b zero_x m = Some m1 -> at_reference b false false false m m1.
Proof.
  intros Hr. destruct b; cbn [when].
  - intros E. apply zero_x_homed in E as (R & C & Co & Q & X & Y & Z & E'); [|done].
    unfold at_reference. rewrite X, Y, Z, E'. reference.
  - intros E. injection E as <-. reference.
Qed.

Lemma axis_y x b m m1 m2 :
  at_reference x false false false m m1 -> when b zero_y m1 = Some m2 ->
  at_reference x b false false m m2.
Proof.
  intros (R1 & C1 & X1 & Y1 & Z1 & E1 & Co1 & Q1). destruct b; cbn [when].
  - intros E. apply zero_y_homed in E as (R & C & Co & Q & X & Y & Z & E'); [|done].
    unfold at_reference. rewrite X, Y, Z, E', C, C1. cbn [tx ty tz te update updater].
    rewrite X1, Z1, E1. reference.
  - intros E. injection E as <-. reference.
Qed.

Lemma axis_z x y b m m1 m2 :
  at_reference x y false false m m1 -> when b zero_z m1 = Some m2 ->
  at_reference x y b false m m2.
Proof.
  intros (R1 & C1 & X1 & Y1 & Z1 & E1 & Co1 & Q1). destruct b; cbn [when].
  - intros E. apply zero_z_homed in E as (R & C & Co & Q & X & Y & Z & E'); [|done].
    unfold at_reference. rewrite X, Y, Z, E', C, C1. cbn [tx ty tz te update updater].
    rewrite X1, Y1, E1. reference.
  - intros E. injection E as <-. reference.
Qed.

Lemma go_home_reference g m m' :
  ring_ok m -> go_home g m = Some m' ->
  at_reference (homes (seen_X g) g) (homes (seen_Y g) g) (homes (seen_Z g) g)
    (homes (seen_E g) g) m m'.
Proof.
  intros Hr. unfold go_home. intros E.
  bind_step E m1 Em. apply axis_x in Em as A1; [|done].
  bind_step E m2 Em0. apply (axis_y _ _ _ _ _ A1) in Em0 as A2.
  bind_step E m3 Em1. apply (axis_z _ _ _ _ _ _ A2) in Em1 as A3.
  bind_step E m4 Em2. unfold homes. destruct (any_axis g) eqn:Ea; cbn [negb]; rewrite ?orb_false_r, ?orb_true_r.
  - injection E as <-. destruct (seen_E g); cbn [when] in Em2; injection Em2 as <-.
    + by apply zero_e_reference.
    + exact A3.
  - unfold any_axis in Ea. apply orb_false_iff in Ea as [Ea Ee]. apply orb_false_iff in Ea as [Ea Ez].
    apply orb_false_iff in Ea as [Ex Ey]. rewrite Ex, Ey, Ez in A3. rewrite Ee in Em2.
    cbn [when] in Em2. injection Em2 as <-.
    destruct A3 as (R3 & C3 & X3 & Y3 & Z3 & E3 & _).
    bind_step E n1 Em3.
    assert (ring_ok n1 /\ config n1 = config m /\ tx (start n1) = tx (start m) /\
            ty (start n1) = ty (start m) /\ te (start n1) = te (start m)) as (R4 & C4 & X4 & Y4 & E4).
    { pose proof (enqueue_respects _ _ _ Em3) as [Hc _ _ _ _ _]. unfold enqueue_moved in Em3.
      destruct (_ || _ || _ || _).
      - destruct (buffer_start AT_MOVE _ m3 n1 (or_introl eq_refl) Em3 R3) as [R [Hs|Hs]];
          (split; [exact R|]); rewrite Hs; (split; [by rewrite Hc|]).
        + by split_and!.
        + destruct (enable_extruder_1 (config m3) =? 0);
            cbn [tx ty te update updater]; by split_and!.
      - injection Em3 as <-. split; [exact R3|]. split; [exact C3|]. by split_and!. }
    bind_step E n2 Em4. apply zero_x_homed in Em4 as (R5 & C5 & _ & _ & X5 & Y5 & Z5 & E5); [|done].
    bind_step E n3 Em5. apply zero_y_homed in Em5 as (R6 & C6 & _ & _ & X6 & Y6 & Z6 & E6); [|done].
    bind_step E n4 Em6. apply zero_z_homed in Em6 as (R7 & C7 & Co7 & Q7 & X7 & Y7 & Z7 & E7); [|done].
    injection E as <-. apply zero_e_reference. unfold at_reference.
    cbn [tx ty tz te update updater] in *.
    split; [exact R7|]. split; [by rewrite C7, C6, C5|]. rewrite X7, Y7, Z7, E7, X6, Y6, E6, X5, E5.
    rewrite C6, C5, C4. split_and!; done.
Qed.
End homing.



(** The motors go on as before: the block in progress, the queue, the effect of
    the next step interrupts, and the account of the steps are the same. *)
Definition keeps_moving {V : Type} (m m' : machine V) : Prop :=
  motion_state m' = motion_state m /\
  (forall sx sy sz, option_map motion_state (interrupt (IRQ_step sx sy sz) m')
                    = option_map motion_state (interrupt (IRQ_step sx sy sz) m)) /\
  forall w0, aligned w0 m -> aligned w0 m'.


