(* ===== verification/Mendel.v ===== *)
(** * The main program (libraries/Mendel/src/mendel.c) and the start-up file
      (libraries/Mendel/src/config.c)

    The main loop collects a line from the ring of received characters, takes
    a line from the SD card when it is printing, and gives a complete line to
    the parser while the planner has room. The host is a list of packets, one
    of which may arrive before each look at the ring; a packet for which the
    ring has no room stays with the host, as the endpoint is not read. *)

From S2P Require Import Prelude CDouble SerialFifo SerMsg MotionTypes GcodeParse Hardware Temp.
From S2P Require Import Config Planner Stepper Motion SlowTimer Machine GcodeProcess.

(** ** State *)

Record firmware (V : Type) := mk_firmware {
  line_parser : parser;
  serial_line_buf : tLineBuffer;
  sd_line_buf : tLineBuffer;
  timer1 : Z;
  rxfifo : irq_fifo;
  host : list (list Z);
  mach : machine V
}.
Arguments mk_firmware {V}.
Arguments line_parser {V}.
Arguments serial_line_buf {V}.
Arguments sd_line_buf {V}.
Arguments timer1 {V}.
Arguments rxfifo {V}.
Arguments host {V}.
Arguments mach {V}.

#[export] Instance eta_firmware {V} : Eta (firmware V) := fun f =>
  mk_firmware (line_parser f) (serial_line_buf f) (sd_line_buf f) (timer1 f) (rxfifo f) (host f)
    (mach f).

(** A static line buffer. *)
Definition line_zero : tLineBuffer := mk_line (replicate 120 0) 0 false.

(** Where a line that was executed came from. *)
Inductive source := FromSerial | FromCard.

(** The characters of a line. *)
Definition line_text (l : tLineBuffer) : list Z := take (Z.to_nat (len l)) (data l).

Section mendel.
Context {V : Type} `{FatFs V}.
Implicit Types f : firmware V.

(** ** Start-up *)

(** [adc_init] configures the two analogue pins and the converter, by vendor
    calls that have no effect on the modelled state. *)
Definition io_init : list hw_event :=
  pin_mode EXTRUDER_0_HEATER_PORT EXTRUDER_0_HEATER_PIN 1 ++ extruder_heater_off ++
  pin_mode HEATED_BED_0_HEATER_PORT HEATED_BED_0_HEATER_PIN 1 ++ heated_bed_off ++
  pin_mode STEPPERS_RESET_PORT STEPPERS_RESET_PIN 1 ++
  digital_write STEPPERS_RESET_PORT STEPPERS_RESET_PIN 1 ++
  pin_mode X_STEP_PORT X_STEP_PIN 1 ++ pin_mode X_DIR_PORT X_DIR_PIN 1 ++
  pin_mode X_ENABLE_PORT X_ENABLE_PIN 1 ++ x_enable ++ pin_mode X_MIN_PORT X_MIN_PIN 0 ++
  pin_mode Y_STEP_PORT Y_STEP_PIN 1 ++ pin_mode Y_DIR_PORT Y_DIR_PIN 1 ++
  pin_mode Y_ENABLE_PORT Y_ENABLE_PIN 1 ++ y_enable ++ pin_mode Y_MIN_PORT Y_MIN_PIN 0 ++
  pin_mode Z_STEP_PORT Z_STEP_PIN 1 ++ pin_mode Z_DIR_PORT Z_DIR_PIN 1 ++
  pin_mode Z_ENABLE_PORT Z_ENABLE_PIN 1 ++ z_enable ++ pin_mode Z_MIN_PORT Z_MIN_PIN 0 ++
  pin_mode E_STEP_PORT E_STEP_PIN 1 ++ pin_mode E_DIR_PORT E_DIR_PIN 1 ++
  pin_mode E_ENABLE_PORT E_ENABLE_PIN 1 ++ e_enable ++
  pin_mode EXTRUDER_0_FAN_PORT EXTRUDER_0_FAN_PIN 1.

Definition with_mach (g : machine V -> machine V) f : firmware V := f <| mach ::= g |>.

Definition parse_init f : firmware V :=
  f <| line_parser ::= fun p => p <| next_target ::= gcode_parse_init (config (mach f)) |> |>.

(** [init]; [AutoReload] is set after the start of the timer, and read when its
    first period ends. *)
Definition init f : firmware V :=
  let f := parse_init (with_mach (pins io_init) f) in
  with_mach (fun m =>
    let s := StartSlowTimer temperatureTimer 10 CB_temperature
               (AddSlowTimer temperatureTimer (timers m)) in
    let t := timer_at s temperatureTimer in
    let s := set_timer temperatureTimer
      (mk_timer (pNext t) (timerCallback t) (Current t) (Reload t) (Running t) (Expired t) true) s in
    message ("Start" ++ Prelude.crlf ++ "OK" ++ Prelude.crlf) (m <| timers := s |>)) f.

(** The loop over autoexec.g. Its line buffer is a local variable: no
    character is read before it is stored. Every round consumes a byte. *)
Fixpoint autoexec_lines (fuel : nat) (file : list Z) (l : tLineBuffer) (p : parser) (m : machine V)
  : option (parser * machine V) :=
  match fuel with
  | O => None
  | S fuel =>
      match f_gets MAX_LINE file with
      | None => Some (p, m)
      | Some (s, file) =>
          let l := mk_line (s ++ 0 :: drop (S (length s)) (data l))
                     (Z.of_nat (length (c_string s))) (seen_lf l) in
          '(_, p, l, m) ← gcode_parse_line p l m;
          autoexec_lines fuel file l p m
      end
  end.

(** [read_config], given the contents of the two files, if they exist. *)
Definition read_config (config_txt autoexec : option (list Z)) f : option (firmware V) :=
  '(c, out) ← read_config_txt config_txt (config (mach f));
  let f := with_mach (fun m => send out (m <| config := c |>)) f in
  '(p, m) ← match autoexec with
            | None => Some (line_parser f, mach f)
            | Some file => autoexec_lines (S (length file)) file line_zero (line_parser f) (mach f)
            end;
  Some (parse_init (f <| line_parser := p |> <| mach := m |>)).

(** [app_main] up to its loop. *)
Definition start_up (config_txt autoexec : option (list Z)) f : option (firmware V) :=
  let m := mach f in
  let m := play 1500 100 (m <| timers ::= buzzer_init buzzerTimer |>) in
  m ← buzzer_wait m;
  let f := init (f <| mach := play 2500 200 m |>) in
  f ← read_config config_txt autoexec f;
  let m := mach f in
  '(mo, e1) ← plan_init [] (motion_state m);
  let '(mo, e2) := st_init mo in
  Some (f <| mach := pins (e1 ++ e2) (m <| motion_state := mo |>) |> <| timer1 := 0 |>).

(** ** The main loop *)

(** The next packet of the host reaches the bulk-out endpoint. *)
Definition arrive f : firmware V :=
  match host f with
  | [] => f
  | p :: rest =>
      match BulkOut (fun n => take (Z.to_nat n) p) (rxfifo f) with
      | (NoRoom, q) => f <| rxfifo := q |>
      | (_, q) => f <| rxfifo := q |> <| host := rest |>
      end
  end.

(** The body of the first loop, for a character taken from the ring. *)
Definition store_char (c : Z) (l : tLineBuffer) : tLineBuffer :=
  let l := if len l <? MAX_LINE
           then l <| data ::= <[Z.to_nat (len l) := c]> |> <| len := len l + 1 |> else l in
  if (c =? 10) || (c =? 13) then
    if 1 <? len l then l <| seen_lf := true |> else l <| len := 0 |>
  else l.

(** [while (!serial_line_buf.seen_lf && (serial_rxchars() != 0))] *)
Fixpoint collect (fuel : nat) f : option (firmware V) :=
  match fuel with
  | O => None
  | S fuel =>
      if seen_lf (serial_line_buf f) then Some f
      else
        let f := arrive f in
        let '(n, q) := fifo_avail (rxfifo f) in
        let f := f <| rxfifo := q |> in
        if n =? 0 then Some f
        else
          let '(c, q) := serial_popchar (Q := irq_fifo) (rxfifo f) in
          collect fuel (f <| rxfifo := q |> <| serial_line_buf ::= store_char c |>)
  end.

(** Every round takes a byte out of the ring or the last packet. *)
Definition bytes_coming f : nat :=
  (length (fifo_contents (SerialFifo.ring (rxfifo f))) + length (concat (host f)))%nat.

(** A line of the card, if it is printing and the last one is done. *)
Definition fetch_sd_line f : firmware V :=
  if negb (seen_lf (sd_line_buf f)) && sd_printing (sd (mach f)) then
    let '(ok, l, m) := sd_read_file (sd_line_buf f) (mach f) in
    if ok : bool then f <| sd_line_buf := l <| seen_lf := true |> |> <| mach := m |>
    else f <| mach := message ("Done printing file" ++ Prelude.crlf)
                        (with_sd (fun s => s <| sd_printing := false |>) m) |>
  else f.

(** A complete line, the user's first. *)
Definition run_line f : option (option (source * list Z) * firmware V) :=
  if c_true (plan_queue_full (plan (motion_state (mach f)))) then Some (None, f)
  else if seen_lf (serial_line_buf f) then
    '(_, p, l, m) ← gcode_parse_line (line_parser f) (serial_line_buf f) (mach f);
    Some (Some (FromSerial, line_text (serial_line_buf f)),
          f <| line_parser := p |> <| mach := m |>
            <| serial_line_buf := l <| len := 0 |> <| seen_lf := false |> |>)
  else if seen_lf (sd_line_buf f) then
    '(_, p, l, m) ← gcode_parse_line (line_parser f) (sd_line_buf f) (mach f);
    Some (Some (FromCard, line_text (sd_line_buf f)),
          f <| line_parser := p |> <| mach := m |>
            <| sd_line_buf := l <| len := 0 |> <| seen_lf := false |> |>)
  else Some (None, f).

Definition DELAY1 : Z := 100.

(** The part that runs every 100 ms; [power_off] is empty. *)
Definition count_idle f : firmware V :=
  let now := millis (timers (mach f)) in
  if timer1 f <? now then
    let f := f <| timer1 := i32 (now + DELAY1) |> in
    with_mach (fun m =>
      let s := st (motion_state m) in
      if Z.quot (30 * 1000) DELAY1 <? steptimeout s then m
      else m <| motion_state := mk_motion (plan (motion_state m))
                                  (s <| steptimeout := u16 (steptimeout s + 1) |>) |>) f
  else f.

(** The interrupts of one round: the next list of the schedule. *)
Definition take_interrupts (m : machine V) : option (machine V) := wait_until (fun _ => true) m.

(** One round of [for (;;)] of [app_main]; the result is the line executed. *)
Definition main_loop f : option (option (source * list Z) * firmware V) :=
  f ← collect (S (bytes_coming f)) f;
  '(e, f) ← run_line (fetch_sd_line f);
  let f := count_idle f in
  m ← take_interrupts (mach f);
  Some (e, f <| mach := m |>).

Fixpoint main_loops (n : nat) f : option (list (source * list Z) * firmware V) :=
  match n with
  | O => Some ([], f)
  | S n =>
      '(e, f) ← main_loop f;
      '(es, f) ← main_loops n f;
      Some (match e with Some x => x :: es | None => es end, f)
  end.

(** The whole program for [n] rounds. *)
Definition app_main (config_txt autoexec : option (list Z)) (n : nat) f
  : option (list (source * list Z) * firmware V) :=
  f ← start_up config_txt autoexec f; main_loops n f.
End mendel.

(** ** The lines the host has typed

    The reference: the stream is cut after each line end; a line without a
    text is dropped, and a line keeps 120 characters. *)

Definition eol (c : Z) : bool := (c =? 10) || (c =? 13).

Fixpoint split_eol (cur bs : list Z) : list (list Z) :=
  match bs with
  | [] => []
  | c :: bs => if eol c then (cur ++ [c]) :: split_eol [] bs else split_eol (cur ++ [c]) bs
  end.

Definition has_text (l : list Z) : bool := (1 <? length l)%nat.
Definition typed (cur bs : list Z) : list (list Z) :=
  map (take 120) (List.filter has_text (split_eol cur bs)).
Definition typed_lines (bs : list Z) : list (list Z) := typed [] bs.

Definition no_eol (bs : list Z) : Prop := Forall (fun c => eol c = false) bs.

Lemma split_eol_app acc cur bs :
  no_eol cur -> split_eol acc (cur ++ bs) = split_eol (acc ++ cur) bs.
Proof.
  intros Hn. revert acc. induction Hn as [|c cur Hc _ IH]; intros acc; cbn [app split_eol].
  - by rewrite app_nil_r.
  - rewrite Hc, IH. by rewrite <- app_assoc.
Qed.

Lemma typed_lines_app cur bs : no_eol cur -> typed_lines (cur ++ bs) = typed cur bs.
Proof. intros Hn. unfold typed_lines, typed. by rewrite split_eol_app. Qed.

(** Only the first 120 characters of a line begun matter. *)
Lemma typed_trunc bs : forall c1 c2, take 120 c1 = take 120 c2 -> typed c1 bs = typed c2 bs.
Proof.
  induction bs as [|c bs IH]; intros c1 c2 E; [done|].
  assert (take 120 (c1 ++ [c]) = take 120 (c2 ++ [c])) as E1.
  { rewrite !take_app, E. f_equal.
    assert (length (take 120 c1) = length (take 120 c2)) as L by (by rewrite E).
    rewrite !length_take in L. f_equal. lia. }
  unfold typed. cbn [split_eol]. destruct (eol c); [|by apply IH].
  cbn [List.filter].
  assert (has_text (c1 ++ [c]) = has_text (c2 ++ [c])) as ->.
  { assert (length (take 120 (c1 ++ [c])) = length (take 120 (c2 ++ [c]))) as L by (by rewrite E1).
    rewrite !length_take in L. unfold has_text.
    destruct (Nat.ltb_spec 1 (length (c1 ++ [c]))), (Nat.ltb_spec 1 (length (c2 ++ [c])));
      try done; lia. }
  destruct (has_text _); cbn [map]; by rewrite ?E1.
Qed.

Lemma typed_cons cur c bs :
  typed cur (c :: bs) =
  if eol c then (if has_text (cur ++ [c]) then [take 120 (cur ++ [c])] else []) ++ typed_lines bs
  else typed (cur ++ [c]) bs.
Proof.
  unfold typed_lines, typed. cbn [split_eol]. destruct (eol c); [|done].
  cbn [List.filter]. by destruct (has_text _).
Qed.

Lemma typed_app bs : forall cur bs', exists ls, typed cur (bs ++ bs') = typed cur bs ++ ls.
Proof.
  induction bs as [|c bs IH]; intros cur bs'; [by eexists|].
  cbn [app]. rewrite !typed_cons. destruct (eol c); [|apply IH].
  destruct (IH [] bs') as [ls E]. exists ls. unfold typed_lines. by rewrite E, app_assoc.
Qed.

(** ** The line buffer *)

Record line_ok (l : tLineBuffer) : Prop := {
  ok_size : length (data l) = 120%nat;
  ok_len : 0 <= len l <= 120;
  ok_open : seen_lf l = false -> no_eol (line_text l)
}.

Lemma line_text_length l : line_ok l -> length (line_text l) = Z.to_nat (len l).
Proof. intros [Hs Hl _]. unfold line_text. rewrite length_take. lia. Qed.

Lemma line_zero_ok : line_ok line_zero.
Proof. split; [done|cbn; lia|constructor]. Qed.

Lemma emptied_ok l : length (data l) = 120%nat -> line_ok (l <| len := 0 |> <| seen_lf := false |>).
Proof. intros Hs. split; [done|cbn; lia|]. intros _. constructor. Qed.

(** The room test and the store keep the first 120 characters. *)
Lemma store_text c l :
  line_ok l ->
  let l1 := if len l <? MAX_LINE
            then l <| data ::= <[Z.to_nat (len l) := c]> |> <| len := len l + 1 |> else l in
  length (data l1) = 120%nat /\ 0 <= len l1 <= 120 /\ seen_lf l1 = seen_lf l /\
  line_text l1 = take 120 (line_text l ++ [c]).
Proof.
  intros [Hs Hl _] l1. subst l1. unfold MAX_LINE, line_text.
  destruct (Z.ltb_spec (len l) 120) as [Hlt|Hge]; cbn [data len seen_lf update updater].
  - rewrite length_insert. split; [done|]. split; [lia|]. split; [done|].
    replace (Z.to_nat (len l + 1)) with (S (Z.to_nat (len l))) by lia.
    rewrite (take_S_r _ _ c) by (apply list_lookup_insert_eq; lia).
    rewrite take_insert_ge by lia. symmetry. apply take_ge.
    rewrite length_app, length_take. cbn. lia.
  - split; [done|]. split; [lia|]. split; [done|].
    assert (len l = 120) as -> by lia. change (Z.to_nat 120) with 120%nat.
    rewrite take_app_le by (rewrite length_take; lia). by rewrite take_take.
Qed.

Lemma no_eol_take n bs : no_eol bs -> no_eol (take n bs).
Proof. apply Forall_take. Qed.

Lemma store_char_spec c l :
  line_ok l -> seen_lf l = false ->
  line_ok (store_char c l) /\
  if eol c then
    if has_text (line_text l ++ [c])
    then seen_lf (store_char c l) = true /\ line_text (store_char c l) = take 120 (line_text l ++ [c])
    else seen_lf (store_char c l) = false /\ line_text (store_char c l) = []
  else seen_lf (store_char c l) = false /\ line_text (store_char c l) = take 120 (line_text l ++ [c]).
Proof.
  intros Hok Hf. pose proof (store_text c l Hok) as H. unfold store_char.
  set (l1 := if len l <? MAX_LINE then _ else _) in *. cbv zeta in H.
  destruct H as (Hs & Hl & Hseen & Ht). fold (eol c).
  destruct (eol c) eqn:Ec.
  - assert (has_text (line_text l ++ [c]) = (1 <? len l1)) as ->.
    { assert (length (line_text l1) = Z.to_nat (len l1)) as L
        by (unfold line_text; rewrite length_take; lia).
      rewrite Ht, length_take in L. unfold has_text.
      destruct (Nat.ltb_spec 1 (length (line_text l ++ [c]))), (Z.ltb_spec 1 (len l1));
        try done; lia. }
    destruct (1 <? len l1).
    + split; [|by split]. split; [done|done|done].
    + split; [|by rewrite <- Hseen in Hf].
      split; [done|cbn; lia|constructor].
  - split; [|by rewrite Hseen]. split; [done|done|]. intros _. rewrite Ht.
    apply no_eol_take, Forall_app. split; [by apply (ok_open l)|]. by repeat constructor.
Qed.

(** ** Collecting a line *)

Section loop.
Context {V : Type} `{FatFs V}.
Implicit Types f : firmware V.

Definition in_ring f : list Z := fifo_contents (SerialFifo.ring (rxfifo f)).

(** The lines that are complete, in the buffer, the ring, or still with the
    host. *)
Definition waiting f : list (list Z) :=
  if seen_lf (serial_line_buf f)
  then line_text (serial_line_buf f) :: typed_lines (in_ring f ++ concat (host f))
  else typed_lines (line_text (serial_line_buf f) ++ in_ring f ++ concat (host f)).

(** A complete line has reached the device. *)
Definition line_received f : bool :=
  seen_lf (serial_line_buf f) ||
  negb (bool_decide (typed_lines (line_text (serial_line_buf f) ++ in_ring f) = [])).

Record loop_ok f : Prop := {
  ok_line : line_ok (serial_line_buf f);
  ok_ring : fifo_wf (SerialFifo.ring (rxfifo f));
  ok_host : Forall (fun p => (length p <= 64)%nat) (host f)
}.

(** What the collection of a line leaves alone. *)
Definition same_rest f f' : Prop :=
  mach f' = mach f /\ line_parser f' = line_parser f /\ sd_line_buf f' = sd_line_buf f /\
  timer1 f' = timer1 f.

Lemma same_rest_trans f1 f2 f3 : same_rest f1 f2 -> same_rest f2 f3 -> same_rest f1 f3.
Proof. unfold same_rest. intuition congruence. Qed.

Lemma arrive_spec f :
  loop_ok f ->
  loop_ok (arrive f) /\ serial_line_buf (arrive f) = serial_line_buf f /\
  same_rest f (arrive f) /\
  exists bs, in_ring (arrive f) = in_ring f ++ bs /\ concat (host f) = bs ++ concat (host (arrive f)).
Proof.
  intros [Hl Hr Hh]. unfold arrive, in_ring.
  assert (forall l q h, line_ok l -> fifo_wf (SerialFifo.ring q) ->
    Forall (fun p => (length p <= 64)%nat) h ->
    loop_ok (f <| serial_line_buf := l |> <| rxfifo := q |> <| host := h |>)) as Hk by (by split).
  destruct (host f) as [|p rest] eqn:Eh.
  - split; [by split; rewrite ?Eh|]. split; [done|]. split; [done|]. exists [].
    rewrite app_nil_r, Eh. done.
  - apply list.Forall_cons in Hh as [Hp Hh].
    assert (take 64 p = p) as Ht by (apply take_ge; lia).
    pose proof (BulkOut_spec (fun n => take (Z.to_nat n) p) (rxfifo f) Hr) as B.
    cbv beta in B. change (Z.to_nat MAX_PACKET_SIZE) with 64%nat in B. rewrite Ht in B.
    specialize (B ltac:(unfold MAX_PACKET_SIZE; lia)).
    destruct (BulkOut _ (rxfifo f)) as [r q]. destruct B as (-> & Hq & Hc).
    destruct (_ <? 64); cbn [rxfifo host serial_line_buf mach update updater].
    + split; [by apply (Hk (serial_line_buf f) q (host f)); [..|rewrite Eh; constructor]|].
      split; [done|]. split; [done|]. exists []. by rewrite Hc, Eh.
    + split; [by apply (Hk (serial_line_buf f) q rest)|]. split; [done|]. split; [done|].
      exists p. by rewrite Hc.
Qed.

(** What one look at the ring makes of the stream. *)
Lemma store_waiting f c cs rest :
  loop_ok f -> seen_lf (serial_line_buf f) = false ->
  let l := store_char c (serial_line_buf f) in
  line_ok l /\
  typed_lines (line_text (serial_line_buf f) ++ c :: cs ++ rest) =
    (if seen_lf l then line_text l :: typed_lines (cs ++ rest)
     else typed_lines (line_text l ++ cs ++ rest)) /\
  (typed_lines (line_text (serial_line_buf f) ++ c :: cs) <> [] ->
   seen_lf l = true \/ typed_lines (line_text l ++ cs) <> []).
Proof.
  intros [Hl _ _] Hs l. pose proof (ok_open _ Hl Hs) as Hno.
  destruct (store_char_spec c _ Hl Hs) as [Hl' Hc]. fold l in Hl', Hc.
  set (text := line_text (serial_line_buf f)) in *. split; [exact Hl'|].
  assert (forall bs, typed_lines (text ++ c :: bs) =
    if seen_lf l then line_text l :: typed_lines bs else typed_lines (line_text l ++ bs)) as E.
  { intros bs. rewrite typed_lines_app, typed_cons by done.
    destruct (eol c) eqn:Ec; [destruct (has_text (text ++ [c]))|]; destruct Hc as [-> Ht].
    - by rewrite Ht.
    - by rewrite Ht.
    - pose proof (ok_open _ Hl') as Ho. rewrite typed_lines_app.
      + apply typed_trunc. by rewrite Ht, take_take.
      + rewrite Ht. apply no_eol_take, Forall_app. by repeat constructor. }
  split; [apply E|]. intros Hne. rewrite E in Hne. destruct (seen_lf l); [by left|by right].
Qed.

Lemma collect_spec fuel : forall f,
  loop_ok f -> (bytes_coming f < fuel)%nat ->
  exists f1, collect fuel f = Some f1 /\ loop_ok f1 /\ same_rest f f1 /\
    waiting f1 = waiting f /\ seen_lf (serial_line_buf f1) || negb (line_received f) = true.
Proof.
  induction fuel as [|fuel IH]; intros f Hok Hf; [lia|]. cbn [collect].
  destruct (seen_lf (serial_line_buf f)) eqn:Hs.
  { exists f. rewrite Hs. by split; [|split; [|split]]. }
  destruct (arrive_spec f Hok) as (Ha & Hl & Hsame & bs & Hr & Hh).
  set (f1 := arrive f) in *.
  assert (waiting f1 = waiting f) as Hw.
  { unfold waiting. by rewrite Hl, Hs, Hr, Hh, <- app_assoc. }
  assert (bytes_coming f1 = bytes_coming f) as Hb.
  { unfold bytes_coming. unfold in_ring in Hr. rewrite Hr, Hh, !length_app. lia. }
  change (fifo_avail (rxfifo f1)) with
    (_fifo_avail (SerialFifo.ring (rxfifo f1)), NVIC_EnableIRQ (NVIC_DisableIRQ (rxfifo f1))).
  set (q := NVIC_EnableIRQ (NVIC_DisableIRQ (rxfifo f1))). cbv iota beta.
  destruct Ha as [Ha1 Ha2 Ha3]. pose proof (contents_length (SerialFifo.ring (rxfifo f1))) as Hc.
  pose proof (avail_range _ Ha2) as Hav.
  destruct (Z.eqb_spec (_fifo_avail (SerialFifo.ring (rxfifo f1))) 0) as [Hz|Hz].
  - exists (f1 <| rxfifo := q |>). split; [done|]. split; [by split|]. split; [done|].
    split; [done|]. apply orb_true_iff. right. unfold line_received. rewrite Hs.
    assert (in_ring f = []) as ->.
    { rewrite Hz in Hc. apply nil_length_inv in Hc. fold (in_ring f1) in Hc. rewrite Hc in Hr.
      symmetry in Hr. by apply app_eq_nil in Hr as [Hr _]. }
    rewrite typed_lines_app by (apply (ok_open _ (ok_line _ Hok) Hs)).
    by rewrite bool_decide_eq_true_2.
  - unfold serial_popchar. change (rxfifo (f1 <| rxfifo := q |>)) with q.
    pose proof (q_get_wf (Q := irq_fifo) q Ha2) as Hgw.
    pose proof (q_get_spec (Q := irq_fifo) q Ha2) as Hg.
    destruct (q_get q) as [[c|] q1].
    2: { destruct Hg as [Hg _]. change (fifo_contents (SerialFifo.ring q) = []) in Hg.
         change (fifo_contents (SerialFifo.ring (rxfifo f1)) = []) in Hg. rewrite Hg in Hc. cbn in Hc. lia. }
    change (in_ring f1 = c :: fifo_contents (SerialFifo.ring q1)) in Hg.
    change (fifo_wf (SerialFifo.ring q1)) in Hgw.
    set (f2 := f1 <| rxfifo := q |> <| rxfifo := q1 |>
                  <| serial_line_buf ::= store_char c |>).
    assert (seen_lf (serial_line_buf f1) = false) as Hs1 by (by rewrite Hl).
    destruct (store_waiting f1 c (fifo_contents (SerialFifo.ring q1)) (concat (host f1))
      (Build_loop_ok _ Ha1 Ha2 Ha3) Hs1) as (Hl2 & Hw2 & Hn2).
    assert (loop_ok f2) as Hok2 by (by split).
    assert (waiting f2 = waiting f1) as Hw12.
    { unfold waiting at 2. rewrite Hs1, Hg. cbn [app]. rewrite Hw2. done. }
    assert (bytes_coming f2 < fuel)%nat as Hf2.
    { unfold bytes_coming in *. unfold in_ring in Hg. rewrite Hg in Hb.
      change (host f2) with (host f1). change (rxfifo f2) with q1. cbn [length] in Hb. lia. }
    destruct (IH f2 Hok2 Hf2) as (f3 & E3 & H3 & Hs3 & Hw3 & Hr3).
    exists f3. split; [exact E3|]. split; [done|].
    split; [by apply (same_rest_trans f f2)|].
    split; [by rewrite Hw3, Hw12|].
    destruct (seen_lf (serial_line_buf f3)); [done|].
    cbn [orb] in *. unfold line_received in *. rewrite Hs. cbn [orb].
    rewrite negb_involutive. apply bool_decide_eq_true.
    rewrite negb_true_iff, orb_false_iff, negb_false_iff in Hr3.
    destruct Hr3 as [Hr3 Hr4]. apply bool_decide_eq_true in Hr4.
    destruct (typed_lines (line_text (serial_line_buf f) ++ in_ring f)) as [|x xs] eqn:Et; [done|].
    exfalso. destruct Hn2 as [Hn2|Hn2].
    + rewrite Hl, <- Hg, Hr, app_assoc.
      destruct (typed_app (line_text (serial_line_buf f) ++ in_ring f) [] bs) as [ls El].
      unfold typed_lines in *. by rewrite El, Et.
    + change (seen_lf (store_char c (serial_line_buf f1)) = false) in Hr3. congruence.
    + done.
Qed.

(** ** Executing a line *)

Lemma parse_keeps_size p l (m : machine V) r p' l' m' :
  gcode_parse_line p l m = Some (r, p', l', m') -> length (data l') = length (data l).
Proof.
  unfold gcode_parse_line. destruct (gcode_parse_chars p _) as [q|]; [|done].
  destruct (checksum_ok _); [|by intros [= _ _ <- _]].
  destruct (be_sd_writing m).
  - destruct (capture_line (next_target q) l m) as [[l1 m1]|] eqn:E; [|done].
    intros [= _ _ <- _]. revert E. unfold capture_line, fix_line_end.
    destruct (_ && _ && _).
    { destruct (_ && _); by intros [= <- _]. }
    destruct (data l !! _) as [c|]; [|done]. destruct (_ <? 1); [done|].
    destruct (be_sd_write _ _) as [ok m2]. intros [= <- _].
    destruct (c =? 13); [|done]. apply length_insert.
  - destruct (execute_line _ m) as [[[r1 g1] m1]|]; [|done]. by intros [= _ _ <- _].
Qed.

(** The serial line of an event. *)
Definition serial_event (e : option (source * list Z)) : list (list Z) :=
  match e with Some (FromSerial, l) => [l] | _ => [] end.

Lemma run_line_spec f e f1 :
  loop_ok f -> run_line f = Some (e, f1) ->
  loop_ok f1 /\ waiting f = serial_event e ++ waiting f1 /\
  (seen_lf (serial_line_buf f) = true ->
   plan_queue_full (plan (motion_state (mach f))) = 0 ->
   e = Some (FromSerial, line_text (serial_line_buf f))).
Proof.
  intros [Hl Hr Hh]. unfold run_line, c_true.
  destruct (Z.eqb_spec (plan_queue_full (plan (motion_state (mach f)))) 0) as [Hz|Hz]; cbn [negb].
  2: { intros [= <- <-]. by split; [|split; [|intros _ ?]]. }
  destruct (seen_lf (serial_line_buf f)) eqn:Hs.
  - destruct (gcode_parse_line _ (serial_line_buf f) _) as [[[[r p] l] m]|] eqn:E; [|done].
    intros [= <- <-]. apply parse_keeps_size in E. rewrite (ok_size _ Hl) in E.
    split; [split; [by apply emptied_ok|done|done]|]. split; [|done].
    unfold waiting. by rewrite Hs.
  - destruct (seen_lf (sd_line_buf f)).
    + destruct (gcode_parse_line _ (sd_line_buf f) _) as [[[[r p] l] m]|]; [|done].
      intros [= <- <-]. split; [by split|]. split; [|done]. unfold waiting, in_ring.
      cbn [serial_line_buf rxfifo host update updater]. by rewrite Hs.
    + intros [= <- <-]. by split; [|split].
Qed.

(** Updates of the rest of the state. *)
Lemma fetch_rest f :
  serial_line_buf (fetch_sd_line f) = serial_line_buf f /\
  rxfifo (fetch_sd_line f) = rxfifo f /\ host (fetch_sd_line f) = host f /\
  motion_state (mach (fetch_sd_line f)) = motion_state (mach f).
Proof.
  unfold fetch_sd_line. destruct (_ && _); [|done].
  unfold sd_read_file. destruct (f_gets _ _) as [[l rest]|]; done.
Qed.

Lemma idle_rest f :
  serial_line_buf (count_idle f) = serial_line_buf f /\
  rxfifo (count_idle f) = rxfifo f /\ host (count_idle f) = host f.
Proof. unfold count_idle. by destruct (timer1 f <? _). Qed.

Lemma waiting_same f f1 :
  serial_line_buf f1 = serial_line_buf f -> rxfifo f1 = rxfifo f -> host f1 = host f ->
  waiting f1 = waiting f /\ (loop_ok f -> loop_ok f1).
Proof.
  intros E1 E2 E3. unfold waiting, in_ring. rewrite E1, E2, E3. split; [done|].
  intros []. by split; rewrite ?E1, ?E2, ?E3.
Qed.

Lemma mach_rest f m :
  waiting (f <| mach := m |>) = waiting f /\ (loop_ok f -> loop_ok (f <| mach := m |>)).
Proof. split; [done|]. by intros []. Qed.

Lemma main_loop_spec f e f1 :
  loop_ok f -> main_loop f = Some (e, f1) ->
  loop_ok f1 /\ waiting f = serial_event e ++ waiting f1 /\
  (line_received f = true -> plan_queue_full (plan (motion_state (mach f))) = 0 ->
   exists l, e = Some (FromSerial, l)).
Proof.
  intros Hok. unfold main_loop.
  destruct (collect_spec (S (bytes_coming f)) f Hok (Nat.lt_succ_diag_r _))
    as (fa & -> & Ha & (Hm & _) & Hw & Hr).
  cbn [mbind option_bind].
  destruct (fetch_rest fa) as (B1 & B2 & B3 & B4). set (fb := fetch_sd_line fa) in *.
  destruct (waiting_same fa fb B1 B2 B3) as [Hwb Hb].
  destruct (run_line fb) as [[e1 fc]|] eqn:E; [|done]. cbn [mbind option_bind].
  destruct (run_line_spec fb e1 fc (Hb Ha) E) as (Hc & Hwc & Hx).
  destruct (idle_rest fc) as (D1 & D2 & D3).
  destruct (waiting_same fc (count_idle fc) D1 D2 D3) as [Hwd Hd].
  destruct (take_interrupts _) as [m|]; [|done]. cbn [mbind option_bind].
  set (fd := (count_idle fc) <| mach := m |>).
  destruct (mach_rest (count_idle fc) m) as [Hwe He]. fold fd in Hwe, He.
  clearbody fd. intros [= <- <-].
  split; [by apply He, Hd|]. split; [by rewrite <- Hw, <- Hwb, Hwc, Hwe, Hwd|].
  intros Hrec Hfull. rewrite Hrec in Hr. cbn in Hr. rewrite orb_false_r in Hr.
  exists (line_text (serial_line_buf fb)). apply Hx; [by rewrite B1|by rewrite B4, Hm].
Qed.

(** C5: The main loop executes exactly the lines the host types, in order. Over
    any number of rounds, with any arrival of packets, interrupts, waiting
    commands and printing from the card, the lines executed from the serial
    port followed by the lines still waiting are the lines that were waiting:
    the stream cut after each line end, without empty lines, each line reduced
    to its first 120 characters. The collecting loop always ends, and a round
    that begins with a complete line received and room in the planner
    executes a line of the host. *)
Theorem serial_lines_in_order (n : nat) f f1 (es : list (source * list Z))
  (Hok : loop_ok f) (Hrun : main_loops n f = Some (es, f1)) :
  loop_ok f1 /\ waiting f = concat (map (fun e => serial_event (Some e)) es) ++ waiting f1 /\
  (exists f2, collect (S (bytes_coming f1)) f1 = Some f2) /\
  forall e f2, line_received f1 = true -> plan_queue_full (plan (motion_state (mach f1))) = 0 ->
    main_loop f1 = Some (e, f2) -> exists l, e = Some (FromSerial, l).
Proof.
  revert f es Hok Hrun. induction n as [|n IH]; intros f es Hok Hrun; cbn [main_loops] in Hrun.
  - injection Hrun as <- <-. split; [done|]. split; [done|]. split.
    + destruct (collect_spec _ f Hok (Nat.lt_succ_diag_r _)) as (f2 & E & _). by exists f2.
    + intros e f2 Hrec Hfull E. by apply (main_loop_spec f e f2 Hok E).
  - destruct (main_loop f) as [[e fa]|] eqn:E; [|done]. cbn [mbind option_bind] in Hrun.
    destruct (main_loop_spec f e fa Hok E) as (Ha & Hw & _).
    destruct (main_loops n fa) as [[es1 fb]|] eqn:E2; [|done]. cbn [mbind option_bind] in Hrun.
    injection Hrun as <- <-. destruct (IH fa es1 Ha E2) as (H1 & H2 & H3 & H4).
    split; [done|]. split; [|by split]. rewrite Hw, H2, app_assoc. f_equal.
    by destruct e as [[[|] l]|].
Qed.
End loop.

(** Two packets with two and a half lines; three rounds. *)
Definition typing : firmware unit :=
  mk_firmware parser_zero line_zero line_zero 0 (mk_irq_fifo true (fifo_init (repeat 0 256)))
    [bytes_of_string "M112" ++ [13; 10]; bytes_of_string "M119" ++ [10] ++ bytes_of_string "G1"]
    (idle_machine []).

Lemma serial_lines_in_order_witness :
  exists es f1, main_loops 3 typing = Some (es, f1) /\
    map snd es = [bytes_of_string "M112" ++ [13]; bytes_of_string "M119" ++ [10]] /\
    waiting typing = concat (map (fun e => serial_event (Some e)) es) ++ waiting f1 /\
    waiting f1 = [].
Proof.
  destruct (main_loops 3 typing) as [[es f1]|] eqn:E; [|vm_compute in E; discriminate].
  assert (loop_ok typing) as Hok.
  { split; [exact line_zero_ok|by apply fifo_init_wf|]. repeat constructor; cbn; lia. }
  destruct (serial_lines_in_order 3 typing f1 es Hok E) as (_ & Hw & _).
  exists es, f1. split; [done|]. split; [|split; [exact Hw|]].
  - vm_compute in E. injection E as <- _. by vm_compute.
  - vm_compute in E. injection E as _ <-. by vm_compute.
Defined.
