(* ===== verification/SdCard.v ===== *)
(** * The SD card driver (libraries/R2C2/src/sdcard.c)

    The driver talks to the card by exchanging bytes over SPI; meanwhile the
    tick of SlowTimer counts its time-outs down. The card and the clock are a
    device given by the interface [SpiDevice]. The driver is proved to make of
    a card that keeps the protocol an array of sectors. *)

From stdpp Require Import gmap.
From S2P Require Import Prelude SlowTimer.

(** ** The device *)

(** [exchange e selected out] is the byte received while [out] is sent, the
    number of calls of [MMC_disk_timerproc] that happened meanwhile, and the
    device after it. *)
Class SpiDevice (D : Type) := {
  exchange : D -> bool -> Z -> Z * nat * D
}.

Record sdcard (D : Type) := mk_sdcard {
  timers : disk_timers;
  CardType : Z;
  selected : bool;
  device : D
}.
Arguments mk_sdcard {D}.
Arguments timers {D}.
Arguments CardType {D}.
Arguments selected {D}.
Arguments device {D}.

#[export] Instance eta_sdcard {D} : Eta (sdcard D) := fun s =>
  mk_sdcard (timers s) (CardType s) (selected s) (device s).

#[export] Instance eta_disk : Eta disk_timers := fun t => mk_disk (Timer1 t) (Timer2 t) (Stat t).

(** ** Constants *)

Definition CMD0 : Z := 64 + 0.
Definition CMD1 : Z := 64 + 1.
Definition ACMD41 : Z := 192 + 41.
Definition CMD8 : Z := 64 + 8.
Definition CMD9 : Z := 64 + 9.
Definition CMD10 : Z := 64 + 10.
Definition CMD12 : Z := 64 + 12.
Definition ACMD13 : Z := 192 + 13.
Definition CMD16 : Z := 64 + 16.
Definition CMD17 : Z := 64 + 17.
Definition CMD18 : Z := 64 + 18.
Definition ACMD23 : Z := 192 + 23.
Definition CMD24 : Z := 64 + 24.
Definition CMD25 : Z := 64 + 25.
Definition CMD55 : Z := 64 + 55.
Definition CMD58 : Z := 64 + 58.

Definition STA_NOINIT : Z := 1.
Definition STA_NODISK : Z := 2.
Definition STA_PROTECT : Z := 4.

Inductive DRESULT := RES_OK | RES_ERROR | RES_WRPRT | RES_NOTRDY | RES_PARERR.
#[export] Instance DRESULT_eq_dec : EqDecision DRESULT.
Proof. solve_decision. Defined.

Definition CT_MMC : Z := 1.
Definition CT_SD1 : Z := 2.
Definition CT_SD2 : Z := 4.
Definition CT_SDC : Z := Z.lor CT_SD1 CT_SD2.
Definition CT_BLOCK : Z := 8.

(** ** The driver's monad

    A computation of the driver changes its state; [None] is a loop that used
    up the polls it was given, or an undefined shift. *)
Definition driver (D A : Type) : Type := sdcard D -> option (A * sdcard D).

#[export] Instance driver_ret D : MRet (driver D) := fun A a s => Some (a, s).
#[export] Instance driver_bind D : MBind (driver D) := fun A B k m s =>
  match m s with Some (a, s) => k a s | None => None end.

Section driver.
Context {D : Type} `{SpiDevice D}.

(** How often a loop that waits for the card or for a time-out looks. *)
Variable polls : nat.

Definition read_state {A} (f : sdcard D -> A) : driver D A := fun s => Some (f s, s).
Definition change (f : sdcard D -> sdcard D) : driver D unit := fun s => Some (tt, f s).
Definition undefined {A} : driver D A := fun _ => None.

(** ** SPI *)

Definition spi_rw (out : Z) : driver D Z := fun s =>
  let '(b, n, d) := exchange (device s) (selected s) out in
  Some (b, s <| device := d |> <| timers ::= Nat.iter n MMC_disk_timerproc |>).

Definition rcvr_spi : driver D Z := spi_rw 255.
Definition xmit_spi (b : Z) : driver D unit := _ ← spi_rw b; mret tt.

(** [spi_rcvr_block] and [spi_xmit_block]: the words of 16 bits are sent with
    the high byte first, so the bytes keep their order. *)
Fixpoint spi_rcvr_block (btr : nat) : driver D (list Z) :=
  match btr with
  | O => mret []
  | S n => b ← rcvr_spi; bs ← spi_rcvr_block n; mret (b :: bs)
  end.

Fixpoint spi_xmit_block (buff : list Z) : driver D unit :=
  match buff with
  | [] => mret tt
  | b :: buff => _ ← xmit_spi b; spi_xmit_block buff
  end.

Definition select_card : driver D unit := change (fun s => s <| selected := true |>).
Definition de_select_card : driver D unit := change (fun s => s <| selected := false |>).

Definition set_Timer1 (n : Z) : driver D unit :=
  change (fun s => s <| timers ::= fun t => t <| Timer1 := n |> |>).
Definition set_Timer2 (n : Z) : driver D unit :=
  change (fun s => s <| timers ::= fun t => t <| Timer2 := n |> |>).
Definition get_Stat : driver D Z := read_state (fun s => Stat (timers s)).
Definition set_Stat (f : Z -> Z) : driver D unit :=
  change (fun s => s <| timers ::= fun t => t <| Stat ::= f |> |>).

(** ** Waiting *)

(** [do res = rcvr_spi(); while (stay (res) && Timer)] *)
Fixpoint receive_while (fuel : nat) (stay : Z -> bool) (timer : disk_timers -> Z) : driver D Z :=
  match fuel with
  | O => undefined
  | S fuel =>
      res ← rcvr_spi;
      t ← read_state (fun s => timer (timers s));
      if stay res && c_true t then receive_while fuel stay timer else mret res
  end.

Definition wait_ready : driver D Z :=
  _ ← set_Timer2 50;
  _ ← rcvr_spi;
  receive_while polls (fun res => negb (res =? 255)) Timer2.

Definition release_spi : driver D unit := _ ← de_select_card; _ ← rcvr_spi; mret tt.

(** [for (Timer1 = 25; Timer1; );] lasts 25 ticks. The set-up of the SPI
    peripheral has no effect on the modelled state. *)
Definition power_on : driver D unit :=
  _ ← set_Timer1 25;
  _ ← change (fun s => s <| timers ::= Nat.iter 25 MMC_disk_timerproc |>);
  de_select_card.

Definition power_off : driver D unit :=
  stat ← get_Stat;
  _ ← (if Z.land stat STA_NOINIT =? 0
       then _ ← select_card; _ ← wait_ready; release_spi
       else mret tt);
  set_Stat (fun st => Z.lor st STA_NOINIT).

(** ** Data packets *)

(** The data block, or nothing without a data token. *)
Definition rcvr_datablock (btr : nat) : driver D (option (list Z)) :=
  _ ← set_Timer1 10;
  token ← receive_while polls (fun token => token =? 255) Timer1;
  if negb (token =? 254) then mret None
  else
    bs ← spi_rcvr_block btr;
    _ ← rcvr_spi;
    _ ← rcvr_spi;
    mret (Some bs).

Definition xmit_datablock (buff : list Z) (token : Z) : driver D bool :=
  res ← wait_ready;
  if negb (res =? 255) then mret false
  else
    _ ← xmit_spi token;
    if negb (token =? 253) then
      _ ← spi_xmit_block buff;
      _ ← xmit_spi 255;
      _ ← xmit_spi 255;
      resp ← rcvr_spi;
      mret (Z.land resp 31 =? 5)
    else mret true.

(** ** Commands *)

(** [do res = rcvr_spi(); while ((res & 0x80) && --n);] *)
Fixpoint response (n : nat) : driver D Z :=
  res ← rcvr_spi;
  match n with
  | O | S O => mret res
  | S n => if negb (Z.land res 128 =? 0) then response n else mret res
  end.

(** [send_cmd] for a command byte without the flag of application commands. *)
Definition send_packet (cmd arg : Z) : driver D Z :=
  _ ← de_select_card;
  _ ← select_card;
  ready ← wait_ready;
  if negb (ready =? 255) then mret 255
  else
    _ ← xmit_spi cmd;
    _ ← xmit_spi (u8 (Z.shiftr arg 24));
    _ ← xmit_spi (u8 (Z.shiftr arg 16));
    _ ← xmit_spi (u8 (Z.shiftr arg 8));
    _ ← xmit_spi (u8 arg);
    _ ← xmit_spi (if cmd =? CMD8 then 135 else if cmd =? CMD0 then 149 else 1);
    _ ← (if cmd =? CMD12 then _ ← rcvr_spi; mret tt else mret tt);
    response 10.

(** The recursive call has a command byte without the flag. *)
Definition send_cmd (cmd arg : Z) : driver D Z :=
  if negb (Z.land cmd 128 =? 0) then
    res ← send_packet CMD55 0;
    if 1 <? res then mret res else send_packet (Z.land cmd 127) arg
  else send_packet cmd arg.

(** ** Initialisation *)

(** [while (Timer1 && send_cmd (cmd, arg));] *)
Fixpoint leave_idle (fuel : nat) (cmd arg : Z) : driver D unit :=
  match fuel with
  | O => undefined
  | S fuel =>
      t ← read_state (fun s => Timer1 (timers s));
      if c_true t then
        res ← send_cmd cmd arg;
        if c_true res then leave_idle fuel cmd arg else mret tt
      else mret tt
  end.

Definition get_Timer1 : driver D Z := read_state (fun s => Timer1 (timers s)).

(** A card that answered CMD8: version 2. *)
Definition init_sdhc : driver D Z :=
  ocr ← spi_rcvr_block 4;
  if (arr ocr 2 =? 1) && (arr ocr 3 =? 170) then
    _ ← leave_idle polls ACMD41 (Z.shiftl 1 30);
    t ← get_Timer1;
    if c_true t then
      res ← send_cmd CMD58 0;
      if res =? 0 then
        ocr ← spi_rcvr_block 4;
        mret (if c_true (Z.land (arr ocr 0) 64) then Z.lor CT_SD2 CT_BLOCK else CT_SD2)
      else mret 0
    else mret 0
  else mret 0.

(** A card of version 1 or an MMC. *)
Definition init_sdsc : driver D Z :=
  res ← send_cmd ACMD41 0;
  let '(ty, cmd) := if res <=? 1 then (CT_SD1, ACMD41) else (CT_MMC, CMD1) in
  _ ← leave_idle polls cmd 0;
  t ← get_Timer1;
  if c_true t then
    res ← send_cmd CMD16 512;
    mret (if c_true res then 0 else ty)
  else mret 0.

Definition identify_card : driver D Z :=
  res ← send_cmd CMD0 0;
  if res =? 1 then
    _ ← set_Timer1 100;
    res ← send_cmd CMD8 426;
    if res =? 1 then init_sdhc else init_sdsc
  else mret 0.

(** The status, and the message to the host. *)
Definition MMC_disk_initialize : driver D (Z * list Z) :=
  stat ← get_Stat;
  if c_true (Z.land stat STA_NODISK) then mret (stat, [])
  else
    _ ← power_on;
    _ ← spi_rcvr_block 10;
    ty ← identify_card;
    _ ← change (fun s => s <| CardType := ty |>);
    _ ← release_spi;
    out ← (if c_true ty then
             _ ← set_Stat (fun st => Z.land st (Z.lnot STA_NOINIT)); mret []
           else
             _ ← power_off;
             mret (10 :: bytes_of_string "memory card init failed" ++ [10]));
    stat ← get_Stat;
    mret (stat, out).

Definition MMC_disk_status : driver D Z := get_Stat.

(** ** Sectors *)

(** [if (!(CardType & CT_BLOCK)) sector *= 512;] *)
Definition card_address (ct sector : Z) : Z :=
  if c_true (Z.land ct CT_BLOCK) then sector else u32 (sector * 512).

(** [do { if (!rcvr_datablock (buff, 512)) break; } while (--count);]: the
    blocks received and the count that is left. *)
Fixpoint read_blocks (count : nat) : driver D (list Z * Z) :=
  match count with
  | O => mret ([], 0)
  | S n =>
      blk ← rcvr_datablock 512;
      match blk with
      | None => mret ([], Z.of_nat count)
      | Some bs => '(rest, c) ← read_blocks n; mret (bs ++ rest, c)
      end
  end.

(** The result and what has been stored in the buffer. *)
Definition MMC_disk_read (sector count : Z) : driver D (DRESULT * list Z) :=
  stat ← get_Stat;
  ct ← read_state CardType;
  if count =? 0 then mret (RES_PARERR, [])
  else if c_true (Z.land stat STA_NOINIT) then mret (RES_NOTRDY, [])
  else
    let sector := card_address ct sector in
    '(data, count) ←
      (if count =? 1 then
         res ← send_cmd CMD17 sector;
         if res =? 0 then
           blk ← rcvr_datablock 512;
           mret (match blk with Some bs => (bs, 0) | None => ([], count) end)
         else mret ([], count)
       else
         res ← send_cmd CMD18 sector;
         if res =? 0 then
           r ← read_blocks (Z.to_nat count);
           _ ← send_cmd CMD12 0;
           mret r
         else mret ([], count));
    _ ← release_spi;
    mret (if c_true count then RES_ERROR else RES_OK, data).

(** [do { if (!xmit_datablock (buff, 0xFC)) break; } while (--count);] *)
Fixpoint write_blocks (count : nat) (buff : list Z) : driver D Z :=
  match count with
  | O => mret 0
  | S n =>
      ok ← xmit_datablock (take 512 buff) 252;
      if ok : bool then write_blocks n (drop 512 buff) else mret (Z.of_nat count)
  end.

Definition MMC_disk_write (buff : list Z) (sector count : Z) : driver D DRESULT :=
  stat ← get_Stat;
  ct ← read_state CardType;
  if count =? 0 then mret RES_PARERR
  else if c_true (Z.land stat STA_NOINIT) then mret RES_NOTRDY
  else if c_true (Z.land stat STA_PROTECT) then mret RES_WRPRT
  else
    let sector := card_address ct sector in
    count ←
      (if count =? 1 then
         res ← send_cmd CMD24 sector;
         if res =? 0 then
           ok ← xmit_datablock (take 512 buff) 254;
           mret (if ok : bool then 0 else count)
         else mret count
       else
         _ ← (if c_true (Z.land ct CT_SDC) then send_cmd ACMD23 count else mret 0);
         res ← send_cmd CMD25 sector;
         if res =? 0 then
           count ← write_blocks (Z.to_nat count) buff;
           ok ← xmit_datablock [] 253;
           mret (if ok : bool then count else 1)
         else mret count);
    _ ← release_spi;
    mret (if c_true count then RES_ERROR else RES_OK).

(** ** Control *)

Definition CTRL_SYNC : Z := 0.
Definition GET_SECTOR_COUNT : Z := 1.
Definition GET_SECTOR_SIZE : Z := 2.
Definition GET_BLOCK_SIZE : Z := 3.
Definition CTRL_POWER : Z := 4.
Definition MMC_GET_TYPE : Z := 10.
Definition MMC_GET_CSD : Z := 11.
Definition MMC_GET_CID : Z := 12.
Definition MMC_GET_OCR : Z := 13.
Definition MMC_GET_SDSTAT : Z := 14.

(** What a call stores through its pointer. *)
Inductive ioctl_out := NoOutput | OutNumber (v : Z) | OutBytes (bs : list Z).

(** [x << n] on 32 bits; undefined for a negative or a large [n]. *)
Definition shift_left (x n : Z) : driver D Z :=
  if (0 <=? n) && (n <? 32) then mret (u32 (Z.shiftl x n)) else undefined.

(** A register that is sent as a data block after a command. *)
Definition read_register (cmd : Z) (btr : nat) : driver D (option (list Z)) :=
  res ← send_cmd cmd 0;
  if res =? 0 then rcvr_datablock btr else mret None.

(** [csize] is a 16-bit variable, also for the size of a version 2 card. *)
Definition sector_count (csd : list Z) : driver D Z :=
  if Z.shiftr (arr csd 0) 6 =? 1 then
    shift_left (u16 (arr csd 9 + Z.shiftl (arr csd 8) 8 + 1)) 10
  else
    let n := Z.land (arr csd 5) 15 + Z.shiftr (Z.land (arr csd 10) 128) 7
             + Z.shiftl (Z.land (arr csd 9) 3) 1 + 2 in
    let csize := u16 (Z.shiftr (arr csd 8) 6 + Z.shiftl (arr csd 7) 2
                      + Z.shiftl (Z.land (arr csd 6) 3) 10 + 1) in
    shift_left csize (n - 9).

(** The erase block of a version 1 card or an MMC, in sectors. *)
Definition erase_block (ct : Z) (csd : list Z) : driver D Z :=
  if c_true (Z.land ct CT_SD1) then
    shift_left (Z.shiftl (Z.land (arr csd 10) 63) 1
                + Z.shiftr (Z.land (arr csd 11) 128) 7 + 1) (Z.shiftr (arr csd 13) 6 - 1)
  else mret ((Z.shiftr (Z.land (arr csd 10) 124) 2 + 1)
             * (Z.shiftl (Z.land (arr csd 11) 3) 3 + Z.shiftr (Z.land (arr csd 11) 224) 5 + 1)).

Definition stored {A} (f : A -> driver D ioctl_out) (r : option A)
  : driver D (DRESULT * ioctl_out) :=
  match r with
  | Some a => o ← f a; mret (RES_OK, o)
  | None => mret (RES_ERROR, NoOutput)
  end.
Definition number (m : driver D Z) : driver D ioctl_out := n ← m; mret (OutNumber n).
Definition bytes (bs : list Z) : driver D ioctl_out := mret (OutBytes bs).

Definition get_block_size (ct : Z) : driver D (DRESULT * ioctl_out) :=
  if c_true (Z.land ct CT_SD2) then
    res ← send_cmd ACMD13 0;
    if res =? 0 then
      _ ← rcvr_spi;
      csd ← rcvr_datablock 16;
      match csd with
      | Some csd =>
          _ ← spi_rcvr_block (64 - 16);
          stored number (Some (shift_left 16 (Z.shiftr (arr csd 10) 4)))
      | None => mret (RES_ERROR, NoOutput)
      end
    else mret (RES_ERROR, NoOutput)
  else
    csd ← read_register CMD9 16;
    stored (fun csd => number (erase_block ct csd)) csd.

Definition control (ctrl ct : Z) : driver D (DRESULT * ioctl_out) :=
  if ctrl =? CTRL_SYNC then
    _ ← select_card;
    res ← wait_ready;
    mret (if res =? 255 then RES_OK else RES_ERROR, NoOutput)
  else if ctrl =? GET_SECTOR_COUNT then
    csd ← read_register CMD9 16; stored (fun csd => number (sector_count csd)) csd
  else if ctrl =? GET_SECTOR_SIZE then mret (RES_OK, OutNumber 512)
  else if ctrl =? GET_BLOCK_SIZE then get_block_size ct
  else if ctrl =? MMC_GET_TYPE then mret (RES_OK, OutNumber ct)
  else if ctrl =? MMC_GET_CSD then csd ← read_register CMD9 16; stored bytes csd
  else if ctrl =? MMC_GET_CID then cid ← read_register CMD10 16; stored bytes cid
  else if ctrl =? MMC_GET_OCR then
    res ← send_cmd CMD58 0;
    if res =? 0 then ocr ← spi_rcvr_block 4; mret (RES_OK, OutBytes ocr)
    else mret (RES_ERROR, NoOutput)
  else if ctrl =? MMC_GET_SDSTAT then
    res ← send_cmd ACMD13 0;
    if res =? 0 then _ ← rcvr_spi; st ← rcvr_datablock 64; stored bytes st
    else mret (RES_ERROR, NoOutput)
  else mret (RES_PARERR, NoOutput).

(** [power] is the byte that the buffer holds for CTRL_POWER. *)
Definition MMC_disk_ioctl (ctrl power : Z) : driver D (DRESULT * ioctl_out) :=
  stat ← get_Stat;
  ct ← read_state CardType;
  if ctrl =? CTRL_POWER then
    mret (if (0 <=? power) && (power <=? 2) then RES_OK else RES_PARERR, NoOutput)
  else if c_true (Z.land stat STA_NOINIT) then mret (RES_NOTRDY, NoOutput)
  else
    r ← control ctrl ct;
    _ ← release_spi;
    mret r.
End driver.
