(* ===== verification/SdSectors.v ===== *)
(** * The SD card driver makes an array of sectors

    A program logic for the driver of SdCard.v, the protocol that a card keeps
    on the bus as the interface [SdProtocol], and the proof that reading and
    writing single sectors behaves as an array of blocks. *)

From stdpp Require Import gmap.
From S2P Require Import Prelude SlowTimer SdCard.

(** ** Conversations on the bus *)

Section talk.
Context {D : Type} `{SpiDevice D}.

(** Bytes exchanged with the selected card: those received and the ticks. *)
Fixpoint talk (d : D) (outs : list Z) : list Z * nat * D :=
  match outs with
  | [] => ([], O, d)
  | o :: outs =>
      let '(b, n, d) := exchange d true o in
      let '(bs, n', d) := talk d outs in (b :: bs, (n + n')%nat, d)
  end.

Lemma talk_length d outs : length (fst (fst (talk d outs))) = length outs.
Proof.
  revert d. induction outs as [|o outs IH]; intros d; cbn [talk]; [done|].
  destruct (exchange d true o) as [[b n] d1]. specialize (IH d1).
  destruct (talk d1 outs) as [[bs n'] d2]. cbn in *. by rewrite IH.
Qed.

Lemma talk_app d o1 o2 :
  talk d (o1 ++ o2) =
  let '(i1, n1, d1) := talk d o1 in
  let '(i2, n2, d2) := talk d1 o2 in (i1 ++ i2, (n1 + n2)%nat, d2).
Proof.
  revert d. induction o1 as [|o o1 IH]; intros d; cbn [talk app].
  - by destruct (talk d o2) as [[i2 n2] d2].
  - destruct (exchange d true o) as [[b n] d1]. rewrite IH.
    destruct (talk d1 o1) as [[i1 n1] d2]. destruct (talk d2 o2) as [[i2 n2] d3].
    cbn. by rewrite Nat.add_assoc.
Qed.

(** A conversation of known outcome splits where its outcome splits. *)
Lemma talk_split d o1 o2 i1 i2 n d' :
  talk d (o1 ++ o2) = (i1 ++ i2, n, d') -> length i1 = length o1 ->
  exists n1 n2 d1, talk d o1 = (i1, n1, d1) /\ talk d1 o2 = (i2, n2, d') /\ n = (n1 + n2)%nat.
Proof.
  rewrite talk_app. pose proof (talk_length d o1) as L.
  destruct (talk d o1) as [[j1 n1] d1]. destruct (talk d1 o2) as [[j2 n2] d2] eqn:E2.
  intros E Hl. injection E as E <- <-. cbn in L.
  apply app_inj_1 in E as [<- <-]; [|lia]. by exists n1, n2, d1.
Qed.
End talk.

(** ** The protocol of a card

    What a card in SPI mode does on the bus, as far as single sectors need it.
    [phase d p m] holds of a card [d] in phase [p] whose block at the address
    [a] is [m a]. *)

Inductive card_phase := Ready | Busy | Receiving (a : Z).

(** A command packet as the host sends it. *)
Definition frame (cmd arg : Z) : list Z :=
  [cmd; u8 (Z.shiftr arg 24); u8 (Z.shiftr arg 16); u8 (Z.shiftr arg 8); u8 arg; 1].

Definition fill (n : nat) : list Z := repeat 255 n.

Lemma fill_length n : length (fill n) = n.
Proof. apply repeat_length. Qed.

Definition put_block (a : Z) (bs : list Z) (m : Z -> list Z) : Z -> list Z :=
  fun x => if x =? a then bs else m x.

Class SdProtocol (D : Type) `{SpiDevice D} (polls : nat) := {
  some_polls : (0 < polls)%nat;
  phase : D -> card_phase -> (Z -> list Z) -> Prop;
  address_ok : Z -> Prop;
  (** Polled, a card that is not busy answers 255; a busy one answers 255 in the
      end, before the host loses patience. *)
  poll_ready d p m : phase d p m -> p <> Busy ->
    exists n d', exchange d true 255 = (255, n, d') /\ phase d' p m;
  poll_busy d m : phase d Busy m ->
    exists ins n d', talk d (fill (S (length ins))) = (ins ++ [255], n, d') /\
      Forall (fun b => b <> 255) ins /\ (length ins < polls)%nat /\ (n < 50)%nat /\
      phase d' Ready m;
  (** A card that is not selected keeps its phase. *)
  poll_released d m p : phase d p m -> phase (snd (exchange d false 255)) p m;
  (** A block is read: at most nine fillers and the response; the block follows
      within the access time, after its token and before its checksum. *)
  read_block d m a : phase d Ready m -> address_ok a ->
    exists pre rs acc crc n d',
      talk d (frame CMD17 a ++ fill (S (length rs)) ++ fill (S (length acc)) ++ fill 512 ++ fill 2)
        = (pre ++ (rs ++ [0]) ++ (acc ++ [254]) ++ m a ++ crc, n, d') /\
      length pre = 6%nat /\ length crc = 2%nat /\ length (m a) = 512%nat /\
      Forall (fun b => Z.land b 128 <> 0) rs /\ (length rs < 10)%nat /\
      Forall (fun b => b = 255) acc /\ (length acc < polls)%nat /\ (n < 10)%nat /\
      phase d' Ready m;
  (** A block is written: the response; then, after any polls, the token, the
      block and a checksum are answered by the data response. *)
  write_command d m a : phase d Ready m -> address_ok a ->
    exists pre rs n d',
      talk d (frame CMD24 a ++ fill (S (length rs))) = (pre ++ rs ++ [0], n, d') /\
      length pre = 6%nat /\ Forall (fun b => Z.land b 128 <> 0) rs /\ (length rs < 10)%nat /\
      phase d' (Receiving a) m;
  write_data d m a bs : phase d (Receiving a) m -> length bs = 512%nat ->
    exists pre r n d',
      talk d ([254] ++ bs ++ [255; 255] ++ [255]) = (pre ++ [r], n, d') /\
      Z.land r 31 = 5 /\ phase d' Busy (put_block a bs m)
}.

(** ** A program logic for the driver

    [wp m Q s]: from [s] the computation [m] ends with a result and a state
    that satisfy [Q]. *)

Section logic.
Context {D : Type}.

Definition wp {A} (m : driver D A) (Q : A -> sdcard D -> Prop) (s : sdcard D) : Prop :=
  exists a s', m s = Some (a, s') /\ Q a s'.

Lemma wp_ret {A} (a : A) Q s : Q a s -> wp (mret a) Q s.
Proof. intros HQ. by exists a, s. Qed.

Lemma wp_bind {A B} (m : driver D A) (k : A -> driver D B) Q s :
  wp m (fun a s => wp (k a) Q s) s -> wp (m ≫= k) Q s.
Proof.
  intros (a & s1 & E & b & s2 & E2 & HQ). exists b, s2. split; [|done].
  unfold mbind, driver_bind. by rewrite E.
Qed.

Lemma wp_mono {A} (m : driver D A) (Q Q' : A -> sdcard D -> Prop) s :
  wp m Q s -> (forall a s', Q a s' -> Q' a s') -> wp m Q' s.
Proof. intros (a & s' & E & HQ) Hi. exists a, s'. split; [done|]. by apply Hi. Qed.

Lemma wp_read {A} (f : sdcard D -> A) Q s : Q (f s) s -> wp (read_state f) Q s.
Proof. intros HQ. by exists (f s), s. Qed.

Lemma wp_change (f : sdcard D -> sdcard D) Q s : Q tt (f s) -> wp (change f) Q s.
Proof. intros HQ. by exists tt, (f s). Qed.
End logic.

Ltac wp_step :=
  first [ apply wp_bind | apply wp_ret | apply wp_read | apply wp_change ]; cbv beta.

(** ** The driver's primitives under the protocol *)

Section primitives.
Context {D : Type} `{SpiDevice D} (polls : nat).
Implicit Types s : sdcard D.

(** What the driver keeps while it works: the card type, and an initialised
    and writable card. *)
Record sound (ct : Z) (s : sdcard D) : Prop := {
  sound_type : CardType s = ct;
  sound_init : Z.land (Stat (timers s)) STA_NOINIT = 0;
  sound_write : Z.land (Stat (timers s)) STA_PROTECT = 0
}.

(** The device and the select line of a sound driver. *)
Definition at_card (ct : Z) (sel : bool) (d : D) (s : sdcard D) : Prop :=
  sound ct s /\ device s = d /\ selected s = sel.

Definition ticked (n : nat) (s : sdcard D) : sdcard D :=
  s <| timers ::= Nat.iter n MMC_disk_timerproc |>.

Lemma iter_stat n t : Stat (Nat.iter n MMC_disk_timerproc t) = Stat t \/
  Stat (Nat.iter n MMC_disk_timerproc t) = 0.
Proof. destruct n; [by left|by right]. Qed.

(** A time-out counter is counted down to zero. *)
Definition counts_down (timer : disk_timers -> Z) : Prop := forall n t,
  0 <= timer t < 256 ->
  timer (Nat.iter n MMC_disk_timerproc t) = Z.max 0 (timer t - Z.of_nat n).

Lemma timer1_counts : counts_down Timer1.
Proof.
  intros n t Ht. induction n as [|n IH]; [cbn; lia|]. rewrite Nat.iter_succ.
  unfold MMC_disk_timerproc at 1. cbn [Timer1]. rewrite IH, u8_small by lia.
  unfold c_true. case_bool; lia.
Qed.

Lemma timer2_counts : counts_down Timer2.
Proof.
  intros n t Ht. induction n as [|n IH]; [cbn; lia|]. rewrite Nat.iter_succ.
  unfold MMC_disk_timerproc at 1. cbn [Timer2]. rewrite IH, u8_small by lia.
  unfold c_true. case_bool; lia.
Qed.

Lemma sound_ticked ct n s : sound ct s -> sound ct (ticked n s).
Proof.
  intros [H1 H2 H3]. destruct (iter_stat n (timers s)) as [E|E];
    split; cbn [ticked CardType timers update updater]; rewrite ?E; done.
Qed.

Section at_card.
Variable ct : Z.

Lemma wp_exchange sel d o b n d' s Q :
  at_card ct sel d s -> exchange d sel o = (b, n, d') ->
  (at_card ct sel d' (ticked n (s <| device := d' |>)) ->
   Q b (ticked n (s <| device := d' |>))) ->
  wp (spi_rw o) Q s.
Proof.
  intros (Hs & Hd & Hl) E HQ. exists b, (ticked n (s <| device := d' |>)). split.
  - unfold spi_rw. by rewrite Hd, Hl, E.
  - apply HQ. split; [|by split]. apply sound_ticked. by destruct Hs.
Qed.

(** One byte of a conversation whose rest is still to come. *)
Lemma wp_talk {A} d o outs b ins n d' (k : Z -> driver D A) Q s :
  at_card ct true d s -> talk d (o :: outs) = (b :: ins, n, d') ->
  (forall n1 n2 d1, at_card ct true d1 (ticked n1 (s <| device := d1 |>)) ->
     talk d1 outs = (ins, n2, d') -> n = (n1 + n2)%nat ->
     wp (k b) Q (ticked n1 (s <| device := d1 |>))) ->
  wp (spi_rw o ≫= k) Q s.
Proof.
  intros Ha E HQ. cbn [talk] in E.
  destruct (exchange d true o) as [[b1 n1] d1] eqn:E1.
  destruct (talk d1 outs) as [[ins1 n2] d2] eqn:E2. injection E as -> -> <- ->.
  apply wp_bind. eapply wp_exchange; [done|exact E1|]. intros Ha1. by eapply HQ.
Qed.

Lemma wp_xmit {A} d o outs ins n d' (k : driver D A) Q s :
  at_card ct true d s -> talk d (o :: outs) = (ins, n, d') ->
  (forall s' d1 n2, at_card ct true d1 s' -> talk d1 outs = (tail ins, n2, d') -> wp k Q s') ->
  wp (_ ← xmit_spi o; k) Q s.
Proof.
  intros Ha E HQ. apply wp_bind. unfold xmit_spi.
  pose proof (talk_length d (o :: outs)) as L. rewrite E in L.
  destruct ins as [|b ins]; [done|]. eapply wp_talk; [done|exact E|].
  intros n1 n2 d1 Ha1 E1 _. apply wp_ret. by eapply HQ.
Qed.

Lemma wp_xmit_block outs : forall d ins n d' Q s,
  at_card ct true d s -> talk d outs = (ins, n, d') ->
  (forall s', at_card ct true d' s' -> Q tt s') -> wp (spi_xmit_block outs) Q s.
Proof.
  induction outs as [|o outs IH]; intros d ins n d' Q s Ha E HQ; cbn [spi_xmit_block].
  - injection E as <- <- <-. by apply wp_ret, HQ.
  - eapply wp_xmit; [done|exact E|]. intros s' d1 n2 Ha1 E1. by eapply IH.
Qed.

Lemma wp_rcvr_block btr : forall d ins n d' Q s,
  at_card ct true d s -> talk d (fill btr) = (ins, n, d') ->
  (forall s', at_card ct true d' s' -> Q ins s') -> wp (spi_rcvr_block btr) Q s.
Proof.
  induction btr as [|btr IH]; intros d ins n d' Q s Ha E HQ; cbn [spi_rcvr_block].
  - injection E as <- <- <-. by apply wp_ret, HQ.
  - pose proof (talk_length d (fill (S btr))) as L. rewrite E in L.
    destruct ins as [|b ins]; [done|]. unfold rcvr_spi.
    eapply wp_talk; [done|exact E|]. intros n1 n2 d1 Ha1 E1 _. apply wp_bind.
    eapply IH; [done|exact E1|]. intros s' Hs'. by apply wp_ret, HQ.
Qed.

(** A waiting loop takes the conversation up to the awaited byte, if its
    time-out is longer. *)
Lemma wp_receive_while stay timer fuel : counts_down timer ->
  forall ins b d n d' Q s,
  at_card ct true d s -> talk d (fill (S (length ins))) = (ins ++ [b], n, d') ->
  Forall (fun c => stay c = true) ins -> stay b = false -> (length ins < fuel)%nat ->
  ins = [] \/ Z.of_nat n < timer (timers s) < 256 ->
  (forall s', at_card ct true d' s' -> Q b s') ->
  wp (receive_while fuel stay timer) Q s.
Proof.
  intros Htm. induction fuel as [|fuel IH]; intros ins b d n d' Q s Ha E Hi Hb Hf Hn HQ; [lia|].
  cbn [receive_while]. unfold rcvr_spi. destruct ins as [|c ins]; cbn [app length] in *.
  - eapply wp_talk; [done|exact E|]. intros n1 n2 d1 Ha1 E1 _. injection E1 as <- <-.
    wp_step. wp_step. rewrite Hb. by apply wp_ret, HQ.
  - apply list.Forall_cons in Hi as [Hc Hi].
    eapply wp_talk; [done|exact E|]. intros n1 n2 d1 Ha1 E1 Hsum.
    wp_step. wp_step. rewrite Hc.
    destruct Hn as [Hn|Hn]; [done|].
    assert (timer (timers (ticked n1 (s <| device := d1 |>))) =
      timer (timers s) - Z.of_nat n1) as Ht.
    { cbn [ticked timers update updater]. rewrite Htm by lia. lia. }
    rewrite Ht. unfold c_true. destruct (Z.eqb_spec (timer (timers s) - Z.of_nat n1) 0); [lia|].
    cbn [negb andb]. eapply IH; [done|exact E1|done|done|lia| |done].
    right. rewrite Ht. lia.
Qed.

(** The response of a command. *)
Lemma wp_response rs : forall k d n d' Q s,
  at_card ct true d s -> talk d (fill (S (length rs))) = (rs ++ [0], n, d') ->
  Forall (fun b => Z.land b 128 <> 0) rs -> (length rs < k)%nat ->
  (forall s', at_card ct true d' s' -> Q 0 s') -> wp (response k) Q s.
Proof.
  induction rs as [|r rs IH]; intros k d n d' Q s Ha E Hr Hk HQ; destruct k as [|k];
    cbn [length] in Hk; try lia; cbn [response]; unfold rcvr_spi.
  - eapply wp_talk; [done|exact E|]. intros n1 n2 d1 Ha1 E1 _. injection E1 as <- <-.
    destruct k; by apply wp_ret, HQ.
  - apply list.Forall_cons in Hr as [Hr Hrs].
    eapply wp_talk; [done|exact E|]. intros n1 n2 d1 Ha1 E1 _.
    destruct k as [|k]; [lia|]. destruct (Z.eqb_spec (Z.land r 128) 0); [done|]. cbn [negb].
    eapply IH; [done|exact E1|done|lia|done].
Qed.
End at_card.
End primitives.

(** ** The driver's operations *)

Section operations.
Context {D : Type} `{SpiDevice D} (polls : nat) `{!SdProtocol D polls}.
Variable ct : Z.
Implicit Types (s : sdcard D) (m : Z -> list Z).

(** Waiting for a busy card makes it ready. *)
Definition settled (p : card_phase) : card_phase :=
  match p with Busy => Ready | _ => p end.

Lemma at_card_timer2 sel d n s :
  at_card ct sel d s ->
  at_card ct sel d (s <| timers ::= fun t => t <| Timer2 := n |> |>).
Proof. by intros ([] & ? & ?). Qed.

Lemma at_card_timer1 sel d n s :
  at_card ct sel d s ->
  at_card ct sel d (s <| timers ::= fun t => t <| Timer1 := n |> |>).
Proof. by intros ([] & ? & ?). Qed.

Lemma wp_wait_ready p m d s Q :
  at_card ct true d s -> phase d p m ->
  (forall d' s', at_card ct true d' s' -> phase d' (settled p) m -> Q 255 s') ->
  wp (wait_ready polls) Q s.
Proof.
  intros Ha Hp HQ. unfold wait_ready. wp_step. wp_step.
  apply (at_card_timer2 _ _ 50) in Ha. set (s0 := update _ _ _) in *.
  assert (Timer2 (timers s0) = 50) as Ht0 by done. clearbody s0. unfold rcvr_spi.
  (* the first byte, and then the loop *)
  assert (exists b ins n d', talk d (fill (S (S (length ins)))) = (b :: ins ++ [255], n, d') /\
    Forall (fun b => b <> 255) ins /\ (length ins < polls)%nat /\
    (ins = [] \/ (n < 50)%nat) /\ phase d' (settled p) m) as Hloop.
  { pose proof (some_polls (D := D) (polls := polls)) as Hpo.
    assert (forall d, phase d Ready m -> exists n d', exchange d true 255 = (255, n, d') /\
      phase d' Ready m) as Hready by (intros d0 Hd; by apply (poll_ready d0 Ready m Hd)).
    assert (p = Busy \/ p <> Busy) as [->|Hb] by (destruct p; [right|left|right]; done).
    - destruct (poll_busy d m Hp) as (ins & n & d1 & E & Hi & Hl & Hn & Hd1).
      destruct ins as [|b ins].
      + destruct (Hready d1 Hd1) as (n2 & d2 & E2 & Hd2).
        exists 255, [], (n + (n2 + 0))%nat, d2. cbn [length app fill repeat] in *.
        rewrite (talk_app d [255] [255]), E. cbn [talk]. rewrite E2.
        split; [done|]. split; [constructor|]. split; [lia|]. by split; [left|].
      + apply list.Forall_cons in Hi as [_ Hi]. cbn [length] in *.
        exists b, ins, n, d1. split; [exact E|]. split; [done|]. split; [lia|].
        split; [by right|done].
    - destruct (poll_ready d p m Hp Hb) as (n1 & d1 & E1 & Hd1).
      destruct (poll_ready d1 p m Hd1 Hb) as (n2 & d2 & E2 & Hd2).
      exists 255, [], (n1 + (n2 + 0))%nat, d2. cbn [length fill repeat talk app].
      rewrite E1, E2. split; [done|]. split; [constructor|]. split; [lia|].
      split; [by left|by destruct p]. }
  destruct Hloop as (b & ins & n & d2 & E & Hi & Hl & Hn & Hd2).
  eapply wp_talk; [done|exact E|]. intros n1 n2 d1 Ha1 E1 Hsum.
  eapply (wp_receive_while ct _ Timer2 polls timer2_counts ins 255 d1 n2 d2);
    [done|exact E1| |done|done| |].
  - eapply List.Forall_impl; [|exact Hi]. intros c Hc. cbv beta.
    by destruct (Z.eqb_spec c 255).
  - destruct Hn as [Hn|Hn]; [by left|right]. cbn [ticked timers update updater].
    rewrite timer2_counts by (rewrite Ht0; lia). rewrite Ht0. lia.
  - intros s' Hs'. by eapply HQ.
Qed.

(** A command, given what the card says to its packet once it is ready. *)
Lemma wp_send_packet cmd arg p m sel d s Q :
  cmd <> CMD8 -> cmd <> CMD0 -> cmd <> CMD12 ->
  at_card ct sel d s -> phase d p m -> settled p = Ready ->
  (forall d1, phase d1 Ready m -> exists pre rs n d2,
     talk d1 (frame cmd arg ++ fill (S (length rs))) = (pre ++ rs ++ [0], n, d2) /\
     length pre = 6%nat /\ Forall (fun b => Z.land b 128 <> 0) rs /\ (length rs < 10)%nat /\
     forall s', at_card ct true d2 s' -> Q 0 s') ->
  wp (send_packet polls cmd arg) Q s.
Proof.
  intros N8 N0 N12 Ha Hp Hset HQ. unfold send_packet.
  wp_step. wp_step. wp_step. wp_step. wp_step.
  eapply (wp_wait_ready p m d); [|done|].
  { by destruct Ha as ([] & ? & ?). }
  intros d1 s1 Ha1 Hp1. rewrite Hset in Hp1. rewrite Z.eqb_refl. cbn [negb].
  destruct (HQ d1 Hp1) as (pre & rs & n & d2 & E & Hpre & Hrs & Hl & Hfin). clear HQ.
  do 7 (destruct pre as [|? pre]; [try done|]); [|done]. clear Hpre.
  unfold frame in E. cbn [app] in E.
  do 5 (eapply wp_xmit; [done|exact E|]; clear - H SdProtocol0 N8 N0 N12 Hrs Hl Hfin; intros ? ? ? ? E; cbn [tail] in E).
  destruct (Z.eqb_spec cmd CMD8); [done|]. destruct (Z.eqb_spec cmd CMD0); [done|].
  destruct (Z.eqb_spec cmd CMD12); [done|].
  eapply wp_xmit; [done|exact E|]. clear E. intros s3 d3 n3 Ha3 E. cbn [tail] in E.
  wp_step. wp_step. by eapply wp_response.
Qed.

Lemma wp_release p m d s Q :
  at_card ct true d s -> phase d p m ->
  (forall d' s', at_card ct false d' s' -> phase d' p m -> Q tt s') ->
  wp release_spi Q s.
Proof.
  intros Ha Hp HQ. unfold release_spi. wp_step. wp_step. wp_step. unfold rcvr_spi.
  set (s1 := s <| selected := false |>).
  assert (at_card ct false d s1) as Ha1 by (by destruct Ha as ([] & ? & ?)).
  pose proof (poll_released d m p Hp) as Hr.
  destruct (exchange d false 255) as [[b n] d'] eqn:E.
  eapply wp_exchange; [exact Ha1|exact E|]. intros Ha2. apply wp_ret. by eapply HQ.
Qed.

(** A command byte without the flag of application commands is sent as it is. *)
Lemma plain_cmd cmd arg : Z.land cmd 128 = 0 -> send_cmd polls cmd arg = send_packet polls cmd arg.
Proof. intros E. unfold send_cmd. by rewrite E. Qed.

Lemma wp_datablock m a d acc crc n d' s Q :
  at_card ct true d s ->
  talk d (fill (S (length acc)) ++ fill 512 ++ fill 2) = ((acc ++ [254]) ++ m a ++ crc, n, d') ->
  length (m a) = 512%nat -> Forall (fun b => b = 255) acc -> (length acc < polls)%nat ->
  (n < 10)%nat ->
  (forall s', at_card ct true d' s' -> Q (Some (m a)) s') ->
  wp (rcvr_datablock polls 512) Q s.
Proof.
  intros Ha E Hm Hacc Hl Hn HQ. unfold rcvr_datablock. wp_step. wp_step.
  apply (at_card_timer1 _ _ 10) in Ha. set (s0 := update _ _ _) in *.
  assert (Timer1 (timers s0) = 10) as Ht0 by done. clearbody s0.
  apply talk_split in E as (n1 & n2 & d1 & E1 & E2 & Hsum);
    [|by rewrite length_app, fill_length; cbn; lia].
  apply talk_split in E2 as (n3 & n4 & d2 & E2 & E3 & _); [|by rewrite fill_length].
  wp_step. eapply (wp_receive_while ct _ Timer1 polls timer1_counts acc 254 d n1 d1);
    [done|exact E1| |done|done| |].
  - eapply List.Forall_impl; [|exact Hacc]. intros c ->. done.
  - right. rewrite Ht0. lia.
  - intros s1 Ha1. cbn [negb Z.eqb Pos.eqb]. wp_step.
    eapply wp_rcvr_block; [exact Ha1|exact E2|]. intros s2 Ha2. unfold rcvr_spi.
    destruct crc as [|c1 [|c2 [|? ?]]]; cbn [fill repeat] in E3;
      try (pose proof (talk_length d2 [255; 255]) as L; rewrite E3 in L; cbn in L; lia).
    eapply wp_talk; [exact Ha2|exact E3|]. intros n5 n6 d3 Ha3 E4 _.
    eapply wp_talk; [exact Ha3|exact E4|]. intros n7 n8 d4 Ha4 E5 _.
    injection E5 as <- <-. by apply wp_ret, HQ.
Qed.

(** The card between two calls. *)
Definition mounted m s : Prop :=
  exists sel d p, at_card ct sel d s /\ phase d p m /\ settled p = Ready.

Lemma wp_read_sector m sector s Q :
  mounted m s -> address_ok (card_address ct sector) ->
  (forall s', mounted m s' -> Q (RES_OK, m (card_address ct sector)) s') ->
  wp (MMC_disk_read polls sector 1) Q s.
Proof.
  intros (sel & d & p & Ha & Hp & Hset) Hok HQ. unfold MMC_disk_read, get_Stat.
  wp_step. wp_step. wp_step. wp_step.
  destruct Ha as ([Hct Hi Hw] & Hd & Hsel). rewrite Hi, Hct.
  change (1 =? 0) with false. change (c_true 0) with false. change (1 =? 1) with true.
  cbv iota zeta. wp_step. wp_step. rewrite plain_cmd by done. set (a := card_address ct sector) in *.
  eapply (wp_send_packet CMD17 a p m sel d); [done|done|done|by split|done|done|].
  intros d1 Hp1.
  destruct (read_block d1 m a Hp1 Hok) as
    (pre & rs & acc & crc & n & d2 & E & Hpre & Hcrc & Hm & Hrs & Hl & Hacc & Hl2 & Hn & Hp2).
  rewrite (app_assoc (frame _ _)), (app_assoc pre) in E.
  apply talk_split in E as (n1 & n2 & d3 & E1 & E2 & Hsum);
    [|rewrite !length_app, fill_length, Hpre; cbn; lia].
  exists pre, rs, n1, d3. split; [exact E1|]. split; [done|]. split; [done|]. split; [done|].
  intros s1 Ha1. change (0 =? 0) with true. cbv iota. wp_step.
  eapply (wp_datablock m a d3 acc crc n2 d2); [done|exact E2|done|done|done|lia|].
  intros s2 Ha2. wp_step. cbv beta iota. wp_step.
  eapply (wp_release Ready m d2); [done|done|]. intros d4 s3 Ha3 Hp3. apply wp_ret, HQ.
  by exists false, d4, Ready.
Qed.

Lemma wp_write_sector m bs sector s Q :
  mounted m s -> address_ok (card_address ct sector) -> length bs = 512%nat ->
  (forall s', mounted (put_block (card_address ct sector) bs m) s' -> Q RES_OK s') ->
  wp (MMC_disk_write polls bs sector 1) Q s.
Proof.
  intros (sel & d & p & Ha & Hp & Hset) Hok Hbs HQ. unfold MMC_disk_write, get_Stat.
  wp_step. wp_step. wp_step. wp_step.
  destruct Ha as ([Hct Hi Hw] & Hd & Hsel). rewrite Hi, Hct, Hw.
  change (1 =? 0) with false. change (c_true 0) with false. change (1 =? 1) with true.
  cbv iota zeta. wp_step. wp_step. rewrite plain_cmd by done. set (a := card_address ct sector) in *.
  eapply (wp_send_packet CMD24 a p m sel d); [done|done|done|by split|done|done|].
  intros d1 Hp1.
  destruct (write_command d1 m a Hp1 Hok) as (pre & rs & n & d2 & E & Hpre & Hrs & Hl & Hp2).
  exists pre, rs, n, d2. split; [exact E|]. split; [done|]. split; [done|]. split; [done|].
  intros s1 Ha1. change (0 =? 0) with true. cbv iota. wp_step. unfold xmit_datablock. wp_step.
  eapply (wp_wait_ready (Receiving a) m d2); [done|done|]. intros d3 s2 Ha2 Hp3.
  rewrite Z.eqb_refl. cbn [negb settled] in *. rewrite take_ge by lia.
  destruct (write_data d3 m a bs Hp3 Hbs) as (pre2 & r & n2 & d4 & E4 & Hr & Hp4).
  assert (length pre2 = 515%nat) as Lp.
  { pose proof (talk_length d3 ([254] ++ bs ++ [255; 255] ++ [255])) as L.
    rewrite E4 in L. cbn [fst] in L. rewrite !length_app, Hbs in L. cbn in L. lia. }
  change ([254] ++ bs ++ [255; 255] ++ [255]) with (254 :: bs ++ [255; 255; 255]) in E4.
  eapply wp_xmit; [done|exact E4|]. intros s3 d5 n3 Ha5 E5.
  destruct pre2 as [|b0 pre2]; [done|]. cbn [tail app length] in E5, Lp.
  change (negb (254 =? 253)) with true. cbv iota. wp_step.
  rewrite <- (take_drop 512 pre2), <- app_assoc in E5.
  apply talk_split in E5 as (n4 & n5 & d6 & E5 & E6 & _); [|rewrite length_take; lia].
  eapply wp_xmit_block; [done|exact E5|]. intros s4 Ha6.
  eapply wp_xmit; [done|exact E6|]. intros s5 d7 n7 Ha7 E7.
  eapply wp_xmit; [done|exact E7|]. intros s6 d8 n8 Ha8 E8.
  assert (tail (tail (drop 512 pre2 ++ [r])) = [r]) as Ht.
  { assert (length (drop 512 pre2) = 2%nat) as L2 by (rewrite length_drop; lia).
    destruct (drop 512 pre2) as [|? [|? [|]]]; done. }
  rewrite Ht in E8. unfold rcvr_spi. eapply wp_talk; [done|exact E8|].
  intros n9 n10 d9 Ha9 E9 _. injection E9 as <- <-. wp_step. rewrite Hr.
  change (5 =? 5) with true. wp_step. wp_step.
  eapply (wp_release Busy _ d9); [done|exact Hp4|]. intros d10 s7 Ha10 Hp10. apply wp_ret, HQ.
  by exists false, d10, Busy.
Qed.
End operations.

(** ** The array of sectors *)

Inductive disk_call := ReadSector (sector : Z) | WriteSector (sector : Z) (bs : list Z).

Section array.
Context {D : Type} `{SpiDevice D} (polls : nat) `{!SdProtocol D polls}.
Variable ct : Z.

(** The calls on the driver, and on an array of blocks. *)
Fixpoint disk_run (calls : list disk_call) : driver D (list (DRESULT * list Z)) :=
  match calls with
  | [] => mret []
  | ReadSector x :: calls =>
      r ← MMC_disk_read polls x 1; rs ← disk_run calls; mret (r :: rs)
  | WriteSector x bs :: calls =>
      r ← MMC_disk_write polls bs x 1; rs ← disk_run calls; mret ((r, []) :: rs)
  end.

Fixpoint array_run (g : Z -> list Z) (calls : list disk_call)
  : list (DRESULT * list Z) * (Z -> list Z) :=
  match calls with
  | [] => ([], g)
  | ReadSector x :: calls =>
      let '(rs, g') := array_run g calls in ((RES_OK, g x) :: rs, g')
  | WriteSector x bs :: calls =>
      let '(rs, g') := array_run (put_block x bs g) calls in ((RES_OK, []) :: rs, g')
  end.

(** Where the block of a sector is on the card: the command of a block
    addressed card takes the number of the block, otherwise that of its first
    byte. *)
Definition block_address (x : Z) : Z := if c_true (Z.land ct CT_BLOCK) then x else 512 * x.

(** A sector that the card has and whose address has 32 bits. *)
Definition sector_ok (x : Z) : Prop :=
  0 <= block_address x < 2 ^ 32 /\ address_ok (block_address x).

Definition call_ok (c : disk_call) : Prop :=
  match c with
  | ReadSector x => sector_ok x
  | WriteSector x bs => sector_ok x /\ length bs = 512%nat
  end.

Lemma card_address_block x : sector_ok x -> card_address ct x = block_address x.
Proof.
  intros [Hx _]. unfold card_address, block_address in *. destruct (c_true _); [done|].
  rewrite u32_small; lia.
Qed.

Lemma block_address_inj x y : block_address x = block_address y -> x = y.
Proof. unfold block_address. destruct (c_true _); lia. Qed.

(** The array [g] is what is on the card. *)
Definition shows (g m : Z -> list Z) : Prop :=
  forall x, sector_ok x -> g x = m (block_address x).

Lemma shows_put g m x bs :
  shows g m -> sector_ok x -> shows (put_block x bs g) (put_block (block_address x) bs m).
Proof.
  intros Hg Hx y Hy. unfold put_block. destruct (Z.eqb_spec y x) as [->|Hn].
  - by rewrite Z.eqb_refl.
  - destruct (Z.eqb_spec (block_address y) (block_address x)) as [E|]; [|by apply Hg].
    by apply block_address_inj in E.
Qed.

Lemma disk_run_array calls : forall g m s,
  mounted polls ct m s -> shows g m -> Forall call_ok calls ->
  wp (disk_run calls) (fun rs s' => rs = fst (array_run g calls) /\
    exists m', mounted polls ct m' s' /\ shows (snd (array_run g calls)) m') s.
Proof.
  induction calls as [|c calls IH]; intros g m s Hm Hg Hok; cbn [disk_run array_run].
  { apply wp_ret. split; [done|]. by exists m. }
  apply list.Forall_cons in Hok as [Hc Hok]. destruct c as [x|x bs]; wp_step.
  - eapply (wp_read_sector polls ct m x s); rewrite ?(card_address_block x Hc);
      [done|apply Hc|]. intros s1 Hm1. wp_step.
    specialize (IH g m s1 Hm1 Hg Hok).
    eapply wp_mono; [exact IH|]. cbv beta. intros rs s2 (-> & Hm2). apply wp_ret.
    destruct (array_run g calls) as [rs2 g2]. cbn [fst snd] in *. split; [|done].
    by rewrite (Hg x Hc).
  - destruct Hc as [Hc Hbs].
    eapply (wp_write_sector polls ct m bs x s); rewrite ?(card_address_block x Hc);
      [done|apply Hc|done|]. intros s1 Hm1. wp_step.
    specialize (IH (put_block x bs g) _ s1 Hm1 (shows_put g m x bs Hg Hc) Hok).
    eapply wp_mono; [exact IH|]. cbv beta. intros rs s2 (-> & Hm2). apply wp_ret.
    by destruct (array_run _ calls) as [rs2 g2].
Qed.
End array.

(** C13: The card driver makes an array of sectors of a card. With a card that
    keeps the protocol, block or byte addressed, and from a mounted state, every
    sequence of reads and writes of single sectors ends, reports success, and
    returns what an array of 512-byte blocks returns: a sector reads as it was
    last written, and writing a sector changes no other. The card is mounted
    again afterwards, whatever time-outs, busy periods and ticks happened. *)
Theorem sectors_are_an_array {D : Type} `{SpiDevice D} (polls : nat) `{!SdProtocol D polls}
  (ct : Z) (calls : list disk_call) (g m : Z -> list Z) (s : sdcard D)
  (Hmount : mounted polls ct m s) (Hshow : shows polls ct g m)
  (Hcalls : Forall (call_ok polls ct) calls) :
  exists s' m', disk_run polls calls s = Some (fst (array_run g calls), s') /\
    mounted polls ct m' s' /\ shows polls ct (snd (array_run g calls)) m'.
Proof.
  destruct (disk_run_array polls ct calls g m s Hmount Hshow Hcalls)
    as (rs & s' & E & -> & m' & Hm & Hs).
  by exists s', m'.
Qed.

(** ** A concrete card

    Byte by byte: it collects a packet, answers reads and writes of blocks after
    one filler, takes a block, and is busy for two bytes. *)

Module demo.
Inductive mode :=
  | Idle
  | Command (got : list Z)
  | Reply (q : list Z) (then_receive : option Z)
  | WaitToken (a : Z)
  | Data (a : Z) (got : list Z).

Record card := mk_card { memory : Z -> list Z; state : mode }.
#[export] Instance eta_card : Eta card := fun c => mk_card (memory c) (state c).

Definition after_reply (t : option Z) : mode :=
  match t with None => Idle | Some a => WaitToken a end.

Definition start_command (got : list Z) (c : card) : mode :=
  let a := Z.shiftl (arr got 1) 24 + Z.shiftl (arr got 2) 16 + Z.shiftl (arr got 3) 8 + arr got 4 in
  if arr got 0 =? CMD17 then Reply ([255; 0; 255; 254] ++ memory c a ++ [0; 0]) None
  else if arr got 0 =? CMD24 then Reply [255; 0] (Some a)
  else Reply [255; 4] None.

Definition card_exchange (c : card) (sel : bool) (out : Z) : Z * nat * card :=
  if negb sel then (255, O, c)
  else match state c with
  | Idle => if out =? 255 then (255, O, c) else (255, O, c <| state := Command [out] |>)
  | Command got =>
      let got := got ++ [out] in
      (255, O, c <| state := if (length got =? 6)%nat then start_command got c else Command got |>)
  | Reply [] t => (255, O, c <| state := after_reply t |>)
  | Reply [b] t => (b, O, c <| state := after_reply t |>)
  | Reply (b :: q) t => (b, O, c <| state := Reply q t |>)
  | WaitToken a => (255, O, if out =? 254 then c <| state := Data a [] |> else c)
  | Data a got =>
      let got := got ++ [out] in
      (255, O,
       if (length got =? 514)%nat
       then mk_card (put_block a (take 512 got) (memory c)) (Reply [229; 0; 0] None)
       else c <| state := Data a got |>)
  end.

#[export] Instance card_device : SpiDevice card := {| exchange := card_exchange |}.

Definition full (m : Z -> list Z) : Prop := forall a, length (m a) = 512%nat.

Definition in_phase (c : card) (p : card_phase) (m : Z -> list Z) : Prop :=
  full m /\ (forall a, memory c a = m a) /\
  match p with
  | Ready => state c = Idle
  | Busy => state c = Idle \/ state c = Reply [0; 0] None \/ state c = Reply [0] None
  | Receiving a => state c = WaitToken a
  end.

Lemma talk_reply q : q <> [] -> forall (mm : Z -> list Z) t,
  talk (mk_card mm (Reply q t)) (fill (length q)) = (q, O, mk_card mm (after_reply t)).
Proof.
  induction q as [|b q IH]; intros Hq mm t; [done|]. destruct q as [|b2 q]; [done|].
  change (fill (length (b :: b2 :: q))) with (255 :: fill (length (b2 :: q))).
  cbn [talk exchange card_device card_exchange negb state update updater memory eta_card].
  by rewrite IH.
Qed.

Lemma talk_data a outs : forall (mm : Z -> list Z) got,
  outs <> [] -> (length got + length outs = 514)%nat ->
  talk (mk_card mm (Data a got)) outs =
  (fill (length outs), O,
   mk_card (put_block a (take 512 (got ++ outs)) mm) (Reply [229; 0; 0] None)).
Proof.
  induction outs as [|o outs IH]; intros mm got Ho Hl; [done|].
  cbn [talk exchange card_device card_exchange negb state]. rewrite length_app. cbn [length] in *.
  destruct outs as [|o2 outs].
  - destruct (Nat.eqb_spec (length got + 1) 514); [done|cbn in Hl; lia].
  - destruct (Nat.eqb_spec (length got + 1) 514); [cbn in Hl; lia|].
    cbn [update updater eta_card memory state].
    rewrite IH; [|done|rewrite length_app; cbn in *; lia]. by rewrite <- app_assoc.
Qed.

(** The address in a packet is put together again. *)
Lemma address_bytes a : 0 <= a < 2 ^ 32 ->
  Z.shiftl (u8 (Z.shiftr a 24)) 24 + Z.shiftl (u8 (Z.shiftr a 16)) 16
  + Z.shiftl (u8 (Z.shiftr a 8)) 8 + u8 a = a.
Proof.
  intros Ha. rewrite !Z.shiftr_div_pow2, !Z.shiftl_mul_pow2 by lia. unfold u8.
  Z.div_mod_to_equations. lia.
Qed.

Lemma start_frame c cmd a : 0 <= a < 2 ^ 32 ->
  start_command (frame cmd a) c =
  if cmd =? CMD17 then Reply ([255; 0; 255; 254] ++ memory c a ++ [0; 0]) None
  else if cmd =? CMD24 then Reply [255; 0] (Some a) else Reply [255; 4] None.
Proof.
  intros Ha. unfold start_command.
  change (arr (frame cmd a) 1) with (u8 (Z.shiftr a 24)).
  change (arr (frame cmd a) 2) with (u8 (Z.shiftr a 16)).
  change (arr (frame cmd a) 3) with (u8 (Z.shiftr a 8)).
  change (arr (frame cmd a) 4) with (u8 a). change (arr (frame cmd a) 0) with cmd.
  by rewrite address_bytes.
Qed.

Lemma talk_frame (mm : Z -> list Z) cmd a : cmd <> 255 -> 0 <= a < 2 ^ 32 ->
  talk (mk_card mm Idle) (frame cmd a) = (fill 6, O, mk_card mm
    (if cmd =? CMD17 then Reply ([255; 0; 255; 254] ++ mm a ++ [0; 0]) None
     else if cmd =? CMD24 then Reply [255; 0] (Some a) else Reply [255; 4] None)).
Proof.
  intros Hc Ha. unfold frame. cbn [talk exchange card_device card_exchange negb state].
  destruct (Z.eqb_spec cmd 255); [done|].
  cbn [update updater eta_card memory state app length Nat.eqb talk card_exchange negb].
  fold (frame cmd a). rewrite start_frame by done. reflexivity.
Qed.

#[export] Program Instance card_protocol : SdProtocol card 5 := {|
  phase := in_phase;
  address_ok := fun a => 0 <= a < 2 ^ 32
|}.
Next Obligation. lia. Qed.
Next Obligation.
  intros [mm st] p m (Hf & Hm & Hp) Hb. exists O, (mk_card mm st). split; [|by split].
  cbn in *. destruct p; [by subst st|done|by subst st].
Qed.
Next Obligation.
  intros [mm st] m (Hf & Hm & Hs). cbn [state memory] in *. destruct Hs as [->|[->| ->]].
  - exists [], O, (mk_card mm Idle). split; [done|]. split; [constructor|]. split; [cbn; lia|].
    split; [lia|done].
  - exists [0; 0], O, (mk_card mm Idle). split; [done|]. split; [by repeat constructor|].
    split; [cbn; lia|]. split; [lia|done].
  - exists [0], O, (mk_card mm Idle). split; [done|]. split; [by repeat constructor|].
    split; [cbn; lia|]. split; [lia|done].
Qed.
Next Obligation. done. Qed.
Next Obligation.
  intros [mm st] m a (Hf & Hm & Hs) Ha. cbn [memory state] in *. subst st.
  exists (fill 6), [255], [255], [0; 0], O, (mk_card mm Idle).
  split.
  - rewrite talk_app, talk_frame by done. change (CMD17 =? CMD17) with true. cbv iota.
    rewrite Hm. set (q := [255; 0; 255; 254] ++ m a ++ [0; 0]).
    replace (fill (S (length [255])) ++ fill (S (length [255])) ++ fill 512 ++ fill 2)
      with (fill (length q)).
    + rewrite talk_reply by done. subst q. cbn. reflexivity.
    + subst q. rewrite !length_app, (Hf a). reflexivity.
  - split; [done|]. split; [done|]. split; [apply Hf|]. split; [by repeat constructor|].
    split; [cbn; lia|]. split; [by repeat constructor|]. split; [cbn; lia|]. split; [lia|done].
Qed.
Next Obligation.
  intros [mm st] m a (Hf & Hm & Hs) Ha. cbn [memory state] in *. subst st.
  exists (fill 6), [255], O, (mk_card mm (WaitToken a)). split.
  - rewrite talk_app, talk_frame by done. reflexivity.
  - split; [done|]. split; [by repeat constructor|]. split; [cbn; lia|done].
Qed.
Next Obligation.
  intros [mm st] m a bs (Hf & Hm & Hs) Hb. cbn [memory state] in *. subst st.
  exists (255 :: fill 514), 229, O, (mk_card (put_block a bs mm) (Reply [0; 0] None)).
  split.
  - rewrite talk_app. cbn [talk exchange card_device card_exchange negb state Z.eqb Pos.eqb].
    cbn [update updater eta_card memory state].
    rewrite app_assoc, talk_app.
    rewrite (talk_data a (bs ++ [255; 255]) mm []) by
      (first [by destruct bs | rewrite length_app, Hb; done]).
    rewrite length_app, Hb. cbn [app]. rewrite take_app_le, take_ge by lia. reflexivity.
  - split; [done|]. split; [|split; [|by right; left]].
    + intros x. unfold put_block. destruct (x =? a); [done|apply Hf].
    + intros x. cbn [memory]. unfold put_block. by destruct (x =? a).
Qed.

(** A byte addressed card full of zeros. *)
Definition blank : Z -> list Z := fun _ => repeat 0 512.
Definition inserted : sdcard card :=
  mk_sdcard (mk_disk 0 0 0) CT_SD1 false (mk_card blank Idle).

Lemma sectors_are_an_array_witness :
  exists s', disk_run 5 [WriteSector 5 (repeat 7 512); ReadSector 5; ReadSector 6] inserted
    = Some ([(RES_OK, []); (RES_OK, repeat 7 512); (RES_OK, repeat 0 512)], s').
Proof.
  destruct (sectors_are_an_array 5 CT_SD1
    [WriteSector 5 (repeat 7 512); ReadSector 5; ReadSector 6] blank blank inserted)
    as (s' & _ & E & _).
  - exists false, (mk_card blank Idle), Ready. by repeat split.
  - by intros x.
  - assert (sector_ok 5 CT_SD1 5 /\ sector_ok 5 CT_SD1 6) as [H5 H6]
      by (split; vm_compute; repeat split; done).
    by repeat (apply list.Forall_cons; split).
  - by exists s'.
Defined.
End demo.
