(* ===== verification/UsbDevice.v ===== *)
(** * The USB device

    The control endpoint of LPCUSB (usbcontrol.c, usbstdreq.c, usbinit.c), the
    interrupt handler and the read loop of its hardware layer (usbhw_lpc.c), and
    the serial class on top of them (R2C2/src/usb.c). The other functions of the
    hardware layer, sequences of register accesses, are events of a trace. *)

From S2P Require Import Prelude SerialFifo.

(** ** Constants *)

Definition MAX_PACKET_SIZE0 : Z := 64.

Definition REQTYPE_GET_DIR (x : Z) : Z := Z.land (Z.shiftr x 7) 1.
Definition REQTYPE_GET_TYPE (x : Z) : Z := Z.land (Z.shiftr x 5) 3.
Definition REQTYPE_GET_RECIP (x : Z) : Z := Z.land x 31.
Definition REQTYPE_DIR_TO_HOST : Z := 1.
Definition REQTYPE_TYPE_STANDARD : Z := 0.
Definition REQTYPE_TYPE_CLASS : Z := 1.
Definition REQTYPE_RECIP_DEVICE : Z := 0.
Definition REQTYPE_RECIP_INTERFACE : Z := 1.
Definition REQTYPE_RECIP_ENDPOINT : Z := 2.

Definition REQ_GET_STATUS : Z := 0.
Definition REQ_CLEAR_FEATURE : Z := 1.
Definition REQ_SET_FEATURE : Z := 3.
Definition REQ_SET_ADDRESS : Z := 5.
Definition REQ_GET_DESCRIPTOR : Z := 6.
Definition REQ_GET_CONFIGURATION : Z := 8.
Definition REQ_SET_CONFIGURATION : Z := 9.
Definition REQ_GET_INTERFACE : Z := 10.
Definition REQ_SET_INTERFACE : Z := 11.
Definition FEA_ENDPOINT_HALT : Z := 0.

Definition DESC_DEVICE : Z := 1.
Definition DESC_CONFIGURATION : Z := 2.
Definition DESC_STRING : Z := 3.
Definition DESC_INTERFACE : Z := 4.
Definition DESC_ENDPOINT : Z := 5.
Definition GET_DESC_TYPE (x : Z) : Z := Z.land (Z.shiftr x 8) 255.
Definition GET_DESC_INDEX (x : Z) : Z := Z.land x 255.

Definition EP_STATUS_DATA : Z := 1.
Definition EP_STATUS_STALLED : Z := 2.
Definition EP_STATUS_SETUP : Z := 4.
Definition EP_STATUS_ERROR : Z := 8.
Definition EP_STATUS_NACKED : Z := 16.
Definition INACK_BI : Z := 32.

(** Bits of the device interrupts, of the device status and of an endpoint. *)
Definition FRAME : Z := 1.
Definition EP_SLOW : Z := 4.
Definition DEV_STAT : Z := 8.
Definition EPSTAT_FE : Z := 1.
Definition EPSTAT_ST : Z := 2.
Definition EPSTAT_STP : Z := 4.
Definition EPSTAT_PO : Z := 8.
Definition EPSTAT_EPN : Z := 16.

Definition INT_IN_EP : Z := 129.
Definition BULK_OUT_EP : Z := 5.
Definition BULK_IN_EP : Z := 130.
Definition CS_INTERFACE : Z := 36.
Definition SET_LINE_CODING : Z := 32.
Definition GET_LINE_CODING : Z := 33.
Definition SET_CONTROL_LINE_STATE : Z := 34.

Definition EP2IDX (bEP : Z) : Z :=
  Z.lor (Z.shiftl (Z.land bEP 15) 1) (Z.shiftr (Z.land bEP 128) 7).
Definition IDX2EP (idx : Z) : Z :=
  Z.lor (Z.land (Z.shiftl idx 7) 128) (Z.land (Z.shiftr idx 1) 15).

(** [a & b] as a condition. *)
Definition has (a b : Z) : bool := c_true (Z.land a b).

Definition LE_WORD (x : Z) : list Z := [Z.land x 255; Z.shiftr x 8].

(** A character and the zero byte after it. *)
Definition wide (s : string) : list Z := flat_map (fun c => [c; 0]) (bytes_of_string s).

Definition abDescriptors : list Z :=
  [18; DESC_DEVICE] ++ LE_WORD 257 ++ [2; 0; 0; MAX_PACKET_SIZE0] ++ LE_WORD 65535 ++ LE_WORD 334 ++
    LE_WORD 256 ++ [1; 2; 3; 1] ++
  [9; DESC_CONFIGURATION] ++ LE_WORD 147 ++ [2; 1; 0; 192; 50] ++
  [9; DESC_INTERFACE; 0; 0; 1; 2; 2; 1; 0] ++
  [5; CS_INTERFACE; 0] ++ LE_WORD 272 ++
  [5; CS_INTERFACE; 1; 1; 1] ++
  [4; CS_INTERFACE; 2; 2] ++
  [5; CS_INTERFACE; 6; 0; 1] ++
  [7; DESC_ENDPOINT; INT_IN_EP; 3] ++ LE_WORD 8 ++ [10] ++
  [9; DESC_INTERFACE; 1; 0; 2; 10; 0; 0; 0] ++
  [7; DESC_ENDPOINT; BULK_OUT_EP; 2] ++ LE_WORD MAX_PACKET_SIZE ++ [0] ++
  [7; DESC_ENDPOINT; BULK_IN_EP; 2] ++ LE_WORD MAX_PACKET_SIZE ++ [0] ++
  [4; DESC_STRING] ++ LE_WORD 1033 ++
  [14; DESC_STRING] ++ wide "bitBOX" ++
  [58; DESC_STRING] ++ wide "R2C2 - 3D Printer Controller" ++
  [4; DESC_STRING] ++ wide "1" ++
  [0].

(** ** State *)

(** What a data pointer of the stack can point into. *)
Inductive place := NULL | SetupData | StdReqData | ClassReqData | LineCodingData | Descriptors.
#[export] Instance place_eq_dec : EqDecision place.
Proof. solve_decision. Defined.

Record pointer := mk_pointer { at_place : place; offset : Z }.
#[export] Instance pointer_eq_dec : EqDecision pointer.
Proof. solve_decision. Defined.

Definition null_pointer : pointer := mk_pointer NULL 0.
Definition advance (n : Z) (p : pointer) : pointer := mk_pointer (at_place p) (offset p + n).

Inductive request_handler := HandleStandard | HandleClass.
Inductive endpoint_handler := ControlTransfer | BulkOutEP | BulkInEP.
#[export] Instance endpoint_handler_eq_dec : EqDecision endpoint_handler.
Proof. solve_decision. Defined.

(** The calls of the hardware layer. *)
Inductive usb_event :=
  | HwInit
  | HwEPWrite (bEP : Z) (packet : list Z)
  | EPStall (bEP : Z) (fStall : bool)
  | EPConfig (bEP wMaxPacketSize : Z)
  | EPIntEnable (idx : Z)
  | DevIntEnable (bit : Z)
  | SetAddress (bAddr : Z)
  | ConfigDevice (fConfigured : bool)
  | NakIntEnable (bIntBits : Z)
  | HwConnect (fConnect : bool)
  | EnableIRQ.

(** The static variables of the files; [happened] are the events so far. *)
Record usb := mk_usb {
  Setup : list Z;
  pbData : pointer;
  iResidue : Z;
  iLen : Z;
  apfnReqHandlers : list (option request_handler);
  apbDataStore : list pointer;
  abStdReqData : list Z;
  abClassReqData : list Z;
  LineCoding : list Z;
  bConfiguration : Z;
  pabDescrip : option (list Z);
  epHandlers : list (option endpoint_handler);
  frameHandler : bool;
  rxfifo : irq_fifo;
  txfifo : fifo_t;
  happened : list usb_event
}.
#[export] Instance eta_usb : Eta usb := fun u =>
  mk_usb (Setup u) (pbData u) (iResidue u) (iLen u) (apfnReqHandlers u) (apbDataStore u)
    (abStdReqData u) (abClassReqData u) (LineCoding u) (bConfiguration u) (pabDescrip u)
    (epHandlers u) (frameHandler u) (rxfifo u) (txfifo u) (happened u).

(** The values before [USBSerial_Init]; [LineCoding] is 115200 baud, 8 bits. *)
Definition usb_zero : usb := mk_usb
  (replicate 8 0) null_pointer 0 0 (replicate 4 None) (replicate 4 null_pointer)
  (replicate 8 0) (replicate 8 0) [0; 194; 1; 0; 0; 0; 8] 0 None
  (replicate 16 None) false (mk_irq_fifo false (mk_fifo 0 0 (replicate 256 0)))
  (mk_fifo 0 0 (replicate 256 0)) [].

Definition emit (e : usb_event) (u : usb) : usb := u <| happened ::= fun l => l ++ [e] |>.

(** ** Memory behind the pointers *)

Definition region (p : place) (u : usb) : list Z :=
  match p with
  | NULL => []
  | SetupData => Setup u
  | StdReqData => abStdReqData u
  | ClassReqData => abClassReqData u
  | LineCodingData => LineCoding u
  | Descriptors => default [] (pabDescrip u)
  end.

Definition set_region (p : place) (l : list Z) (u : usb) : option usb :=
  match p with
  | SetupData => Some (u <| Setup := l |>)
  | StdReqData => Some (u <| abStdReqData := l |>)
  | ClassReqData => Some (u <| abClassReqData := l |>)
  | LineCodingData => Some (u <| LineCoding := l |>)
  | NULL | Descriptors => None
  end.

(** [n] bytes at [p]; [None] is an access outside the array. *)
Definition bytes_at (p : pointer) (n : Z) (u : usb) : option (list Z) :=
  let l := region (at_place p) u in
  if n =? 0 then Some []
  else if (0 <=? n) && (0 <=? offset p) && (offset p + n <=? Z.of_nat (length l)) then
    Some (take (Z.to_nat n) (drop (Z.to_nat (offset p)) l))
  else None.

Definition overwrite (l : list Z) (i : nat) (bs : list Z) : list Z :=
  take i l ++ bs ++ drop (i + length bs) l.

Definition write_bytes (p : pointer) (bs : list Z) (u : usb) : option usb :=
  let l := region (at_place p) u in
  match bs with
  | [] => Some u
  | _ =>
      if (0 <=? offset p) && (offset p + Z.of_nat (length bs) <=? Z.of_nat (length l)) then
        set_region (at_place p) (overwrite l (Z.to_nat (offset p)) bs) u
      else None
  end.

(** ** The hardware *)

(** What the hardware shows while an interrupt is served: the packets in the
    endpoint buffers ([None] is one without the valid bit), and the answers to
    the select command. *)
Record bus := mk_bus { packet : Z -> option (list Z); selected : Z -> Z }.

(** [USBHwEPRead] stores at most [iMaxLen] bytes of the packet and returns the
    length of the packet. *)
Definition USBHwEPRead (i : bus) (bEP : Z) (pbBuf : pointer) (iMaxLen : Z) (u : usb) : option (Z * usb) :=
  match packet i (EP2IDX bEP) with
  | None => Some (-1, u)
  | Some bs =>
      if bool_decide (pbBuf = null_pointer) then Some (Z.of_nat (length bs), u)
      else u ← write_bytes pbBuf (take (Z.to_nat iMaxLen) bs) u; Some (Z.of_nat (length bs), u)
  end.

Definition USBHwEPGetStatus (i : bus) (bEP : Z) : Z := selected i (EP2IDX bEP).

(** [USBHwEPWrite]; the transmit register takes words, and what it reads past
    the packet is not sent. *)
Definition USBHwEPWrite (bEP : Z) (pbBuf : pointer) (iLen : Z) (u : usb) : option usb :=
  bs ← bytes_at pbBuf iLen u; Some (emit (HwEPWrite bEP bs) u).

(** ** The setup packet *)

Definition word (l : list Z) (i : Z) : Z := Z.lor (arr l i) (Z.shiftl (arr l (i + 1)) 8).

Definition bmRequestType (u : usb) : Z := arr (Setup u) 0.
Definition bRequest (u : usb) : Z := arr (Setup u) 1.
Definition wValue (u : usb) : Z := word (Setup u) 2.
Definition wIndex (u : usb) : Z := word (Setup u) 4.
Definition wLength (u : usb) : Z := word (Setup u) 6.

(** ** Standard requests (usbstdreq.c)

    A handler works on [iLen] and [pbData] through pointers; it returns whether
    the request was handled. *)

Definition USBRegisterDescriptors (d : list Z) (u : usb) : usb := u <| pabDescrip := Some d |>.

(** The loop of [USBGetDescriptor] from offset [pab]; [None] is a read past the
    end of the block. *)
Fixpoint seek_descriptor (fuel : nat) (d : list Z) (bType bIndex pab iCurIndex : Z) : option (option (Z * Z)) :=
  match fuel with
  | O => None
  | S fuel =>
      len ← d !! Z.to_nat pab;
      if len =? 0 then Some None
      else
        type ← d !! Z.to_nat (pab + 1);
        if (type =? bType) && (iCurIndex =? bIndex) then
          if bType =? DESC_CONFIGURATION then
            lo ← d !! Z.to_nat (pab + 2); hi ← d !! Z.to_nat (pab + 3);
            Some (Some (pab, Z.lor lo (Z.shiftl hi 8)))
          else Some (Some (pab, len))
        else seek_descriptor fuel d bType bIndex (pab + len)
               (if type =? bType then iCurIndex + 1 else iCurIndex)
  end.

Definition USBGetDescriptor (wTypeIndex : Z) (u : usb) : option (bool * usb) :=
  d ← pabDescrip u;
  r ← seek_descriptor (length d) d (GET_DESC_TYPE wTypeIndex) (GET_DESC_INDEX wTypeIndex) 0 0;
  match r with
  | Some (off, len) => Some (true, u <| pbData := mk_pointer Descriptors off |> <| iLen := len |>)
  | None => Some (false, u)
  end.

Fixpoint configure_endpoints (fuel : nat) (d : list Z) (bConfigIndex bAltSetting pab bCurConfig bCurAltSetting : Z)
    (u : usb) : option usb :=
  match fuel with
  | O => None
  | S fuel =>
      len ← d !! Z.to_nat pab;
      if len =? 0 then Some u
      else
        type ← d !! Z.to_nat (pab + 1);
        if type =? DESC_CONFIGURATION then
          c ← d !! Z.to_nat (pab + 5);
          configure_endpoints fuel d bConfigIndex bAltSetting (pab + len) c bCurAltSetting u
        else if type =? DESC_INTERFACE then
          a ← d !! Z.to_nat (pab + 3);
          configure_endpoints fuel d bConfigIndex bAltSetting (pab + len) bCurConfig a u
        else if (type =? DESC_ENDPOINT) && (bCurConfig =? bConfigIndex) && (bCurAltSetting =? bAltSetting) then
          bEP ← d !! Z.to_nat (pab + 2); lo ← d !! Z.to_nat (pab + 4); hi ← d !! Z.to_nat (pab + 5);
          configure_endpoints fuel d bConfigIndex bAltSetting (pab + len) bCurConfig bCurAltSetting
            (emit (EPConfig bEP (Z.lor lo (Z.shiftl hi 8))) u)
        else configure_endpoints fuel d bConfigIndex bAltSetting (pab + len) bCurConfig bCurAltSetting u
  end.

Definition USBSetConfiguration (bConfigIndex bAltSetting : Z) (u : usb) : option (bool * usb) :=
  if bConfigIndex =? 0 then Some (true, emit (ConfigDevice false) u)
  else
    d ← pabDescrip u;
    u ← configure_endpoints (length d) d bConfigIndex bAltSetting 0 255 255 u;
    Some (true, emit (ConfigDevice true) u).

(** [pbData[0] = ...; *piLen = n]. *)
Definition reply_bytes (bs : list Z) (u : usb) : option (bool * usb) :=
  u ← write_bytes (pbData u) bs u; Some (true, u <| iLen := Z.of_nat (length bs) |>).

Definition HandleStdDeviceReq (u : usb) : option (bool * usb) :=
  if bRequest u =? REQ_GET_STATUS then reply_bytes [0; 0] u
  else if bRequest u =? REQ_SET_ADDRESS then Some (true, emit (SetAddress (u8 (wValue u))) u)
  else if bRequest u =? REQ_GET_DESCRIPTOR then USBGetDescriptor (wValue u) u
  else if bRequest u =? REQ_GET_CONFIGURATION then reply_bytes [bConfiguration u] u
  else if bRequest u =? REQ_SET_CONFIGURATION then
    let c := Z.land (wValue u) 255 in
    '(ok, u) ← USBSetConfiguration c 0 u;
    if ok : bool then Some (true, u <| bConfiguration := c |>) else Some (false, u)
  else Some (false, u).

Definition HandleStdInterfaceReq (u : usb) : option (bool * usb) :=
  if bRequest u =? REQ_GET_STATUS then reply_bytes [0; 0] u
  else if bRequest u =? REQ_GET_INTERFACE then reply_bytes [0] u
  else if bRequest u =? REQ_SET_INTERFACE then
    if negb (wValue u =? 0) then Some (false, u) else Some (true, u <| iLen := 0 |>)
  else Some (false, u).

Definition HandleStdEndPointReq (i : bus) (u : usb) : option (bool * usb) :=
  if bRequest u =? REQ_GET_STATUS then
    reply_bytes [if has (USBHwEPGetStatus i (u8 (wIndex u))) EP_STATUS_STALLED then 1 else 0; 0] u
  else if bRequest u =? REQ_CLEAR_FEATURE then
    if wValue u =? FEA_ENDPOINT_HALT then Some (true, emit (EPStall (u8 (wIndex u)) false) u) else Some (false, u)
  else if bRequest u =? REQ_SET_FEATURE then
    if wValue u =? FEA_ENDPOINT_HALT then Some (true, emit (EPStall (u8 (wIndex u)) true) u) else Some (false, u)
  else Some (false, u).

(** No custom handler is registered. *)
Definition USBHandleStandardRequest (i : bus) (u : usb) : option (bool * usb) :=
  let r := REQTYPE_GET_RECIP (bmRequestType u) in
  if r =? REQTYPE_RECIP_DEVICE then HandleStdDeviceReq u
  else if r =? REQTYPE_RECIP_INTERFACE then HandleStdInterfaceReq u
  else if r =? REQTYPE_RECIP_ENDPOINT then HandleStdEndPointReq i u
  else Some (false, u).

(** ** Class requests (usb.c) *)

Definition HandleClassRequest (u : usb) : option (bool * usb) :=
  if bRequest u =? SET_LINE_CODING then
    bs ← bytes_at (pbData u) 7 u; Some (true, u <| LineCoding := bs |> <| iLen := 7 |>)
  else if bRequest u =? GET_LINE_CODING then
    Some (true, u <| pbData := mk_pointer LineCodingData 0 |> <| iLen := 7 |>)
  else if bRequest u =? SET_CONTROL_LINE_STATE then Some (true, u)
  else Some (false, u).

(** ** Control transfers (usbcontrol.c) *)

Definition _HandleRequest (i : bus) (u : usb) : option (bool * usb) :=
  match nth (Z.to_nat (REQTYPE_GET_TYPE (bmRequestType u))) (apfnReqHandlers u) None with
  | None => Some (false, u)
  | Some HandleStandard => USBHandleStandardRequest i u
  | Some HandleClass => HandleClassRequest u
  end.

Definition StallControlPipe (u : usb) : usb := emit (EPStall 128 true) u.

Definition DataIn (u : usb) : option usb :=
  let iChunk := Z.min MAX_PACKET_SIZE0 (iResidue u) in
  u ← USBHwEPWrite 128 (pbData u) iChunk u;
  Some (u <| pbData ::= advance iChunk |> <| iResidue ::= fun r => r - iChunk |>).

Definition data_store (u : usb) : pointer :=
  nth (Z.to_nat (REQTYPE_GET_TYPE (bmRequestType u))) (apbDataStore u) null_pointer.

(** A setup packet. *)
Definition begin_transfer (i : bus) (u : usb) : option usb :=
  '(_, u) ← USBHwEPRead i 0 (mk_pointer SetupData 0) 8 u;
  let u := u <| pbData := data_store u |> <| iResidue := wLength u |> <| iLen := wLength u |> in
  if (wLength u =? 0) || (REQTYPE_GET_DIR (bmRequestType u) =? REQTYPE_DIR_TO_HOST) then
    '(ok, u) ← _HandleRequest i u;
    if negb ok then Some (StallControlPipe u)
    else DataIn (u <| iResidue := Z.min (iLen u) (wLength u) |>)
  else Some u.

(** A packet of data from the host. *)
Definition data_out (i : bus) (u : usb) : option usb :=
  '(iChunk, u) ← USBHwEPRead i 0 (pbData u) (iResidue u) u;
  if iChunk <? 0 then Some (StallControlPipe u)
  else
    let u := u <| pbData ::= advance iChunk |> <| iResidue ::= fun r => r - iChunk |> in
    if iResidue u =? 0 then
      '(ok, u) ← _HandleRequest i (u <| pbData := data_store u |>);
      if negb ok then Some (StallControlPipe u) else DataIn u
    else Some u.

Definition USBHandleControlTransfer (i : bus) (bEP bEPStat : Z) (u : usb) : option usb :=
  if bEP =? 0 then
    if has bEPStat EP_STATUS_SETUP then begin_transfer i u
    else if 0 <? iResidue u then data_out i u
    else '(_, u) ← USBHwEPRead i 0 null_pointer 0 u; Some u
  else if bEP =? 128 then DataIn u
  else Some u.

Definition USBRegisterRequestHandler (iType : Z) (h : request_handler) (store : pointer) (u : usb) : usb :=
  u <| apfnReqHandlers ::= <[Z.to_nat iType := Some h]> |> <| apbDataStore ::= <[Z.to_nat iType := store]> |>.

(** ** The interrupt (usbhw_lpc.c) *)

Definition USBHwRegisterEPIntHandler (bEP : Z) (h : option endpoint_handler) (u : usb) : usb :=
  let idx := EP2IDX bEP in
  emit (DevIntEnable EP_SLOW) (emit (EPIntEnable idx)
    (u <| epHandlers ::= <[Z.to_nat (Z.quot idx 2) := h]> |>)).

(** The handler of the bulk-out endpoint; a packet without the valid bit has
    no bytes. *)
Definition bulk_out (i : bus) (u : usb) : usb :=
  u <| rxfifo := (BulkOut (fun n => take (Z.to_nat n) (default [] (packet i (EP2IDX BULK_OUT_EP)))) (rxfifo u)).2 |>.

Definition bulk_in (u : usb) : usb :=
  let '(a, f) := BulkIn (txfifo u) in
  let u := u <| txfifo := f |> in
  match a with
  | NakIntDisable => emit (NakIntEnable 0) u
  | EPWrite p => emit (HwEPWrite BULK_IN_EP p) u
  | NoWrite => u
  end.

(** What the interrupt handler finds: the device interrupts, the device status
    is left to a handler that does nothing, the raw status of each endpoint that
    has an interrupt pending, and the hardware behind them. *)
Record interrupt := mk_interrupt {
  USBDevIntSt : Z;
  endpoint_status : Z -> option Z;
  hardware : bus
}.

(** The status of an endpoint, independent of the hardware. *)
Definition convert_status (b : Z) : Z :=
  let bits (x y : Z) := if has b x then y else 0 in
  Z.lor (Z.lor (Z.lor (Z.lor (bits EPSTAT_FE EP_STATUS_DATA) (bits EPSTAT_ST EP_STATUS_STALLED))
    (bits EPSTAT_STP EP_STATUS_SETUP)) (bits EPSTAT_EPN EP_STATUS_NACKED)) (bits EPSTAT_PO EP_STATUS_ERROR).

Definition serve_endpoint (q : interrupt) (u : usb) (i : Z) : option usb :=
  match endpoint_status q i with
  | None => Some u
  | Some b =>
      match nth (Z.to_nat (Z.quot i 2)) (epHandlers u) None with
      | None => Some u
      | Some ControlTransfer => USBHandleControlTransfer (hardware q) (IDX2EP i) (convert_status b) u
      | Some BulkOutEP => Some (bulk_out (hardware q) u)
      | Some BulkInEP => Some (bulk_in u)
      end
  end.

Fixpoint serve_endpoints (q : interrupt) (l : list Z) (u : usb) : option usb :=
  match l with
  | [] => Some u
  | i :: l => u ← serve_endpoint q u i; serve_endpoints q l u
  end.

(** The frame handler of usb.c enables the interrupts on NAKs when there are
    bytes to send; [HandleUsbReset] only prints. *)
Definition serve_frame (u : usb) : usb :=
  if frameHandler u then if USBFrameHandler (txfifo u) then emit (NakIntEnable INACK_BI) u else u else u.

Definition USBHwISR (q : interrupt) (u : usb) : option usb :=
  let u := if has (USBDevIntSt q) FRAME then serve_frame u else u in
  if has (USBDevIntSt q) EP_SLOW then serve_endpoints q (seqZ 0 32) u else Some u.

(** ** Start-up *)

Definition USBHwEPConfig (bEP wMaxPacketSize : Z) (u : usb) : usb := emit (EPConfig bEP wMaxPacketSize) u.

Definition USBInit (u : usb) : usb :=
  let u := emit HwInit u in
  let u := emit (DevIntEnable DEV_STAT) u in
  let u := USBHwRegisterEPIntHandler 0 (Some ControlTransfer) u in
  let u := USBHwRegisterEPIntHandler 128 (Some ControlTransfer) u in
  let u := USBHwEPConfig 0 MAX_PACKET_SIZE0 u in
  let u := USBHwEPConfig 128 MAX_PACKET_SIZE0 u in
  USBRegisterRequestHandler REQTYPE_TYPE_STANDARD HandleStandard (mk_pointer StdReqData 0) u.

Definition USBSerial_Init (u : usb) : usb :=
  let u := USBInit u in
  let u := USBRegisterDescriptors abDescriptors u in
  let u := USBRegisterRequestHandler REQTYPE_TYPE_CLASS HandleClass (mk_pointer ClassReqData 0) u in
  let u := USBHwRegisterEPIntHandler INT_IN_EP None u in
  let u := USBHwRegisterEPIntHandler BULK_IN_EP (Some BulkInEP) u in
  let u := USBHwRegisterEPIntHandler BULK_OUT_EP (Some BulkOutEP) u in
  let u := emit (DevIntEnable FRAME) (u <| frameHandler := true |>) in
  let u := emit (NakIntEnable INACK_BI) u in
  let u := u <| rxfifo := mk_irq_fifo true (fifo_init (buf (ring (rxfifo u)))) |>
             <| txfifo := fifo_init (buf (txfifo u)) |> in
  let u := emit EnableIRQ u in
  emit (HwConnect true) u.

(** ** A host

    A transfer of at most 64 bytes to the device, or of any length from it: the
    setup packet, the data, and the status. The host sees the events of each
    interrupt. *)

Definition on_interrupt (q : interrupt) (u : usb) : option (list usb_event * usb) :=
  u ← USBHwISR q (u <| happened := [] |>); Some (happened u, u).

(** An interrupt of one control endpoint with one packet in its buffer. *)
Definition control_interrupt (i status : Z) (p : list Z) (sel : Z -> Z) : interrupt :=
  mk_interrupt EP_SLOW (fun j => if j =? i then Some status else None)
    (mk_bus (fun j => if j =? i then Some p else None) sel).

Definition setup_token (p : list Z) (sel : Z -> Z) : interrupt := control_interrupt 0 EPSTAT_STP p sel.
Definition out_token (p : list Z) (sel : Z -> Z) : interrupt := control_interrupt 0 EPSTAT_FE p sel.
Definition in_token (sel : Z -> Z) : interrupt := control_interrupt 1 0 [] sel.

Definition is_stall (e : usb_event) : bool := match e with EPStall b true => b =? 128 | _ => false end.
Definition is_write (e : usb_event) : bool := match e with HwEPWrite _ _ => true | _ => false end.
Definition stalled (evs : list usb_event) : bool := existsb is_stall evs.
Definition sent (evs : list usb_event) : list Z :=
  concat (map (fun e => match e with HwEPWrite 128 p => p | _ => [] end) evs).

(** The packets up to a short one or the length asked for; [p] is the packet
    in the buffer of the endpoint. *)
Fixpoint read_in (n : nat) (sel : Z -> Z) (want : Z) (p : list Z) (u : usb) : option (list Z * usb) :=
  match n with
  | O => None
  | S n =>
      '(evs, u) ← on_interrupt (in_token sel) u;
      if (Z.of_nat (length p) <? MAX_PACKET_SIZE0) || (want <=? Z.of_nat (length p)) then Some (p, u)
      else
        '(l, u) ← read_in n sel (want - Z.of_nat (length p)) (sent evs) u;
        Some (p ++ l, u)
  end.

Record request := mk_request { rtype : Z; rcode : Z; rvalue : Z; rindex : Z; rlength : Z }.

Definition setup_bytes (r : request) : list Z :=
  [rtype r; rcode r] ++ LE_WORD (rvalue r) ++ LE_WORD (rindex r) ++ LE_WORD (rlength r).

Definition to_host (r : request) : bool := REQTYPE_GET_DIR (rtype r) =? REQTYPE_DIR_TO_HOST.

(** What the host gets, and what the device does to its hardware meanwhile. *)
Inductive reply := Stalled | Accepted | Answered (l : list Z).
#[export] Instance reply_eq_dec : EqDecision reply.
Proof. solve_decision. Defined.

Definition effects (evs : list usb_event) : list usb_event := List.filter (fun e => negb (is_write e)) evs.

Definition transfer (sel : Z -> Z) (r : request) (data : list Z) (u : usb)
    : option ((reply * list usb_event) * usb) :=
  '(evs, u) ← on_interrupt (setup_token (setup_bytes r) sel) u;
  if stalled evs then Some ((Stalled, effects evs), u)
  else if rlength r =? 0 then
    '(_, u) ← on_interrupt (in_token sel) u; Some ((Accepted, effects evs), u)
  else if to_host r then
    '(l, u) ← read_in (Z.to_nat (rlength r)) sel (rlength r) (sent evs) u;
    '(_, u) ← on_interrupt (out_token [] sel) u;
    Some ((Answered l, effects evs), u)
  else
    '(evs', u) ← on_interrupt (out_token data sel) u;
    if stalled evs' then Some ((Stalled, effects (evs ++ evs')), u)
    else '(_, u) ← on_interrupt (in_token sel) u; Some ((Accepted, effects (evs ++ evs')), u).
