(* ===== verification/UsbTransfers.v ===== *)
(** * Control transfers are answered

    The stack of UsbDevice.v, driven packet by packet by a host, behaves as an
    abstract device that answers requests from its descriptors, its
    configuration and its line coding. *)

From S2P Require Import Prelude SerialFifo UsbDevice.

(** ** The abstract device *)

Record device := mk_device { coding : list Z; config : Z }.
#[export] Instance eta_device : Eta device := fun d => mk_device (coding d) (config d).

(** The block of descriptors from each of its descriptors on. *)
Fixpoint suffixes (fuel : nat) (d : list Z) : list (list Z) :=
  match fuel, d with
  | S fuel, len :: _ => if len =? 0 then [] else d :: suffixes fuel (drop (Z.to_nat len) d)
  | _, _ => []
  end.

Definition of_type (type : Z) (d : list Z) : bool := arr d 1 =? type.

Definition all_descriptors : list (list Z) := suffixes (length abDescriptors) abDescriptors.

(** A descriptor and, for a configuration, what belongs to it. *)
Definition extent (d : list Z) : Z := if of_type DESC_CONFIGURATION d then word d 2 else arr d 0.

Definition descriptor (type index : Z) : option (list Z) :=
  d ← List.filter (of_type type) all_descriptors !! Z.to_nat index;
  Some (take (Z.to_nat (extent d)) d).

Definition our_endpoints : list usb_event := [EPConfig INT_IN_EP 8; EPConfig BULK_OUT_EP 64; EPConfig BULK_IN_EP 64].

(** The bytes of the answer, what happens to the hardware, and the device
    after the request; [None] is a refusal. *)
Definition device_service (r : request) (d : device) : option (list Z * list usb_event * device) :=
  if rcode r =? REQ_GET_STATUS then Some ([0; 0], [], d)
  else if rcode r =? REQ_SET_ADDRESS then Some ([], [SetAddress (u8 (rvalue r))], d)
  else if rcode r =? REQ_GET_DESCRIPTOR then
    l ← descriptor (rvalue r / 256) (rvalue r mod 256); Some (l, [], d)
  else if rcode r =? REQ_GET_CONFIGURATION then Some ([config d], [], d)
  else if rcode r =? REQ_SET_CONFIGURATION then
    let c := rvalue r mod 256 in
    Some ([], if c =? 0 then [ConfigDevice false]
              else (if c =? 1 then our_endpoints else []) ++ [ConfigDevice true], d <| config := c |>)
  else None.

Definition interface_service (r : request) (d : device) : option (list Z * list usb_event * device) :=
  if rcode r =? REQ_GET_STATUS then Some ([0; 0], [], d)
  else if rcode r =? REQ_GET_INTERFACE then Some ([0], [], d)
  else if (rcode r =? REQ_SET_INTERFACE) && (rvalue r =? 0) then Some ([], [], d)
  else None.

Definition endpoint_service (sel : Z -> Z) (r : request) (d : device) : option (list Z * list usb_event * device) :=
  let ep := u8 (rindex r) in
  if rcode r =? REQ_GET_STATUS then
    Some ([if has (sel (EP2IDX ep)) EP_STATUS_STALLED then 1 else 0; 0], [], d)
  else if (rcode r =? REQ_CLEAR_FEATURE) && (rvalue r =? FEA_ENDPOINT_HALT) then Some ([], [EPStall ep false], d)
  else if (rcode r =? REQ_SET_FEATURE) && (rvalue r =? FEA_ENDPOINT_HALT) then Some ([], [EPStall ep true], d)
  else None.

Definition class_service (r : request) (data : list Z) (d : device) : option (list Z * list usb_event * device) :=
  if rcode r =? SET_LINE_CODING then Some ([], [], d <| coding := take 7 data |>)
  else if rcode r =? GET_LINE_CODING then Some (coding d, [], d)
  else if rcode r =? SET_CONTROL_LINE_STATE then Some ([], [], d)
  else None.

Definition service (sel : Z -> Z) (r : request) (data : list Z) (d : device)
    : option (list Z * list usb_event * device) :=
  let type := REQTYPE_GET_TYPE (rtype r) in
  let recip := REQTYPE_GET_RECIP (rtype r) in
  if type =? REQTYPE_TYPE_STANDARD then
    if recip =? REQTYPE_RECIP_DEVICE then device_service r d
    else if recip =? REQTYPE_RECIP_INTERFACE then interface_service r d
    else if recip =? REQTYPE_RECIP_ENDPOINT then endpoint_service sel r d
    else None
  else if type =? REQTYPE_TYPE_CLASS then class_service r data d
  else None.

(** What the host sees of a transfer. *)
Definition answer (sel : Z -> Z) (r : request) (data : list Z) (d : device) : (reply * list usb_event) * device :=
  match service sel r data d with
  | None => ((Stalled, [EPStall 128 true]), d)
  | Some (l, evs, d') =>
      ((if (rlength r =? 0) || negb (to_host r) then Accepted else Answered (take (Z.to_nat (rlength r)) l),
        evs), d')
  end.

(** Requests that set something, and have no answer. *)
Definition sets (r : request) : bool :=
  let type := REQTYPE_GET_TYPE (rtype r) in
  let recip := REQTYPE_GET_RECIP (rtype r) in
  let one_of (l : list Z) := existsb (Z.eqb (rcode r)) l in
  ((type =? REQTYPE_TYPE_STANDARD) && (recip =? REQTYPE_RECIP_DEVICE) && one_of [REQ_SET_ADDRESS; REQ_SET_CONFIGURATION])
  || ((type =? REQTYPE_TYPE_STANDARD) && (recip =? REQTYPE_RECIP_ENDPOINT) && one_of [REQ_CLEAR_FEATURE; REQ_SET_FEATURE])
  || ((type =? REQTYPE_TYPE_CLASS) && one_of [SET_LINE_CODING; SET_CONTROL_LINE_STATE]).

Definition sets_coding (r : request) : bool :=
  (REQTYPE_GET_TYPE (rtype r) =? REQTYPE_TYPE_CLASS) && (rcode r =? SET_LINE_CODING).

Definition in_byte (x : Z) : bool := (0 <=? x) && (x <? 2 ^ 8).
Definition in_word (x : Z) : bool := (0 <=? x) && (x <? 2 ^ 16).

(** A host that asks in the direction of the request, sends as much data as it
    announces, no more than the 8 bytes the device has room for, and a whole
    line coding. An endpoint is not halted over the pipe itself. *)
Definition legal (r : request) (data : list Z) : bool :=
  in_byte (rtype r) && in_byte (rcode r) && in_word (rvalue r) && in_word (rindex r) && in_word (rlength r) &&
  negb ((rcode r =? REQ_SET_FEATURE) && (u8 (rindex r) =? 128)) &&
  (if to_host r then bool_decide (data = []) && negb (sets r)
   else (Z.of_nat (length data) =? rlength r) && (rlength r <=? 8) && (negb (sets_coding r) || (7 <=? rlength r))).

Fixpoint transfers (sel : Z -> Z) (ts : list (request * list Z)) (u : usb)
    : option (list (reply * list usb_event) * usb) :=
  match ts with
  | [] => Some ([], u)
  | (r, data) :: ts =>
      '(x, u) ← transfer sel r data u;
      '(xs, u) ← transfers sel ts u;
      Some (x :: xs, u)
  end.

Fixpoint answers (sel : Z -> Z) (ts : list (request * list Z)) (d : device) : list (reply * list usb_event) :=
  match ts with
  | [] => []
  | (r, data) :: ts => let '(x, d) := answer sel r data d in x :: answers sel ts d
  end.

(** ** The stack between transfers *)

Record ready (d : device) (u : usb) : Prop := {
  rd_setup : length (Setup u) = 8%nat;
  rd_handlers : apfnReqHandlers u = [Some HandleStandard; Some HandleClass; None; None];
  rd_stores : apbDataStore u = [mk_pointer StdReqData 0; mk_pointer ClassReqData 0; null_pointer; null_pointer];
  rd_std : length (abStdReqData u) = 8%nat;
  rd_class : length (abClassReqData u) = 8%nat;
  rd_coding : LineCoding u = coding d /\ length (coding d) = 7%nat;
  rd_config : bConfiguration u = config d;
  rd_block : pabDescrip u = Some abDescriptors;
  rd_control : nth 0 (epHandlers u) None = Some ControlTransfer
}.

(** The bytes that are still to be sent. *)
Definition pending (u : usb) (l : list Z) : Prop :=
  iResidue u = Z.of_nat (length l) /\
  (l = [] \/ 0 <= offset (pbData u) /\
             exists rest, drop (Z.to_nat (offset (pbData u))) (region (at_place (pbData u)) u) = l ++ rest).

Lemma DataIn_spec u l :
  pending u l ->
  exists v, DataIn u = Some v /\ pending v (drop 64 l) /\
    happened v = happened u ++ [HwEPWrite 128 (take 64 l)] /\ forall d, ready d u -> ready d v.
Proof.
  intros [Hr Hd]. unfold DataIn, USBHwEPWrite. rewrite Hr. unfold MAX_PACKET_SIZE0.
  assert (bytes_at (pbData u) (Z.min 64 (Z.of_nat (length l))) u = Some (take 64 l)) as ->.
  { unfold bytes_at. case_bool.
    - apply Z.eqb_eq in E. destruct l as [|x l]; [done|]. cbn [length] in E. lia.
    - apply Z.eqb_neq in E. destruct Hd as [->|[Ho [rest Hd]]]; [done|].
      pose proof (f_equal length Hd) as Hlen. rewrite length_drop, length_app in Hlen.
      case_bool; [|exfalso; lia]. f_equal.
      rewrite Hd. rewrite take_app_le by lia.
      destruct (decide (length l <= 64)%nat).
      + rewrite !take_ge by lia. done.
      + f_equal. lia. }
  cbn [mbind option_bind]. eexists. split; [done|]. split.
  - unfold pending. cbn. rewrite length_drop, Hr. split; [lia|].
    destruct (drop 64 l) eqn:El; [by left|right]. rewrite <- El.
    destruct Hd as [->|[Ho [rest Hd]]]; [done|].
    assert (64 < length l)%nat by (apply (f_equal length) in El; rewrite length_drop in El; cbn in El; lia).
    split; [lia|]. exists rest. rewrite Z2Nat.inj_add, <- drop_drop by lia. cbn.
    replace (Z.to_nat (Z.min 64 (Z.of_nat (length l)))) with 64%nat by lia.
    change (region (at_place (pbData u)) _) with (region (at_place (pbData u)) u).
    rewrite Hd. by rewrite drop_app_le by lia.
  - split; [done|]. intros d []. by split.
Qed.

(** ** Descriptors *)

(** The lengths of the descriptors lead to the zero at the end, and each is
    long enough for what is read of it. *)
Fixpoint well_chained (fuel : nat) (d : list Z) : bool :=
  match fuel, d with
  | S fuel, len :: _ =>
      (len =? 0) || (4 <=? len) && (len <=? Z.of_nat (length d)) && well_chained fuel (drop (Z.to_nat len) d)
  | _, _ => false
  end.

Lemma lookup_arr (l : list Z) i : 0 <= i < Z.of_nat (length l) -> l !! Z.to_nat i = Some (arr l i).
Proof.
  intros Hi. unfold arr. destruct (lookup_lt_is_Some_2 l (Z.to_nat i)) as [x Hx]; [lia|].
  by rewrite (nth_lookup_Some _ _ _ _ Hx).
Qed.

Lemma arr_drop (l : list Z) i j : 0 <= i -> 0 <= j -> arr (drop (Z.to_nat i) l) j = arr l (i + j).
Proof. intros Hi Hj. unfold arr. rewrite nth_skipn. f_equal. lia. Qed.

(** The loop finds the descriptor of the type with the index. *)
Lemma seek_descriptor_spec fuel : forall D type index pab cur,
  well_chained fuel (drop (Z.to_nat pab) D) = true -> 0 <= pab -> 0 <= cur <= index ->
  exists r, seek_descriptor fuel D type index pab cur = Some r /\
  match List.filter (of_type type) (suffixes fuel (drop (Z.to_nat pab) D)) !! Z.to_nat (index - cur) with
  | None => r = None
  | Some d => exists off, r = Some (off, extent d) /\ 0 <= off /\ drop (Z.to_nat off) D = d
  end.
Proof.
  induction fuel as [|fuel IH]; [done|]. intros D type index pab cur Hw Hp Hc.
  pose proof (arr_drop D pab) as Ha.
  assert (Z.of_nat (length (drop (Z.to_nat pab) D)) = Z.of_nat (length D) - pab \/ drop (Z.to_nat pab) D = []) as Hl.
  { rewrite length_drop. destruct (decide (Z.to_nat pab <= length D)%nat); [left; lia|right].
    apply drop_ge. lia. }
  destruct (drop (Z.to_nat pab) D) as [|len rest] eqn:Ed; [done|]. destruct Hl as [Hl|]; [|done].
  cbn [well_chained suffixes seek_descriptor] in *.
  assert (len = arr D pab) as H0 by (pose proof (Ha 0 Hp ltac:(lia)) as H0; by rewrite Z.add_0_r in H0).
  rewrite (lookup_arr D pab) by (cbn [length] in Hl; lia). cbn [mbind option_bind]. rewrite <- H0.
  destruct (Z.eqb_spec len 0) as [->|Hn].
  { exists None. split; [done|]. done. }
  cbn [orb] in Hw. apply andb_true_iff in Hw as [Hw1 Hw2]. apply andb_true_iff in Hw1 as [Hw1 Hw3].
  apply Z.leb_le in Hw1, Hw3.
  rewrite !lookup_arr by lia. cbn [mbind option_bind].
  assert (of_type type (len :: rest) = (arr D (pab + 1) =? type)) as Hty by (unfold of_type; by rewrite Ha by lia).
  assert (drop (Z.to_nat len) (len :: rest) = drop (Z.to_nat (pab + len)) D) as Hnext.
  { rewrite <- Ed, drop_drop. f_equal. lia. }
  rewrite Hnext in *. cbn [List.filter]. rewrite Hty.
  destruct (arr D (pab + 1) =? type) eqn:Et; cbn [andb].
  - destruct (Z.eqb_spec cur index) as [->|Hi].
    + rewrite Z.sub_diag. cbn [lookup list_lookup Z.to_nat].
      exists (Some (pab, extent (len :: rest))). split; [|by exists pab].
      unfold extent. rewrite (Ha 0), Z.add_0_r by lia.
      apply Z.eqb_eq in Et. unfold of_type. rewrite Ha by lia. rewrite Et.
      destruct (type =? DESC_CONFIGURATION); [|by rewrite <- H0].
      cbn [mbind option_bind]. unfold word.
      change (2 + 1) with 3. by rewrite !Ha by lia.
    + destruct (IH D type index (pab + len) (cur + 1)) as (r & E & Hr); [done|lia|lia|].
      exists r. split; [done|].
      replace (Z.to_nat (index - cur)) with (S (Z.to_nat (index - (cur + 1)))) by lia. exact Hr.
  - apply (IH D type index (pab + len) cur); [done|lia|done].
Qed.

Lemma extent_fits : List.Forall (fun d => 0 < extent d <= Z.of_nat (length d)) all_descriptors.
Proof. apply (bool_decide_unpack _). by vm_compute. Qed.

Lemma block_chained : well_chained (length abDescriptors) abDescriptors = true.
Proof. by vm_compute. Qed.

(** The standard handler finds the descriptor of the reference. *)
Lemma USBGetDescriptor_spec u w :
  pabDescrip u = Some abDescriptors -> 0 <= w < 2 ^ 16 ->
  match descriptor (w / 256) (w mod 256) with
  | None => USBGetDescriptor w u = Some (false, u)
  | Some l => exists off, USBGetDescriptor w u =
      Some (true, u <| pbData := mk_pointer Descriptors off |> <| iLen := Z.of_nat (length l) |>) /\
      0 <= off /\ exists rest, drop (Z.to_nat off) abDescriptors = l ++ rest
  end.
Proof.
  intros Hb Hw. unfold USBGetDescriptor. rewrite Hb. cbn [mbind option_bind].
  assert (GET_DESC_TYPE w = w / 256) as ->.
  { unfold GET_DESC_TYPE. rewrite Z.shiftr_div_pow2 by lia. change 255 with (Z.ones 8).
    rewrite Z.land_ones by lia. change (2 ^ 8) with 256. apply Z.mod_small.
    split; [apply Z.div_pos; lia|apply Z.div_lt_upper_bound; lia]. }
  assert (GET_DESC_INDEX w = w mod 256) as ->.
  { unfold GET_DESC_INDEX. change 255 with (Z.ones 8). by rewrite Z.land_ones by lia. }
  destruct (seek_descriptor_spec (length abDescriptors) abDescriptors (w / 256) (w mod 256) 0 0)
    as (r & -> & Hr); [exact block_chained|lia|pose proof (Z.mod_pos_bound w 256 ltac:(lia)); lia|].
  rewrite Z.sub_0_r in Hr. change (drop (Z.to_nat 0) abDescriptors) with abDescriptors in Hr.
  unfold descriptor, all_descriptors. cbn [mbind option_bind].
  destruct (List.filter _ _ !! _) as [d|] eqn:Ef; [|by subst r].
  destruct Hr as (off & -> & Hoff & Hd). exists off.
  assert (0 < extent d <= Z.of_nat (length d)) as He.
  { pose proof extent_fits as Hf. rewrite List.Forall_forall in Hf. apply Hf.
    apply list_elem_of_lookup_2, list_elem_of_In, filter_In in Ef. apply Ef. }
  rewrite length_take. replace (Z.of_nat (Z.to_nat (extent d) `min` length d)) with (extent d) by lia.
  split; [done|]. split; [done|]. exists (drop (Z.to_nat (extent d)) d). by rewrite take_drop.
Qed.

(** ** Requests *)

Lemma le_word_word (x : Z) (l l' : list Z) :
  0 <= x < 2 ^ 16 -> word (l ++ LE_WORD x ++ l') (Z.of_nat (length l)) = x.
Proof.
  intros Hx. unfold word, arr. rewrite Nat2Z.id, Z2Nat.inj_add, Nat2Z.id by lia.
  rewrite app_nth2, Nat.sub_diag by lia. cbn [LE_WORD app nth].
  rewrite app_nth2 by lia. replace (length l + Z.to_nat 1 - length l)%nat with 1%nat by lia. cbn [nth].
  change 255 with (Z.ones 8). apply Z.bits_inj'. intros n Hn.
  rewrite Z.lor_spec, Z.land_spec, Z.testbit_ones by lia.
  destruct (decide (n < 8)).
  - rewrite Z.shiftl_spec_low by lia. replace ((0 <=? n) && (n <? 8)) with true by lia.
    by rewrite andb_true_r, orb_false_r.
  - rewrite Z.shiftl_spec, Z.shiftr_spec by lia. replace ((0 <=? n) && (n <? 8)) with false by lia.
    rewrite andb_false_r. cbn [orb]. f_equal. lia.
Qed.

(** The request that the stack has read. *)
Definition asks (r : request) (u : usb) : Prop :=
  bmRequestType u = rtype r /\ bRequest u = rcode r /\ wValue u = rvalue r /\ wIndex u = rindex r /\
  wLength u = rlength r.

Definition in_ranges (r : request) : Prop :=
  0 <= rtype r < 2 ^ 8 /\ 0 <= rcode r < 2 ^ 8 /\ 0 <= rvalue r < 2 ^ 16 /\ 0 <= rindex r < 2 ^ 16 /\
  0 <= rlength r < 2 ^ 16.

Lemma setup_asks r u : in_ranges r -> Setup u = setup_bytes r -> asks r u.
Proof.
  intros (H1 & H2 & H3 & H4 & H5) Hs. unfold asks, bmRequestType, bRequest, wValue, wIndex, wLength. rewrite Hs.
  unfold setup_bytes. split; [done|]. split; [done|]. split; [|split].
  - exact (le_word_word (rvalue r) [rtype r; rcode r] _ H3).
  - exact (le_word_word (rindex r) ([rtype r; rcode r] ++ LE_WORD (rvalue r)) _ H4).
  - pose proof (le_word_word (rlength r) ([rtype r; rcode r] ++ LE_WORD (rvalue r) ++ LE_WORD (rindex r)) [] H5) as E.
    by rewrite app_nil_r in E.
Qed.

(** The bytes of an answer, where the data pointer points. *)
Definition holds (u : usb) (l : list Z) : Prop :=
  0 <= offset (pbData u) /\
  exists rest, drop (Z.to_nat (offset (pbData u))) (region (at_place (pbData u)) u) = l ++ rest.

(** What a request handler does: the data pointer holds the answer, and a
    request without an answer leaves the length alone. *)
Record handled (sel : Z -> Z) (r : request) (l : list Z) (evs : list usb_event) (d' : device) (u v : usb) : Prop := {
  hd_ready : ready d' v;
  hd_events : happened v = happened u ++ evs;
  hd_residue : iResidue v = iResidue u;
  hd_asks : asks r v;
  hd_positive : 0 <= iLen v;
  hd_length : sets r = false -> iLen v = Z.of_nat (length l) /\ holds v l
}.

Lemma overwrite_length l i bs : (i + length bs <= length l)%nat -> length (overwrite l i bs) = length l.
Proof. intros Hl. unfold overwrite. rewrite !length_app, length_take, length_drop. lia. Qed.

Lemma write_at_start p bs u :
  bs <> [] -> (length bs <= length (region p u))%nat ->
  write_bytes (mk_pointer p 0) bs u = set_region p (overwrite (region p u) 0 bs) u.
Proof.
  intros Hne Hl. unfold write_bytes. cbn [at_place offset].
  assert ((0 <=? 0) && (0 + Z.of_nat (length bs) <=? Z.of_nat (length (region p u))) = true) as -> by lia.
  by destruct bs.
Qed.

(** Some bytes written to the data store. *)
Lemma reply_bytes_spec sel r bs d u :
  ready d u -> asks r u -> pbData u = mk_pointer StdReqData 0 -> (length bs <= 8)%nat -> bs <> [] ->
  exists v, reply_bytes bs u = Some (true, v) /\ handled sel r bs [] d u v.
Proof.
  intros Hr Ha Hp Hb Hne. unfold reply_bytes, write_bytes. rewrite Hp. cbn [at_place offset region].
  rewrite (rd_std _ _ Hr). destruct bs as [|b bs]; [done|].
  rewrite (proj2 (Z.leb_le (0 + Z.of_nat (length (b :: bs))) (Z.of_nat 8))) by lia. cbn [andb Z.leb Z.compare].
  cbn [set_region mbind option_bind]. eexists. split; [done|]. destruct Hr. split; try done.
  - split; try done. cbn [abStdReqData update updater]. unfold overwrite.
    rewrite !length_app, length_take, length_drop, rd_std0. cbn in *. lia.
  - cbn. by rewrite app_nil_r.
  - intros _. split; [done|]. unfold holds.
    change (0 <= offset (pbData u) /\ exists rest,
      drop (Z.to_nat (offset (pbData u))) (region (at_place (pbData u)) (u <| abStdReqData := overwrite (abStdReqData u) (Z.to_nat 0) (b :: bs) |>)) = (b :: bs) ++ rest).
    rewrite Hp. split; [done|]. by eexists.
Qed.

(** A handler that only changes the hardware. *)
Lemma emit_handled sel r evs d u v :
  ready d u -> asks r u -> 0 <= iLen u -> sets r = true -> v = u <| happened := happened u ++ evs |> ->
  handled sel r [] evs d u v.
Proof. intros [] Ha Hl Hs ->. split; try done. by rewrite Hs. Qed.

(** The walk over the descriptors does not depend on the state. *)
Lemma configure_uniform c a fuel : forall d pab cc ca,
  exists e, forall u, configure_endpoints fuel d c a pab cc ca u =
    evs ← e; Some (u <| happened := happened u ++ evs |>).
Proof.
  induction fuel as [|fuel IH]; intros d pab cc ca; [by exists None|]. cbn [configure_endpoints].
  assert (exists e, forall u : usb, Some u = (evs ← e; Some (u <| happened := happened u ++ evs |>))) as Hstop.
  { exists (Some []). intros u. cbn. rewrite app_nil_r. by destruct u. }
  assert (exists e, forall u : usb, None = (evs ← e; Some (u <| happened := happened u ++ evs |>))) as Hout by (by exists None).
  destruct (d !! Z.to_nat pab) as [len|]; cbn [mbind option_bind]; [|done].
  case_bool; [done|]. destruct (d !! Z.to_nat (pab + 1)) as [type|]; cbn [mbind option_bind]; [|done].
  case_bool; [destruct (d !! _); cbn [mbind option_bind]; [apply IH|done]|].
  case_bool; [destruct (d !! _); cbn [mbind option_bind]; [apply IH|done]|].
  case_bool; [|apply IH].
  destruct (d !! Z.to_nat (pab + 2)) as [ep|]; cbn [mbind option_bind]; [|done].
  destruct (d !! Z.to_nat (pab + 4)) as [lo|]; cbn [mbind option_bind]; [|done].
  destruct (d !! Z.to_nat (pab + 5)) as [hi|]; cbn [mbind option_bind]; [|done].
  destruct (IH d (pab + len) cc ca) as [e He]. set (x := EPConfig ep _).
  exists (evs ← e; Some (x :: evs)). intros u. rewrite He. destruct e as [evs|]; [|done].
  cbn. by rewrite <- app_assoc.
Qed.

Lemma configurations :
  List.Forall (fun c => happened <$> configure_endpoints (length abDescriptors) abDescriptors c 0 0 255 255 usb_zero =
    Some (if c =? 1 then our_endpoints else [])) (seqZ 1 255).
Proof. repeat (constructor; [vm_compute; reflexivity|]). constructor. Qed.

Lemma uniform_at_zero (f : usb -> option usb) e x :
  (forall u, f u = evs ← e; Some (u <| happened := happened u ++ evs |>)) -> happened <$> f usb_zero = Some x ->
  forall u, f u = Some (u <| happened := happened u ++ x |>).
Proof.
  intros He Hx u. rewrite He in *. destruct e as [evs|]; [|done].
  cbn [mbind option_bind] in *. assert (evs = x) as -> by (by injection Hx). done.
Qed.

Lemma USBSetConfiguration_walk c a u d v :
  c <> 0 -> pabDescrip u = Some d -> configure_endpoints (length d) d c a 0 255 255 u = Some v ->
  USBSetConfiguration c a u = Some (true, emit (ConfigDevice true) v).
Proof. intros Hc Hb E. unfold USBSetConfiguration. rewrite (proj2 (Z.eqb_neq c 0) Hc), Hb. cbn [mbind option_bind]. by rewrite E. Qed.

Lemma configure_spec c u :
  pabDescrip u = Some abDescriptors -> 0 < c < 256 ->
  USBSetConfiguration c 0 u =
    Some (true, u <| happened := happened u ++ (if c =? 1 then our_endpoints else []) ++ [ConfigDevice true] |>).
Proof.
  intros Hb Hc. destruct (configure_uniform c 0 (length abDescriptors) abDescriptors 0 255 255) as [e He].
  assert (c ∈ seqZ 1 255) as Hin by (apply elem_of_seqZ; lia).
  pose proof (proj1 (List.Forall_forall _ _) configurations c (proj1 (list_elem_of_In _ _) Hin)) as Hall.
  rewrite (USBSetConfiguration_walk c 0 u _ _ ltac:(lia) Hb (uniform_at_zero _ e _ He Hall u)).
  unfold emit. cbn [happened update updater]. by rewrite <- app_assoc.
Qed.

(** The state in which a handler is called. *)
Record called (r : request) (d : device) (u : usb) : Prop := {
  cl_ready : ready d u;
  cl_asks : asks r u;
  cl_store : pbData u = data_store u;
  cl_length : 0 <= iLen u
}.

Lemma type_cases x : 0 <= x < 2 ^ 8 ->
  REQTYPE_GET_TYPE x = 0 \/ REQTYPE_GET_TYPE x = 1 \/ REQTYPE_GET_TYPE x = 2 \/ REQTYPE_GET_TYPE x = 3.
Proof.
  intros _. unfold REQTYPE_GET_TYPE. change (Z.land (Z.shiftr x 5) 3) with (Z.land (Z.shiftr x 5) (Z.ones 2)).
  rewrite Z.land_ones by lia. change (2 ^ 2) with 4.
  pose proof (Z.mod_pos_bound (Z.shiftr x 5) 4 eq_refl) as Hb. set (y := Z.shiftr x 5 mod 4) in *.
  clearbody y. lia.
Qed.

(** A request of the class or one that is refused changes at most the coding. *)
Definition serves (sel : Z -> Z) (r : request) (o : option (list Z * list usb_event * device)) (d : device) (u : usb)
    (x : option (bool * usb)) : Prop :=
  match o with
  | None => x = Some (false, u)
  | Some (l, evs, d') => exists v, x = Some (true, v) /\ handled sel r l evs d' u v
  end.

Section request.
Variables (sel : Z -> Z) (r : request) (d : device) (u : usb).
Hypothesis Hr : in_ranges r.
Hypothesis Hc : called r d u.

Lemma device_request :
  REQTYPE_GET_TYPE (rtype r) = 0 -> REQTYPE_GET_RECIP (rtype r) = 0 ->
  serves sel r (device_service r d) d u (HandleStdDeviceReq u).
Proof using Hr Hc.
  intros Ht Hrec. destruct Hc as [Hrd (A1 & A2 & A3 & A4 & A5) Hst Hlen0].
  assert (pbData u = mk_pointer StdReqData 0) as Hp.
  { rewrite Hst. unfold data_store. by rewrite A1, Ht, (rd_stores _ _ Hrd). }
  assert (forall c, rcode r = c -> sets r = existsb (Z.eqb c) [REQ_SET_ADDRESS; REQ_SET_CONFIGURATION]) as Hsets.
  { intros c <-. unfold sets. rewrite Ht, Hrec. cbn -[existsb]. by rewrite !orb_false_r. }
  destruct Hr as (_ & _ & R3 & _). unfold HandleStdDeviceReq, device_service. rewrite A2.
  destruct (Z.eqb_spec (rcode r) REQ_GET_STATUS) as [E|_]; [|
  destruct (Z.eqb_spec (rcode r) REQ_SET_ADDRESS) as [E|_]; [|
  destruct (Z.eqb_spec (rcode r) REQ_GET_DESCRIPTOR) as [E|_]; [|
  destruct (Z.eqb_spec (rcode r) REQ_GET_CONFIGURATION) as [E|_]; [|
  destruct (Z.eqb_spec (rcode r) REQ_SET_CONFIGURATION) as [E|_]; [|done]]]]].
  - apply reply_bytes_spec; [done|by repeat split|done|cbn; lia|done].
  - exists (u <| happened := happened u ++ [SetAddress (u8 (rvalue r))] |>). split; [by rewrite A3|].
    apply (emit_handled sel r _ d u); [done|by repeat split|done|by rewrite (Hsets _ E)|done].
  - rewrite A3. pose proof (USBGetDescriptor_spec u (rvalue r) (rd_block _ _ Hrd) R3) as Hd.
    destruct (descriptor _ _) as [l|]; cbn [mbind option_bind serves]; [|exact Hd].
    destruct Hd as (off & -> & Hoff & rest & Hd). eexists. split; [done|].
    split; [destruct Hrd; by split|by rewrite app_nil_r|done|by repeat split|cbn [iLen update updater]; lia|].
    intros _. split; [done|]. split; [done|]. exists rest. cbn. by rewrite (rd_block _ _ Hrd).
  - rewrite (rd_config _ _ Hrd). apply reply_bytes_spec; [done|by repeat split|done|cbn; lia|done].
  - rewrite A3. change 255 with (Z.ones 8). rewrite Z.land_ones by lia. change (2 ^ 8) with 256.
    set (c := rvalue r mod 256). pose proof (Z.mod_pos_bound (rvalue r) 256 ltac:(lia)) as Hb. fold c in Hb.
    set (evs := if c =? 0 then _ else _).
    assert (USBSetConfiguration c 0 u = Some (true, u <| happened := happened u ++ evs |>)) as ->.
    { destruct (Z.eqb_spec c 0) as [->|Hn]; [done|]. apply configure_spec; [apply Hrd|lia]. }
    eexists. split; [done|].
    split; [destruct Hrd; by split|done|done|by repeat split|done|by rewrite (Hsets _ E)].
Qed.

Lemma interface_request :
  REQTYPE_GET_TYPE (rtype r) = 0 -> REQTYPE_GET_RECIP (rtype r) = 1 ->
  serves sel r (interface_service r d) d u (HandleStdInterfaceReq u).
Proof using Hr Hc.
  intros Ht Hrec. destruct Hc as [Hrd (A1 & A2 & A3 & A4 & A5) Hst Hlen0].
  assert (pbData u = mk_pointer StdReqData 0) as Hp.
  { rewrite Hst. unfold data_store. by rewrite A1, Ht, (rd_stores _ _ Hrd). }
  unfold HandleStdInterfaceReq, interface_service. rewrite A2.
  destruct (Z.eqb_spec (rcode r) REQ_GET_STATUS) as [E|_]; [|
  destruct (Z.eqb_spec (rcode r) REQ_GET_INTERFACE) as [E|_]; [|
  destruct (Z.eqb_spec (rcode r) REQ_SET_INTERFACE) as [E|_]; [|done]]].
  - apply reply_bytes_spec; [done|by repeat split|done|cbn; lia|done].
  - apply reply_bytes_spec; [done|by repeat split|done|cbn; lia|done].
  - rewrite A3. cbn [andb]. destruct (rvalue r =? 0); cbn [negb]; [|done].
    eexists. split; [done|]. split; [destruct Hrd; by split|by rewrite app_nil_r|done|by repeat split|cbn [iLen update updater]; lia|].
    intros _. split; [done|]. split; [cbn; by rewrite Hp|]. by eexists.
Qed.

Lemma endpoint_request p :
  REQTYPE_GET_TYPE (rtype r) = 0 -> REQTYPE_GET_RECIP (rtype r) = 2 ->
  serves sel r (endpoint_service sel r d) d u (HandleStdEndPointReq (mk_bus p sel) u).
Proof using Hr Hc.
  intros Ht Hrec. destruct Hc as [Hrd (A1 & A2 & A3 & A4 & A5) Hst Hlen0].
  assert (pbData u = mk_pointer StdReqData 0) as Hp.
  { rewrite Hst. unfold data_store. by rewrite A1, Ht, (rd_stores _ _ Hrd). }
  assert (forall c, rcode r = c -> sets r = existsb (Z.eqb c) [REQ_CLEAR_FEATURE; REQ_SET_FEATURE]) as Hsets.
  { intros c <-. unfold sets. rewrite Ht, Hrec. cbn -[existsb]. by rewrite !orb_false_r. }
  unfold HandleStdEndPointReq, endpoint_service. rewrite A2, A3, A4.
  destruct (Z.eqb_spec (rcode r) REQ_GET_STATUS) as [E|_]; [|
  destruct (Z.eqb_spec (rcode r) REQ_CLEAR_FEATURE) as [E|_]; [|
  destruct (Z.eqb_spec (rcode r) REQ_SET_FEATURE) as [E|_]; [|done]]].
  - apply reply_bytes_spec; [done|by repeat split|done|cbn; lia|done].
  - rewrite E. cbn [andb Z.eqb Pos.eqb REQ_CLEAR_FEATURE REQ_SET_FEATURE].
    destruct (rvalue r =? FEA_ENDPOINT_HALT); [|done]. eexists. split; [done|].
    apply (emit_handled sel r _ d u); [done|by repeat split|done|by rewrite (Hsets _ E)|done].
  - cbn [andb]. destruct (rvalue r =? FEA_ENDPOINT_HALT); [|done]. eexists. split; [done|].
    apply (emit_handled sel r _ d u); [done|by repeat split|done|by rewrite (Hsets _ E)|done].
Qed.

Lemma class_request data :
  REQTYPE_GET_TYPE (rtype r) = 1 ->
  (rcode r = SET_LINE_CODING -> (7 <= length data)%nat /\ take 7 (abClassReqData u) = take 7 data) ->
  serves sel r (class_service r data d) d u (HandleClassRequest u).
Proof using Hr Hc.
  intros Ht Hdata. destruct Hc as [Hrd (A1 & A2 & A3 & A4 & A5) Hst Hlen0].
  assert (pbData u = mk_pointer ClassReqData 0) as Hp.
  { rewrite Hst. unfold data_store. by rewrite A1, Ht, (rd_stores _ _ Hrd). }
  assert (forall c, rcode r = c -> sets r = existsb (Z.eqb c) [SET_LINE_CODING; SET_CONTROL_LINE_STATE]) as Hsets.
  { intros c <-. unfold sets. rewrite Ht. cbn -[existsb]. done. }
  unfold HandleClassRequest, class_service. rewrite A2.
  destruct (Z.eqb_spec (rcode r) SET_LINE_CODING) as [E|_]; [|
  destruct (Z.eqb_spec (rcode r) GET_LINE_CODING) as [E|_]; [|
  destruct (Z.eqb_spec (rcode r) SET_CONTROL_LINE_STATE) as [E|_]; [|done]]].
  - destruct (Hdata E) as [Hlen Htake]. unfold bytes_at. rewrite Hp. cbn [at_place offset region].
    rewrite (rd_class _ _ Hrd). cbn [Z.eqb Z.leb Z.compare Z.add Z.of_nat andb Pos.compare Pos.compare_cont].
    change (Z.to_nat 0) with 0%nat. change (Z.to_nat 7) with 7%nat. rewrite drop_0, Htake.
    cbn [mbind option_bind]. eexists. split; [done|].
    split; [|by rewrite app_nil_r|done|by repeat split|done|by rewrite (Hsets _ E)].
    destruct Hrd. split; try done. split; [done|]. cbn [coding update updater]. rewrite length_take. lia.
  - eexists. split; [done|]. split; [destruct Hrd; by split|by rewrite app_nil_r|done|by repeat split|cbn [iLen update updater]; lia|].
    intros _. destruct (rd_coding _ _ Hrd) as [Hc1 Hc2]. split; [cbn; by rewrite Hc2|].
    split; [done|]. exists []. cbn. by rewrite drop_0, app_nil_r.
  - exists u. split; [done|]. apply (emit_handled sel r [] d u); [done|by repeat split|done|by rewrite (Hsets _ E)|].
    rewrite app_nil_r. by destruct u.
Qed.

(** Any request. *)
Lemma handle_request data p :
  (sets_coding r = true -> (7 <= length data)%nat /\ take 7 (abClassReqData u) = take 7 data) ->
  serves sel r (service sel r data d) d u (_HandleRequest (mk_bus p sel) u).
Proof using Hr Hc.
  intros Hdata. destruct Hc as [Hrd (A1 & A2 & A3 & A4 & A5) Hst Hlen0]. unfold _HandleRequest, service.
  rewrite A1, (rd_handlers _ _ Hrd). destruct (type_cases (rtype r)) as [E|[E|[E|E]]]; [apply Hr|..]; rewrite E.
  - change (nth (Z.to_nat 0) _ None) with (Some HandleStandard). change (0 =? REQTYPE_TYPE_STANDARD) with true.
    cbv iota. unfold USBHandleStandardRequest. rewrite A1.
    destruct (Z.eqb_spec (REQTYPE_GET_RECIP (rtype r)) REQTYPE_RECIP_DEVICE); [by apply device_request|].
    destruct (Z.eqb_spec (REQTYPE_GET_RECIP (rtype r)) REQTYPE_RECIP_INTERFACE); [by apply interface_request|].
    destruct (Z.eqb_spec (REQTYPE_GET_RECIP (rtype r)) REQTYPE_RECIP_ENDPOINT); [by apply endpoint_request|done].
  - change (nth (Z.to_nat 1) _ None) with (Some HandleClass). change (1 =? REQTYPE_TYPE_STANDARD) with false.
    change (1 =? REQTYPE_TYPE_CLASS) with true. cbv iota. apply class_request; [done|]. intros Hcode.
    apply Hdata. unfold sets_coding. rewrite E, Hcode. done.
  - done.
  - done.
Qed.
End request.

(** ** Interrupts *)

(** An interrupt of one control endpoint calls the control transfer handler. *)
Lemma control_served i status p sel u :
  i = 0 \/ i = 1 -> nth 0 (epHandlers u) None = Some ControlTransfer ->
  on_interrupt (control_interrupt i status p sel) u =
    v ← USBHandleControlTransfer (hardware (control_interrupt i status p sel)) (IDX2EP i) (convert_status status)
          (u <| happened := [] |>);
    Some (happened v, v).
Proof.
  intros Hi Hh. unfold on_interrupt, USBHwISR. set (q := control_interrupt i status p sel). set (u0 := u <| happened := [] |>).
  change (has (USBDevIntSt q) FRAME) with false. change (has (USBDevIntSt q) EP_SLOW) with true. cbv iota.
  assert (forall l v, (forall j, j ∈ l -> j <> i) -> serve_endpoints q l v = Some v) as Hskip.
  { induction l as [|j l IH]; intros v Hl; [done|]. cbn [serve_endpoints]. unfold serve_endpoint.
    assert (endpoint_status q j = None) as ->.
    { cbn. rewrite (proj2 (Z.eqb_neq j i)); [done|]. apply Hl, elem_of_cons. by left. }
    cbn [mbind option_bind]. apply IH. intros j' Hj. apply Hl, elem_of_cons. by right. }
  assert (forall l v, nth 0 (epHandlers v) None = Some ControlTransfer -> (forall j, j ∈ l -> j <> i) ->
    serve_endpoints q (i :: l) v = USBHandleControlTransfer (hardware q) (IDX2EP i) (convert_status status) v) as Hserve.
  { intros l v Hv Hl. cbn [serve_endpoints]. unfold serve_endpoint.
    assert (endpoint_status q i = Some status) as -> by (cbn; by rewrite Z.eqb_refl).
    assert (nth (Z.to_nat (Z.quot i 2)) (epHandlers v) None = Some ControlTransfer) as ->.
    { by destruct Hi as [->| ->]. }
    destruct (USBHandleControlTransfer _ _ _ v) as [w|]; [|done]. cbn [mbind option_bind]. by apply Hskip. }
  assert (serve_endpoints q (seqZ 0 32) u0 =
    USBHandleControlTransfer (hardware q) (IDX2EP i) (convert_status status) u0) as ->; [|done].
  destruct Hi as [->| ->].
  - rewrite seqZ_cons by lia. apply Hserve; [done|]. intros j Hj%elem_of_seqZ. lia.
  - rewrite seqZ_cons by lia. cbn [serve_endpoints]. rewrite (seqZ_cons (Z.succ 0)) by lia.
    change (serve_endpoint q u0 0) with (Some u0). cbn [mbind option_bind].
    apply Hserve; [done|]. intros j Hj%elem_of_seqZ. lia.
Qed.

Lemma in_served sel u d l :
  ready d u -> pending u l ->
  exists v, on_interrupt (in_token sel) u = Some ([HwEPWrite 128 (take 64 l)], v) /\
    ready d v /\ pending v (drop 64 l).
Proof.
  intros Hr Hp. unfold in_token. rewrite control_served; [|by right|apply Hr].
  change (IDX2EP 1) with 128. unfold USBHandleControlTransfer. cbn [Z.eqb Pos.eqb].
  destruct (DataIn_spec (u <| happened := [] |>) l) as (v & -> & Hv & He & Hd); [exact Hp|].
  cbn [mbind option_bind]. rewrite He. exists v. split; [done|]. split; [|done]. apply Hd. destruct Hr. by split.
Qed.

Lemma status_served sel u d :
  ready d u -> pending u [] ->
  exists v, on_interrupt (out_token [] sel) u = Some ([], v) /\ ready d v.
Proof.
  intros Hr [Hp _]. unfold out_token. rewrite control_served; [|by left|apply Hr].
  change (IDX2EP 0) with 0. unfold USBHandleControlTransfer. cbn [Z.eqb].
  change (has (convert_status EPSTAT_FE) EP_STATUS_SETUP) with false. cbv iota.
  cbn [iResidue update updater] in *. change (iResidue (u <| happened := [] |>)) with (iResidue u). rewrite Hp.
  change (0 <? Z.of_nat (length [])) with false. cbv iota.
  unfold USBHwEPRead. cbn. eexists. split; [done|]. destruct Hr. by split.
Qed.

(** The host reads all that is offered. *)
Lemma read_in_spec sel d n : forall want l u,
  ready d u -> pending u (drop 64 l) -> Z.of_nat (length l) <= want -> 0 < want <= Z.of_nat n ->
  exists v, read_in n sel want (take 64 l) u = Some (l, v) /\ ready d v /\ pending v [].
Proof.
  induction n as [|n IH]; intros want l u Hr Hp Hl Hw; [lia|]. cbn [read_in].
  destruct (in_served sel u d _ Hr Hp) as (v & -> & Hr' & Hp'). cbn [mbind option_bind].
  unfold MAX_PACKET_SIZE0. rewrite length_take.
  destruct (decide (length l < 64)%nat).
  - rewrite (proj2 (Z.ltb_lt _ _)) by lia. cbn [orb]. rewrite take_ge by lia.
    rewrite !drop_ge in Hp' by (rewrite ?length_drop; lia). by exists v.
  - rewrite (proj2 (Z.ltb_ge _ _)) by lia. cbn [orb]. destruct (Z.leb_spec want (Z.of_nat (64 `min` length l))).
    + rewrite take_ge by lia. rewrite !drop_ge in Hp' by (rewrite ?length_drop; lia). by exists v.
    + destruct (IH (want - Z.of_nat (64 `min` length l)) (drop 64 l) v) as (w & E & Hw1 & Hw2);
        [done|done|rewrite length_drop; lia|lia|].
      assert (sent [HwEPWrite 128 (take 64 (drop 64 l))] = take 64 (drop 64 l)) as -> by (cbn; by rewrite app_nil_r).
      rewrite E. cbn [mbind option_bind]. exists w. by rewrite take_drop.
Qed.

(** ** The phases of a transfer *)

Definition to_setup (r : request) (u : usb) : usb :=
  let u := u <| happened := [] |> <| Setup := setup_bytes r |> in
  u <| pbData := data_store u |> <| iResidue := wLength u |> <| iLen := wLength u |>.

Lemma setup_called r d u : in_ranges r -> ready d u -> called r d (to_setup r u).
Proof.
  intros Hr Hrd. pose proof (setup_asks r (to_setup r u) Hr eq_refl) as Ha.
  split; [destruct Hrd; by split|done|done|]. change (iLen (to_setup r u)) with (wLength (to_setup r u)).
  destruct Ha as (_ & _ & _ & _ & ->). apply Hr.
Qed.

Lemma setup_served r d sel u :
  in_ranges r -> ready d u ->
  on_interrupt (setup_token (setup_bytes r) sel) u =
    v ← (if (rlength r =? 0) || to_host r then
           '(ok, v) ← _HandleRequest (hardware (setup_token (setup_bytes r) sel)) (to_setup r u);
           if negb ok then Some (StallControlPipe v)
           else DataIn (v <| iResidue := Z.min (iLen v) (wLength v) |>)
         else Some (to_setup r u));
    Some (happened v, v).
Proof.
  intros Hr Hrd. unfold setup_token. rewrite control_served; [|by left|apply Hrd].
  change (IDX2EP 0) with 0. unfold USBHandleControlTransfer. cbn [Z.eqb].
  change (has (convert_status EPSTAT_STP) EP_STATUS_SETUP) with true. cbv iota. unfold begin_transfer.
  assert (USBHwEPRead (hardware (control_interrupt 0 EPSTAT_STP (setup_bytes r) sel)) 0 (mk_pointer SetupData 0) 8
    (u <| happened := [] |>) = Some (8, u <| happened := [] |> <| Setup := setup_bytes r |>)) as ->.
  { unfold USBHwEPRead. change (packet _ (EP2IDX 0)) with (Some (setup_bytes r)). cbv iota.
    rewrite bool_decide_false by done. unfold write_bytes.
    change (region _ (u <| happened := [] |>)) with (Setup u). rewrite (rd_setup _ _ Hrd).
    change (take (Z.to_nat 8) (setup_bytes r)) with (setup_bytes r).
    cbn -[overwrite Z.shiftr Z.land]. unfold overwrite.
    rewrite (drop_ge (Setup u)) by (rewrite (rd_setup _ _ Hrd); cbn; lia). done. }
  cbn [mbind option_bind]. fold (to_setup r u). destruct (setup_called r d u Hr Hrd) as [_ (A1 & _ & _ & _ & A5) _ _].
  change (to_setup r u) with (to_setup r u) in *.
  change (wLength (u <| happened := [] |> <| Setup := setup_bytes r |>)) with (wLength (to_setup r u)).
  change (bmRequestType (u <| happened := [] |> <| Setup := setup_bytes r |>)) with (bmRequestType (to_setup r u)).
  unfold to_host. by rewrite A1, A5.
Qed.

(** What a service does to the hardware is not a packet, nor a refusal. *)
Lemma service_quiet sel r data d l evs d' tail :
  legal r data = true -> service sel r data d = Some (l, evs, d') ->
  stalled (evs ++ tail) = stalled tail /\ effects (evs ++ tail) = evs ++ effects tail /\ sent (evs ++ tail) = sent tail.
Proof.
  intros Hl Hs.
  assert (Forall (fun e => is_stall e = false /\ is_write e = false) evs) as He.
  { unfold legal in Hl. assert (rcode r = REQ_SET_FEATURE -> (u8 (rindex r) =? 128) = false) as Hep.
    { intros E. rewrite E in Hl. destruct (u8 (rindex r) =? 128); [|done]. cbn [negb andb] in Hl.
      rewrite Z.eqb_refl in Hl. cbn [negb andb] in Hl. by rewrite !andb_false_r in Hl. }
    unfold service, device_service, interface_service, endpoint_service, class_service, our_endpoints in Hs.
    repeat match type of Hs with
    | (if ?b then _ else _) = _ => let E := fresh "E" in destruct b eqn:E
    | (_ ≫= _) = _ => destruct (descriptor _ _); cbn [mbind option_bind] in Hs
    end; try done; injection Hs as <- <- <-;
    repeat match goal with |- Forall _ (if ?b then _ else _) => destruct b | |- Forall _ ((if ?b then _ else _) ++ _) => destruct b end;
    try (repeat constructor; done).
    constructor; [|done]. split; [|done]. cbn. apply Hep. apply andb_true_iff in E5 as [E5 _]. lia. }
  clear Hs. induction He as [|e evs [H1 H2] He IH]; [done|]. destruct IH as (I1 & I2 & I3).
  cbn [app]. unfold stalled, effects, sent in *. cbn [existsb List.filter map concat]. rewrite H1, H2, I1, I2. cbn [negb orb].
  split; [done|]. split; [done|]. rewrite I3. by destruct e.
Qed.

Lemma legal_ranges r data : legal r data = true -> in_ranges r.
Proof. unfold legal, in_byte, in_word, in_ranges. rewrite !andb_true_iff. lia. Qed.

Lemma legal_out r data :
  legal r data = true -> to_host r = false ->
  Z.of_nat (length data) = rlength r /\ rlength r <= 8 /\ (sets_coding r = true -> (7 <= length data)%nat).
Proof.
  unfold legal. rewrite !andb_true_iff. intros [_ Hl] Ht. rewrite Ht, !andb_true_iff in Hl.
  destruct Hl as [[H1 H2] H3]. apply Z.eqb_eq in H1. apply Z.leb_le in H2. split; [done|]. split; [done|].
  intros Hs. rewrite Hs in H3. cbn [negb orb] in H3. apply Z.leb_le in H3. lia.
Qed.

Lemma coding_sets r : sets_coding r = true -> sets r = true.
Proof.
  unfold sets_coding, sets. intros [H1 H2]%andb_true_iff. apply Z.eqb_eq in H2. rewrite H1, H2. cbn -[Z.eqb].
  by rewrite !orb_true_r.
Qed.

(** The setup packet of a request that is handled at once. *)
Lemma at_once sel r data d u :
  legal r data = true -> ready d u -> (rlength r =? 0) || to_host r = true ->
  match service sel r data d with
  | None => exists v, on_interrupt (setup_token (setup_bytes r) sel) u = Some ([EPStall 128 true], v) /\ ready d v
  | Some (l, evs, d') => exists v, on_interrupt (setup_token (setup_bytes r) sel) u =
      Some (evs ++ [HwEPWrite 128 (take 64 (take (Z.to_nat (rlength r)) l))], v) /\
      ready d' v /\ pending v (drop 64 (take (Z.to_nat (rlength r)) l))
  end.
Proof.
  intros Hl Hrd Hnow. pose proof (legal_ranges r data Hl) as Hr.
  rewrite (setup_served r d sel u Hr Hrd), Hnow.
  pose proof (handle_request sel r d (to_setup r u) Hr (setup_called r d u Hr Hrd) data
    (packet (hardware (setup_token (setup_bytes r) sel)))) as Hh.
  change (mk_bus _ sel) with (hardware (setup_token (setup_bytes r) sel)) in Hh.
  assert (sets_coding r = true -> (7 <= length data)%nat /\ take 7 (abClassReqData (to_setup r u)) = take 7 data) as Hco.
  { intros Hs. exfalso. pose proof (coding_sets r Hs) as Hs'. destruct (to_host r) eqn:Et.
    - unfold legal in Hl. rewrite Et, Hs', andb_false_r in Hl. by rewrite andb_false_r in Hl.
    - destruct (legal_out r data Hl Et) as (H1 & _ & H3). specialize (H3 Hs). lia. }
  specialize (Hh Hco). destruct (service sel r data d) as [[[l evs] d']|] eqn:Es; unfold serves in Hh.
  2: { rewrite Hh. cbn [mbind option_bind negb]. eexists. split; [done|]. destruct Hrd. by split. }
  destruct Hh as (v & -> & [Hv1 Hv2 Hv3 Hv4 Hv5 Hv6]). cbn [mbind option_bind negb].
  set (w := v <| iResidue := Z.min (iLen v) (wLength v) |>).
  assert (pending w (take (Z.to_nat (rlength r)) l)) as Hp.
  { unfold pending. change (iResidue w) with (Z.min (iLen v) (wLength v)).
    destruct Hv4 as (_ & _ & _ & _ & ->). rewrite length_take. destruct (Z.eqb_spec (rlength r) 0) as [E0|E0].
    - rewrite E0. split; [lia|by left].
    - assert (to_host r = true) as Et by done.
      assert (sets r = false) as Hs.
      { unfold legal in Hl. rewrite Et in Hl. destruct (sets r); [|done]. by rewrite !andb_false_r in Hl. }
      destruct (Hv6 Hs) as [-> [H1 [rest H2]]]. destruct Hr as (_ & _ & _ & _ & Hr5). split; [lia|right].
      split; [done|]. exists (drop (Z.to_nat (rlength r)) l ++ rest).
      change (region (at_place (pbData w)) w) with (region (at_place (pbData v)) w).
      assert (region (at_place (pbData v)) w = region (at_place (pbData v)) v) as -> by (by destruct (at_place (pbData v))).
      change (pbData w) with (pbData v). by rewrite H2, app_assoc, take_drop. }
  destruct (DataIn_spec w _ Hp) as (x & -> & Hx1 & Hx2 & Hx3). cbn [mbind option_bind]. exists x. split.
  - rewrite Hx2. change (happened w) with (happened v). by rewrite Hv2.
  - split; [|done]. apply Hx3. destruct Hv1. by split.
Qed.

(** The data of a request, and its handling. *)
Lemma after_data sel r data d u :
  legal r data = true -> ready d u -> rlength r <> 0 -> to_host r = false ->
  match service sel r data d with
  | None => exists v, on_interrupt (out_token data sel) (to_setup r u) = Some ([EPStall 128 true], v) /\ ready d v
  | Some (l, evs, d') => exists v, on_interrupt (out_token data sel) (to_setup r u) =
      Some (evs ++ [HwEPWrite 128 []], v) /\ ready d' v /\ pending v []
  end.
Proof.
  intros Hl Hrd Hn Ht. pose proof (legal_ranges r data Hl) as Hr.
  destruct (legal_out r data Hl Ht) as (Hlen & H8 & Hco).
  destruct (setup_called r d u Hr Hrd) as [Hrd1 Ha1 Hst1 Hl1]. pose proof Ha1 as (A1 & _ & _ & _ & A5).
  unfold out_token. rewrite control_served; [|by left|apply Hrd1].
  change (IDX2EP 0) with 0. unfold USBHandleControlTransfer. cbn [Z.eqb].
  change (has (convert_status EPSTAT_FE) EP_STATUS_SETUP) with false. cbv iota.
  set (u0 := (to_setup r u) <| happened := [] |>).
  assert (iResidue u0 = rlength r) as Hres by exact A5. rewrite Hres.
  assert ((0 <? rlength r) = true) as -> by (destruct Hr as (_ & _ & _ & _ & Hr5); lia). unfold data_out.
  set (hw := hardware (control_interrupt 0 EPSTAT_FE data sel)).
  assert (exists w, USBHwEPRead hw 0 (pbData u0) (iResidue u0) u0 = Some (rlength r, w) /\ ready d w /\ asks r w /\
    iResidue w = rlength r /\ 0 <= iLen w /\ happened w = [] /\
    (sets_coding r = true -> take 7 (abClassReqData w) = take 7 data)) as (w & -> & W1 & W2 & W3 & W4 & W5 & W6).
  { unfold USBHwEPRead. change (packet hw (EP2IDX 0)) with (Some data). cbv iota. rewrite Hlen.
    rewrite Hres, take_ge by lia.
    assert (pbData u0 = data_store (to_setup r u)) as -> by exact Hst1. unfold data_store.
    rewrite A1, (rd_stores _ _ Hrd1).
    destruct (type_cases (rtype r)) as [E|[E|[E|E]]]; [apply Hr|..]; rewrite E.
    3, 4: exists u0; split; [done|]; split; [destruct Hrd1; by split|]; split; [exact Ha1|];
      split; [exact A5|]; split; [exact Hl1|]; split; [done|];
      intros Hs; unfold sets_coding in Hs; by rewrite E in Hs.
    - change (nth (Z.to_nat 0) _ _) with (mk_pointer StdReqData 0). rewrite bool_decide_false by done.
      assert (length (abStdReqData u0) = 8%nat) as E8 by exact (rd_std _ _ Hrd1).
      rewrite write_at_start by (cbn [region]; first [lia|intros ->; cbn in Hlen; lia]). cbn [set_region mbind option_bind].
      eexists. split; [done|]. split; [|split; [exact Ha1|split; [exact A5|split; [exact Hl1|split; [done|]]]]].
      2: { intros Hs. unfold sets_coding in Hs. by rewrite E in Hs. }
      destruct Hrd1. split; try done. cbn [abStdReqData update updater region].
      rewrite overwrite_length; [done|lia].
    - change (nth (Z.to_nat 1) _ _) with (mk_pointer ClassReqData 0). rewrite bool_decide_false by done.
      assert (length (abClassReqData u0) = 8%nat) as E8 by exact (rd_class _ _ Hrd1).
      rewrite write_at_start by (cbn [region]; first [lia|intros ->; cbn in Hlen; lia]). cbn [set_region mbind option_bind].
      eexists. split; [done|]. split; [|split; [exact Ha1|split; [exact A5|split; [exact Hl1|split; [done|]]]]].
      + destruct Hrd1. split; try done. cbn [abClassReqData update updater region].
        rewrite overwrite_length; [done|lia].
      + intros Hs. cbn [abClassReqData update updater region]. unfold overwrite. rewrite take_0. cbn [app].
        apply take_app_le, (Hco Hs). }
  cbn [mbind option_bind]. rewrite (proj2 (Z.ltb_ge (rlength r) 0)) by lia.
  set (w0 := w <| pbData ::= advance (rlength r) |> <| iResidue ::= fun x => x - rlength r |>).
  assert (iResidue w0 = 0) as Hres0 by (unfold w0; cbn [iResidue update updater]; lia). rewrite Hres0.
  change (0 =? 0) with true. cbv iota. set (w1 := w0 <| pbData := data_store w0 |>).
  assert (called r d w1) as Hcall.
  { split; [destruct W1; by split|exact W2|done|exact W4]. }
  pose proof (handle_request sel r d w1 Hr Hcall data (packet hw)) as Hh.
  change (mk_bus (packet hw) sel) with hw in Hh.
  specialize (Hh ltac:(intros Hs; split; [by apply Hco|by apply W6])).
  destruct (service sel r data d) as [[[l evs] d']|]; unfold serves in Hh.
  2: { rewrite Hh. cbn [mbind option_bind negb]. exists (StallControlPipe w1). split; [|destruct W1; by split].
       assert (happened (StallControlPipe w1) = [EPStall 128 true]) as ->; [|done].
       change (happened w ++ [EPStall 128 true] = [EPStall 128 true]). by rewrite W5. }
  destruct Hh as (v & -> & [Hv1 Hv2 Hv3 _ _ _]). cbn [mbind option_bind negb].
  assert (pending v []) as Hp by (split; [by rewrite Hv3|by left]).
  destruct (DataIn_spec v [] Hp) as (x & -> & Hx1 & Hx2 & Hx3). cbn [mbind option_bind]. exists x.
  split; [|split; [by apply Hx3|done]]. rewrite Hx2, Hv2. change (happened w1) with (happened w). by rewrite W5.
Qed.

Lemma transfer_ok sel r data d u :
  legal r data = true -> ready d u ->
  exists v, transfer sel r data u = Some ((answer sel r data d).1, v) /\ ready (answer sel r data d).2 v.
Proof.
  intros Hl Hrd. unfold transfer, answer. pose proof (service_quiet sel r data d) as Hq.
  destruct ((rlength r =? 0) || to_host r) eqn:Hnow.
  - pose proof (at_once sel r data d u Hl Hrd Hnow) as Ha.
    destruct (service sel r data d) as [[[l evs] d']|].
    2: { destruct Ha as (v & -> & Hv). cbn [mbind option_bind]. by exists v. }
    destruct Ha as (v & -> & Hv & Hp). cbn [mbind option_bind].
    destruct (Hq l evs d' [HwEPWrite 128 (take 64 (take (Z.to_nat (rlength r)) l))] Hl eq_refl) as (-> & -> & ->).
    cbn [stalled existsb is_stall orb effects List.filter is_write negb sent map concat]. rewrite !app_nil_r.
    destruct (Z.eqb_spec (rlength r) 0) as [E0|E0]; cbn [orb] in *.
    + destruct (in_served sel v d' _ Hv Hp) as (x & -> & Hx & _). cbn [mbind option_bind]. by exists x.
    + rewrite Hnow. cbn [negb]. pose proof (legal_ranges r data Hl) as (_ & _ & _ & _ & Hr).
      destruct (read_in_spec sel d' (Z.to_nat (rlength r)) (rlength r) (take (Z.to_nat (rlength r)) l) v Hv Hp)
        as (x & -> & Hx & Hpx); [rewrite length_take; lia|lia|]. cbn [mbind option_bind].
      destruct (status_served sel x d' Hx Hpx) as (y & -> & Hy). cbn [mbind option_bind]. by exists y.
  - apply orb_false_iff in Hnow as [E0 Et]. apply Z.eqb_neq in E0.
    pose proof (legal_ranges r data Hl) as Hr. rewrite (setup_served r d sel u Hr Hrd), Et.
    rewrite (proj2 (Z.eqb_neq _ _) E0). cbn [orb mbind option_bind].
    change (happened (to_setup r u)) with ([] : list usb_event). cbn [stalled existsb app].
    pose proof (after_data sel r data d u Hl Hrd E0 Et) as Ha. cbn [negb].
    destruct (service sel r data d) as [[[l evs] d']|].
    2: { destruct Ha as (v & -> & Hv). cbn [mbind option_bind]. by exists v. }
    destruct Ha as (v & -> & Hv & Hp). cbn [mbind option_bind].
    destruct (Hq l evs d' [HwEPWrite 128 []] Hl eq_refl) as (-> & -> & _).
    cbn [stalled existsb is_stall orb effects List.filter is_write negb]. rewrite app_nil_r.
    destruct (in_served sel v d' _ Hv Hp) as (x & -> & Hx & _). cbn [mbind option_bind]. by exists x.
Qed.

Lemma initialised_ready : ready (mk_device [0; 194; 1; 0; 0; 0; 8] 0) (USBSerial_Init usb_zero).
Proof. by split. Qed.

(** C14: After USBSerial_Init, a host that sends any sequence of control
    transfers packet by packet, in the direction of each request and with at
    most the 8 bytes of data there is room for, gets from the stack what the
    abstract device answers: every descriptor by type and index, the
    configuration, the line coding that was set last, stalls for everything
    else; and the hardware is addressed, configured and halted accordingly. *)
Theorem control_transfers_answered (sel : Z -> Z) (ts : list (request * list Z)) :
  List.Forall (fun x => legal x.1 x.2 = true) ts ->
  exists u, transfers sel ts (USBSerial_Init usb_zero) =
    Some (answers sel ts (mk_device [0; 194; 1; 0; 0; 0; 8] 0), u).
Proof.
  pose proof initialised_ready as Hr. revert Hr. generalize (mk_device [0; 194; 1; 0; 0; 0; 8] 0) as d.
  generalize (USBSerial_Init usb_zero) as u. induction ts as [|[r data] ts IH]; intros u d Hr Hl; [by exists u|].
  apply List.Forall_cons_iff in Hl as [Hl Hls]. cbn [transfers answers].
  destruct (transfer_ok sel r data d u Hl Hr) as (v & -> & Hv). cbn [mbind option_bind].
  destruct (answer sel r data d) as [x d']. destruct (IH v d' Hv Hls) as (w & ->). by exists w.
Qed.

(** The host reads the device and the configuration descriptor, sets the
    address and the configuration, sets the line coding and reads it back, and
    asks for a string that does not exist. *)
Definition some_transfers : list (request * list Z) :=
  [(mk_request 128 6 256 0 64, []); (mk_request 128 6 512 0 255, []); (mk_request 0 5 3 0 0, []);
   (mk_request 0 9 1 0 0, []); (mk_request 33 32 0 0 7, [128; 37; 0; 0; 0; 0; 8]);
   (mk_request 161 33 0 0 7, []); (mk_request 128 6 772 0 255, [])].

Lemma control_transfers_answered_witness :
  exists u, transfers (fun _ => 0) some_transfers (USBSerial_Init usb_zero) =
    Some (answers (fun _ => 0) some_transfers (mk_device [0; 194; 1; 0; 0; 0; 8] 0), u).
Proof. apply (control_transfers_answered (fun _ => 0) some_transfers). repeat constructor. Defined.

(** Data beyond the 8 bytes of a store is written behind it. *)
Lemma long_class_data_overflows :
  transfer (fun _ => 0) (mk_request 33 SET_LINE_CODING 0 0 9) (replicate 9 0) (USBSerial_Init usb_zero) = None.
Proof. by vm_compute. Qed.

(** The configuration descriptor announces 147 bytes; its own descriptors end
    after 67, at the first string. *)
Lemma configuration_too_long :
  descriptor DESC_CONFIGURATION 0 = Some (take 147 (drop 18 abDescriptors)) /\
  arr abDescriptors (18 + 67 + 1) = DESC_STRING.
Proof. split; by vm_compute. Qed.
