(* ===== verification/Dll.v ===== *)
(** * Doubly linked lists

    The lists of the kernel are linked through two pointer fields of statically
    allocated control blocks; a block is its index in its table. A list is a
    predicate on the two link functions, so that the same lemmas serve the
    ready list, the delay list, the waiting lists of events and mutexes, the
    timer list and the flag nodes. *)

From S2P Require Import Prelude.

(** ** Segments

    [first] is the first block of a segment, or what follows an empty one;
    [final] is its last block, or what precedes an empty one. *)

Definition first (xs : list Z) (after : option Z) : option Z :=
  match xs with [] => after | x :: _ => Some x end.

Fixpoint final (before : option Z) (xs : list Z) : option Z :=
  match xs with [] => before | x :: xs => final (Some x) xs end.

Fixpoint dseg (nxt prv : Z -> option Z) (before : option Z) (xs : list Z) (after : option Z) : Prop :=
  match xs with
  | [] => True
  | x :: xs => prv x = before /\ nxt x = first xs after /\ dseg nxt prv (Some x) xs after
  end.

Lemma first_app xs ys after : first (xs ++ ys) after = first xs (first ys after).
Proof. by destruct xs. Qed.

Lemma final_app before xs ys : final before (xs ++ ys) = final (final before xs) ys.
Proof. revert before. induction xs as [|x xs IH]; intros before; [done|]. apply IH. Qed.

Lemma final_snoc before xs x : final before (xs ++ [x]) = Some x.
Proof. by rewrite final_app. Qed.

Lemma dseg_app nxt prv before xs ys after :
  dseg nxt prv before (xs ++ ys) after <->
  dseg nxt prv before xs (first ys after) /\ dseg nxt prv (final before xs) ys after.
Proof.
  revert before. induction xs as [|x xs IH]; intros before; cbn [app dseg final]; [tauto|].
  rewrite IH, first_app. tauto.
Qed.

(** A segment depends on the links of its own blocks only. *)
Lemma dseg_ext nxt prv nxt' prv' before xs after :
  (forall x, x ∈ xs -> nxt' x = nxt x /\ prv' x = prv x) ->
  dseg nxt prv before xs after -> dseg nxt' prv' before xs after.
Proof.
  revert before. induction xs as [|x xs IH]; intros before Heq; [done|].
  cbn [dseg]. intros (Hp & Hn & Hs).
  destruct (Heq x) as [-> ->]; [apply elem_of_cons; by left|].
  split; [done|]. split; [done|]. apply IH; [|done].
  intros y Hy. apply Heq. apply elem_of_cons. by right.
Qed.

(** The end of a segment can be redirected. *)
Lemma dseg_redirect nxt prv nxt' prv' before xs x after after' :
  x ∉ xs -> (forall y, y ∈ xs -> nxt' y = nxt y) -> (forall y, y ∈ xs ++ [x] -> prv' y = prv y) ->
  nxt' x = after' ->
  dseg nxt prv before (xs ++ [x]) after -> dseg nxt' prv' before (xs ++ [x]) after'.
Proof.
  intros Hx Hn Hp Hx'. rewrite !dseg_app. intros [H1 H2]. split.
  - eapply dseg_ext; [|exact H1]. intros y Hy. split; [by apply Hn|].
    apply Hp. apply elem_of_app. by left.
  - cbn [dseg first] in *. destruct H2 as (H2 & _ & _). split; [|done].
    rewrite Hp; [done|]. apply elem_of_app. right. by apply list_elem_of_singleton.
Qed.

(** ** Lists *)

Record dll (nxt prv : Z -> option Z) (head : option Z) (xs : list Z) : Prop := mk_dll {
  dll_head : head = first xs None;
  dll_nodup : NoDup xs;
  dll_links : dseg nxt prv None xs None
}.

Lemma dll_nil nxt prv : dll nxt prv None [].
Proof. split; [done|constructor|done]. Qed.

Lemma dll_none nxt prv xs : dll nxt prv None xs -> xs = [].
Proof. intros [H _ _]. by destruct xs. Qed.

Lemma dll_some nxt prv h xs : dll nxt prv (Some h) xs -> exists t, xs = h :: t.
Proof. intros [H _ _]. destruct xs as [|x t]; [done|]. injection H as ->. by exists t. Qed.

Lemma dll_ext nxt prv nxt' prv' head xs :
  (forall x, x ∈ xs -> nxt' x = nxt x /\ prv' x = prv x) ->
  dll nxt prv head xs -> dll nxt' prv' head xs.
Proof. intros H [Hh Hn Hl]. split; [done..|]. by apply (dseg_ext nxt prv). Qed.

(** The links of a block of a list. *)
Lemma dll_at nxt prv head xs x ys :
  dll nxt prv head (xs ++ x :: ys) -> nxt x = first ys None /\ prv x = final None xs.
Proof. intros [_ _ Hl]. apply dseg_app in Hl as [_ (Hp & Hn & _)]. done. Qed.

(** The case analysis that the code does on the links of a block. *)
Lemma dll_prev_none nxt prv head xs x ys :
  dll nxt prv head (xs ++ x :: ys) -> prv x = None <-> xs = [].
Proof.
  intros H. destruct (dll_at _ _ _ _ _ _ H) as [_ ->]. destruct xs as [|y xs _] using rev_ind.
  - done.
  - rewrite final_snoc. split; [done|]. intros Hc. by destruct xs.
Qed.

Lemma dll_next_none nxt prv head xs x ys :
  dll nxt prv head (xs ++ x :: ys) -> nxt x = None <-> ys = [].
Proof. intros H. destruct (dll_at _ _ _ _ _ _ H) as [-> _]. by destruct ys. Qed.

(** [x] is linked in front. *)
Lemma dll_push nxt prv nxt' prv' head xs x :
  dll nxt prv head xs -> x ∉ xs -> nxt' x = head -> prv' x = None ->
  (forall y, y ∈ xs -> nxt' y = nxt y) ->
  (forall y, y ∈ xs -> prv' y = if decide (head = Some y) then Some x else prv y) ->
  dll nxt' prv' (Some x) (x :: xs).
Proof.
  intros [Hh Hn Hl] Hx Hnx Hpx Hn' Hp'. split; [done|by apply list.NoDup_cons|].
  cbn [dseg]. split; [done|]. split; [by rewrite Hnx|]. destruct xs as [|h t]; [done|].
  cbn [dseg first] in *. destruct Hl as (_ & Hl1 & Hl2). subst head.
  apply list.NoDup_cons in Hn as [Hh Hn]. split; [|split].
  - rewrite Hp' by (apply elem_of_cons; by left). by rewrite decide_True.
  - rewrite Hn' by (apply elem_of_cons; by left). done.
  - eapply dseg_ext; [|exact Hl2]. intros y Hy. assert (y <> h) by (by intros ->). split.
    + apply Hn'. apply elem_of_cons. by right.
    + rewrite Hp' by (apply elem_of_cons; by right). rewrite decide_False; [done|congruence].
Qed.

(** [x] is linked behind [a]. *)
Lemma dll_insert nxt prv nxt' prv' head xs a ys x :
  dll nxt prv head (xs ++ a :: ys) -> x ∉ xs ++ a :: ys ->
  nxt' a = Some x -> nxt' x = first ys None -> prv' x = Some a ->
  (forall y, y ∈ xs ++ a :: ys -> y <> a -> nxt' y = nxt y) ->
  (forall y, y ∈ xs ++ a :: ys ->
     prv' y = if decide (first ys None = Some y) then Some x else prv y) ->
  dll nxt' prv' head (xs ++ a :: x :: ys).
Proof.
  intros [Hh Hn Hl] Hx Hna Hnx Hpx Hn' Hp'.
  apply list.NoDup_app in Hn as (N1 & N2 & N3). apply list.NoDup_cons in N3 as [N3 N4].
  assert (forall y, y ∈ xs -> y <> a) as Hxa.
  { intros y Hy ->. apply (N2 a Hy). apply elem_of_cons. by left. }
  assert (forall y, y ∈ xs ++ [a] -> first ys None <> Some y) as Hfy.
  { intros y Hy Hf. destruct ys as [|z ys]; [done|]. injection Hf as ->.
    apply elem_of_app in Hy as [Hy|Hy%list_elem_of_singleton].
    - apply (N2 y Hy). apply elem_of_cons. right. apply elem_of_cons. by left.
    - subst y. apply N3. apply elem_of_cons. by left. }
  split.
  - by rewrite first_app in *.
  - assert (x ∉ xs /\ x <> a /\ x ∉ ys) as (X1 & X2 & X3).
    { repeat split; intros Hc; apply Hx; apply elem_of_app;
        [left|right; apply elem_of_cons; left|right; apply elem_of_cons; right]; done. }
    apply list.NoDup_app. split; [done|]. split.
    + intros y Hy Hc. apply elem_of_cons in Hc as [->|Hc]; [by apply (Hxa a)|].
      apply elem_of_cons in Hc as [->|Hc]; [done|]. apply (N2 y Hy). apply elem_of_cons. by right.
    + apply list.NoDup_cons. split.
      * intros Hc. apply elem_of_cons in Hc as [->|Hc]; done.
      * by apply list.NoDup_cons.
  - change (xs ++ a :: x :: ys) with (xs ++ [a] ++ x :: ys). rewrite app_assoc. apply dseg_app.
    assert (xs ++ a :: ys = (xs ++ [a]) ++ ys) as Eapp by (by rewrite <- app_assoc).
    rewrite Eapp in Hl. apply dseg_app in Hl as [L1 L2]. split.
    + eapply dseg_redirect; [..|exact L1].
      * intros Hc. by apply (Hxa a).
      * intros y Hy. apply Hn'; [apply elem_of_app; by left|by apply Hxa].
      * intros y Hy. rewrite Hp'; [|rewrite Eapp; apply elem_of_app; by left].
        rewrite decide_False; [done|by apply Hfy].
      * done.
    + cbn [dseg]. rewrite final_snoc in *. split; [done|]. split; [done|].
      destruct ys as [|z ys]; [done|]. cbn [dseg first] in *. destruct L2 as (_ & L2 & L3).
      assert (forall y, y ∈ z :: ys -> nxt' y = nxt y) as Hz.
      { intros y Hy. apply Hn'; [apply elem_of_app; right; apply elem_of_cons; by right|].
        intros ->. by apply N3. }
      split; [|split].
      * rewrite Hp' by (rewrite Eapp; apply elem_of_app; right; apply elem_of_cons; by left).
        by rewrite decide_True.
      * rewrite Hz by (apply elem_of_cons; by left). done.
      * eapply dseg_ext; [|exact L3]. intros y Hy. split.
        -- apply Hz. apply elem_of_cons. by right.
        -- rewrite Hp' by (rewrite Eapp; apply elem_of_app; right; apply elem_of_cons; by right).
           rewrite decide_False; [done|]. intros [= ->].
           by apply list.NoDup_cons in N4 as [? _].
Qed.

(** [x] is unlinked. *)
Lemma dll_remove nxt prv nxt' prv' head head' xs x ys :
  dll nxt prv head (xs ++ x :: ys) ->
  head' = (match xs with [] => first ys None | _ => head end) ->
  (forall y, y ∈ xs ++ ys -> nxt' y = if decide (final None xs = Some y) then first ys None else nxt y) ->
  (forall y, y ∈ xs ++ ys -> prv' y = if decide (first ys None = Some y) then final None xs else prv y) ->
  dll nxt' prv' head' (xs ++ ys).
Proof.
  intros [Hh Hn Hl] Hh' Hn' Hp'.
  apply list.NoDup_app in Hn as (N1 & N2 & N3). apply list.NoDup_cons in N3 as [N3 N4].
  split.
  - rewrite Hh'. rewrite first_app in *. by destruct xs.
  - apply list.NoDup_app. split; [done|]. split; [|done].
    intros y Hy Hc. apply (N2 y Hy). apply elem_of_cons. by right.
  - apply dseg_app in Hl as [L1 (_ & _ & L2)]. apply dseg_app.
    assert (forall y, y ∈ xs -> first ys None <> Some y) as Hfy.
    { intros y Hy Hf. destruct ys as [|z ys]; [done|]. injection Hf as ->.
      apply (N2 y Hy). apply elem_of_cons. right. apply elem_of_cons. by left. }
    assert (forall y, y ∈ ys -> final None xs <> Some y) as Hly.
    { intros y Hy Hf. destruct xs as [|z xs _] using rev_ind; [done|].
      rewrite final_snoc in Hf. injection Hf as ->. apply (N2 y).
      - apply elem_of_app. right. by apply list_elem_of_singleton.
      - apply elem_of_cons. by right. }
    split.
    + destruct xs as [|z xs _] using rev_ind; [done|]. rewrite final_snoc in Hn'.
      apply list.NoDup_app in N1 as (M1 & M2 & _).
      assert (z ∉ xs) as Hz by (intros Hc; apply (M2 z Hc); by apply list_elem_of_singleton).
      eapply dseg_redirect; [exact Hz|..|exact L1].
      * intros y Hy. rewrite Hn' by (apply elem_of_app; left; apply elem_of_app; by left).
        rewrite decide_False; [done|]. intros [= ->]. done.
      * intros y Hy. rewrite Hp' by (apply elem_of_app; by left).
        rewrite decide_False; [done|]. by apply Hfy.
      * rewrite Hn' by (apply elem_of_app; left; apply elem_of_app; right; by apply list_elem_of_singleton).
        by rewrite decide_True.
    + destruct ys as [|z ys]; [done|]. cbn [dseg first] in *. destruct L2 as (_ & L2 & L3).
      split; [|split].
      * rewrite Hp' by (apply elem_of_app; right; apply elem_of_cons; by left).
        by rewrite decide_True.
      * rewrite Hn' by (apply elem_of_app; right; apply elem_of_cons; by left).
        rewrite decide_False; [done|]. apply Hly. apply elem_of_cons. by left.
      * eapply dseg_ext; [|exact L3]. intros y Hy. split.
        -- rewrite Hn' by (apply elem_of_app; right; apply elem_of_cons; by right).
           rewrite decide_False; [done|]. apply Hly. apply elem_of_cons. by right.
        -- rewrite Hp' by (apply elem_of_app; right; apply elem_of_cons; by right).
           rewrite decide_False; [done|]. intros [= ->].
           by apply list.NoDup_cons in N4 as [? _].
Qed.

(** ** Insertion and removal, as the change of the links

    [linked_in t a b] describes the links after [t] has been linked between [a]
    and [b], and [unlinked t] the links after [t] has been taken out from
    between its neighbours; null neighbours are the ends of the list. *)

Definition linked_in (t : Z) (a b : option Z) (nxt prv nxt' prv' : Z -> option Z) : Prop :=
  forall i,
    nxt' i = (if decide (i = t) then b else if decide (a = Some i) then Some t else nxt i) /\
    prv' i = (if decide (i = t) then a else if decide (b = Some i) then Some t else prv i).

Definition unlinked (t : Z) (nxt prv nxt' prv' : Z -> option Z) : Prop :=
  forall i, i <> t ->
    nxt' i = (if decide (prv t = Some i) then nxt t else nxt i) /\
    prv' i = (if decide (nxt t = Some i) then prv t else prv i).

Lemma dll_linked_in nxt prv nxt' prv' head l1 l2 t :
  dll nxt prv head (l1 ++ l2) -> t ∉ l1 ++ l2 ->
  linked_in t (final None l1) (first l2 None) nxt prv nxt' prv' ->
  dll nxt' prv' (match l1 with [] => Some t | _ => head end) (l1 ++ t :: l2).
Proof.
  intros Hd Ht Hl. assert (forall y, y ∈ l1 ++ l2 -> y <> t) as Hne by (by intros y Hy ->).
  destruct l1 as [|a l1 _] using rev_ind.
  - cbn [app final] in *. pose proof (dll_head _ _ _ _ Hd) as Hh.
    apply (dll_push nxt prv nxt' prv' head l2 t Hd Ht).
    + destruct (Hl t) as [-> _]. rewrite decide_True by done. by destruct l2.
    + destruct (Hl t) as [_ ->]. by rewrite decide_True.
    + intros y Hy. destruct (Hl y) as [-> _]. rewrite decide_False by (by apply Hne).
      by rewrite decide_False.
    + intros y Hy. destruct (Hl y) as [_ ->]. rewrite decide_False by (by apply Hne).
      by rewrite Hh.
  - rewrite final_snoc in Hl. rewrite <- !app_assoc in *. cbn [app] in *.
    replace (match l1 ++ [a] with [] => Some t | _ => head end) with head by (by destruct l1).
    apply (dll_insert nxt prv nxt' prv' head l1 a l2 t Hd Ht).
    + destruct (Hl a) as [-> _]. rewrite decide_False.
      * by rewrite decide_True.
      * apply Hne. apply elem_of_app. right. apply elem_of_cons. by left.
    + destruct (Hl t) as [-> _]. by rewrite decide_True.
    + destruct (Hl t) as [_ ->]. by rewrite decide_True.
    + intros y Hy Hya. destruct (Hl y) as [-> _]. rewrite decide_False by (by apply Hne).
      rewrite decide_False by congruence. done.
    + intros y Hy. destruct (Hl y) as [_ ->]. rewrite decide_False by (by apply Hne). done.
Qed.

Lemma dll_unlinked nxt prv nxt' prv' head l1 l2 t :
  dll nxt prv head (l1 ++ t :: l2) -> unlinked t nxt prv nxt' prv' ->
  dll nxt' prv' (match l1 with [] => first l2 None | _ => head end) (l1 ++ l2).
Proof.
  intros Hd Hu. destruct (dll_at _ _ _ _ _ _ Hd) as [Hn Hp].
  assert (forall y, y ∈ l1 ++ l2 -> y <> t) as Hne.
  { intros y Hy ->. apply dll_nodup in Hd.
    apply list.NoDup_app in Hd as (_ & N2 & N3). apply list.NoDup_cons in N3 as [N3 _].
    apply elem_of_app in Hy as [Hy|Hy]; [|done]. apply (N2 t Hy). apply elem_of_cons. by left. }
  eapply (dll_remove nxt prv); [exact Hd|done|..].
  - intros y Hy. destruct (Hu y (Hne y Hy)) as [-> _]. by rewrite Hn, Hp.
  - intros y Hy. destruct (Hu y (Hne y Hy)) as [_ ->]. by rewrite Hn, Hp.
Qed.

(** Blocks outside the list keep their links. *)
Lemma first_elem l i : first l None = Some i -> i ∈ l.
Proof. destruct l; [done|]. intros [= ->]. apply elem_of_cons. by left. Qed.

Lemma final_elem l i : final None l = Some i -> i ∈ l.
Proof.
  destruct l as [|x l _] using rev_ind; [done|]. rewrite final_snoc. intros [= ->].
  apply elem_of_app. right. by apply list_elem_of_singleton.
Qed.

Lemma linked_in_frame t l1 l2 nxt prv nxt' prv' i :
  linked_in t (final None l1) (first l2 None) nxt prv nxt' prv' ->
  i <> t -> i ∉ l1 ++ l2 -> nxt' i = nxt i /\ prv' i = prv i.
Proof.
  intros H Ht Hi. destruct (H i) as [-> ->]. rewrite !decide_False; try done.
  - intros E%first_elem. apply Hi, elem_of_app. by right.
  - intros E%final_elem. apply Hi, elem_of_app. by left.
Qed.

Lemma unlinked_frame t head l1 l2 nxt prv nxt' prv' i :
  dll nxt prv head (l1 ++ t :: l2) -> unlinked t nxt prv nxt' prv' ->
  i ∉ l1 ++ t :: l2 -> nxt' i = nxt i /\ prv' i = prv i.
Proof.
  intros Hd H Hi. destruct (dll_at _ _ _ _ _ _ Hd) as [Hn Hp].
  assert (i <> t) as Ht by (intros ->; apply Hi, elem_of_app; right; apply elem_of_cons; by left).
  destruct (H i Ht) as [-> ->]. rewrite Hn, Hp, !decide_False; try done.
  - intros E%first_elem. apply Hi, elem_of_app. right. apply elem_of_cons. by right.
  - intros E%final_elem. apply Hi, elem_of_app. by left.
Qed.
