(* ===== verification/CoTypes.v ===== *)
(** * Data of the CoOS kernel (CoOS/kernel/*.h, CoOS/portable/OsArch.h)

    The control blocks and the global variables of the kernel, with the
    configuration of OsConfig.h. A table is a finite map whose missing entries
    are the zero-initialised ones. A pointer to a control block is its index in
    its table, or [None] when it is null; the flag node of a task, a variable on
    the stack of the waiting task, is named by the task. Words of memory that
    are reached through an address (stacks, mail buffers, memory partitions, the
    kernel heap) are in [ram]. *)

From stdpp Require Import gmap.
From S2P Require Import Prelude.

(** ** Configuration and constants *)

Definition CFG_LOWEST_PRIO : Z := 64.
Definition CFG_MAX_USER_TASKS : Z := 5.
Definition SYS_TASK_NUM : Z := 1.
Definition CFG_IDLE_STACK_SIZE : Z := 25.
Definition CFG_SYSTICK_FREQ : Z := 100.
Definition CFG_MAX_SERVICE_REQUEST : Z := 5.
Definition CFG_TIME_SLICE : Z := 10.
Definition CFG_MAX_MM : Z := 2.
Definition KHEAP_SIZE : Z := 50.
Definition CFG_MAX_TMR : Z := 2.
Definition CFG_MAX_EVENT : Z := 20.
Definition CFG_MAX_QUEUE : Z := 2.
Definition CFG_MAX_MUTEX : Z := 10.

Definition TASKS : Z := CFG_MAX_USER_TASKS + SYS_TASK_NUM.

Definition INVALID_ID : Z := 255.
Definition INVALID_VALUE : Z := 4294967295.
Definition MAGIC_WORD : Z := 1515890085.

Definition E_CREATE_FAIL : Z := 255.
Definition E_OK : Z := 0.
Definition E_INVALID_ID : Z := 1.
Definition E_INVALID_PARAMETER : Z := 2.
Definition E_CALL : Z := 3.
Definition E_TASK_WAITING : Z := 4.
Definition E_TIMEOUT : Z := 5.
Definition E_SEM_FULL : Z := 6.
Definition E_MBOX_FULL : Z := 7.
Definition E_QUEUE_FULL : Z := 8.
Definition E_SEM_EMPTY : Z := 9.
Definition E_MBOX_EMPTY : Z := 10.
Definition E_QUEUE_EMPTY : Z := 11.
Definition E_FLAG_NOT_READY : Z := 12.
Definition E_ALREADY_IN_WAITING : Z := 13.
Definition E_TASK_NOT_WAITING : Z := 14.
Definition E_TASK_WAIT_OTHER : Z := 15.
Definition E_NOT_IN_DELAY_LIST : Z := 17.
Definition E_SEV_REQ_FULL : Z := 18.
Definition E_PROTECTED_TASK : Z := 20.
Definition E_OS_IN_LOCK : Z := 21.

Definition OPT_WAIT_ALL : Z := 0.
Definition OPT_WAIT_ANY : Z := 1.
Definition OPT_WAIT_ONE : Z := 2.
Definition OPT_DEL_NO_PEND : Z := 0.
Definition OPT_DEL_ANYWAY : Z := 1.
Definition TMR_TYPE_ONE_SHOT : Z := 0.
Definition TMR_TYPE_PERIODIC : Z := 1.
Definition EVENT_SORT_TYPE_FIFO : Z := 1.
Definition EVENT_SORT_TYPE_PRIO : Z := 2.

(** ** Tasks (OsTask.h) *)

Inductive task_state := TASK_READY | TASK_RUNNING | TASK_WAITING | TASK_DORMANT.

#[export] Instance task_state_eq : EqDecision task_state.
Proof. solve_decision. Defined.

(** [pnode]: null, the flag node of the task, or the mark [(void* )0xffffffff]. *)
Inductive node_pointer := NO_NODE | NODE (owner : Z) | NODE_WOKEN.

#[export] Instance node_pointer_eq : EqDecision node_pointer.
Proof. solve_decision. Defined.

Record OSTCB := mk_tcb {
  stkPtr : Z;
  prio : Z;
  state : task_state;
  taskID : Z;
  mutexID : Z;
  eventID : Z;
  timeSlice : Z;
  stack : Z;
  pmail : Z;
  waitNext : option Z;
  waitPrev : option Z;
  pnode : node_pointer;
  delayTick : Z;
  TCBnext : option Z;
  TCBprev : option Z
}.
#[export] Instance eta_tcb : Eta OSTCB := fun r =>
  mk_tcb (stkPtr r) (prio r) (state r) (taskID r) (mutexID r) (eventID r) (timeSlice r)
    (stack r) (pmail r) (waitNext r) (waitPrev r) (pnode r) (delayTick r) (TCBnext r) (TCBprev r).

Definition tcb_zero : OSTCB :=
  mk_tcb 0 0 TASK_READY 0 0 0 0 0 0 None None NO_NODE 0 None None.

(** The scheduler's variables (task.c, core.c, time.c, arch.c); [pendsv] is the
    PENDSVSET bit of the interrupt control register. *)
Record sched := mk_sched {
  TCBTbl : gmap Z OSTCB;
  FreeTCB : option Z;
  TCBRdy : option Z;
  TCBNext : option Z;
  TCBRunning : option Z;
  DlyList : option Z;
  OSCheckTime : Z;
  OSTickCnt : Z;
  OSIntNesting : Z;
  OSSchedLock : Z;
  TaskSchedReq : bool;
  pendsv : bool
}.
#[export] Instance eta_sched : Eta sched := fun s =>
  mk_sched (TCBTbl s) (FreeTCB s) (TCBRdy s) (TCBNext s) (TCBRunning s) (DlyList s)
    (OSCheckTime s) (OSTickCnt s) (OSIntNesting s) (OSSchedLock s) (TaskSchedReq s) (pendsv s).

(** [*ptcb] and the assignment of fields of [*ptcb]. *)
Definition tcb (s : sched) (t : Z) : OSTCB := default tcb_zero (TCBTbl s !! t).
Definition upd_tcb (t : Z) (f : OSTCB -> OSTCB) (s : sched) : sched :=
  s <| TCBTbl := <[t := f (tcb s t)]> (TCBTbl s) |>.

(** [&TCBTbl[id]], when the index is in the table. *)
Definition tcb_ref (id : Z) : option Z :=
  if (0 <=? id) && (id <? TASKS) then Some id else None.

(** ** Events (OsEvent.h, OsQueue.h) *)

Inductive event_type := EVENT_TYPE_SEM | EVENT_TYPE_MBOX | EVENT_TYPE_QUEUE | EVENT_TYPE_INVALID.

#[export] Instance event_type_eq : EqDecision event_type.
Proof. solve_decision. Defined.

(** [eventPtr] is the next free block, the mail, or the queue. *)
Inductive event_pointer := EV_NULL | EV_FREE (next : Z) | EV_MAIL (mail : Z) | EV_QUEUE (q : Z).

Record ECB := mk_ecb {
  eventPtr : event_pointer;
  ecb_id : Z;
  eventType : event_type;
  eventSortType : Z;
  eventCounter : Z;
  initialEventCounter : Z;
  eventTCBList : option Z
}.
#[export] Instance eta_ecb : Eta ECB := fun e =>
  mk_ecb (eventPtr e) (ecb_id e) (eventType e) (eventSortType e) (eventCounter e)
    (initialEventCounter e) (eventTCBList e).

Record QCB := mk_qcb {
  qStart : Z;
  q_id : Z;
  q_head : Z;
  q_tail : Z;
  qMaxSize : Z;
  qSize : Z
}.
#[export] Instance eta_qcb : Eta QCB := fun q =>
  mk_qcb (qStart q) (q_id q) (q_head q) (q_tail q) (qMaxSize q) (qSize q).

Record events := mk_events {
  EventTbl : gmap Z ECB;
  FreeEventList : option Z;
  QueueTbl : gmap Z QCB;
  QueueIDVessel : Z
}.
#[export] Instance eta_events : Eta events := fun e =>
  mk_events (EventTbl e) (FreeEventList e) (QueueTbl e) (QueueIDVessel e).

(** ** Mutexes (OsMutex.h) *)

Record MUTEX := mk_mutex {
  originalPrio : Z;
  mutexFlag : bool;
  mutex_task : Z;
  hipriTaskID : Z;
  waittingList : option Z
}.
#[export] Instance eta_mutex : Eta MUTEX := fun m =>
  mk_mutex (originalPrio m) (mutexFlag m) (mutex_task m) (hipriTaskID m) (waittingList m).

(** [mutexFlag]: MUTEX_FREE is [false], MUTEX_OCCUPY is [true]. *)
Definition MUTEX_FREE : bool := false.
Definition MUTEX_OCCUPY : bool := true.

Record mutexes := mk_mutexes { MutexFreeID : Z; MutexTbl : gmap Z MUTEX }.
#[export] Instance eta_mutexes : Eta mutexes := fun m => mk_mutexes (MutexFreeID m) (MutexTbl m).

(** ** Flags (OsFlag.h) *)

Record FLAG_NODE := mk_node {
  nextNode : option Z;
  prevNode : option Z;
  waitFlags : Z;
  waitTask : Z;
  waitType : Z
}.
#[export] Instance eta_node : Eta FLAG_NODE := fun n =>
  mk_node (nextNode n) (prevNode n) (waitFlags n) (waitTask n) (waitType n).

Record FCB := mk_fcb {
  flagRdy : Z;
  resetOpt : Z;
  flagActive : Z;
  headNode : option Z;
  tailNode : option Z;
  nodes : gmap Z FLAG_NODE
}.
#[export] Instance eta_fcb : Eta FCB := fun f =>
  mk_fcb (flagRdy f) (resetOpt f) (flagActive f) (headNode f) (tailNode f) (nodes f).

(** ** Software timers (OsTimer.h) *)

Record TmrCtrl := mk_tmr {
  tmrID : Z;
  tmrType : Z;
  tmrRunning : bool;
  tmrCnt : Z;
  tmrReload : Z;
  tmrCallBack : Z;
  tmrNext : option Z;
  tmrPrev : option Z
}.
#[export] Instance eta_tmr : Eta TmrCtrl := fun t =>
  mk_tmr (tmrID t) (tmrType t) (tmrRunning t) (tmrCnt t) (tmrReload t) (tmrCallBack t)
    (tmrNext t) (tmrPrev t).

Record tmrs := mk_tmrs { TmrTbl : gmap Z TmrCtrl; TmrList : option Z; TmrIDVessel : Z }.
#[export] Instance eta_tmrs : Eta tmrs := fun t => mk_tmrs (TmrTbl t) (TmrList t) (TmrIDVessel t).

(** ** Service requests (OsServiceReq.h) *)

Inductive request_type := SEM_REQ | MBOX_REQ | FLAG_REQ | QUEUE_REQ.

Record SQC := mk_sqc { sqc_type : request_type; sqc_id : Z; sqc_arg : Z }.

Record SRQ := mk_srq {
  srq_cnt : Z;
  srq_head : Z;
  cell : gmap Z SQC;
  IsrReq : bool;
  TimeReq : bool;
  TimerReq : bool
}.
#[export] Instance eta_srq : Eta SRQ := fun r =>
  mk_srq (srq_cnt r) (srq_head r) (cell r) (IsrReq r) (TimeReq r) (TimerReq r).

(** ** Memory partitions and kernel heap (OsMM.h, OsKernelHeap.h) *)

Record MM := mk_mm { memAddr : Z; freeBlock : Z; blockSize : Z; blockNum : Z }.
#[export] Instance eta_mm : Eta MM := fun m =>
  mk_mm (memAddr m) (freeBlock m) (blockSize m) (blockNum m).

Record memory := mk_memory {
  MemoryTbl : gmap Z MM;
  MemoryIDVessel : Z;
  FMBlist : Z;
  heapStart : Z;
  heapEnd : Z;
  ram : gmap Z Z
}.
#[export] Instance eta_memory : Eta memory := fun m =>
  mk_memory (MemoryTbl m) (MemoryIDVessel m) (FMBlist m) (heapStart m) (heapEnd m) (ram m).

(** ** The kernel *)

Record kernel := mk_kernel {
  sch : sched;
  evs : events;
  mtx : mutexes;
  FlagCrl : FCB;
  tmr : tmrs;
  ServiceReq : SRQ;
  mem : memory
}.
#[export] Instance eta_kernel : Eta kernel := fun k =>
  mk_kernel (sch k) (evs k) (mtx k) (FlagCrl k) (tmr k) (ServiceReq k) (mem k).

Definition sched_zero : sched := mk_sched ∅ None None None None None 0 0 0 0 false false.
Definition kernel_zero : kernel :=
  mk_kernel sched_zero (mk_events ∅ None ∅ 0) (mk_mutexes 0 ∅) (mk_fcb 0 0 0 None None ∅)
    (mk_tmrs ∅ None 0) (mk_srq 0 0 ∅ false false false) (mk_memory ∅ 0 0 0 0 ∅).

(** A part of the kernel is changed. *)
Definition on_sched (f : sched -> option sched) (k : kernel) : option kernel :=
  s ← f (sch k); Some (k <| sch := s |>).

(** ** Reading an updated table *)

Lemma tcb_upd_eq t f s : tcb (upd_tcb t f s) t = f (tcb s t).
Proof. unfold tcb at 1, upd_tcb. cbn. by rewrite lookup_insert_eq. Qed.

Lemma tcb_upd_ne t u f s : t <> u -> tcb (upd_tcb t f s) u = tcb s u.
Proof. intros H. unfold tcb at 1, upd_tcb. cbn. by rewrite lookup_insert_ne. Qed.

Lemma tcb_upd t u f s : tcb (upd_tcb t f s) u = if decide (t = u) then f (tcb s u) else tcb s u.
Proof. case_decide as H; [subst; apply tcb_upd_eq|by apply tcb_upd_ne]. Qed.
