(* ===== verification/CoSched.v ===== *)
(** * Ready list, schedule and delay list (CoOS/kernel/task.c, time.c)

    [InsertToTCBRdyList], [RemoveFromTCBRdyList] and [Schedule] of task.c, in
    the configuration CFG_ORDER_LIST_SCHEDULE_EN = 1, CFG_ROBIN_EN = 1, and
    [InsertDelayList] and [RemoveDelayList] of time.c. [None] is a write through
    a null pointer, an endless loop over a list, or the stack overflow hook,
    which does not return. *)

From stdpp Require Import gmap.
From S2P Require Import Prelude Dll CoTypes.

Definition tnext (s : sched) (t : Z) : option Z := TCBnext (tcb s t).
Definition tprev (s : sched) (t : Z) : option Z := TCBprev (tcb s t).
Definition tprio (s : sched) (t : Z) : Z := prio (tcb s t).
Definition tstate (s : sched) (t : Z) : task_state := state (tcb s t).

Definition set_tnext (n : option Z) (t : OSTCB) : OSTCB := t <| TCBnext := n |>.
Definition set_tprev (p : option Z) (t : OSTCB) : OSTCB := t <| TCBprev := p |>.
Definition set_state (x : task_state) (t : OSTCB) : OSTCB := t <| state := x |>.
Definition set_delay (d : Z) (t : OSTCB) : OSTCB := t <| delayTick := d |>.

(** Number of iterations of a loop over a list of tasks: there are [TASKS]
    control blocks. *)
Definition task_fuel : nat := Z.to_nat TASKS.

(** ** The ready list *)

(** The [while] of [InsertToTCBRdyList]; the result is the last [ptcb] and the
    last [ptcbNext]. *)
Fixpoint ready_place (fuel : nat) (p : Z) (ptcb : Z) (next : option Z) (s : sched)
  : option (Z * option Z) :=
  match fuel with
  | O => None
  | S fuel =>
      match next with
      | None => Some (ptcb, None)
      | Some n => if p <? prio (tcb s n) then Some (ptcb, Some n)
                  else ready_place fuel p n (TCBnext (tcb s n)) s
      end
  end.

(** The round-robin part. With no running task the comparison reads through a
    null pointer, and whatever it gives nothing is changed. *)
Definition robin_check (t : Z) (s : sched) : sched :=
  match TCBRunning s with
  | None => s
  | Some r =>
      if (prio (tcb s t) =? prio (tcb s r)) && negb (r =? t) && (OSCheckTime s <? OSTickCnt s)
      then s <| OSCheckTime := u64 (OSTickCnt s + timeSlice (tcb s r)) |>
      else s
  end.

Definition InsertToTCBRdyList (t : Z) (s : sched) : option sched :=
  let p := prio (tcb s t) in
  let s := upd_tcb t (set_state TASK_READY) s in
  let s := robin_check t s in
  match TCBRdy s with
  | None => Some (s <| TaskSchedReq := true |> <| TCBRdy := Some t |>)
  | Some h =>
      if p <? prio (tcb s h) then
        let s := upd_tcb t (set_tnext (Some h)) s in
        let s := upd_tcb h (set_tprev (Some t)) s in
        Some (s <| TaskSchedReq := true |> <| TCBRdy := Some t |>)
      else
        '(a, next) ← ready_place task_fuel p h (TCBnext (tcb s h)) s;
        let s := upd_tcb t (set_tnext next) s in
        let s := upd_tcb a (set_tnext (Some t)) s in
        let s := upd_tcb t (set_tprev (Some a)) s in
        Some (match next with
              | None => s
              | Some n => upd_tcb n (set_tprev (Some t)) s
              end)
  end.

Definition RemoveFromTCBRdyList (t : Z) (s : sched) : sched :=
  match TCBnext (tcb s t), TCBprev (tcb s t) with
  | None, None => s <| TCBRdy := None |>
  | Some n, None =>
      let s := s <| TCBRdy := Some n |> in
      let s := upd_tcb t (set_tnext None) s in
      upd_tcb n (set_tprev None) s
  | None, Some p =>
      let s := upd_tcb p (set_tnext None) s in
      upd_tcb t (set_tprev None) s
  | Some n, Some p =>
      let s := upd_tcb p (set_tnext (Some n)) s in
      let s := upd_tcb n (set_tprev (Some p)) s in
      let s := upd_tcb t (set_tnext None) s in
      upd_tcb t (set_tprev None) s
  end.

(** ** The schedule

    [prio_at_null] is the byte that a read of [prio] through a null pointer
    gives, [stack_ok] the test of the stack of a task against its limit and the
    mark at its end. *)
Section schedule.
Variable prio_at_null : Z.
Variable stack_ok : OSTCB -> bool.

Definition rdy_prio (s : sched) : Z :=
  match TCBRdy s with Some h => prio (tcb s h) | None => prio_at_null end.

(** The last statements: time slice, stack check and [SwitchContext]. *)
Definition switch_to (cur nxt : Z) (s : sched) : option sched :=
  let s := if prio (tcb s nxt) =? rdy_prio s
           then s <| OSCheckTime := u64 (OSTickCnt s + timeSlice (tcb s nxt)) |> else s in
  if stack_ok (tcb s cur) then Some (s <| pendsv := true |>) else None.

Definition Schedule (s : sched) : option sched :=
  match TCBRdy s with
  | None => Some s
  | Some r =>
      if negb (bool_decide (TCBRunning s = TCBNext s)) || (1 <? OSSchedLock s)
         || (0 <? OSIntNesting s) then Some s
      else
        cur ← TCBRunning s;
        let s := s <| TaskSchedReq := false |> in
        let run_prio := prio (tcb s cur) in
        let rdy := prio (tcb s r) in
        if negb (bool_decide (state (tcb s cur) = TASK_RUNNING)) then
          let s := s <| TCBNext := Some r |> in
          let s := upd_tcb r (set_state TASK_RUNNING) s in
          switch_to cur r (RemoveFromTCBRdyList r s)
        else if (rdy <? run_prio) || ((run_prio =? rdy) && (OSCheckTime s =? OSTickCnt s)) then
          let s := s <| TCBNext := Some r |> in
          s ← InsertToTCBRdyList cur s;
          let s := RemoveFromTCBRdyList r s in
          switch_to cur r (upd_tcb r (set_state TASK_RUNNING) s)
        else Some s
  end.
End schedule.

(** [PendSV_Handler] (portable/GCC/port.c): the task switch. [psp] is the stack
    pointer of the task that is switched out; its registers are on its stack. *)
Definition PendSV_Handler (psp : Z) (s : sched) : option sched :=
  cur ← TCBRunning s;
  nxt ← TCBNext s;
  let s := if cur =? nxt then s
           else upd_tcb cur (fun t => t <| stkPtr := u32 (psp - 32) |>) s
                  <| TCBRunning := Some nxt |> in
  Some (s <| OSSchedLock := 0 |> <| pendsv := false |>).

(** ** The delay list *)

(** [ptcb] is linked before [dlyNext]. *)
Definition link_before (t n : Z) (s : sched) : option sched :=
  match TCBprev (tcb s n) with
  | Some p =>
      let s := upd_tcb p (set_tnext (Some t)) s in
      let s := upd_tcb t (set_tprev (TCBprev (tcb s n))) s in
      let s := upd_tcb t (set_tnext (Some n)) s in
      Some (upd_tcb n (set_tprev (Some t)) s)
  | None =>
      let s := upd_tcb t (set_tnext (DlyList s)) s in
      h ← DlyList s;
      Some (upd_tcb h (set_tprev (Some t)) s <| DlyList := Some t |>)
  end.

(** ... and the delta times of the two are set. *)
Definition delay_before (t n delta : Z) (s : sched) : option sched :=
  s ← link_before t n s;
  m ← TCBnext (tcb s t);
  let s := upd_tcb t (set_delay (u32 (delayTick (tcb s m) + delta))) s in
  Some (upd_tcb m (set_delay (u32 (delayTick (tcb s m) - delayTick (tcb s t)))) s).

(** The [while] of [InsertDelayList]. The subtraction of an unsigned number from
    the signed [deltaTicks] is reduced to 32 bits. *)
Fixpoint delay_place (fuel : nat) (t n delta : Z) (s : sched) : option sched :=
  match fuel with
  | O => None
  | S fuel =>
      let delta := i32 (delta - delayTick (tcb s n)) in
      if delta <? 0 then delay_before t n delta s
      else
        match TCBnext (tcb s n) with
        | None =>
            let s := upd_tcb t (set_tprev (Some n)) s in
            let s := upd_tcb n (set_tnext (Some t)) s in
            Some (upd_tcb t (set_delay delta) s)
        | Some m => delay_place fuel t m delta s
        end
  end.

Definition InsertDelayList (t ticks : Z) (s : sched) : option sched :=
  if ticks =? 0 then Some s
  else
    s ← match DlyList s with
        | None => Some (upd_tcb t (set_delay ticks) s <| DlyList := Some t |>)
        | Some h => delay_place task_fuel t h (i32 ticks) s
        end;
    Some (upd_tcb t (set_state TASK_WAITING) s <| TaskSchedReq := true |>).

Definition RemoveDelayList (t : Z) (s : sched) : sched :=
  let d := delayTick (tcb s t) in
  let s :=
    match TCBprev (tcb s t), TCBnext (tcb s t) with
    | None, None => s <| DlyList := None |>
    | None, Some n =>
        let s := s <| DlyList := Some n |> in
        let s := upd_tcb n (set_delay (u32 (delayTick (tcb s n) + d))) s in
        let s := upd_tcb n (set_tprev None) s in
        upd_tcb t (set_tnext None) s
    | Some p, None =>
        let s := upd_tcb p (set_tnext None) s in
        upd_tcb t (set_tprev None) s
    | Some p, Some n =>
        let s := upd_tcb p (set_tnext (Some n)) s in
        let s := upd_tcb n (set_tprev (Some p)) s in
        let s := upd_tcb n (set_delay (u32 (delayTick (tcb s n) + d))) s in
        let s := upd_tcb t (set_tnext None) s in
        upd_tcb t (set_tprev None) s
    end in
  upd_tcb t (set_delay INVALID_VALUE) s.

(** ** Reference: insertion into a list sorted by priority

    A task goes behind the tasks of the same or a higher priority (a smaller
    number). *)
Fixpoint insert_prio (P : Z -> Z) (t : Z) (l : list Z) : list Z :=
  match l with
  | [] => [t]
  | x :: l' => if P t <? P x then t :: l else x :: insert_prio P t l'
  end.

(** Sorted by priority: nobody is in front of a task of higher priority. *)
Fixpoint sorted_prio (P : Z -> Z) (l : list Z) : Prop :=
  match l with
  | [] => True
  | x :: l' => (forall y, y ∈ l' -> P x <= P y) /\ sorted_prio P l'
  end.

Lemma insert_prio_split P t l : exists l1 l2, l = l1 ++ l2 /\ insert_prio P t l = l1 ++ t :: l2.
Proof.
  induction l as [|x l IH]; [by exists [], []|]. cbn [insert_prio]. case_bool.
  - by exists [], (x :: l).
  - destruct IH as (l1 & l2 & -> & ->). by exists (x :: l1), l2.
Qed.

Lemma elem_of_insert_prio P t l i : i ∈ insert_prio P t l <-> i = t \/ i ∈ l.
Proof.
  destruct (insert_prio_split P t l) as (l1 & l2 & -> & ->).
  rewrite !elem_of_app, elem_of_cons. tauto.
Qed.

Lemma insert_prio_sorted P t l : sorted_prio P l -> sorted_prio P (insert_prio P t l).
Proof.
  induction l as [|x l IH]; cbn [insert_prio sorted_prio].
  - intros _. split; [|done]. intros y Hy. by apply elem_of_nil in Hy.
  - intros [Hx Hs]. case_bool; cbn [sorted_prio].
    + apply Z.ltb_lt in E. split; [|by split]. intros y [->|Hy]%elem_of_cons; [lia|].
      specialize (Hx y Hy). lia.
    + apply Z.ltb_ge in E. split; [|by apply IH].
      intros y [->|Hy]%elem_of_insert_prio; [lia|by apply Hx].
Qed.

Lemma sorted_prio_ext P Q l : (forall x, x ∈ l -> P x = Q x) -> sorted_prio P l -> sorted_prio Q l.
Proof.
  induction l as [|x l IH]; intros H; [done|]. intros [Hx Hs]. split.
  - intros y Hy. rewrite <- !H by (apply elem_of_cons; auto). by apply Hx.
  - apply IH; [|done]. intros y Hy. apply H. apply elem_of_cons. by right.
Qed.

Lemma sorted_prio_remove P l1 t l2 : sorted_prio P (l1 ++ t :: l2) -> sorted_prio P (l1 ++ l2).
Proof.
  induction l1 as [|x l1 IH]; [by intros [_ ?]|]. cbn [app sorted_prio]. intros [Hx Hs].
  split; [|by apply IH]. intros y Hy. apply Hx. rewrite elem_of_app in Hy |- *.
  rewrite elem_of_cons. tauto.
Qed.

(** ** Frames

    [core] is a control block without its links; [rest] are the variables that
    the list operations leave alone. *)

Definition core (t : OSTCB) : OSTCB := t <| TCBnext := None |> <| TCBprev := None |>.

Definition rest (s : sched) :=
  (FreeTCB s, TCBNext s, TCBRunning s, OSTickCnt s, OSIntNesting s, OSSchedLock s, pendsv s).

Lemma tcb_same s s' : TCBTbl s' = TCBTbl s -> tcb s' = tcb s.
Proof. unfold tcb. by intros ->. Qed.

Lemma core_next n t : core (set_tnext n t) = core t.
Proof. done. Qed.
Lemma core_prev p t : core (set_tprev p t) = core t.
Proof. done. Qed.

(** A field that is not a link can be read off the core. *)
Lemma core_prio a b : core a = core b -> prio a = prio b.
Proof. destruct a, b. by intros [=]. Qed.
Lemma core_state a b : core a = core b -> state a = state b.
Proof. destruct a, b. by intros [=]. Qed.
Lemma core_delay a b : core a = core b -> delayTick a = delayTick b.
Proof. destruct a, b. by intros [=]. Qed.

Lemma robin_same t s :
  TCBTbl (robin_check t s) = TCBTbl s /\ TCBRdy (robin_check t s) = TCBRdy s /\
  DlyList (robin_check t s) = DlyList s /\ TaskSchedReq (robin_check t s) = TaskSchedReq s /\
  rest (robin_check t s) = rest s.
Proof. unfold robin_check. destruct (TCBRunning s) as [r|] eqn:E; [case_bool|]; done. Qed.

(** ** The loop of the insertion *)

Lemma ready_place_spec (s : sched) (t : Z) (l : list Z) : forall (a : Z) (fuel : nat),
  dseg (tnext s) (tprev s) (Some a) l None -> (length l < fuel)%nat ->
  exists m b r, a :: l = m ++ b :: r /\
    ready_place fuel (tprio s t) a (first l None) s = Some (b, first r None) /\
    a :: insert_prio (tprio s) t l = m ++ b :: t :: r.
Proof.
  induction l as [|x l IH]; intros a fuel Hl Hf; (destruct fuel as [|fuel]; [cbn in Hf; lia|]).
  - by exists [], a, [].
  - destruct Hl as (_ & Hn & Hl). cbn [ready_place first insert_prio].
    fold (tprio s x). destruct (tprio s t <? tprio s x) eqn:E.
    + by exists [], a, (x :: l).
    + destruct (IH x fuel Hl) as (m & b & r & E1 & E2 & E3); [cbn in Hf; lia|].
      exists (a :: m), b, r. split; [by rewrite E1|]. split; [|by rewrite E3].
      fold (tnext s x). by rewrite Hn.
Qed.

(** ** Insertion into the ready list *)

Record inserted (t : Z) (l1 l2 : list Z) (s s' : sched) : Prop := {
  in_links : linked_in t (final None l1) (first l2 None) (tnext s) (tprev s) (tnext s') (tprev s');
  in_core : forall i, core (tcb s' i)
    = core (if decide (i = t) then set_state TASK_READY (tcb s i) else tcb s i);
  in_head : TCBRdy s' = match l1 with [] => Some t | _ => TCBRdy s end;
  in_req : TaskSchedReq s' = match l1 with [] => true | _ => TaskSchedReq s end;
  in_rest : rest s' = rest s;
  in_dly : DlyList s' = DlyList s
}.

(** The cases of an updated table, when the links of the old one are known. *)
Ltac link_cases :=
  repeat case_decide; subst; simplify_eq; try congruence;
  first [done | split; cbn; first [done | congruence]].

Lemma InsertToTCBRdyList_spec (s : sched) (t : Z) (l : list Z) :
  dll (tnext s) (tprev s) (TCBRdy s) l -> t ∉ l -> (length l <= task_fuel)%nat ->
  tnext s t = None -> tprev s t = None ->
  exists s' l1 l2, InsertToTCBRdyList t s = Some s' /\ l = l1 ++ l2 /\
    insert_prio (tprio s) t l = l1 ++ t :: l2 /\ inserted t l1 l2 s s'.
Proof.
  intros Hd Ht Hlen Hn Hp. unfold InsertToTCBRdyList.
  set (s0 := upd_tcb t (set_state TASK_READY) s).
  destruct (robin_same t s0) as (R1 & R2 & R3 & R4 & R5). set (s1 := robin_check t s0) in *.
  assert (forall i, tcb s1 i = if decide (t = i) then set_state TASK_READY (tcb s i) else tcb s i)
    as Hs1 by (intros i; rewrite (tcb_same _ _ R1); unfold s0; by rewrite tcb_upd).
  assert (TCBRdy s1 = TCBRdy s) as E0 by (by rewrite R2).
  clearbody s1. rewrite E0. destruct (TCBRdy s) as [h|] eqn:Eh.
  - destruct (dll_some _ _ _ _ Hd) as [l' ->]. cbn [insert_prio].
    assert (t <> h) as Hth by (intros ->; apply Ht, elem_of_cons; by left).
    assert (forall i, i <> t -> tprio s1 i = tprio s i /\ tnext s1 i = tnext s i /\ tprev s1 i = tprev s i)
      as Hsame by (intros i Hi; unfold tprio, tnext, tprev; by rewrite Hs1, decide_False by done).
    assert (prio (tcb s1 h) = tprio s h) as -> by (by apply Hsame).
    fold (tprio s t). destruct (tprio s t <? tprio s h) eqn:E.
    + exists (upd_tcb h (set_tprev (Some t)) (upd_tcb t (set_tnext (Some h)) s1)
                <| TaskSchedReq := true |> <| TCBRdy := Some t |>), [], (h :: l').
      split; [done|]. split; [done|]. split; [done|]. split; [..|done|done|exact R5|exact R3].
      * intros i. change (tnext ?a i) with (TCBnext (tcb a i)).
        change (tprev ?a i) with (TCBprev (tcb a i)). cbn [final first].
        rewrite (tcb_same (upd_tcb h (set_tprev (Some t)) (upd_tcb t (set_tnext (Some h)) s1))) by done.
        rewrite !tcb_upd, Hs1. unfold tprev, tnext in *. link_cases.
      * intros i.
        rewrite (tcb_same (upd_tcb h (set_tprev (Some t)) (upd_tcb t (set_tnext (Some h)) s1))) by done.
        rewrite !tcb_upd, Hs1. link_cases.
    + assert (dseg (tnext s1) (tprev s1) (Some h) l' None /\ TCBnext (tcb s1 h) = first l' None) as [Hl1 Hl2].
      { destruct Hd as [_ _ (_ & H1 & H2)]. split.
        - eapply dseg_ext; [|exact H2]. intros x Hx.
          assert (x <> t) as Hxt by (intros ->; apply Ht, elem_of_cons; by right).
          by destruct (Hsame x Hxt) as (_ & -> & ->).
        - rewrite <- H1. by apply Hsame. }
      assert (tprio s1 t = tprio s t) as Ep.
      { unfold tprio. rewrite Hs1. by rewrite decide_True. }
      destruct (ready_place_spec s1 t l' h task_fuel Hl1) as (m & b & r & E1 & E2 & E3);
        [cbn in Hlen; lia|].
      assert (h :: insert_prio (tprio s) t l' = m ++ b :: t :: r) as E4.
      { rewrite <- E3. f_equal. clear -Hsame Ep Ht. induction l' as [|x l' IH]; [done|].
        cbn [insert_prio]. rewrite Ep. destruct (Hsame x) as (-> & _).
        { intros ->. apply Ht, elem_of_cons. right. apply elem_of_cons. by left. }
        rewrite IH; [done|]. intros Hc. apply Ht. rewrite !elem_of_cons in *. tauto. }
      rewrite Hl2. rewrite Ep in E2. rewrite E2.
      exists (match first r None with
              | None => upd_tcb t (set_tprev (Some b)) (upd_tcb b (set_tnext (Some t)) (upd_tcb t (set_tnext (first r None)) s1))
              | Some n => upd_tcb n (set_tprev (Some t)) (upd_tcb t (set_tprev (Some b)) (upd_tcb b (set_tnext (Some t)) (upd_tcb t (set_tnext (first r None)) s1)))
              end), (m ++ [b]), r.
      split; [done|]. rewrite <- !app_assoc. split; [done|]. split; [done|].
      assert (t ∉ m ++ b :: r) as Ht' by (by rewrite <- E1).
      assert (t <> b) as Htb by (intros ->; apply Ht', elem_of_app; right; apply elem_of_cons; by left).
      assert (first r None <> Some b) as Hfb.
      { intros Hc%first_elem. apply dll_nodup in Hd. rewrite E1 in Hd.
        apply list.NoDup_app in Hd as (_ & _ & Hd). by apply list.NoDup_cons in Hd as [? _]. }
      assert (first r None <> Some t) as Hft.
      { intros Hc%first_elem. apply Ht', elem_of_app. right. apply elem_of_cons. by right. }
      split.
      * intros i. unfold tnext, tprev in *. rewrite final_snoc.
        destruct (first r None) as [n|] eqn:En; rewrite !tcb_upd, Hs1;
          link_cases.
      * intros i. destruct (first r None) as [n|] eqn:En; rewrite !tcb_upd, Hs1;
          link_cases.
      * transitivity (TCBRdy s); [rewrite Eh, <- E0; by destruct (first r None)|by destruct m].
      * replace (match m ++ [b] with [] => true | _ => TaskSchedReq s end) with (TaskSchedReq s)
          by (by destruct m). destruct (first r None); exact R4.
      * destruct (first r None); exact R5.
      * destruct (first r None); exact R3.
  - apply dll_none in Hd as ->. exists (s1 <| TaskSchedReq := true |> <| TCBRdy := Some t |>), [], [].
    split; [done|]. split; [done|]. split; [done|].
    split; [..|done|done|exact R5|exact R3].
    + intros i. unfold tnext, tprev in *. cbn [final first].
      rewrite (tcb_same s1) by done. rewrite Hs1. link_cases.
    + intros i. rewrite (tcb_same s1) by done. rewrite Hs1. link_cases.
Qed.

(** ** Removal from the ready list *)

Record removed (t : Z) (s s' : sched) : Prop := {
  re_links : unlinked t (tnext s) (tprev s) (tnext s') (tprev s');
  re_self : tnext s' t = None /\ tprev s' t = None;
  re_core : forall i, core (tcb s' i) = core (tcb s i);
  re_rest : rest s' = rest s
}.

Lemma RemoveFromTCBRdyList_spec (s : sched) (t : Z) (l1 l2 : list Z) :
  dll (tnext s) (tprev s) (TCBRdy s) (l1 ++ t :: l2) ->
  removed t s (RemoveFromTCBRdyList t s) /\
  TCBRdy (RemoveFromTCBRdyList t s) = match l1 with [] => first l2 None | _ => TCBRdy s end /\
  DlyList (RemoveFromTCBRdyList t s) = DlyList s /\
  TaskSchedReq (RemoveFromTCBRdyList t s) = TaskSchedReq s /\
  OSCheckTime (RemoveFromTCBRdyList t s) = OSCheckTime s.
Proof.
  intros Hd. destruct (dll_at _ _ _ _ _ _ Hd) as [Hn Hp]. unfold tnext, tprev in Hn, Hp.
  assert (forall i, final None l1 = Some i \/ first l2 None = Some i -> i <> t) as Hne.
  { intros i Hi ->. apply dll_nodup in Hd. apply list.NoDup_app in Hd as (_ & N2 & N3).
    apply list.NoDup_cons in N3 as [N3 _]. destruct Hi as [Hi|Hi].
    - apply final_elem in Hi. apply (N2 t Hi). apply elem_of_cons. by left.
    - by apply first_elem in Hi. }
  unfold RemoveFromTCBRdyList. rewrite Hn, Hp.
  destruct (first l2 None) as [n|] eqn:En, (final None l1) as [p|] eqn:Ep.
  all: try (assert (n <> t) by (apply Hne; by right)); try (assert (p <> t) by (apply Hne; by left)).
  all: split; [split; [intros i Hi| |intros i|done]|].
  all: unfold tnext, tprev; rewrite ?tcb_upd, ?(tcb_same s) by done; rewrite ?Hn, ?Hp.
  all: try solve [link_cases].
  all: repeat split; destruct l1 using rev_ind; rewrite ?final_snoc in *; try done.
  all: by destruct l1.
Qed.

(** ** Reference: the delay list as wake-up times

    The list stores for each task the ticks after its predecessor; [expiries]
    are the ticks from now. [insert_time] puts a task behind those that wake at
    the same time. *)

Definition tdelay (s : sched) (t : Z) : Z := delayTick (tcb s t).

Fixpoint expiries (D : Z -> Z) (base : Z) (l : list Z) : list (Z * Z) :=
  match l with
  | [] => []
  | x :: l => (x, base + D x) :: expiries D (base + D x) l
  end.

Fixpoint total (D : Z -> Z) (l : list Z) : Z :=
  match l with [] => 0 | x :: l => D x + total D l end.

Fixpoint insert_time (t w : Z) (l : list (Z * Z)) : list (Z * Z) :=
  match l with
  | [] => [(t, w)]
  | (x, e) :: l' => if w <? e then (t, w) :: l else (x, e) :: insert_time t w l'
  end.

Lemma expiries_app D base l1 l2 :
  expiries D base (l1 ++ l2) = expiries D base l1 ++ expiries D (base + total D l1) l2.
Proof.
  revert base. induction l1 as [|x l1 IH]; intros base; cbn [app expiries total].
  - by rewrite Z.add_0_r.
  - rewrite IH. do 3 f_equal. lia.
Qed.

Lemma expiries_ext D D' base l : (forall x, x ∈ l -> D' x = D x) -> expiries D' base l = expiries D base l.
Proof.
  revert base. induction l as [|x l IH]; intros base H; [done|]. cbn [expiries].
  rewrite H by (apply elem_of_cons; by left). f_equal. apply IH.
  intros y Hy. apply H. apply elem_of_cons. by right.
Qed.

Lemma expiries_fst D base l : map fst (expiries D base l) = l.
Proof. revert base. induction l as [|x l IH]; intros base; [done|]. cbn. by rewrite IH. Qed.

Lemma total_app D l1 l2 : total D (l1 ++ l2) = total D l1 + total D l2.
Proof. induction l1 as [|x l1 IH]; [done|]. cbn. lia. Qed.

Lemma total_nonneg D l : (forall x, x ∈ l -> 0 <= D x) -> 0 <= total D l.
Proof.
  induction l as [|x l IH]; intros H; cbn [total]; [lia|].
  assert (0 <= D x) by (apply H; apply elem_of_cons; by left).
  assert (0 <= total D l) by (apply IH; intros y Hy; apply H; apply elem_of_cons; by right). lia.
Qed.

(** ** Insertion into the delay list *)

(** A control block without its links and its delay. *)
Definition body (t : OSTCB) : OSTCB := core (set_delay 0 t).

Lemma body_core a b : core a = core b -> body a = body b.
Proof. destruct a, b. intros [=]. by subst. Qed.
Lemma body_delay d t : body (set_delay d t) = body t.
Proof. done. Qed.

Record delayed (t ticks : Z) (l1 l2 : list Z) (s s' : sched) : Prop := {
  dl_links : linked_in t (final None l1) (first l2 None) (tnext s) (tprev s) (tnext s') (tprev s');
  dl_body : forall i, body (tcb s' i) = body (tcb s i);
  dl_other : forall i, i <> t -> i ∉ l2 -> tdelay s' i = tdelay s i;
  dl_time : expiries (tdelay s') (total (tdelay s) l1) (t :: l2)
            = insert_time t ticks (expiries (tdelay s) (total (tdelay s) l1) l2);
  dl_front : insert_time t ticks (expiries (tdelay s) 0 (l1 ++ l2))
             = expiries (tdelay s) 0 l1 ++ insert_time t ticks (expiries (tdelay s) (total (tdelay s) l1) l2);
  dl_range : forall i, i ∈ t :: l2 -> 0 <= tdelay s' i <= Z.max ticks (tdelay s i);
  dl_head : DlyList s' = match l1 with [] => Some t | _ => DlyList s end;
  dl_rdy : TCBRdy s' = TCBRdy s;
  dl_rest : rest s' = rest s
}.

Lemma link_before_spec (s : sched) (t n : Z) (l1 l2 : list Z) :
  dll (tnext s) (tprev s) (DlyList s) (l1 ++ n :: l2) -> t ∉ l1 ++ n :: l2 -> tprev s t = None ->
  exists s', link_before t n s = Some s' /\
    linked_in t (final None l1) (Some n) (tnext s) (tprev s) (tnext s') (tprev s') /\
    (forall i, core (tcb s' i) = core (tcb s i)) /\
    DlyList s' = match l1 with [] => Some t | _ => DlyList s end /\
    TCBRdy s' = TCBRdy s /\ rest s' = rest s.
Proof.
  intros Hd Ht Hp. destruct (dll_at _ _ _ _ _ _ Hd) as [_ Hpn].
  assert (t <> n) as Htn by (intros ->; apply Ht, elem_of_app; right; apply elem_of_cons; by left).
  assert (forall i, final None l1 = Some i -> i <> t /\ i <> n) as Hne.
  { intros i Hi%final_elem. split; intros ->.
    - apply Ht, elem_of_app. by left.
    - apply dll_nodup in Hd. apply list.NoDup_app in Hd as (_ & N2 & _).
      apply (N2 n Hi). apply elem_of_cons. by left. }
  unfold link_before. fold (tprev s n). rewrite Hpn.
  destruct (final None l1) as [p|] eqn:Ep.
  - destruct (Hne p eq_refl) as [Hpt Hpn'].
    eexists. split; [reflexivity|]. split; [|split; [|split; [by destruct l1|done]]].
    + intros i. unfold tnext, tprev in *. rewrite !tcb_upd. link_cases.
    + intros i. rewrite !tcb_upd. link_cases.
  - assert (l1 = []) as -> by (destruct l1 using rev_ind; [done|by rewrite final_snoc in Ep]).
    pose proof (dll_head _ _ _ _ Hd) as Hh. cbn [first app] in Hh.
    change (DlyList (upd_tcb t (set_tnext (DlyList s)) s)) with (DlyList s). rewrite Hh.
    eexists. split; [reflexivity|]. split; [|split; [|split; [|done]]]; [..|done].
    + intros i. unfold tnext, tprev in *.
      rewrite !(tcb_same (upd_tcb n (set_tprev (Some t)) (upd_tcb t (set_tnext (Some n)) s))) by done.
      rewrite !tcb_upd. link_cases.
    + intros i.
      rewrite !(tcb_same (upd_tcb n (set_tprev (Some t)) (upd_tcb t (set_tnext (Some n)) s))) by done.
      rewrite !tcb_upd. link_cases.
Qed.

Lemma delay_before_spec (s : sched) (t n : Z) (l1 l2 : list Z) (delta : Z) :
  dll (tnext s) (tprev s) (DlyList s) (l1 ++ n :: l2) -> t ∉ l1 ++ n :: l2 ->
  tprev s t = None -> 0 <= tdelay s n < 2 ^ 31 -> - tdelay s n <= delta < 0 ->
  exists s', delay_before t n delta s = Some s' /\
    linked_in t (final None l1) (Some n) (tnext s) (tprev s) (tnext s') (tprev s') /\
    (forall i, body (tcb s' i) = body (tcb s i)) /\
    (forall i, tdelay s' i = if decide (i = t) then tdelay s n + delta
                             else if decide (i = n) then - delta else tdelay s i) /\
    DlyList s' = match l1 with [] => Some t | _ => DlyList s end /\
    TCBRdy s' = TCBRdy s /\ rest s' = rest s.
Proof.
  intros Hd Ht Hp Hr Hdelta.
  destruct (link_before_spec s t n l1 l2 Hd Ht Hp) as (s1 & E & Hl & Hc & Hrest).
  assert (t <> n) as Htn by (intros ->; apply Ht, elem_of_app; right; apply elem_of_cons; by left).
  assert (TCBnext (tcb s1 t) = Some n) as En by (destruct (Hl t) as [H _]; by rewrite decide_True in H).
  unfold delay_before. rewrite E. cbn [mbind option_bind]. rewrite En. cbn [mbind option_bind].
  eexists. split; [reflexivity|]. split; [|split; [|split; [|exact Hrest]]].
  - intros i. destruct (Hl i) as [H1 H2]. unfold tnext, tprev in *. rewrite !tcb_upd, <- H1, <- H2.
    by repeat case_decide.
  - intros i. rewrite !tcb_upd, <- (body_core _ _ (Hc i)). by repeat case_decide.
  - intros i. assert (forall j, delayTick (tcb s1 j) = tdelay s j) as Hdj by (intros j; apply core_delay, Hc).
    assert (u32 (tdelay s n + delta) = tdelay s n + delta) as Hw by (apply u32_small; lia).
    unfold tdelay at 1. rewrite !tcb_upd, !Hdj. rewrite (decide_True (P := t = t)) by done.
    rewrite (decide_False (P := t = n)) by done.
    repeat case_decide; subst; try congruence; cbn [set_delay delayTick update updater];
      rewrite ?Hdj, ?Hw; first [done | rewrite u32_small; lia].
Qed.

(** The wake-up times that an insertion passes over. *)
Definition passes (t ticks : Z) (a : list (Z * Z)) : Prop :=
  forall b, insert_time t ticks (a ++ b) = a ++ insert_time t ticks b.

Lemma passes_snoc t ticks a x e : passes t ticks a -> e <= ticks -> passes t ticks (a ++ [(x, e)]).
Proof.
  intros Ha He b. rewrite <- !app_assoc, Ha. cbn [app insert_time].
  by rewrite (proj2 (Z.ltb_ge _ _) He).
Qed.

Lemma delay_append_spec (s : sched) (t n ticks : Z) (l1 : list Z) :
  dll (tnext s) (tprev s) (DlyList s) (l1 ++ [n]) -> t ∉ l1 ++ [n] -> tnext s t = None ->
  total (tdelay s) (l1 ++ [n]) <= ticks -> (forall x, x ∈ l1 ++ [n] -> 0 <= tdelay s x) ->
  passes t ticks (expiries (tdelay s) 0 (l1 ++ [n])) ->
  delayed t ticks (l1 ++ [n]) []  s
    (upd_tcb t (set_delay (ticks - total (tdelay s) (l1 ++ [n])))
       (upd_tcb n (set_tnext (Some t)) (upd_tcb t (set_tprev (Some n)) s))).
Proof.
  intros Hd Ht Hn Hle Hnn Hpass. destruct (dll_at _ _ _ _ _ _ Hd) as [Hnn' _].
  assert (t <> n) as Htn.
  { intros ->. apply Ht, elem_of_app. right. by apply list_elem_of_singleton. }
  split.
  - intros i. rewrite final_snoc. unfold tnext, tprev in *. rewrite !tcb_upd. link_cases.
  - intros i. rewrite !tcb_upd. link_cases.
  - intros i Hi _. unfold tdelay. rewrite !tcb_upd. link_cases.
  - cbn [expiries insert_time]. unfold tdelay at 2. rewrite tcb_upd_eq. cbn [set_delay delayTick update updater].
    do 2 f_equal. lia.
  - rewrite app_nil_r. specialize (Hpass []). by rewrite app_nil_r in Hpass.
  - intros i [->|Hi]%elem_of_cons; [|by apply elem_of_nil in Hi].
    pose proof (total_nonneg _ _ Hnn) as Hpos. revert Hpos Hle.
    generalize (total (tdelay s) (l1 ++ [n])). intros z Hz Hle.
    unfold tdelay at 1 2. rewrite tcb_upd_eq. cbn [set_delay delayTick update updater]. lia.
  - by destruct l1.
  - done.
  - done.
Qed.

Lemma delay_front_spec (s : sched) (t n ticks : Z) (l1 l2 : list Z) :
  dll (tnext s) (tprev s) (DlyList s) (l1 ++ n :: l2) -> t ∉ l1 ++ n :: l2 -> tprev s t = None ->
  (forall x, x ∈ n :: l2 -> 0 <= tdelay s x < 2 ^ 31) ->
  0 <= ticks - total (tdelay s) l1 < tdelay s n -> 0 <= total (tdelay s) l1 ->
  passes t ticks (expiries (tdelay s) 0 l1) ->
  exists s', delay_before t n (ticks - total (tdelay s) l1 - tdelay s n) s = Some s' /\
    delayed t ticks l1 (n :: l2) s s'.
Proof.
  intros Hd Ht Hp Hr Hlt Hb Hpass.
  assert (0 <= tdelay s n < 2 ^ 31) as Hrn by (apply Hr, elem_of_cons; by left).
  destruct (delay_before_spec s t n l1 l2 (ticks - total (tdelay s) l1 - tdelay s n) Hd Ht Hp)
    as (s1 & -> & H1 & H2 & H3 & H4 & H5 & H6); [lia|lia|].
  assert (t <> n) as Htn by (intros ->; apply Ht, elem_of_app; right; apply elem_of_cons; by left).
  assert (tdelay s1 t = ticks - total (tdelay s) l1) as Dt by (rewrite H3, decide_True by done; lia).
  assert (tdelay s1 n = tdelay s n - (ticks - total (tdelay s) l1)) as Dn
    by (rewrite H3, decide_False, decide_True by done; lia).
  assert (forall x, x ∈ l2 -> tdelay s1 x = tdelay s x) as Dx.
  { intros x Hx. rewrite H3, !decide_False; [done|..]; intros ->.
    - apply dll_nodup in Hd. apply list.NoDup_app in Hd as (_ & _ & Hd). by apply list.NoDup_cons in Hd as [? _].
    - apply Ht, elem_of_app. right. apply elem_of_cons. by right. }
  exists s1. split; [done|]. split; try done.
  - intros i Hi Hi'. rewrite H3, decide_False by done. rewrite decide_False; [done|].
    intros ->. apply Hi'. apply elem_of_cons. by left.
  - cbn [expiries insert_time]. rewrite (proj2 (Z.ltb_lt _ _)) by lia.
    rewrite (expiries_ext _ _ _ _ Dx).
    replace (total (tdelay s) l1 + tdelay s1 t) with ticks by lia.
    by replace (ticks + tdelay s1 n) with (total (tdelay s) l1 + tdelay s n) by lia.
  - rewrite expiries_app, Z.add_0_l. apply Hpass.
  - intros i [->|[->|Hi]%elem_of_cons]%elem_of_cons; [lia..|].
    rewrite (Dx i Hi). assert (0 <= tdelay s i < 2 ^ 31) by (apply Hr, elem_of_cons; by right). lia.
Qed.

Lemma delay_place_spec (s : sched) (t ticks : Z) (l2 : list Z) : forall (l1 : list Z) (n : Z) (fuel : nat),
  dll (tnext s) (tprev s) (DlyList s) (l1 ++ n :: l2) -> t ∉ l1 ++ n :: l2 ->
  tnext s t = None -> tprev s t = None ->
  (forall x, x ∈ l1 ++ n :: l2 -> 0 <= tdelay s x < 2 ^ 31) ->
  total (tdelay s) l1 <= ticks < 2 ^ 31 ->
  passes t ticks (expiries (tdelay s) 0 l1) -> (length l2 < fuel)%nat ->
  exists s' m1 m2, delay_place fuel t n (ticks - total (tdelay s) l1) s = Some s' /\
    n :: l2 = m1 ++ m2 /\ delayed t ticks (l1 ++ m1) m2 s s'.
Proof.
  induction l2 as [|m l2 IH]; intros l1 n fuel Hd Ht Hn Hp Hr Hb Hpass Hf;
    (destruct fuel as [|fuel]; [cbn in Hf; lia|]); cbn [delay_place]; fold (tdelay s n) (tnext s n).
  all: assert (0 <= tdelay s n < 2 ^ 31) as Hrn by (apply Hr, elem_of_app; right; apply elem_of_cons; by left).
  all: assert (0 <= total (tdelay s) l1) as Hpos
    by (apply total_nonneg; intros x Hx; apply Hr, elem_of_app; by left).
  all: assert (total (tdelay s) (l1 ++ [n]) = total (tdelay s) l1 + tdelay s n) as Esnoc
    by (rewrite total_app; cbn; lia).
  all: rewrite i32_small by lia.
  all: destruct (dll_at _ _ _ _ _ _ Hd) as [Hnx _].
  all: match goal with |- context [_ :: ?l = _] =>
    destruct (ticks - total (tdelay s) l1 - tdelay s n <? 0) eqn:E;
      [apply Z.ltb_lt in E; destruct (delay_front_spec s t n ticks l1 l Hd Ht Hp) as (s' & E1 & E2);
        [intros x Hx; apply Hr, elem_of_app; by right|lia|lia|done|];
       exists s', [], (n :: l); rewrite app_nil_r; done|apply Z.ltb_ge in E] end.
  all: assert (passes t ticks (expiries (tdelay s) 0 (l1 ++ [n]))) as Hpass'
    by (rewrite expiries_app; apply passes_snoc; [done|lia]).
  - rewrite Hnx. cbn [first].
    exists (upd_tcb t (set_delay (ticks - total (tdelay s) (l1 ++ [n])))
             (upd_tcb n (set_tnext (Some t)) (upd_tcb t (set_tprev (Some n)) s))), [n], [].
    split; [by replace (ticks - total (tdelay s) (l1 ++ [n])) with (ticks - total (tdelay s) l1 - tdelay s n) by lia|].
    split; [done|]. apply delay_append_spec; try done; [lia|].
    intros x Hx. apply Hr in Hx. lia.
  - rewrite Hnx. cbn [first].
    destruct (IH (l1 ++ [n]) m fuel) as (s' & m1 & m2 & E1 & E2 & E3);
      try (rewrite <- app_assoc; done); try done; [lia|cbn in Hf; lia|].
    exists s', (n :: m1), m2. rewrite E2. rewrite <- app_assoc in E3. split; [|done].
    rewrite <- E1. f_equal. lia.
Qed.

(** The delays of a list: no negative delta, and nobody sleeps for more than the
    signed counter of the insertion can represent. *)
Definition delays_ok (D : Z -> Z) (l : list Z) : Prop :=
  (forall x, x ∈ l -> 0 <= D x) /\ total D l < 2 ^ 31.

Lemma total_ext D D' l : (forall x, x ∈ l -> D' x = D x) -> total D' l = total D l.
Proof.
  induction l as [|x l IH]; intros H; [done|]. cbn [total].
  rewrite (H x) by (apply elem_of_cons; by left). rewrite IH; [done|].
  intros y Hy. apply H, elem_of_cons. by right.
Qed.

Lemma delays_ok_ext D D' l : (forall x, x ∈ l -> D' x = D x) -> delays_ok D l -> delays_ok D' l.
Proof.
  intros H [H1 H2]. split; [|by rewrite (total_ext D)]. intros x Hx. rewrite H by done. by apply H1.
Qed.

Lemma delays_ok_each D l x : delays_ok D l -> x ∈ l -> 0 <= D x < 2 ^ 31.
Proof.
  intros [H1 H2] Hx. split; [by apply H1|].
  apply list_elem_of_split in Hx as (l1 & l2 & ->). rewrite total_app in H2. cbn [total] in H2.
  assert (0 <= total D l1) by (apply total_nonneg; intros y Hy; apply H1, elem_of_app; by left).
  assert (0 <= total D l2)
    by (apply total_nonneg; intros y Hy; apply H1, elem_of_app; right; apply elem_of_cons; by right).
  lia.
Qed.

Lemma total_bound D B l : 0 < B -> Forall (fun p => p.2 < B) (expiries D 0 l) -> total D l < B.
Proof.
  intros HB. destruct l as [|x l _] using rev_ind; [done|]. rewrite expiries_app, Forall_app.
  intros [_ H]. cbn in H. apply list.Forall_cons in H as [H _]. rewrite total_app. cbn in *. lia.
Qed.

Lemma expiries_bound D B l :
  (forall x, x ∈ l -> 0 <= D x) -> total D l < B -> Forall (fun p => p.2 < B) (expiries D 0 l).
Proof.
  induction l as [|x l IH] using rev_ind; intros Hn Ht; [constructor|].
  rewrite total_app in Ht. cbn in Ht. rewrite expiries_app. apply Forall_app.
  assert (0 <= D x) by (apply Hn, elem_of_app; right; by apply list_elem_of_singleton).
  split; [apply IH; [intros y Hy; apply Hn, elem_of_app; by left|lia]|].
  constructor; [cbn; lia|constructor].
Qed.

Lemma insert_time_bound t w B l :
  w < B -> Forall (fun p => p.2 < B) l -> Forall (fun p => p.2 < B) (insert_time t w l).
Proof.
  intros Hw. induction 1 as [|[x e] l Hx Hl IH]; cbn [insert_time]; [by repeat constructor|].
  case_bool; by repeat constructor.
Qed.

Record slept (t ticks : Z) (l1 l2 : list Z) (s s' : sched) : Prop := {
  sl_links : linked_in t (final None l1) (first l2 None) (tnext s) (tprev s) (tnext s') (tprev s');
  sl_body : forall i, body (tcb s' i)
    = body (if decide (i = t) then set_state TASK_WAITING (tcb s i) else tcb s i);
  sl_other : forall i, i <> t -> i ∉ l1 ++ l2 -> tdelay s' i = tdelay s i;
  sl_time : expiries (tdelay s') 0 (l1 ++ t :: l2) = insert_time t ticks (expiries (tdelay s) 0 (l1 ++ l2));
  sl_ok : delays_ok (tdelay s') (l1 ++ t :: l2);
  sl_head : DlyList s' = match l1 with [] => Some t | _ => DlyList s end;
  sl_rdy : TCBRdy s' = TCBRdy s;
  sl_rest : rest s' = rest s;
  sl_req : TaskSchedReq s' = true
}.

(** The state and the request that [InsertDelayList] sets after the links. *)
Lemma delayed_slept (s s1 : sched) (t ticks : Z) (l1 l2 : list Z) :
  delayed t ticks l1 l2 s s1 -> t ∉ l1 ++ l2 -> NoDup (l1 ++ l2) ->
  delays_ok (tdelay s) (l1 ++ l2) -> ticks < 2 ^ 31 ->
  slept t ticks l1 l2 s (upd_tcb t (set_state TASK_WAITING) s1 <| TaskSchedReq := true |>).
Proof.
  intros [D1 D2 D3 D4 D5 D6 D7 D8 D9] Ht Hnd [Hn Htot] Htk.
  set (s' := upd_tcb t (set_state TASK_WAITING) s1 <| TaskSchedReq := true |>).
  assert (forall i, tcb s' i = if decide (t = i) then set_state TASK_WAITING (tcb s1 i) else tcb s1 i)
    as Hs' by (intros i; unfold s'; by rewrite tcb_upd, (tcb_same s1) by done).
  assert (forall i, tdelay s' i = tdelay s1 i /\ tnext s' i = tnext s1 i /\ tprev s' i = tprev s1 i) as Hf
    by (intros i; unfold tdelay, tnext, tprev; rewrite Hs'; by repeat case_decide).
  assert (expiries (tdelay s') 0 (l1 ++ t :: l2) = insert_time t ticks (expiries (tdelay s) 0 (l1 ++ l2))) as Htime.
  { rewrite (expiries_ext (tdelay s1)) by (intros x _; apply Hf). rewrite D5, expiries_app.
    assert (forall x, x ∈ l1 -> tdelay s1 x = tdelay s x) as Hl1.
    { intros x Hx. apply D3; [intros ->; apply Ht, elem_of_app; by left|].
      intros Hc. apply list.NoDup_app in Hnd as (_ & N & _). by apply (N x). }
    rewrite (expiries_ext _ _ _ _ Hl1). f_equal. rewrite <- D4. f_equal.
    clear -Hl1. induction l1 as [|x l IH]; [done|]. cbn [total]. rewrite Hl1 by (apply elem_of_cons; by left).
    rewrite Z.add_0_l in *. rewrite IH; [done|]. intros y Hy. apply Hl1, elem_of_cons. by right. }
  split; try done.
  - intros i. destruct (D1 i) as [H1 H2]. by rewrite <- H1, <- H2, (proj1 (proj2 (Hf i))), (proj2 (proj2 (Hf i))).
  - intros i. rewrite Hs'. specialize (D2 i). destruct (decide (i = t)) as [->|H].
    + rewrite decide_True by done. destruct (tcb s1 t), (tcb s t). injection D2. intros. by subst.
    + by rewrite decide_False by congruence.
  - intros i Hi Hi'. rewrite (proj1 (Hf i)). apply D3; [done|].
    intros Hc. apply Hi', elem_of_app. by right.
  - split.
    + intros x Hx. rewrite (proj1 (Hf x)). apply elem_of_app in Hx as [Hx|Hx]; [|by apply D6].
      rewrite D3; [apply Hn, elem_of_app; by left|..].
      * intros ->. apply Ht, elem_of_app. by left.
      * intros Hc. apply list.NoDup_app in Hnd as (_ & N & _). by apply (N x).
    + apply total_bound; [done|]. rewrite Htime. apply insert_time_bound; [done|].
      by apply expiries_bound.
Qed.

Lemma InsertDelayList_spec (s : sched) (t ticks : Z) (l : list Z) :
  dll (tnext s) (tprev s) (DlyList s) l -> t ∉ l -> tnext s t = None -> tprev s t = None ->
  delays_ok (tdelay s) l -> 0 < ticks < 2 ^ 31 -> (length l <= task_fuel)%nat ->
  exists s' l1 l2, InsertDelayList t ticks s = Some s' /\ l = l1 ++ l2 /\ slept t ticks l1 l2 s s'.
Proof.
  intros Hd Ht Hn Hp Hok Htk Hlen. unfold InsertDelayList.
  rewrite (proj2 (Z.eqb_neq _ _)) by lia.
  assert (exists s1 l1 l2, match DlyList s with
      | None => Some (upd_tcb t (set_delay ticks) s <| DlyList := Some t |>)
      | Some h => delay_place task_fuel t h (i32 ticks) s end = Some s1 /\
      l = l1 ++ l2 /\ delayed t ticks l1 l2 s s1) as (s1 & l1 & l2 & E & -> & HD).
  { destruct (DlyList s) as [h|] eqn:Eh.
    - destruct (dll_some _ _ _ _ Hd) as [l' ->]. rewrite i32_small by lia. rewrite <- Eh in Hd.
      destruct (delay_place_spec s t ticks l' [] h task_fuel Hd Ht Hn Hp) as (s1 & m1 & m2 & E1 & E2 & E3);
        [|cbn; lia|done|cbn in Hlen; lia|].
      + intros x Hx. by apply (delays_ok_each _ _ _ Hok).
      + exists s1, m1, m2. rewrite Z.sub_0_r in E1. done.
    - apply dll_none in Hd as ->.
      exists (upd_tcb t (set_delay ticks) s <| DlyList := Some t |>), [], []. split; [done|]. split; [done|].
      assert (tdelay (upd_tcb t (set_delay ticks) s <| DlyList := Some t |>) t = ticks) as Dt
        by (unfold tdelay; by rewrite tcb_upd_eq).
      split; try done.
      + intros i. unfold tnext, tprev in *. rewrite tcb_upd, (tcb_same s) by done. cbn [final first]. link_cases.
      + intros i. rewrite tcb_upd, (tcb_same s) by done. by case_decide.
      + intros i Hi _. unfold tdelay. by rewrite tcb_upd_ne by done.
      + cbn [expiries insert_time total]. by rewrite Dt.
      + intros i [->|Hi]%elem_of_cons; [rewrite Dt; lia|by apply elem_of_nil in Hi]. }
  rewrite E. cbn [mbind option_bind]. eexists _, l1, l2. split; [done|]. split; [done|].
  apply delayed_slept; try done; [|lia]. by apply (dll_nodup _ _ _ _ Hd).
Qed.

(** ** Removal from the delay list *)

Record woken (t : Z) (l1 l2 : list Z) (s s' : sched) : Prop := {
  wo_links : unlinked t (tnext s) (tprev s) (tnext s') (tprev s');
  wo_self : tnext s' t = None /\ tprev s' t = None;
  wo_body : forall i, body (tcb s' i) = body (tcb s i);
  wo_delay : forall i, tdelay s' i = if decide (i = t) then INVALID_VALUE
    else if decide (first l2 None = Some i) then tdelay s i + tdelay s t else tdelay s i;
  wo_head : DlyList s' = match l1 with [] => first l2 None | _ => DlyList s end;
  wo_rdy : TCBRdy s' = TCBRdy s;
  wo_rest : rest s' = rest s;
  wo_req : TaskSchedReq s' = TaskSchedReq s
}.

Lemma RemoveDelayList_spec (s : sched) (t : Z) (l1 l2 : list Z) :
  dll (tnext s) (tprev s) (DlyList s) (l1 ++ t :: l2) -> delays_ok (tdelay s) (l1 ++ t :: l2) ->
  woken t l1 l2 s (RemoveDelayList t s).
Proof.
  intros Hd Hok. destruct (dll_at _ _ _ _ _ _ Hd) as [Hn Hp].
  assert (forall i, final None l1 = Some i \/ first l2 None = Some i -> i <> t) as Hne.
  { intros i Hi ->. apply dll_nodup in Hd. apply list.NoDup_app in Hd as (_ & N2 & N3).
    apply list.NoDup_cons in N3 as [N3 _]. destruct Hi as [Hi|Hi].
    - apply final_elem in Hi. apply (N2 t Hi). apply elem_of_cons. by left.
    - by apply first_elem in Hi. }
  assert (forall i, first l2 None = Some i -> u32 (delayTick (tcb s i) + delayTick (tcb s t))
                                              = delayTick (tcb s i) + delayTick (tcb s t)) as Hw.
  { intros i Hi%first_elem. assert (i ∈ l1 ++ t :: l2 /\ t ∈ l1 ++ t :: l2) as [H1 H2]
      by (rewrite !elem_of_app, !elem_of_cons; tauto).
    apply u32_small. pose proof (delays_ok_each _ _ _ Hok H1) as B1.
    pose proof (delays_ok_each _ _ _ Hok H2) as B2. unfold tdelay in *. lia. }
  unfold tnext, tprev in Hn, Hp. unfold RemoveDelayList. rewrite Hn, Hp.
  destruct (first l2 None) as [n|] eqn:En, (final None l1) as [p|] eqn:Ep.
  all: try (assert (n <> t) by (apply Hne; by right); specialize (Hw n eq_refl));
       try (assert (p <> t) by (apply Hne; by left)).
  all: try (assert (n <> p) by (intros ->; apply final_elem in Ep; apply first_elem in En;
         apply dll_nodup in Hd; apply list.NoDup_app in Hd as (_ & N2 & _);
         apply (N2 p Ep); apply elem_of_cons; by right)).
  all: split; [intros i Hi| |intros i|intros i| |done..].
  all: unfold tnext, tprev, tdelay; rewrite ?tcb_upd, ?(tcb_same s) by done; rewrite ?Hn, ?Hp.
  all: try solve [link_cases].
  all: try solve [destruct l1 using rev_ind; rewrite ?final_snoc in *; try done; by destruct l1].
  all: repeat case_decide; subst; simplify_eq; try congruence; cbn [set_delay set_tnext set_tprev delayTick update updater]; try done.
Qed.

Lemma woken_times (s s' : sched) (t : Z) (l1 l2 : list Z) :
  woken t l1 l2 s s' -> NoDup (l1 ++ t :: l2) -> delays_ok (tdelay s) (l1 ++ t :: l2) ->
  delays_ok (tdelay s') (l1 ++ l2) /\
  expiries (tdelay s') 0 (l1 ++ l2)
  = expiries (tdelay s) 0 l1 ++ expiries (tdelay s) (total (tdelay s) (l1 ++ [t])) l2.
Proof.
  intros Hw Hnd [Hnn Htot]. apply list.NoDup_app in Hnd as (N1 & N2 & N3).
  apply list.NoDup_cons in N3 as [N3 N4].
  assert (forall x, x ∈ l1 -> tdelay s' x = tdelay s x) as H1.
  { intros x Hx. rewrite (wo_delay _ _ _ _ _ Hw), !decide_False; [done|..].
    - intros E%first_elem. apply (N2 x Hx), elem_of_cons. by right.
    - intros ->. apply (N2 t Hx), elem_of_cons. by left. }
  assert (total (tdelay s') l1 = total (tdelay s) l1) as Et.
  { clear -H1. induction l1 as [|x l IH]; [done|]. cbn [total].
    rewrite H1 by (apply elem_of_cons; by left). rewrite IH; [done|].
    intros y Hy. apply H1, elem_of_cons. by right. }
  destruct l2 as [|n l2].
  - rewrite !app_nil_r, total_app in *. split; [split|].
    + intros x Hx. rewrite (H1 x Hx). apply Hnn, elem_of_app. by left.
    + rewrite Et. cbn [total] in Htot. assert (0 <= tdelay s t); [|lia].
      apply Hnn, elem_of_app. right. by apply list_elem_of_singleton.
    + by apply expiries_ext.
  - assert (n <> t) as Hnt by (intros ->; apply N3, elem_of_cons; by left).
    assert (tdelay s' n = tdelay s n + tdelay s t) as En
      by (rewrite (wo_delay _ _ _ _ _ Hw), decide_False by done; by rewrite decide_True).
    assert (forall x, x ∈ l2 -> tdelay s' x = tdelay s x) as H2.
    { intros x Hx. apply list.NoDup_cons in N4 as [N4 _].
      rewrite (wo_delay _ _ _ _ _ Hw), !decide_False; [done|..].
      - cbn [first]. intros [= ->]. done.
      - intros ->. apply N3, elem_of_cons. by right. }
    assert (expiries (tdelay s') 0 (l1 ++ n :: l2)
      = expiries (tdelay s) 0 l1 ++ expiries (tdelay s) (total (tdelay s) (l1 ++ [t])) (n :: l2)) as Ee.
    { rewrite expiries_app, (expiries_ext _ _ _ _ H1). f_equal. cbn [expiries].
      rewrite Et, En, total_app, (expiries_ext _ _ _ _ H2). cbn [total].
      by replace (0 + total (tdelay s) l1 + (tdelay s n + tdelay s t))
        with (total (tdelay s) l1 + (tdelay s t + 0) + tdelay s n) by lia. }
    split; [split|done].
    + intros x Hx. rewrite elem_of_app, elem_of_cons in Hx. destruct Hx as [Hx|[->|Hx]].
      * rewrite (H1 x Hx). apply Hnn, elem_of_app. by left.
      * rewrite En. assert (0 <= tdelay s n /\ 0 <= tdelay s t); [|lia].
        split; apply Hnn; rewrite elem_of_app, !elem_of_cons; tauto.
      * rewrite (H2 x Hx). apply Hnn. rewrite elem_of_app, !elem_of_cons. tauto.
    + apply total_bound; [done|]. rewrite Ee. apply expiries_bound in Htot; [|done].
      rewrite expiries_app in Htot. cbn [expiries] in Htot.
      apply Forall_app in Htot as [T1 T2%list.Forall_cons]. destruct T2 as [_ T2].
      apply Forall_app. split; [done|]. rewrite total_app. cbn [total].
      by replace (total (tdelay s) l1 + (tdelay s t + 0)) with (0 + total (tdelay s) l1 + tdelay s t) by lia.
Qed.
