(* ===== verification/CoInv.v ===== *)
(** * The invariant of the scheduler's lists

    Every task control block is free, ready, delayed, or in none of the three
    lists (it runs, or it waits without a time-out); the lists are well linked,
    the ready list is sorted by priority and agrees with the states of the
    tasks. The list operations of [CoSched] preserve it. *)

From stdpp Require Import gmap.
From S2P Require Import Prelude Dll CoTypes CoSched.

(** A list linked by [nxt] only. *)
Fixpoint chained (nxt : Z -> option Z) (head : option Z) (l : list Z) : Prop :=
  match l with
  | [] => head = None
  | x :: l => head = Some x /\ chained nxt (nxt x) l
  end.

Lemma chained_ext nxt nxt' head l :
  (forall x, x ∈ l -> nxt' x = nxt x) -> chained nxt head l -> chained nxt' head l.
Proof.
  revert head. induction l as [|x l IH]; intros head H; [done|]. intros [Hh Hl]. split; [done|].
  rewrite H by (apply elem_of_cons; by left). apply IH; [|done].
  intros y Hy. apply H, elem_of_cons. by right.
Qed.

Definition is_task (t : Z) : Prop := 0 <= t < TASKS.

Record lists_ok (s : sched) (fre rdy dly : list Z) : Prop := {
  ok_free : chained (tnext s) (FreeTCB s) fre;
  ok_rdy : dll (tnext s) (tprev s) (TCBRdy s) rdy;
  ok_dly : dll (tnext s) (tprev s) (DlyList s) dly;
  ok_apart : NoDup (fre ++ rdy ++ dly);
  ok_tasks : forall t, t ∈ fre ++ rdy ++ dly -> is_task t;
  ok_sorted : sorted_prio (tprio s) rdy;
  ok_delays : delays_ok (tdelay s) dly;
  ok_ready : forall t, is_task t -> t ∉ fre -> tstate s t = TASK_READY <-> t ∈ rdy;
  ok_asleep : forall t, t ∈ dly -> tstate s t = TASK_WAITING;
  ok_awake : forall t, is_task t -> t ∉ fre -> t ∉ dly -> tdelay s t = INVALID_VALUE;
  ok_loose : forall t, is_task t -> t ∉ fre ++ rdy ++ dly -> tnext s t = None /\ tprev s t = None
}.

(** What the invariant reads of a control block. *)
Definition view (t : OSTCB) := (prio t, state t, delayTick t, TCBnext t, TCBprev t).

Record same_view (s s' : sched) : Prop := {
  sv_view : forall t, view (tcb s' t) = view (tcb s t);
  sv_free : FreeTCB s' = FreeTCB s;
  sv_rdy : TCBRdy s' = TCBRdy s;
  sv_dly : DlyList s' = DlyList s
}.

#[export] Instance same_view_preorder : PreOrder same_view.
Proof.
  split; [by split|]. intros a b c [A1 A2 A3 A4] [B1 B2 B3 B4].
  split; [intros t; by rewrite B1, A1|by rewrite B2, A2|by rewrite B3, A3|by rewrite B4, A4].
Qed.

Lemma view_fields s s' : same_view s s' ->
  (forall t, tprio s' t = tprio s t) /\ (forall t, tstate s' t = tstate s t) /\
  (forall t, tdelay s' t = tdelay s t) /\ (forall t, tnext s' t = tnext s t) /\
  (forall t, tprev s' t = tprev s t).
Proof. intros [H _ _ _]. repeat split; intros t; specialize (H t); by injection H. Qed.

(** The invariant, from the links, the states and the delays. *)
Lemma lists_ok_intro (s s' : sched) (fre rdy dly fre' rdy' dly' : list Z) :
  lists_ok s fre rdy dly ->
  (forall t, t ∈ fre' -> t ∈ fre /\ tnext s' t = tnext s t) ->
  chained (tnext s) (FreeTCB s') fre' ->
  dll (tnext s') (tprev s') (TCBRdy s') rdy' -> dll (tnext s') (tprev s') (DlyList s') dly' ->
  NoDup (fre' ++ rdy' ++ dly') -> (forall t, t ∈ fre' ++ rdy' ++ dly' -> is_task t) ->
  sorted_prio (tprio s') rdy' -> delays_ok (tdelay s') dly' ->
  (forall t, is_task t -> t ∉ fre' -> tstate s' t = TASK_READY <-> t ∈ rdy') ->
  (forall t, t ∈ dly' -> tstate s' t = TASK_WAITING) ->
  (forall t, is_task t -> t ∉ fre' -> t ∉ dly' -> tdelay s' t = INVALID_VALUE) ->
  (forall t, is_task t -> t ∉ fre' ++ rdy' ++ dly' -> tnext s' t = None /\ tprev s' t = None) ->
  lists_ok s' fre' rdy' dly'.
Proof.
  intros _ Hf Hc H1 H2 H3 H4 H5 H6 H7 H8 H9 H10. split; try done.
  eapply chained_ext; [|exact Hc]. intros x Hx. by apply Hf.
Qed.

Lemma lists_ok_view s s' fre rdy dly : same_view s s' -> lists_ok s fre rdy dly -> lists_ok s' fre rdy dly.
Proof.
  intros Hv Hok. destruct (view_fields s s' Hv) as (Vp & Vs & Vd & Vn & Vr).
  destruct Hv as [_ V2 V3 V4].
  apply (lists_ok_intro s s' fre rdy dly); try done.
  - rewrite V2. apply Hok.
  - rewrite V3. eapply dll_ext; [|apply Hok]. by intros x _.
  - rewrite V4. eapply dll_ext; [|apply Hok]. by intros x _.
  - apply Hok.
  - apply Hok.
  - eapply sorted_prio_ext; [|apply Hok]. by intros x _.
  - eapply delays_ok_ext; [|apply Hok]. by intros ? _.
  - intros t. rewrite Vs. apply Hok.
  - intros t. rewrite Vs. apply Hok.
  - intros t. rewrite Vd. apply Hok.
  - intros t. rewrite Vn, Vr. apply Hok.
Qed.

#[export] Instance lists_ok_proper :
  Proper (same_view ==> eq ==> eq ==> eq ==> impl) lists_ok.
Proof. intros s s' Hv f ? <- r ? <- d ? <- H. by apply (lists_ok_view s). Qed.

(** ** Lists of tasks are short *)

Lemma tasks_length (l : list Z) : NoDup l -> (forall t, t ∈ l -> is_task t) -> (length l <= task_fuel)%nat.
Proof.
  intros Hn Ht. assert (l ⊆+ seqZ 0 TASKS) as H.
  { apply NoDup_submseteq; [done|]. intros t Hx. apply elem_of_seqZ. destruct (Ht t Hx). lia. }
  apply submseteq_length in H. by rewrite length_seqZ in H.
Qed.

Section lists.
Variables (s : sched) (fre rdy dly : list Z).
Hypothesis Hok : lists_ok s fre rdy dly.

Lemma ok_apart_rdy : NoDup rdy /\ NoDup dly /\ (forall t, t ∈ rdy -> t ∉ dly) /\
  (forall t, t ∈ fre -> t ∉ rdy /\ t ∉ dly).
Proof.
  pose proof (ok_apart _ _ _ _ Hok) as H. apply list.NoDup_app in H as (_ & H1 & H2).
  apply list.NoDup_app in H2 as (H2 & H3 & H4). split; [done|]. split; [done|]. split; [done|].
  intros t Ht. specialize (H1 t Ht). rewrite elem_of_app in H1. tauto.
Qed.

Lemma rdy_length : (length rdy <= task_fuel)%nat.
Proof.
  apply tasks_length; [apply ok_apart_rdy|]. intros t Ht.
  apply (ok_tasks _ _ _ _ Hok), elem_of_app. right. apply elem_of_app. by left.
Qed.

Lemma dly_length : (length dly <= task_fuel)%nat.
Proof.
  apply tasks_length; [apply ok_apart_rdy|]. intros t Ht.
  apply (ok_tasks _ _ _ _ Hok), elem_of_app. right. apply elem_of_app. by right.
Qed.
End lists.

Lemma rest_fields s s' : rest s' = rest s ->
  FreeTCB s' = FreeTCB s /\ TCBNext s' = TCBNext s /\ TCBRunning s' = TCBRunning s /\
  OSTickCnt s' = OSTickCnt s /\ OSIntNesting s' = OSIntNesting s /\
  OSSchedLock s' = OSSchedLock s /\ pendsv s' = pendsv s.
Proof. unfold rest. intros H. injection H as H1 H2 H3 H4 H5 H6 H7. done. Qed.

(** ** The list operations preserve the invariant *)

(** The task is in no list. *)
Definition loose (t : Z) (fre rdy dly : list Z) : Prop := is_task t /\ t ∉ fre ++ rdy ++ dly.

Lemma loose_not t fre rdy dly :
  loose t fre rdy dly -> is_task t /\ t ∉ fre /\ t ∉ rdy /\ t ∉ dly.
Proof. intros [H1 H2]. rewrite !elem_of_app in H2. tauto. Qed.

Lemma body_prio a b : body a = body b -> prio a = prio b.
Proof. destruct a, b. by intros [=]. Qed.
Lemma body_state a b : body a = body b -> state a = state b.
Proof. destruct a, b. by intros [=]. Qed.

(** A control block without its links, delay and state; only the state of [t]
    may change besides these. *)
Definition ident (b : OSTCB) : OSTCB := set_state TASK_READY (body b).

Record kept (t : Z) (x : task_state) (s s' : sched) : Prop := {
  kp_ident : forall i, ident (tcb s' i) = ident (tcb s i);
  kp_prio : forall i, tprio s' i = tprio s i;
  kp_state : forall i, tstate s' i = if decide (i = t) then x else tstate s i;
  kp_rest : rest s' = rest s
}.

Lemma ident_core a b : core a = core b -> ident a = ident b.
Proof. intros H. apply body_core in H. unfold ident. by rewrite H. Qed.
Lemma ident_body a b : body a = body b -> ident a = ident b.
Proof. unfold ident. by intros ->. Qed.
Lemma ident_state x b : ident (set_state x b) = ident b.
Proof. by destruct b. Qed.

(** The request for a task switch is only dropped by a schedule, and an
    insertion in front of the ready list raises it. *)
Definition requested (t : Z) (rdy : list Z) (s s' : sched) : Prop :=
  TaskSchedReq s' = match rdy with
                    | [] => true
                    | h :: _ => if tprio s t <? tprio s h then true else TaskSchedReq s
                    end.

Lemma insert_lists (s : sched) (t : Z) (fre rdy dly : list Z) :
  lists_ok s fre rdy dly -> loose t fre rdy dly ->
  exists s', InsertToTCBRdyList t s = Some s' /\
    lists_ok s' fre (insert_prio (tprio s) t rdy) dly /\ kept t TASK_READY s s' /\
    (forall i, tdelay s' i = tdelay s i) /\ DlyList s' = DlyList s /\ requested t rdy s s'.
Proof.
  intros Hok Hl. destruct (loose_not _ _ _ _ Hl) as (Ht & Hf & Hr & Hd).
  destruct Hl as [_ Hl]. destruct (ok_loose _ _ _ _ Hok t Ht Hl) as [Hn Hp].
  destruct (ok_apart_rdy _ _ _ _ Hok) as (N1 & N2 & N3 & N4).
  destruct (InsertToTCBRdyList_spec s t rdy (ok_rdy _ _ _ _ Hok) Hr (rdy_length _ _ _ _ Hok) Hn Hp)
    as (s' & l1 & l2 & E & El & Ei & [I1 I2 I3 I4 I5 I6]).
  exists s'. split; [done|].
  assert (forall i, tprio s' i = tprio s i) as Ip.
  { intros i. pose proof (core_prio _ _ (I2 i)) as H. unfold tprio. rewrite H. by case_decide. }
  assert (forall i, tstate s' i = if decide (i = t) then TASK_READY else tstate s i) as Is.
  { intros i. pose proof (core_state _ _ (I2 i)) as H. unfold tstate. rewrite H. by case_decide. }
  assert (forall i, tdelay s' i = tdelay s i) as Id.
  { intros i. pose proof (core_delay _ _ (I2 i)) as H. unfold tdelay. rewrite H. by case_decide. }
  assert (forall i, ident (tcb s' i) = ident (tcb s i)) as Ii.
  { intros i. rewrite (ident_core _ _ (I2 i)). case_decide; [apply ident_state|done]. }
  assert (forall i, i <> t -> i ∉ rdy -> tnext s' i = tnext s i /\ tprev s' i = tprev s i) as Ifr.
  { intros i Hi Hi'. apply (linked_in_frame _ _ _ _ _ _ _ _ I1 Hi). by rewrite <- El. }
  assert (forall i, i ∈ insert_prio (tprio s) t rdy <-> i = t \/ i ∈ rdy) as Iin
    by (intros i; apply elem_of_insert_prio).
  pose proof (proj1 (rest_fields _ _ I5)) as Ifree.
  split; [|split; [by split|split; [done|split; [done|]]]].
  - apply (lists_ok_intro s s' fre rdy dly); try done.
    + intros i Hi. split; [done|]. apply Ifr; [by intros ->|]. by apply N4.
    + rewrite Ifree. apply Hok.
    + rewrite Ei, I3. apply (dll_linked_in (tnext s) (tprev s)); [|by rewrite <- El|done].
      rewrite <- El. apply Hok.
    + rewrite I6. eapply dll_ext; [|apply Hok]. intros i Hi. apply Ifr; [by intros ->|].
      intros Hc. by apply (N3 i).
    + rewrite Ei. pose proof (ok_apart _ _ _ _ Hok) as Hnd. rewrite El in Hnd. rewrite El in Hl.
      eapply (NoDup_Permutation_proper (t :: fre ++ (l1 ++ l2) ++ dly)).
      { rewrite <- !app_assoc. cbn [app]. rewrite <- !Permutation_middle. done. }
      by apply list.NoDup_cons.
    + intros i Hi. rewrite !elem_of_app, Iin in Hi.
      destruct (decide (i = t)) as [->|]; [done|]. apply (ok_tasks _ _ _ _ Hok).
      rewrite !elem_of_app. tauto.
    + apply (sorted_prio_ext (tprio s)); [done|]. apply insert_prio_sorted, Hok.
    + eapply delays_ok_ext; [|apply Hok]. by intros ? _.
    + intros i Hi Hif. rewrite Is, Iin. case_decide as Hit; [tauto|].
      rewrite (ok_ready _ _ _ _ Hok i Hi Hif). tauto.
    + intros i Hi. rewrite Is. rewrite decide_False by (by intros ->). by apply (ok_asleep _ _ _ _ Hok).
    + intros i Hi Hif Hid. rewrite Id. by apply (ok_awake _ _ _ _ Hok).
    + intros i Hi Hc. rewrite !elem_of_app, Iin in Hc.
      destruct (Ifr i) as [-> ->]; [tauto|tauto|]. apply (ok_loose _ _ _ _ Hok i Hi).
      rewrite !elem_of_app. tauto.
  - unfold requested. rewrite I4. destruct rdy as [|h r]; [by destruct l1|].
    cbn [insert_prio] in Ei. destruct (tprio s t <? tprio s h) eqn:Eh; destruct l1 as [|x l1]; try done.
    + injection Ei as -> _. exfalso. apply Hr. rewrite El. apply elem_of_cons. by left.
    + injection Ei as ->. exfalso. apply Hr, elem_of_cons. by left.
Qed.

(** [t] leaves the ready list for the state [x]. *)
Lemma remove_lists (s : sched) (t : Z) (x : task_state) (fre l1 l2 dly : list Z) :
  lists_ok s fre (l1 ++ t :: l2) dly -> x <> TASK_READY ->
  let s' := upd_tcb t (set_state x) (RemoveFromTCBRdyList t s) in
  lists_ok s' fre (l1 ++ l2) dly /\ kept t x s s' /\ loose t fre (l1 ++ l2) dly /\
  (forall i, tdelay s' i = tdelay s i) /\ DlyList s' = DlyList s /\
  TaskSchedReq s' = TaskSchedReq s /\ OSCheckTime s' = OSCheckTime s.
Proof.
  intros Hok Hx s'. pose proof (ok_apart_rdy _ _ _ _ Hok) as (N1 & N2 & N3 & N4).
  assert (t ∈ l1 ++ t :: l2) as Hin by (apply elem_of_app; right; apply elem_of_cons; by left).
  assert (is_task t) as Ht
    by (apply (ok_tasks _ _ _ _ Hok), elem_of_app; right; apply elem_of_app; by left).
  destruct (RemoveFromTCBRdyList_spec s t l1 l2 (ok_rdy _ _ _ _ Hok)) as ([R1 R2 R3 R4] & R5 & R6 & R7 & R8).
  set (s1 := RemoveFromTCBRdyList t s) in *.
  assert (forall i, tprio s' i = tprio s i) as Ip.
  { intros i. unfold tprio, s'. rewrite tcb_upd. case_decide; by rewrite <- (core_prio _ _ (R3 i)). }
  assert (forall i, tstate s' i = if decide (i = t) then x else tstate s i) as Is.
  { intros i. unfold tstate, s'. rewrite tcb_upd. repeat case_decide; try congruence; [done|].
    apply (core_state _ _ (R3 i)). }
  assert (forall i, tdelay s' i = tdelay s i) as Id.
  { intros i. unfold tdelay, s'. rewrite tcb_upd. case_decide; by rewrite <- (core_delay _ _ (R3 i)). }
  assert (forall i, ident (tcb s' i) = ident (tcb s i)) as Ii.
  { intros i. unfold s'. rewrite tcb_upd, <- (ident_core _ _ (R3 i)). case_decide; [apply ident_state|done]. }
  assert (forall i, tnext s' i = tnext s1 i /\ tprev s' i = tprev s1 i) as Il.
  { intros i. unfold tnext, tprev, s'. rewrite tcb_upd. by case_decide. }
  assert (forall i, i ∉ l1 ++ t :: l2 -> tnext s' i = tnext s i /\ tprev s' i = tprev s i) as Ifr.
  { intros i Hi. destruct (Il i) as [-> ->].
    apply (unlinked_frame t (TCBRdy s) l1 l2 _ _ _ _ i (ok_rdy _ _ _ _ Hok) R1 Hi). }
  assert (t ∉ l1 ++ l2) as Htn.
  { apply list.NoDup_app in N1 as (_ & M1 & M2). apply list.NoDup_cons in M2 as [M2 _].
    rewrite elem_of_app. intros [Hc|Hc]; [|done]. apply (M1 t Hc), elem_of_cons. by left. }
  assert (forall i, i ∈ l1 ++ t :: l2 <-> i = t \/ i ∈ l1 ++ l2) as Iin
    by (intros i; rewrite !elem_of_app, elem_of_cons; tauto).
  assert (loose t fre (l1 ++ l2) dly) as Hloose.
  { split; [done|]. rewrite elem_of_app, (elem_of_app (l1 ++ l2)). intros [Hc|[Hc|Hc]].
    - by destruct (N4 t Hc).
    - done.
    - by apply (N3 t). }
  split; [|split; [split; [done|done|done|exact R4]|exact (conj Hloose (conj Id (conj R6 (conj R7 R8))))]].
  apply (lists_ok_intro s s' fre (l1 ++ t :: l2) dly); try done.
  - intros i Hi. split; [done|]. apply Ifr. by apply N4.
  - change (FreeTCB s') with (FreeTCB s1). rewrite (proj1 (rest_fields _ _ R4)). apply Hok.
  - change (TCBRdy s') with (TCBRdy s1). rewrite R5.
    eapply dll_ext; [intros i _; exact (Il i)|].
    apply (dll_unlinked (tnext s) (tprev s) _ _ _ l1 l2 t); [apply Hok|done].
  - change (DlyList s') with (DlyList s1). rewrite R6. eapply dll_ext; [|apply Hok].
    intros i Hi. apply Ifr. intros Hc. by apply (N3 i).
  - pose proof (ok_apart _ _ _ _ Hok) as Hnd.
    eapply (NoDup_Permutation_proper _ (t :: fre ++ (l1 ++ l2) ++ dly)) in Hnd.
    + by apply list.NoDup_cons in Hnd as [_ ?].
    + rewrite <- !app_assoc. cbn [app]. by rewrite <- !Permutation_middle.
  - intros i Hi. apply (ok_tasks _ _ _ _ Hok). rewrite !elem_of_app, elem_of_cons in *. tauto.
  - apply (sorted_prio_ext (tprio s)); [done|]. eapply sorted_prio_remove, Hok.
  - eapply delays_ok_ext; [|apply Hok]. by intros ? _.
  - intros i Hi Hif. rewrite Is. case_decide as Hit; [subst; tauto|].
    rewrite (ok_ready _ _ _ _ Hok i Hi Hif), Iin. tauto.
  - intros i Hi. rewrite Is. rewrite decide_False; [by apply (ok_asleep _ _ _ _ Hok)|].
    intros ->. by apply (N3 t).
  - intros i Hi Hif Hid. rewrite Id. by apply (ok_awake _ _ _ _ Hok).
  - intros i Hi Hc. destruct (Il i) as [E1 E2]. rewrite E1, E2.
    destruct (decide (i = t)) as [->|Hit]; [done|]. rewrite <- E1, <- E2.
    assert (i ∉ l1 ++ t :: l2) as Hil.
    { rewrite Iin. intros [?|?]; [done|]. apply Hc. rewrite elem_of_app, (elem_of_app (l1 ++ l2)). tauto. }
    destruct (Ifr i Hil) as [-> ->]. apply (ok_loose _ _ _ _ Hok i Hi).
    rewrite elem_of_app, (elem_of_app (l1 ++ l2)) in Hc. rewrite elem_of_app, (elem_of_app (l1 ++ t :: l2)).
    tauto.
Qed.

(** [t] goes to sleep for [ticks]. *)
Lemma sleep_lists (s : sched) (t ticks : Z) (fre rdy dly : list Z) :
  lists_ok s fre rdy dly -> loose t fre rdy dly -> 0 < ticks < 2 ^ 31 ->
  exists s' dly', InsertDelayList t ticks s = Some s' /\ lists_ok s' fre rdy dly' /\
    kept t TASK_WAITING s s' /\ (forall i, i ∈ dly' <-> i = t \/ i ∈ dly) /\
    expiries (tdelay s') 0 dly' = insert_time t ticks (expiries (tdelay s) 0 dly) /\
    TaskSchedReq s' = true.
Proof.
  intros Hok Hl Htk. destruct (loose_not _ _ _ _ Hl) as (Ht & Hf & Hr & Hd).
  destruct Hl as [_ Hl]. destruct (ok_loose _ _ _ _ Hok t Ht Hl) as [Hn Hp].
  destruct (ok_apart_rdy _ _ _ _ Hok) as (N1 & N2 & N3 & N4).
  destruct (InsertDelayList_spec s t ticks dly (ok_dly _ _ _ _ Hok) Hd Hn Hp (ok_delays _ _ _ _ Hok) Htk
    (dly_length _ _ _ _ Hok)) as (s' & l1 & l2 & E & El & [I1 I2 I3 I4 I5 I6 I7 I8 I9]).
  exists s', (l1 ++ t :: l2). rewrite El in *.
  assert (forall i, tprio s' i = tprio s i) as Ip.
  { intros i. pose proof (body_prio _ _ (I2 i)) as H. unfold tprio. rewrite H. by case_decide. }
  assert (forall i, tstate s' i = if decide (i = t) then TASK_WAITING else tstate s i) as Is.
  { intros i. pose proof (body_state _ _ (I2 i)) as H. unfold tstate. rewrite H. by case_decide. }
  assert (forall i, ident (tcb s' i) = ident (tcb s i)) as Ii.
  { intros i. rewrite (ident_body _ _ (I2 i)). case_decide; [apply ident_state|done]. }
  assert (forall i, i <> t -> i ∉ l1 ++ l2 -> tnext s' i = tnext s i /\ tprev s' i = tprev s i) as Ifr.
  { intros i Hi Hi'. apply (linked_in_frame _ _ _ _ _ _ _ _ I1 Hi Hi'). }
  assert (forall i, i ∈ l1 ++ t :: l2 <-> i = t \/ i ∈ l1 ++ l2) as Iin
    by (intros i; rewrite !elem_of_app, elem_of_cons; tauto).
  split; [done|]. split; [|done].
  apply (lists_ok_intro s s' fre rdy (l1 ++ l2)); try done.
  - intros i Hi. split; [done|]. apply Ifr; [by intros ->|]. by apply N4.
  - rewrite (proj1 (rest_fields _ _ I8)). apply Hok.
  - rewrite I7. eapply dll_ext; [|apply Hok]. intros i Hi. apply Ifr; [by intros ->|]. by apply N3.
  - rewrite I6. apply (dll_linked_in (tnext s) (tprev s)); [apply Hok|done|done].
  - pose proof (ok_apart _ _ _ _ Hok) as Hnd.
    eapply (NoDup_Permutation_proper _ (t :: fre ++ rdy ++ (l1 ++ l2))).
    { by rewrite <- !Permutation_middle. }
    by apply list.NoDup_cons.
  - intros i Hi. rewrite elem_of_app, (elem_of_app rdy), Iin in Hi.
    destruct (decide (i = t)) as [->|]; [done|]. apply (ok_tasks _ _ _ _ Hok).
    rewrite elem_of_app, (elem_of_app rdy). tauto.
  - apply (sorted_prio_ext (tprio s)); [done|]. apply Hok.
  - intros i Hi Hif. rewrite Is. case_decide as Hit; [by subst|]. by apply (ok_ready _ _ _ _ Hok).
  - intros i Hi. rewrite Is. case_decide; [done|]. apply (ok_asleep _ _ _ _ Hok). rewrite Iin in Hi. tauto.
  - intros i Hi Hif Hid. rewrite Iin in Hid. rewrite I3 by tauto. apply (ok_awake _ _ _ _ Hok); tauto.
  - intros i Hi Hc. rewrite elem_of_app, (elem_of_app rdy), Iin in Hc.
    destruct (Ifr i) as [-> ->]; [tauto|tauto|]. apply (ok_loose _ _ _ _ Hok i Hi).
    rewrite elem_of_app, (elem_of_app rdy). tauto.
Qed.

(** [t] is taken from the delay list. *)
Lemma wake_lists (s : sched) (t : Z) (fre rdy l1 l2 : list Z) :
  lists_ok s fre rdy (l1 ++ t :: l2) ->
  let s' := RemoveDelayList t s in
  lists_ok s' fre rdy (l1 ++ l2) /\ loose t fre rdy (l1 ++ l2) /\
  (forall i, ident (tcb s' i) = ident (tcb s i)) /\
  (forall i, tprio s' i = tprio s i) /\ (forall i, tstate s' i = tstate s i) /\ rest s' = rest s /\
  expiries (tdelay s') 0 (l1 ++ l2)
  = expiries (tdelay s) 0 l1 ++ expiries (tdelay s) (total (tdelay s) (l1 ++ [t])) l2 /\
  TaskSchedReq s' = TaskSchedReq s.
Proof.
  intros Hok s'. pose proof (ok_apart_rdy _ _ _ _ Hok) as (N1 & N2 & N3 & N4).
  assert (t ∈ l1 ++ t :: l2) as Hin by (apply elem_of_app; right; apply elem_of_cons; by left).
  assert (is_task t) as Ht
    by (apply (ok_tasks _ _ _ _ Hok), elem_of_app; right; apply elem_of_app; by right).
  pose proof (RemoveDelayList_spec s t l1 l2 (ok_dly _ _ _ _ Hok) (ok_delays _ _ _ _ Hok)) as Hw.
  destruct (woken_times s _ t l1 l2 Hw N2 (ok_delays _ _ _ _ Hok)) as [W1 W2].
  fold s' in Hw, W1, W2. destruct Hw as [R1 R2 R3 R4 R5 R6 R7 R8].
  assert (forall i, tprio s' i = tprio s i) as Ip by (intros i; apply (body_prio _ _ (R3 i))).
  assert (forall i, tstate s' i = tstate s i) as Is by (intros i; apply (body_state _ _ (R3 i))).
  assert (forall i, ident (tcb s' i) = ident (tcb s i)) as Ii by (intros i; apply (ident_body _ _ (R3 i))).
  assert (forall i, i ∉ l1 ++ t :: l2 -> tnext s' i = tnext s i /\ tprev s' i = tprev s i) as Ifr.
  { intros i Hi. apply (unlinked_frame t (DlyList s) l1 l2 _ _ _ _ i (ok_dly _ _ _ _ Hok) R1 Hi). }
  assert (t ∉ l1 ++ l2) as Htn.
  { apply list.NoDup_app in N2 as (_ & M1 & M2). apply list.NoDup_cons in M2 as [M2 _].
    rewrite elem_of_app. intros [Hc|Hc]; [|done]. apply (M1 t Hc), elem_of_cons. by left. }
  assert (forall i, i ∈ l1 ++ t :: l2 <-> i = t \/ i ∈ l1 ++ l2) as Iin
    by (intros i; rewrite !elem_of_app, elem_of_cons; tauto).
  assert (loose t fre rdy (l1 ++ l2)) as Hloose.
  { split; [done|]. rewrite elem_of_app, (elem_of_app rdy). intros [Hc|[Hc|Hc]].
    - by destruct (N4 t Hc).
    - by apply (N3 t).
    - done. }
  split; [|done].
  apply (lists_ok_intro s s' fre rdy (l1 ++ t :: l2)); try done.
  - intros i Hi. split; [done|]. apply Ifr. by apply N4.
  - rewrite (proj1 (rest_fields _ _ R7)). apply Hok.
  - rewrite R6. eapply dll_ext; [|apply Hok]. intros i Hi. apply Ifr. by apply N3.
  - rewrite R5. apply (dll_unlinked (tnext s) (tprev s) _ _ _ l1 l2 t); [apply Hok|done].
  - pose proof (ok_apart _ _ _ _ Hok) as Hnd.
    eapply (NoDup_Permutation_proper _ (t :: fre ++ rdy ++ (l1 ++ l2))) in Hnd.
    + by apply list.NoDup_cons in Hnd as [_ ?].
    + by rewrite <- !Permutation_middle.
  - intros i Hi. apply (ok_tasks _ _ _ _ Hok). rewrite elem_of_app, (elem_of_app rdy) in *.
    rewrite Iin. tauto.
  - apply (sorted_prio_ext (tprio s)); [done|]. apply Hok.
  - intros i Hi Hif. rewrite Is. by apply (ok_ready _ _ _ _ Hok).
  - intros i Hi. rewrite Is. apply (ok_asleep _ _ _ _ Hok). rewrite Iin. tauto.
  - intros i Hi Hif Hid. rewrite R4. case_decide as Hit; [done|].
    rewrite decide_False.
    + apply (ok_awake _ _ _ _ Hok); [done|done|]. rewrite Iin. tauto.
    + intros Hc%first_elem. apply Hid, elem_of_app. by right.
  - intros i Hi Hc. destruct (decide (i = t)) as [->|Hit]; [done|].
    rewrite elem_of_app, (elem_of_app rdy) in Hc.
    destruct (Ifr i) as [-> ->]; [rewrite Iin; tauto|]. apply (ok_loose _ _ _ _ Hok i Hi).
    rewrite elem_of_app, (elem_of_app rdy), Iin. tauto.
Qed.

(** A task in no list changes its state, or its priority. *)
Lemma loose_lists (s s' : sched) (t : Z) (fre rdy dly : list Z) :
  lists_ok s fre rdy dly -> loose t fre rdy dly -> tstate s' t <> TASK_READY ->
  tdelay s' t = tdelay s t -> tnext s' t = tnext s t -> tprev s' t = tprev s t ->
  (forall i, i <> t -> view (tcb s' i) = view (tcb s i)) ->
  FreeTCB s' = FreeTCB s -> TCBRdy s' = TCBRdy s -> DlyList s' = DlyList s ->
  lists_ok s' fre rdy dly.
Proof.
  intros Hok Hl Hst Hde Hne Hpr Hv H2 H3 H4. destruct (loose_not _ _ _ _ Hl) as (Ht & Hf & Hr & Hd).
  destruct (ok_apart_rdy _ _ _ _ Hok) as (N1 & N2 & N3 & N4).
  assert (forall i, i <> t -> tprio s' i = tprio s i /\ tstate s' i = tstate s i) as Vp
    by (intros i Hi; specialize (Hv i Hi); by injection Hv).
  assert (forall i, tdelay s' i = tdelay s i) as Vd
    by (intros i; destruct (decide (i = t)) as [->|Hi]; [done|]; specialize (Hv i Hi); by injection Hv).
  assert (forall i, tnext s' i = tnext s i /\ tprev s' i = tprev s i) as Vl
    by (intros i; destruct (decide (i = t)) as [->|Hi]; [done|]; specialize (Hv i Hi); by injection Hv).
  apply (lists_ok_intro s s' fre rdy dly); try done.
  - intros i Hi. split; [done|]. apply Vl.
  - rewrite H2. apply Hok.
  - rewrite H3. eapply dll_ext; [|apply Hok]. intros i _. apply Vl.
  - rewrite H4. eapply dll_ext; [|apply Hok]. intros i _. apply Vl.
  - apply Hok.
  - apply Hok.
  - apply (sorted_prio_ext (tprio s)); [|apply Hok]. intros i Hi. symmetry. apply Vp. by intros ->.
  - eapply delays_ok_ext; [|apply Hok]. by intros ? _.
  - intros i Hi Hif. destruct (decide (i = t)) as [->|Hit]; [tauto|].
    rewrite (proj2 (Vp i Hit)). by apply (ok_ready _ _ _ _ Hok).
  - intros i Hi. rewrite (proj2 (Vp i ltac:(by intros ->))). by apply (ok_asleep _ _ _ _ Hok).
  - intros i. rewrite Vd. apply (ok_awake _ _ _ _ Hok).
  - intros i. destruct (Vl i) as [-> ->]. apply (ok_loose _ _ _ _ Hok).
Qed.

(** Only delays in the delay list change. *)
Lemma delay_lists (s s' : sched) (fre rdy dly : list Z) :
  lists_ok s fre rdy dly -> delays_ok (tdelay s') dly ->
  (forall i, tprio s' i = tprio s i /\ tstate s' i = tstate s i /\ tnext s' i = tnext s i /\ tprev s' i = tprev s i) ->
  (forall i, i ∉ dly -> tdelay s' i = tdelay s i) ->
  FreeTCB s' = FreeTCB s -> TCBRdy s' = TCBRdy s -> DlyList s' = DlyList s ->
  lists_ok s' fre rdy dly.
Proof.
  intros Hok Hd Hv Hdel H2 H3 H4.
  apply (lists_ok_intro s s' fre rdy dly); try done.
  - intros i Hi. split; [done|]. apply Hv.
  - rewrite H2. apply Hok.
  - rewrite H3. eapply dll_ext; [|apply Hok]. intros i _. split; apply Hv.
  - rewrite H4. eapply dll_ext; [|apply Hok]. intros i _. split; apply Hv.
  - apply Hok.
  - apply Hok.
  - apply (sorted_prio_ext (tprio s)); [|apply Hok]. intros i _. symmetry. apply Hv.
  - intros i. destruct (Hv i) as (_ & -> & _). apply (ok_ready _ _ _ _ Hok).
  - intros i. destruct (Hv i) as (_ & -> & _). apply (ok_asleep _ _ _ _ Hok).
  - intros i Hi Hf Hid. rewrite Hdel by done. by apply (ok_awake _ _ _ _ Hok).
  - intros i. destruct (Hv i) as (_ & _ & -> & ->). apply (ok_loose _ _ _ _ Hok).
Qed.

Lemma pivot_unique (t : Z) (l1 l2 k1 k2 : list Z) :
  t ∉ l1 -> t ∉ k1 -> l1 ++ t :: l2 = k1 ++ t :: k2 -> l1 = k1 /\ l2 = k2.
Proof.
  revert k1. induction l1 as [|x l1 IH]; intros [|y k1] H1 H2 E; cbn in E; simplify_eq.
  - done.
  - exfalso. apply H2, elem_of_cons. by left.
  - exfalso. apply H1, elem_of_cons. by left.
  - destruct (IH k1) as [-> ->]; [..|done|done].
    + intros Hc. apply H1, elem_of_cons. by right.
    + intros Hc. apply H2, elem_of_cons. by right.
Qed.

(** The body of the loop of [TimeDispose] on the lists: it links the woken task
    into the ready list before it has finished the delay list. *)
Definition dispose_body (t : Z) (s : sched) : option sched :=
  let s := upd_tcb t (set_delay INVALID_VALUE) s in
  let s := s <| DlyList := TCBnext (tcb s t) |> in
  let s := upd_tcb t (set_tnext None) s in
  s ← InsertToTCBRdyList t s;
  Some (match DlyList s with Some n => upd_tcb n (set_tprev None) s | None => s end).

Lemma dispose_lists (s : sched) (t : Z) (fre rdy l : list Z) :
  lists_ok s fre rdy (t :: l) -> tdelay s t = 0 ->
  exists s', dispose_body t s = Some s' /\ lists_ok s' fre (insert_prio (tprio s) t rdy) l /\
    kept t TASK_READY s s' /\ expiries (tdelay s') 0 l = expiries (tdelay s) 0 l /\
    (TaskSchedReq s = true -> TaskSchedReq s' = true).
Proof.
  intros Hok H0. pose proof (ok_apart_rdy _ _ _ _ Hok) as (N1 & N2 & N3 & N4).
  assert (t ∉ rdy) as Htr by (intros Hc; apply (N3 t Hc), elem_of_cons; by left).
  destruct (wake_lists s t fre rdy [] l Hok) as (A1 & A2 & A3 & A4 & A5 & A6 & A7 & A8).
  pose proof (RemoveDelayList_spec s t [] l (ok_dly _ _ _ _ Hok) (ok_delays _ _ _ _ Hok)) as Hw.
  set (sA := RemoveDelayList t s) in *. cbn [app] in *.
  destruct (dll_at _ _ _ [] _ _ (ok_dly _ _ _ _ Hok)) as [Ln Lp].
  destruct (insert_lists sA t fre rdy l A1 A2) as (sB & B1 & B2 & [B3 B4 B5 B6] & B7 & B8 & B9).
  assert (forall i, tprio sA i = tprio s i) as EpA by exact A4.
  assert (insert_prio (tprio sA) t rdy = insert_prio (tprio s) t rdy) as Eins.
  { clear -EpA. induction rdy as [|x r IH]; [done|]. cbn [insert_prio]. by rewrite !EpA, IH. }
  rewrite Eins in B2.
  set (s1 := upd_tcb t (set_tnext None)
    (upd_tcb t (set_delay INVALID_VALUE) s <| DlyList := first l None |>)).
  assert (dispose_body t s = s2 ← InsertToTCBRdyList t s1;
    Some (match DlyList s2 with Some n => upd_tcb n (set_tprev None) s2 | None => s2 end)) as Ebody.
  { unfold dispose_body. rewrite tcb_upd_eq. cbn [set_delay TCBnext update updater].
    fold (tnext s t). rewrite Ln. done. }
  assert (forall i, tcb s1 i = if decide (t = i) then set_tnext None (set_delay INVALID_VALUE (tcb s i)) else tcb s i) as T1.
  { intros i. unfold s1. rewrite !tcb_upd, !(tcb_same s) by done. by case_decide. }
  assert (forall i, i <> t -> tnext s1 i = tnext s i /\ tprev s1 i = tprev s i) as L1.
  { intros i Hi. unfold tnext, tprev. rewrite T1. by rewrite decide_False by congruence. }
  assert (forall i, tprio s1 i = tprio s i) as P1 by (intros i; unfold tprio; rewrite T1; by case_decide).
  destruct (InsertToTCBRdyList_spec s1 t rdy) as (s2 & l1 & l2 & E & El & Ei & [I1 I2 I3 I4 I5 I6]).
  { change (TCBRdy s1) with (TCBRdy s). eapply dll_ext; [|apply Hok]. intros i Hi. apply L1. by intros ->. }
  { done. }
  { apply (rdy_length _ _ _ _ Hok). }
  { unfold tnext. rewrite T1. by rewrite decide_True. }
  { unfold tprev. rewrite T1. rewrite decide_True by done. exact Lp. }
  destruct (InsertToTCBRdyList_spec sA t rdy (ok_rdy _ _ _ _ A1) Htr (rdy_length _ _ _ _ A1))
    as (sB' & k1 & k2 & E' & El' & Ei' & [J1 J2 J3 J4 J5 J6]).
  { apply (wo_self _ _ _ _ _ Hw). }
  { apply (wo_self _ _ _ _ _ Hw). }
  rewrite B1 in E'. injection E' as <-.
  assert (insert_prio (tprio s1) t rdy = insert_prio (tprio s) t rdy) as Eins1.
  { clear -P1. induction rdy as [|x r IH]; [done|]. cbn [insert_prio]. by rewrite !P1, IH. }
  rewrite Eins1 in Ei. rewrite Eins in Ei'.
  assert (l1 = k1 /\ l2 = k2) as [<- <-].
  { apply (pivot_unique t); [..|by rewrite <- Ei]; intros Hc; apply Htr; [rewrite El|rewrite El'];
      apply elem_of_app; by left. }
  assert (DlyList s2 = first l None) as Ed by (by rewrite I6).
  exists (match DlyList s2 with Some n => upd_tcb n (set_tprev None) s2 | None => s2 end).
  split; [by rewrite Ebody, E|].
  set (s3 := match DlyList s2 with Some n => upd_tcb n (set_tprev None) s2 | None => s2 end).
  assert (forall i, tcb s3 i = if decide (first l None = Some i) then set_tprev None (tcb s2 i) else tcb s2 i) as T3.
  { intros i. unfold s3. rewrite Ed. destruct (first l None) as [n|]; [|done]. rewrite tcb_upd.
    repeat case_decide; congruence. }
  assert (forall i, core (tcb s3 i) = core (tcb s2 i)) as C3 by (intros i; rewrite T3; by case_decide).
  destruct Hw as [W1 W2 _ W4 W5 W6 W7 W8].
  assert (forall i, first l None = Some i -> i <> t /\ i ∉ rdy) as Hfirst.
  { intros i Hi%first_elem. apply list.NoDup_cons in N2 as [N2 _]. split; [by intros ->|].
    intros Hc. apply (N3 i Hc), elem_of_cons. by right. }
  assert (forall i, tdelay s3 i = tdelay sB i) as Vd.
  { intros i. rewrite B7, W4, H0. unfold tdelay at 1. rewrite (core_delay _ _ (C3 i)), (core_delay _ _ (I2 i)).
    rewrite T1. destruct (decide (i = t)) as [->|Hi].
    - cbn [set_state delayTick update updater]. by rewrite decide_True.
    - rewrite decide_False by congruence. unfold tdelay. case_decide; lia. }
  assert (forall i, tprio s3 i = tprio s i) as Vp.
  { intros i. rewrite <- P1. unfold tprio at 1. rewrite (core_prio _ _ (C3 i)), (core_prio _ _ (I2 i)).
    by case_decide. }
  assert (forall i, tstate s3 i = if decide (i = t) then TASK_READY else tstate s i) as Vs.
  { intros i. unfold tstate at 1. rewrite (core_state _ _ (C3 i)), (core_state _ _ (I2 i)).
    destruct (decide (i = t)) as [->|Hi]; [done|]. rewrite T1. by rewrite decide_False by congruence. }
  assert (forall i, tnext s3 i = tnext sB i) as Vn.
  { intros i. transitivity (tnext s2 i); [unfold tnext; rewrite T3; by case_decide|].
    rewrite (proj1 (I1 i)), (proj1 (J1 i)). destruct (decide (i = t)) as [->|Hi]; [done|].
    case_decide; [done|]. rewrite (proj1 (L1 i Hi)), (proj1 (W1 i Hi)). rewrite Lp. done. }
  assert (forall i, tprev s3 i = tprev sB i) as Vr.
  { intros i. destruct (decide (first l None = Some i)) as [Hi|Hi].
    - destruct (Hfirst i Hi) as [Hit Hir]. rewrite (proj2 (J1 i)). rewrite decide_False by done.
      rewrite decide_False by (intros Hc%first_elem; apply Hir; rewrite El; apply elem_of_app; by right).
      rewrite (proj2 (W1 i Hit)), Ln. rewrite decide_True by done. unfold tprev at 1. rewrite T3, Lp.
      by rewrite decide_True.
    - transitivity (tprev s2 i); [unfold tprev; rewrite T3; by rewrite decide_False|].
      rewrite (proj2 (I1 i)), (proj2 (J1 i)). destruct (decide (i = t)) as [->|Hit]; [done|].
      case_decide; [done|]. rewrite (proj2 (L1 i Hit)), (proj2 (W1 i Hit)), Ln.
      by rewrite decide_False. }
  assert (rest s3 = rest s) as R3.
  { transitivity (rest s2); [unfold s3; by destruct (DlyList s2)|]. by rewrite I5. }
  assert (same_view sB s3) as Hv.
  { split.
    - intros i. unfold view. f_equal; [f_equal; [f_equal; [f_equal|]|]|].
      + specialize (Vp i). rewrite <- EpA, <- B4 in Vp. exact Vp.
      + specialize (Vs i). rewrite <- A5, <- B5 in Vs. exact Vs.
      + apply Vd.
      + apply Vn.
      + apply Vr.
    - rewrite (proj1 (rest_fields _ _ R3)), (proj1 (rest_fields _ _ B6)), (proj1 (rest_fields _ _ A6)). done.
    - transitivity (TCBRdy s2); [unfold s3; by destruct (DlyList s2)|]. rewrite I3, J3, W6. done.
    - rewrite B8, W5. rewrite <- Ed. unfold s3. destruct (DlyList s2) eqn:E2; exact E2. }
  split; [by apply (lists_ok_view sB)|]. split; [split; [|exact Vp|exact Vs|exact R3]|split].
  - intros i. rewrite (ident_core _ _ (C3 i)), (ident_core _ _ (I2 i)), T1.
    repeat case_decide; done.
  - rewrite (expiries_ext (tdelay sB)) by (intros; apply Vd). rewrite (expiries_ext (tdelay sA)) by (intros; apply B7).
    rewrite A7. cbn [expiries app total]. by rewrite H0.
  - intros Hr. assert (TaskSchedReq s3 = TaskSchedReq s2) as -> by (unfold s3; by destruct (DlyList s2)).
    rewrite I4. by destruct l1.
Qed.
