(* ===== verification/CoPreempt.v ===== *)
(** * The schedule picks the most urgent task (CoOS/kernel/task.c, [Schedule])

    What [Schedule] and the task switch do with the lists of [CoInv]: the task
    that runs next is not less urgent than any ready task. *)

From stdpp Require Import gmap.
From S2P Require Import Prelude Dll CoTypes CoSched CoInv.

(** The task [c] has the processor or is about to get it. *)
Record running_ok (c : Z) (s : sched) (fre rdy dly : list Z) : Prop := {
  ru_lists : lists_ok s fre rdy dly;
  ru_task : is_task c /\ c ∉ rdy /\ (tstate s c = TASK_RUNNING -> c ∉ fre);
  ru_only : forall t, is_task t -> t ∉ fre -> tstate s t = TASK_RUNNING -> t = c;
  ru_idle : 0 ∈ rdy \/ (c = 0 /\ tstate s 0 = TASK_RUNNING)
}.

(** [c] runs and no ready task is more urgent. *)
Definition urgent (c : Z) (s : sched) (rdy : list Z) : Prop :=
  tstate s c = TASK_RUNNING /\ forall t, t ∈ rdy -> tprio s c <= tprio s t.

Lemma running_view c s s' fre rdy dly :
  same_view s s' -> running_ok c s fre rdy dly -> running_ok c s' fre rdy dly.
Proof.
  intros Hv [Q1 Q2 Q3 Q4]. destruct (view_fields _ _ Hv) as (_ & Vs & _). split.
  - by apply (lists_ok_view s).
  - by rewrite Vs.
  - intros t. rewrite Vs. apply Q3.
  - by rewrite Vs.
Qed.

Lemma urgent_view c s s' rdy : same_view s s' -> urgent c s rdy -> urgent c s' rdy.
Proof.
  intros Hv [U1 U2]. destruct (view_fields _ _ Hv) as (Vp & Vs & _). split; [by rewrite Vs|].
  intros t. rewrite !Vp. apply U2.
Qed.

(** The fields that a schedule leaves alone. *)
Definition clock (s : sched) :=
  (FreeTCB s, DlyList s, OSTickCnt s, OSIntNesting s, OSSchedLock s, TCBRunning s).

Lemma tcb_set_rdy h s i : tcb (s <| TCBRdy := h |>) i = tcb s i.
Proof. done. Qed.

Lemma remove_commutes t x s :
  let a := upd_tcb t (set_state x) (RemoveFromTCBRdyList t s) in
  let b := RemoveFromTCBRdyList t (upd_tcb t (set_state x) s) in
  (forall i, tcb b i = tcb a i) /\ TCBRdy b = TCBRdy a /\ rest b = rest a /\ DlyList b = DlyList a /\
  TaskSchedReq b = TaskSchedReq a.
Proof.
  intros a b. subst a b. unfold RemoveFromTCBRdyList. rewrite !tcb_upd_eq.
  change (TCBnext (set_state x (tcb s t))) with (TCBnext (tcb s t)).
  change (TCBprev (set_state x (tcb s t))) with (TCBprev (tcb s t)).
  destruct (TCBnext (tcb s t)) as [n|], (TCBprev (tcb s t)) as [p|]; (split; [|done]);
    intros i; repeat rewrite ?tcb_upd, ?tcb_set_rdy; repeat case_decide; subst; try congruence; try done.
Qed.

(** A sorted list begins with a most urgent task. *)
Lemma sorted_head P h l t : sorted_prio P (h :: l) -> t ∈ h :: l -> P h <= P t.
Proof. intros [H _] [->|Ht]%elem_of_cons; [lia|by apply H]. Qed.

Section schedule.
Variables (null : Z) (stack_ok : OSTCB -> bool).
(** The stack check reads the stack fields of a block only. *)
Hypothesis stack_ident : forall a b, ident a = ident b -> stack_ok a = stack_ok b.

Lemma switch_to_spec s cur nxt :
  stack_ok (tcb s cur) = true ->
  exists s', switch_to null stack_ok cur nxt s = Some s' /\ pendsv s' = true /\
    (forall i, tcb s' i = tcb s i) /\ TCBRdy s' = TCBRdy s /\ clock s' = clock s /\
    TCBNext s' = TCBNext s /\ TaskSchedReq s' = TaskSchedReq s.
Proof.
  intros Hs. unfold switch_to.
  set (s1 := if prio (tcb s nxt) =? rdy_prio null s
             then s <| OSCheckTime := u64 (OSTickCnt s + timeSlice (tcb s nxt)) |> else s).
  assert (forall i, tcb s1 i = tcb s i) as E by (intros i; unfold s1; by case_bool).
  rewrite E, Hs. eexists. split; [done|]. split; [done|].
  unfold s1. by case_bool.
Qed.

(** The outcome of a schedule. *)
Record scheduled (c c' : Z) (s s' : sched) (fre rdy rdy' dly : list Z) : Prop := {
  sc_ok : running_ok c' s' fre rdy' dly;
  sc_urgent : urgent c' s' rdy';
  sc_next : TCBNext s' = Some c';
  sc_pend : (pendsv s' = true \/ (c' = c /\ pendsv s' = pendsv s));
  sc_clock : clock s' = clock s;
  sc_ident : forall i, ident (tcb s' i) = ident (tcb s i);
  sc_delay : forall i, tdelay s' i = tdelay s i;
  sc_old : forall i, i ∉ rdy -> i <> c \/ tstate s c <> TASK_RUNNING ->
    i <> c' /\ tstate s' i = tstate s i;
  sc_ready : forall i, i ∈ rdy -> i = c' \/ i ∈ rdy';
  sc_req : TaskSchedReq s' = false \/ rdy' = []
}.

Lemma Schedule_blocked (s : sched) (c : Z) (fre rdy dly : list Z) :
  running_ok c s fre rdy dly -> TCBRunning s = Some c -> tstate s c <> TASK_RUNNING ->
  stack_ok (tcb s c) = true ->
  exists r l s', rdy = r :: l /\
    switch_to null stack_ok c r
      (RemoveFromTCBRdyList r (upd_tcb r (set_state TASK_RUNNING)
         (s <| TaskSchedReq := false |> <| TCBNext := Some r |>))) = Some s' /\
    scheduled c r s s' fre rdy l dly.
Proof.
  intros [Hok (Hc1 & Hc3 & _) Honly Hidle] Hrun Hst Hstk.
  destruct Hidle as [H0|[-> H0]]; [|done].
  destruct rdy as [|r l]; [by apply elem_of_nil in H0|]. exists r, l.
  set (s0 := s <| TaskSchedReq := false |> <| TCBNext := Some r |>).
  assert (lists_ok s0 fre (r :: l) dly) as Hok0 by (apply (lists_ok_view s); [by split|done]).
  destruct (remove_lists s0 r TASK_RUNNING fre [] l dly Hok0) as (L1 & [K1 K2 K3 K4] & L2 & L3 & L4 & L5 & L6);
    [done|].
  destruct (remove_commutes r TASK_RUNNING s0) as (C1 & C2 & C3 & C4 & C5).
  set (a := upd_tcb r (set_state TASK_RUNNING) (RemoveFromTCBRdyList r s0)) in *.
  set (b := RemoveFromTCBRdyList r (upd_tcb r (set_state TASK_RUNNING) s0)) in *.
  assert (r <> c) as Hrc by (intros ->; apply Hc3, elem_of_cons; by left).
  destruct (switch_to_spec b c r) as (s' & E & S1 & S2 & S3 & S4 & S5 & S6).
  { rewrite C1, (stack_ident _ _ (K1 c)). done. }
  exists s'. split; [done|]. split; [done|].
  destruct (rest_fields _ _ C3) as (F1 & F2 & F3 & F4 & F5 & F6 & F7).
  destruct (rest_fields _ _ K4) as (G1 & G2 & G3 & G4 & G5 & G6 & G7).
  assert (clock s' = clock s) as Hclk.
  { rewrite S4. unfold clock. rewrite F1, F3, F4, F5, F6, C4, G1, G3, G4, G5, G6, L4. done. }
  assert (same_view a s') as Hv.
  { split; [intros i; by rewrite S2, C1|..|by rewrite S3, C2|].
    - transitivity (FreeTCB b); [|done]. unfold clock in S4. by injection S4.
    - transitivity (DlyList b); [|done]. unfold clock in S4. by injection S4. }
  destruct (view_fields _ _ Hv) as (Vp & Vs & Vd & _).
  assert (tstate s' r = TASK_RUNNING) as Hr by (rewrite Vs, K3; by rewrite decide_True).
  split.
  - split.
    + by apply (lists_ok_view a).
    + destruct (loose_not _ _ _ _ L2) as (? & ? & ? & ?). done.
    + intros t Ht Htf. rewrite Vs, K3. case_decide; [done|]. intros Hx.
      by rewrite (Honly t Ht Htf Hx) in Hx.
    + destruct (decide (r = 0)) as [->|Hr0]; [by right|]. left.
      apply elem_of_cons in H0 as [H0|H0]; [by subst|done].
  - split; [done|]. intros t Ht. rewrite !Vp, !K2.
    apply (sorted_head _ r l); [apply Hok|]. apply elem_of_cons. by right.
  - by rewrite S5, F2, G2.
  - by left.
  - done.
  - intros i. by rewrite S2, C1, K1.
  - intros i. by rewrite Vd, L3.
  - intros i Hi _. assert (i <> r) as Hir by (intros ->; apply Hi, elem_of_cons; by left).
    split; [done|]. rewrite Vs, K3. by rewrite decide_False.
  - intros i Hi. by apply elem_of_cons.
  - left. rewrite S6, C5, L5. done.
Qed.

Lemma Schedule_preempted (s : sched) (c r : Z) (fre l dly : list Z) :
  running_ok c s fre (r :: l) dly -> TCBRunning s = Some c -> tstate s c = TASK_RUNNING ->
  tprio s r <= tprio s c -> stack_ok (tcb s c) = true ->
  exists s1 s', InsertToTCBRdyList c (s <| TaskSchedReq := false |> <| TCBNext := Some r |>) = Some s1 /\
    switch_to null stack_ok c r
      (upd_tcb r (set_state TASK_RUNNING) (RemoveFromTCBRdyList r s1)) = Some s' /\
    scheduled c r s s' fre (r :: l) (insert_prio (tprio s) c l) dly.
Proof.
  intros [Hok (Hc1 & Hc3 & Hc2) Honly Hidle] Hrun Hst Hle Hstk. specialize (Hc2 Hst).
  set (s0 := s <| TaskSchedReq := false |> <| TCBNext := Some r |>).
  assert (lists_ok s0 fre (r :: l) dly) as Hok0 by (apply (lists_ok_view s); [by split|done]).
  assert (loose c fre (r :: l) dly) as Hl.
  { split; [done|]. rewrite elem_of_app, (elem_of_app (r :: l)). intros [?|[?|Hd]]; [done..|].
    apply (ok_asleep _ _ _ _ Hok) in Hd. by rewrite Hst in Hd. }
  destruct (insert_lists s0 c fre (r :: l) dly Hok0 Hl) as (s1 & E1 & I1 & [J1 J2 J3 J4] & I2 & I3 & I4).
  assert (insert_prio (tprio s0) c (r :: l) = r :: insert_prio (tprio s) c l) as Ei.
  { cbn [insert_prio]. change (tprio s0) with (tprio s). by rewrite (proj2 (Z.ltb_ge _ _)) by lia. }
  rewrite Ei in I1.
  destruct (remove_lists s1 r TASK_RUNNING fre [] _ dly I1) as (L1 & [K1 K2 K3 K4] & L2 & L3 & L4 & L5 & L6);
    [done|].
  set (a := upd_tcb r (set_state TASK_RUNNING) (RemoveFromTCBRdyList r s1)) in *.
  assert (r <> c) as Hrc by (intros ->; apply Hc3, elem_of_cons; by left).
  destruct (switch_to_spec a c r) as (s' & E & S1 & S2 & S3 & S4 & S5 & S6).
  { by rewrite (stack_ident _ _ (K1 c)), (stack_ident _ _ (J1 c)). }
  exists s1, s'. split; [done|]. split; [done|].
  destruct (rest_fields _ _ J4) as (F1 & F2 & F3 & F4 & F5 & F6 & F7).
  destruct (rest_fields _ _ K4) as (G1 & G2 & G3 & G4 & G5 & G6 & G7).
  assert (clock s' = clock s) as Hclk.
  { rewrite S4. unfold clock. by rewrite G1, G3, G4, G5, G6, L4, I3, F1, F3, F4, F5, F6. }
  assert (same_view a s') as Hv.
  { split; [intros i; by rewrite S2|..|done|].
    - unfold clock in S4. by injection S4.
    - unfold clock in S4. by injection S4. }
  destruct (view_fields _ _ Hv) as (Vp & Vs & Vd & _).
  assert (forall t, tprio s' t = tprio s t) as Ep by (intros t; by rewrite Vp, K2, J2).
  split.
  - split.
    + by apply (lists_ok_view a).
    + destruct (loose_not _ _ _ _ L2) as (? & ? & ? & ?). done.
    + intros t Ht Htf. rewrite Vs, K3, J3. repeat case_decide; try done. intros Hx.
      subst. by rewrite (Honly t Ht Htf Hx) in *.
    + destruct (decide (r = 0)) as [->|Hr0]; [right|left].
      * split; [done|]. rewrite Vs, K3. by rewrite decide_True.
      * apply elem_of_insert_prio. destruct Hidle as [H0|[H0 _]]; [|by left].
        apply elem_of_cons in H0 as [H0|H0]; [by subst|by right].
  - split; [rewrite Vs, K3; by rewrite decide_True|]. intros t Ht. rewrite !Ep.
    apply elem_of_insert_prio in Ht as [->|Ht]; [done|].
    apply (sorted_head _ r l); [apply Hok|]. apply elem_of_cons. by right.
  - by rewrite S5, G2, F2.
  - by left.
  - done.
  - intros i. by rewrite S2, K1, J1.
  - intros i. by rewrite Vd, L3, I2.
  - intros i Hi [Hic|]; [|done]. assert (i <> r) as Hir by (intros ->; apply Hi, elem_of_cons; by left).
    split; [done|]. rewrite Vs, K3, J3. by rewrite !decide_False.
  - intros i [->|Hi]%elem_of_cons; [by left|right]. apply elem_of_insert_prio. by right.
  - left. rewrite S6, L5, I4. change (tprio s0) with (tprio s). by rewrite (proj2 (Z.ltb_ge _ _)) by lia.
Qed.

Lemma Schedule_spec (s : sched) (c : Z) (fre rdy dly : list Z) :
  running_ok c s fre rdy dly -> TCBRunning s = Some c -> TCBNext s = Some c ->
  OSSchedLock s <= 1 -> OSIntNesting s = 0 -> stack_ok (tcb s c) = true ->
  exists s' c' rdy', Schedule null stack_ok s = Some s' /\ scheduled c c' s s' fre rdy rdy' dly.
Proof.
  intros Hru Hrun Hnext Hlock Hnest Hstk. pose proof (ru_lists _ _ _ _ _ Hru) as Hok.
  unfold Schedule. destruct (TCBRdy s) as [r|] eqn:Er.
  - destruct (dll_some (tnext s) (tprev s) r rdy) as [l ->].
    { rewrite <- Er. apply Hok. }
    rewrite bool_decide_true by congruence. rewrite (proj2 (Z.ltb_ge _ _)) by lia.
    rewrite (proj2 (Z.ltb_ge _ _)) by lia. cbn [negb orb]. rewrite Hrun. cbn [mbind option_bind].
    set (s0 := s <| TaskSchedReq := false |>).
    assert (prio (tcb s0 c) = tprio s c /\ prio (tcb s0 r) = tprio s r /\ state (tcb s0 c) = tstate s c)
      as (-> & -> & ->) by done.
    destruct (decide (tstate s c = TASK_RUNNING)) as [Hst|Hst].
    + rewrite bool_decide_true by done. cbn [negb].
      destruct ((tprio s r <? tprio s c) || ((tprio s c =? tprio s r) && (OSCheckTime s0 =? OSTickCnt s0))) eqn:E.
      * assert (tprio s r <= tprio s c) as Hle.
        { apply orb_true_iff in E as [E|E]; [apply Z.ltb_lt in E; lia|].
          apply andb_true_iff in E as [E _]. apply Z.eqb_eq in E. lia. }
        destruct (Schedule_preempted s c r fre l dly Hru Hrun Hst Hle Hstk) as (s1 & s' & E1 & E2 & E3).
        unfold s0. rewrite E1. cbn [mbind option_bind]. by exists s', r, (insert_prio (tprio s) c l).
      * exists s0, c, (r :: l). split; [done|].
        assert (same_view s s0) as Hv by (by split).
        apply orb_false_iff in E as [E _]. apply Z.ltb_ge in E.
        split; try done; try (intros; by right); try by right.
        -- by apply (running_view c s).
        -- split; [done|]. intros t Ht. transitivity (tprio s r); [done|].
           apply (sorted_head (tprio s) r l t); [apply Hok|done].
        -- intros i _ [Hi|Hi]; [by split|done].
        -- left. reflexivity.
    + rewrite bool_decide_false by done. cbn [negb].
      destruct (Schedule_blocked s c fre (r :: l) dly Hru Hrun Hst Hstk) as (r' & l' & s' & [= <- <-] & E1 & E2).
      by exists s', r, l.
  - assert (rdy = []) as ->.
    { apply (dll_none (tnext s) (tprev s)). rewrite <- Er. apply Hok. }
    exists s, c, []. split; [done|].
    assert (tstate s c = TASK_RUNNING) as Hst.
    { destruct (ru_idle _ _ _ _ _ Hru) as [H0|[-> H0]]; [by apply elem_of_nil in H0|done]. }
    split; try done; try (by intros; right); try by right.
    + split; [done|]. intros t Ht. by apply elem_of_nil in Ht.
    + intros i _ [Hi|Hi]; [by split|done].
Qed.
End schedule.
