(* ===== verification/CoCore.v ===== *)
(** * Scheduler lock, events and time (CoOS/kernel/core.c, event.c, time.c)

    What the kernel leaves open is the class [Port]: the byte that is read as
    the priority of a null task, the timer callbacks of the application, and the
    handling of deferred service requests, which serviceReq.c implements on top
    of these files (see [CoService]). *)

From stdpp Require Import gmap.
From S2P Require Import Prelude Dll CoTypes CoSched.

Class Port := {
  prio_at_null : Z;
  timer_call : Z -> kernel -> option kernel;
  respond : kernel -> option kernel
}.

(** ** Access to the parts of the kernel *)

Definition ktcb (k : kernel) (t : Z) : OSTCB := tcb (sch k) t.
Definition upd_task (t : Z) (f : OSTCB -> OSTCB) (k : kernel) : kernel :=
  k <| sch ::= upd_tcb t f |>.

Definition ecb_zero : ECB := mk_ecb EV_NULL 0 EVENT_TYPE_INVALID 0 0 0 None.
Definition ecb (k : kernel) (e : Z) : ECB := default ecb_zero (EventTbl (evs k) !! e).
Definition upd_ecb (e : Z) (f : ECB -> ECB) (k : kernel) : kernel :=
  k <| evs := (evs k) <| EventTbl := <[e := f (ecb k e)]> (EventTbl (evs k)) |> |>.

Definition qcb_zero : QCB := mk_qcb 0 0 0 0 0 0.
Definition qcb (k : kernel) (q : Z) : QCB := default qcb_zero (QueueTbl (evs k) !! q).
Definition upd_qcb (q : Z) (f : QCB -> QCB) (k : kernel) : kernel :=
  k <| evs := (evs k) <| QueueTbl := <[q := f (qcb k q)]> (QueueTbl (evs k)) |> |>.

Definition node_zero : FLAG_NODE := mk_node None None 0 0 0.
Definition node (k : kernel) (n : Z) : FLAG_NODE := default node_zero (nodes (FlagCrl k) !! n).
Definition upd_node (n : Z) (f : FLAG_NODE -> FLAG_NODE) (k : kernel) : kernel :=
  k <| FlagCrl := (FlagCrl k) <| nodes := <[n := f (node k n)]> (nodes (FlagCrl k)) |> |>.

(** A word of memory; memory that was never written is zero. *)
Definition ld (k : kernel) (a : Z) : Z := default 0 (ram (mem k) !! a).
Definition st (a v : Z) (k : kernel) : kernel :=
  k <| mem := (mem k) <| ram := <[a := v]> (ram (mem k)) |> |>.

(** [&EventTbl[id]], when the index is in the table. *)
Definition ecb_ref (id : Z) : option Z :=
  if (0 <=? id) && (id <? CFG_MAX_EVENT) then Some id else None.

Section core.
Context `{Port}.

(** ** Scheduler lock and interrupts (core.c) *)

Definition OsSchedLock (k : kernel) : kernel :=
  k <| sch := (sch k) <| OSSchedLock := u8 (OSSchedLock (sch k) + 1) |> |>.

(** The stack check of [Schedule]. *)
Definition stack_ok (k : kernel) (t : OSTCB) : bool :=
  (stack t <=? stkPtr t) && (ld k (stack t) =? MAGIC_WORD).

Definition KSchedule (k : kernel) : option kernel :=
  on_sched (Schedule prio_at_null (stack_ok k)) k.

Definition OsSchedUnlock (k : kernel) : option kernel :=
  if OSSchedLock (sch k) =? 1 then
    k ← (if IsrReq (ServiceReq k) then respond k else Some k);
    k ← (if TaskSchedReq (sch k) then KSchedule k else Some k);
    Some (k <| sch := (sch k) <| OSSchedLock := 0 |> |>)
  else Some (k <| sch := (sch k) <| OSSchedLock := u8 (OSSchedLock (sch k) - 1) |> |>).

Definition CoSchedLock (k : kernel) : kernel := OsSchedLock k.
Definition CoSchedUnlock (k : kernel) : option kernel := OsSchedUnlock k.

Definition CoEnterISR (k : kernel) : kernel :=
  k <| sch := (sch k) <| OSIntNesting := u8 (OSIntNesting (sch k) + 1) |> |>.

Definition CoExitISR (k : kernel) : option kernel :=
  let k := k <| sch := (sch k) <| OSIntNesting := u8 (OSIntNesting (sch k) - 1) |> |> in
  if OSIntNesting (sch k) =? 0 then
    if TaskSchedReq (sch k) then
      let k := OsSchedLock k in
      k ← KSchedule k;
      Some (k <| sch := (sch k) <| OSSchedLock := u8 (OSSchedLock (sch k) - 1) |> |>)
    else Some k
  else Some k.

(** ** Event control blocks (event.c) *)

(** [CreateEventList]: the blocks are linked in the order of the table. *)
Definition free_ecb (i : Z) (e : ECB) : ECB :=
  e <| eventPtr := (if i <? CFG_MAX_EVENT - 1 then EV_FREE (i + 1) else EV_NULL) |>
    <| ecb_id := i |> <| eventType := EVENT_TYPE_INVALID |>.

Definition CreateEventList (k : kernel) : kernel :=
  let k := foldl (fun k i => upd_ecb i (free_ecb i) k) k (seqZ 0 CFG_MAX_EVENT) in
  k <| evs := (evs k) <| FreeEventList := Some 0 |> |>.

Definition free_pointer (p : option Z) : event_pointer :=
  match p with Some e => EV_FREE e | None => EV_NULL end.

Definition ReleaseECB (e : Z) (k : kernel) : option kernel :=
  let k := upd_ecb e (fun b => b <| eventType := EVENT_TYPE_INVALID |>) k in
  let k := OsSchedLock k in
  let k := upd_ecb e (fun b => b <| eventPtr := free_pointer (FreeEventList (evs k)) |>) k in
  let k := k <| evs := (evs k) <| FreeEventList := Some e |> |> in
  OsSchedUnlock k.

(** A free block's [eventPtr] read as a pointer to a block. *)
Definition next_free (p : event_pointer) : option Z :=
  match p with EV_FREE e => Some e | _ => None end.

Definition CreatEvent (type : event_type) (sortType : Z) (ptr : event_pointer) (k : kernel)
  : option (option Z * kernel) :=
  let k := OsSchedLock k in
  match FreeEventList (evs k) with
  | None => k ← OsSchedUnlock k; Some (None, k)
  | Some e =>
      let k := k <| evs := (evs k) <| FreeEventList := next_free (eventPtr (ecb k e)) |> |> in
      k ← OsSchedUnlock k;
      Some (Some e, upd_ecb e (fun b => b <| eventType := type |> <| eventSortType := sortType |>
                                          <| eventPtr := ptr |> <| eventTCBList := None |>) k)
  end.

(** ** Waiting lists of events *)

Definition set_wnext (n : option Z) (t : OSTCB) : OSTCB := t <| waitNext := n |>.
Definition set_wprev (p : option Z) (t : OSTCB) : OSTCB := t <| waitPrev := p |>.
Definition set_event (e : Z) (t : OSTCB) : OSTCB := t <| eventID := e |>.
Definition set_waiters (l : option Z) (e : ECB) : ECB := e <| eventTCBList := l |>.

(** The last task of a waiting list. *)
Fixpoint wait_last (fuel : nat) (p : Z) (k : kernel) : option Z :=
  match fuel with
  | O => None
  | S fuel => match waitNext (ktcb k p) with None => Some p | Some n => wait_last fuel n k end
  end.

Fixpoint wait_place (fuel : nat) (p : Z) (ptcb : Z) (next : option Z) (k : kernel)
  : option (Z * option Z) :=
  match fuel with
  | O => None
  | S fuel =>
      match next with
      | None => Some (ptcb, None)
      | Some n => if p <? prio (ktcb k n) then Some (ptcb, Some n)
                  else wait_place fuel p n (waitNext (ktcb k n)) k
      end
  end.

Definition wait_fifo (e t : Z) (k : kernel) : option kernel :=
  match eventTCBList (ecb k e) with
  | None => Some (upd_ecb e (set_waiters (Some t)) k)
  | Some h =>
      p ← wait_last task_fuel h k;
      let k := upd_task p (set_wnext (Some t)) k in
      Some (upd_task t (set_wprev (Some p)) k)
  end.

Definition wait_prio (e t : Z) (k : kernel) : option kernel :=
  match eventTCBList (ecb k e) with
  | None => Some (upd_ecb e (set_waiters (Some t)) k)
  | Some h =>
      if prio (ktcb k t) <? prio (ktcb k h) then
        let k := upd_ecb e (set_waiters (Some t)) k in
        let k := upd_task t (set_wnext (Some h)) k in
        Some (upd_task h (set_wprev (Some t)) k)
      else
        '(p, next) ← wait_place task_fuel (prio (ktcb k t)) h (waitNext (ktcb k h)) k;
        let k := upd_task p (set_wnext (Some t)) k in
        let k := upd_task t (set_wprev (Some p)) k in
        let k := upd_task t (set_wnext next) k in
        Some (match next with None => k | Some n => upd_task n (set_wprev (Some t)) k end)
  end.

Definition EventTaskToWait (e t : Z) (k : kernel) : option kernel :=
  let k := OsSchedLock k in
  let k := upd_task t (set_event (ecb_id (ecb k e))) k in
  k ← (if eventSortType (ecb k e) =? EVENT_SORT_TYPE_FIFO then wait_fifo e t k
       else if eventSortType (ecb k e) =? EVENT_SORT_TYPE_PRIO then wait_prio e t k
       else Some k);
  let k := upd_task t (set_state TASK_WAITING) k in
  OsSchedUnlock (k <| sch := (sch k) <| TaskSchedReq := true |> |>).

Definition RemoveEventWaittingList (t : Z) (k : kernel) : option kernel :=
  e ← ecb_ref (eventID (ktcb k t));
  let k :=
    match waitPrev (ktcb k t), waitNext (ktcb k t) with
    | None, None => upd_ecb e (set_waiters None) k
    | None, Some n =>
        let k := upd_task n (set_wprev None) k in
        let k := upd_ecb e (set_waiters (Some n)) k in
        upd_task t (set_wnext None) k
    | Some p, None =>
        let k := upd_task p (set_wnext None) k in
        upd_task t (set_wprev None) k
    | Some p, Some n =>
        let k := upd_task p (set_wnext (Some n)) k in
        let k := upd_task n (set_wprev (Some p)) k in
        let k := upd_task t (set_wprev None) k in
        upd_task t (set_wnext None) k
    end in
  Some (upd_task t (set_event INVALID_ID) k).

(** What the event delivers to the task that leaves the waiting list. *)
Definition deliver (e t : Z) (k : kernel) : kernel :=
  match eventType (ecb k e), eventPtr (ecb k e) with
  | EVENT_TYPE_MBOX, ptr =>
      let mail := match ptr with EV_MAIL m => m | _ => 0 end in
      let k := upd_task t (fun b => b <| pmail := mail |>) k in
      upd_ecb e (fun b => b <| eventPtr := EV_NULL |>
                            <| eventCounter := u16 (eventCounter b - 1) |>) k
  | EVENT_TYPE_QUEUE, EV_QUEUE q =>
      let b := qcb k q in
      let k := upd_task t (fun x => x <| pmail := ld k (qStart b + 4 * q_head b) |>) k in
      upd_qcb q (fun b =>
        let h := u16 (q_head b + 1) in
        b <| q_head := (if h =? qMaxSize b then 0 else h) |> <| qSize := u16 (qSize b - 1) |>) k
  | EVENT_TYPE_SEM, _ =>
      let k := upd_ecb e (fun b => b <| eventCounter := u16 (eventCounter b - 1) |>) k in
      upd_task t (fun b => b <| pmail := 4294967295 |>) k
  | _, _ => k
  end.

Definition insert_ready (t : Z) (k : kernel) : option kernel := on_sched (InsertToTCBRdyList t) k.

(** The task runs on if it has not been switched out yet. *)
Definition ready_or_run (t : Z) (k : kernel) : option kernel :=
  if bool_decide (TCBRunning (sch k) = Some t) then Some (upd_task t (set_state TASK_RUNNING) k)
  else insert_ready t k.

Definition EventTaskToRdy (e : Z) (k : kernel) : option kernel :=
  match eventTCBList (ecb k e) with
  | None => Some k
  | Some t =>
      let n := waitNext (ktcb k t) in
      let k := upd_ecb e (set_waiters n) k in
      let k := match n with Some m => upd_task m (set_wprev None) k | None => k end in
      let k := upd_task t (set_wnext None) k in
      let k := upd_task t (set_event INVALID_ID) k in
      let k := if delayTick (ktcb k t) =? INVALID_VALUE then k
               else k <| sch ::= RemoveDelayList t |> in
      ready_or_run t (deliver e t k)
  end.

(** The loop of [DeleteEvent] over the waiting tasks. *)
Fixpoint release_waiters (fuel : nat) (e : Z) (k : kernel) : option kernel :=
  match eventTCBList (ecb k e) with
  | None => Some k
  | Some t =>
      match fuel with
      | O => None
      | S fuel =>
          let k := if delayTick (ktcb k t) =? INVALID_VALUE then k
                   else k <| sch ::= RemoveDelayList t |> in
          let k := upd_ecb e (set_waiters (waitNext (ktcb k t))) k in
          let k := upd_task t (set_wnext None) k in
          let k := upd_task t (set_event INVALID_ID) k in
          k ← insert_ready t k;
          release_waiters fuel e k
      end
  end.

Definition DeleteEvent (e opt : Z) (k : kernel) : option (Z * kernel) :=
  if opt =? OPT_DEL_NO_PEND then
    match eventTCBList (ecb k e) with
    | Some _ => Some (E_TASK_WAITING, k)
    | None => k ← ReleaseECB e k; Some (E_OK, k)
    end
  else if opt =? OPT_DEL_ANYWAY then
    k ← release_waiters task_fuel e (OsSchedLock k);
    k ← OsSchedUnlock k;
    k ← ReleaseECB e k;
    Some (E_OK, k)
  else Some (E_OK, k).

(** ** Flag nodes (flag.c, [RemoveLinkNode]) *)

Definition set_nnext (n : option Z) (x : FLAG_NODE) : FLAG_NODE := x <| nextNode := n |>.
Definition set_nprev (p : option Z) (x : FLAG_NODE) : FLAG_NODE := x <| prevNode := p |>.

Definition RemoveLinkNode (n : Z) (k : kernel) : kernel :=
  let k :=
    match nextNode (node k n), prevNode (node k n) with
    | None, None => k <| FlagCrl := (FlagCrl k) <| headNode := None |> <| tailNode := None |> |>
    | None, Some p =>
        let k := k <| FlagCrl := (FlagCrl k) <| tailNode := Some p |> |> in
        upd_node p (set_nnext None) k
    | Some m, None =>
        let k := k <| FlagCrl := (FlagCrl k) <| headNode := Some m |> |> in
        upd_node m (set_nprev None) k
    | Some m, Some p =>
        let k := upd_node m (set_nprev (Some p)) k in
        upd_node p (set_nnext (Some m)) k
    end in
  upd_task (waitTask (node k n)) (fun t => t <| pnode := NO_NODE |>) k.

(** A task's [pnode], when it is the address of a node. *)
Definition remove_node (p : node_pointer) (k : kernel) : option kernel :=
  match p with
  | NO_NODE => Some k
  | NODE n => Some (RemoveLinkNode n k)
  | NODE_WOKEN => None
  end.

(** ** Time (time.c) *)

(** The [while] of [TimeDispose]. *)
Fixpoint time_dispose (fuel : nat) (k : kernel) : option kernel :=
  match DlyList (sch k) with
  | None => Some k
  | Some t =>
      if delayTick (ktcb k t) =? 0 then
        match fuel with
        | O => None
        | S fuel =>
            k ← (if eventID (ktcb k t) =? INVALID_ID then Some k else RemoveEventWaittingList t k);
            k ← remove_node (pnode (ktcb k t)) k;
            let k := upd_task t (set_delay INVALID_VALUE) k in
            let k := k <| sch := (sch k) <| DlyList := TCBnext (ktcb k t) |> |> in
            let k := upd_task t (set_tnext None) k in
            k ← insert_ready t k;
            let k := match DlyList (sch k) with
                     | Some n => upd_task n (set_tprev None) k
                     | None => k
                     end in
            time_dispose fuel k
        end
      else Some k
  end.

Definition TimeDispose (k : kernel) : option kernel := time_dispose task_fuel k.

Definition isr_TimeDispose (k : kernel) : option kernel :=
  if 1 <? OSSchedLock (sch k)
  then Some (k <| ServiceReq := (ServiceReq k) <| IsrReq := true |> <| TimeReq := true |> |>)
  else TimeDispose k.

Definition CoGetOSTime (k : kernel) : Z := OSTickCnt (sch k).

Definition CoTickDelay (ticks : Z) (k : kernel) : option (Z * kernel) :=
  if 0 <? OSIntNesting (sch k) then Some (E_CALL, k)
  else if ticks =? INVALID_VALUE then Some (E_INVALID_PARAMETER, k)
  else if ticks =? 0 then Some (E_OK, k)
  else if negb (OSSchedLock (sch k) =? 0) then Some (E_OS_IN_LOCK, k)
  else
    let k := OsSchedLock k in
    t ← TCBRunning (sch k);
    k ← on_sched (InsertDelayList t ticks) k;
    k ← OsSchedUnlock k;
    Some (E_OK, k).

Definition CoResetTaskDelayTick (id ticks : Z) (k : kernel) : option (Z * kernel) :=
  match tcb_ref id with
  | None => Some (E_INVALID_ID, k)
  | Some t =>
      if stkPtr (ktcb k t) =? 0 then Some (E_INVALID_ID, k)
      else if delayTick (ktcb k t) =? INVALID_VALUE then Some (E_NOT_IN_DELAY_LIST, k)
      else
        let k := OsSchedLock k in
        let k := k <| sch ::= RemoveDelayList t |> in
        k ← (if ticks =? 0 then insert_ready t k else on_sched (InsertDelayList t ticks) k);
        k ← OsSchedUnlock k;
        Some (E_OK, k)
  end.

Definition CoTimeDelay (hour minute sec millsec : Z) (k : kernel) : option (Z * kernel) :=
  if 0 <? OSIntNesting (sch k) then Some (E_CALL, k)
  else if (59 <? minute) || (59 <? sec) || (999 <? millsec) then Some (E_INVALID_PARAMETER, k)
  else if negb (OSSchedLock (sch k) =? 0) then Some (E_OS_IN_LOCK, k)
  else
    let ticks := u32 ((hour * 3600 + minute * 60 + sec) * CFG_SYSTICK_FREQ
                      + Z.quot (millsec * CFG_SYSTICK_FREQ + 500) 1000) in
    '(_, k) ← CoTickDelay ticks k;
    Some (E_OK, k).
End core.
