(* ===== verification/CoTask.v ===== *)
(** * Tasks and mutexes (CoOS/kernel/task.c, mutex.c, portable/arch.c)

    Creation and deletion of tasks, priorities, suspension, and the mutexes
    with priority inheritance. An index that the code does not check and that
    is not in its table is the result [None]. *)

From stdpp Require Import gmap.
From S2P Require Import Prelude Dll CoTypes CoSched CoCore.

Definition mutex_zero : MUTEX := mk_mutex 0 false 0 0 None.
Definition mutex (k : kernel) (i : Z) : MUTEX := default mutex_zero (MutexTbl (mtx k) !! i).
Definition upd_mutex (i : Z) (f : MUTEX -> MUTEX) (k : kernel) : kernel :=
  k <| mtx := (mtx k) <| MutexTbl := <[i := f (mutex k i)]> (MutexTbl (mtx k)) |> |>.

(** [&MutexTbl[id]], when the index is in the table. *)
Definition mutex_ref (id : Z) : option Z :=
  if (0 <=? id) && (id <? CFG_MAX_MUTEX) then Some id else None.

Section task.
Context `{Port}.

(** ** Priorities *)

(** The highest priority of a mutex' waiting list: the loops over [TCBnext]
    that start from a priority and the task that has it. *)
Fixpoint highest (fuel : nat) (next : option Z) (p hi : Z) (k : kernel) : option (Z * Z) :=
  match next with
  | None => Some (p, hi)
  | Some t =>
      match fuel with
      | O => None
      | S fuel =>
          let '(p, hi) := if prio (ktcb k t) <? p then (prio (ktcb k t), taskID (ktcb k t)) else (p, hi) in
          highest fuel (TCBnext (ktcb k t)) p hi k
      end
  end.

Definition reorder_ready (t : Z) (k : kernel) : option kernel :=
  let k := k <| sch ::= RemoveFromTCBRdyList t |> in
  insert_ready t k.

(** A waiting task is put back into a waiting list that is sorted by priority. *)
Definition reorder_event (t : Z) (k : kernel) : option kernel :=
  e ← ecb_ref (eventID (ktcb k t));
  if eventSortType (ecb k e) =? EVENT_SORT_TYPE_PRIO then
    k ← RemoveEventWaittingList t k;
    EventTaskToWait e t k
  else Some k.

(** [CoSetPriority]; the recursion follows the owners of mutexes. *)
Fixpoint CoSetPriority (fuel : nat) (id priority : Z) (k : kernel) : option (Z * kernel) :=
  match fuel with
  | O => None
  | S fuel =>
      if id =? 0 then Some (E_PROTECTED_TASK, k)
      else match tcb_ref id with
      | None => Some (E_INVALID_ID, k)
      | Some t =>
          if bool_decide (state (ktcb k t) = TASK_DORMANT) then Some (E_INVALID_ID, k)
          else if CFG_LOWEST_PRIO <? priority then Some (E_INVALID_ID, k)
          else if prio (ktcb k t) =? priority then Some (E_OK, k)
          else
            let owned := match mutex_ref (mutexID (ktcb k t)) with
                         | Some m => if mutex_task (mutex k m) =? taskID (ktcb k t) then Some m else None
                         | None => None
                         end in
            let k := match owned with
                     | Some m => upd_mutex m (fun x => x <| originalPrio := priority |>) k
                     | None => k
                     end in
            if bool_decide (is_Some owned) && (prio (ktcb k t) <? priority) then Some (E_OK, k)
            else
              let k := upd_task t (fun b => b <| prio := priority |>) k in
              match state (ktcb k t) with
              | TASK_READY =>
                  k ← reorder_ready t (OsSchedLock k);
                  k ← OsSchedUnlock k;
                  Some (E_OK, k)
              | TASK_RUNNING =>
                  if rdy_prio prio_at_null (sch k) <? prio (ktcb k t) then
                    let k := OsSchedLock k in
                    k ← OsSchedUnlock (k <| sch := (sch k) <| TaskSchedReq := true |> |>);
                    Some (E_OK, k)
                  else Some (E_OK, k)
              | _ =>
                  k ← (match mutex_ref (mutexID (ktcb k t)) with
                       | Some m =>
                           let k := OsSchedLock k in
                           let x := mutex k m in
                           '(p, hi) ← highest task_fuel (waittingList x) (originalPrio x) (mutex_task x) k;
                           let k := upd_mutex m (fun x => x <| hipriTaskID := hi |>) k in
                           k ← OsSchedUnlock k;
                           if originalPrio (mutex k m) =? p then Some k
                           else '(_, k) ← CoSetPriority fuel (mutex_task (mutex k m)) p k; Some k
                       | None => Some k
                       end);
                  k ← (if eventID (ktcb k t) =? INVALID_ID then Some k else reorder_event t k);
                  Some (E_OK, k)
              end
      end
  end.

(** ** Mutexes (mutex.c) *)

Definition CoCreateMutex (k : kernel) : option (Z * kernel) :=
  let k := OsSchedLock k in
  if MutexFreeID (mtx k) <? CFG_MAX_MUTEX then
    let id := MutexFreeID (mtx k) in
    let k := k <| mtx := (mtx k) <| MutexFreeID := u8 (id + 1) |> |> in
    k ← OsSchedUnlock k;
    Some (id, upd_mutex id (fun _ => mk_mutex 255 MUTEX_FREE INVALID_ID INVALID_ID None) k)
  else
    k ← OsSchedUnlock k;
    Some (E_CREATE_FAIL, k).

(** The last task of a waiting list that is linked by [TCBnext]. *)
Fixpoint tcb_last (fuel : nat) (p : Z) (k : kernel) : option Z :=
  match fuel with
  | O => None
  | S fuel => match TCBnext (ktcb k p) with None => Some p | Some n => tcb_last fuel n k end
  end.

(** The owner of a mutex gets the priority of a more urgent task that waits. *)
Definition promote (m owner cur : Z) (k : kernel) : option kernel :=
  if prio (ktcb k cur) <? prio (ktcb k owner) then
    let k := upd_task owner (fun b => b <| prio := prio (ktcb k cur) |>) k in
    let k := upd_mutex m (fun x => x <| hipriTaskID := taskID (ktcb k cur) |>) k in
    if bool_decide (state (ktcb k owner) = TASK_READY) then reorder_ready owner k
    else if eventID (ktcb k owner) =? INVALID_ID then Some k
    else reorder_event owner k
  else Some k.

Definition block_on_mutex (m cur : Z) (k : kernel) : option kernel :=
  let k := upd_task cur (set_state TASK_WAITING) k in
  let k := k <| sch := (sch k) <| TaskSchedReq := true |> |> in
  let k := upd_task cur (set_tnext None) k in
  let k := upd_task cur (set_tprev None) k in
  match waittingList (mutex k m) with
  | None => Some (upd_mutex m (fun x => x <| waittingList := Some cur |>) k)
  | Some h =>
      p ← tcb_last task_fuel h k;
      let k := upd_task p (set_tnext (Some cur)) k in
      let k := upd_task cur (set_tprev (Some p)) k in
      Some (upd_task cur (set_tnext None) k)
  end.

Definition CoEnterMutexSection (id : Z) (k : kernel) : option (Z * kernel) :=
  if 0 <? OSIntNesting (sch k) then Some (E_CALL, k)
  else if negb (OSSchedLock (sch k) =? 0) then Some (E_OS_IN_LOCK, k)
  else if MutexFreeID (mtx k) <=? id then Some (E_INVALID_ID, k)
  else
    let k := OsSchedLock k in
    cur ← TCBRunning (sch k);
    let k := upd_task cur (fun b => b <| mutexID := id |>) k in
    k ← (if mutexFlag (mutex k id) then
           owner ← tcb_ref (mutex_task (mutex k id));
           k ← promote id owner cur k;
           block_on_mutex id cur k
         else
           let t := ktcb k cur in
           Some (upd_mutex id (fun x => mk_mutex (prio t) MUTEX_OCCUPY (taskID t) (taskID t)
                                                 (waittingList x)) k));
    k ← OsSchedUnlock k;
    Some (E_OK, k).

Definition CoLeaveMutexSection (id : Z) (k : kernel) : option (Z * kernel) :=
  if 0 <? OSIntNesting (sch k) then Some (E_CALL, k)
  else if MutexFreeID (mtx k) <=? id then Some (E_INVALID_ID, k)
  else
    let k := OsSchedLock k in
    owner ← tcb_ref (mutex_task (mutex k id));
    let k := upd_task owner (fun b => b <| mutexID := INVALID_ID |>) k in
    match waittingList (mutex k id) with
    | None =>
        let k := upd_mutex id (fun x => x <| mutexFlag := MUTEX_FREE |> <| mutex_task := INVALID_ID |>) k in
        k ← OsSchedUnlock k;
        Some (E_OK, k)
    | Some h =>
        let taskID' := mutex_task (mutex k id) in
        '(p, k) ← (if hipriTaskID (mutex k id) =? taskID' then
                     '(p, hi) ← highest task_fuel (Some h) (prio (ktcb k h)) (hipriTaskID (mutex k id)) k;
                     Some (p, upd_mutex id (fun x => x <| hipriTaskID := hi |>) k)
                   else Some (prio (ktcb k owner), k));
        let k := upd_mutex id (fun x => x <| mutex_task := INVALID_ID |>) k in
        '(_, k) ← CoSetPriority task_fuel taskID' (originalPrio (mutex k id)) k;
        h ← waittingList (mutex k id);
        let k := upd_mutex id (fun x => mk_mutex (prio (ktcb k h)) (mutexFlag x) (taskID (ktcb k h))
                                                 (hipriTaskID x) (TCBnext (ktcb k h))) k in
        let k := upd_task h (fun b => b <| prio := p |>) k in
        let k := upd_task h (set_tnext None) k in
        let k := upd_task h (set_tprev None) k in
        k ← insert_ready h k;
        k ← OsSchedUnlock k;
        Some (E_OK, k)
    end.

(** The first task of the waiting list is unlinked from its successor, and the
    list goes on starting with it. *)
Definition RemoveMutexList (t : Z) (k : kernel) : option kernel :=
  m ← mutex_ref (mutexID (ktcb k t));
  let k :=
    match TCBnext (ktcb k t), TCBprev (ktcb k t) with
    | None, None => upd_mutex m (fun x => x <| waittingList := None |>) k
    | None, Some p =>
        let k := upd_task p (set_tnext None) k in
        upd_task t (set_tprev None) k
    | Some n, None =>
        let k := upd_task n (set_tprev None) k in
        upd_task t (set_tnext None) k
    | Some n, Some p =>
        let k := upd_task n (set_tprev (Some p)) k in
        let k := upd_task p (set_tnext (Some n)) k in
        let k := upd_task t (set_tprev None) k in
        upd_task t (set_tnext None) k
    end in
  let k := upd_task t (fun b => b <| mutexID := INVALID_ID |>) k in
  let x := mutex k m in
  if hipriTaskID x =? taskID (ktcb k t) then
    '(p, hi) ← highest task_fuel (waittingList x) (originalPrio x) (mutex_task x) k;
    let k := upd_mutex m (fun x => x <| hipriTaskID := hi |>) k in
    let id := mutex_task (mutex k m) in
    let k := upd_mutex m (fun x => x <| mutex_task := INVALID_ID |>) k in
    '(_, k) ← CoSetPriority task_fuel id p k;
    Some (upd_mutex m (fun x => x <| mutex_task := id |>) k)
  else Some k.

(** ** Tasks (task.c) *)

(** [CreateTCBList]: only the last block is not marked as dormant. *)
Definition free_tcb (i : Z) (b : OSTCB) : OSTCB :=
  if i <? TASKS - 1
  then b <| taskID := i |> <| state := TASK_DORMANT |> <| TCBnext := Some (i + 1) |>
  else b <| taskID := i |> <| TCBnext := None |>.

Definition CreateTCBList (k : kernel) : kernel :=
  let k := foldl (fun k i => upd_task i (free_tcb i) k) k (seqZ 0 TASKS) in
  k <| sch := (sch k) <| FreeTCB := Some 0 |> |>.

Definition AssignTCB (k : kernel) : option (option Z * kernel) :=
  let k := OsSchedLock k in
  match FreeTCB (sch k) with
  | None => k ← OsSchedUnlock k; Some (None, k)
  | Some t =>
      let k := k <| sch := (sch k) <| FreeTCB := TCBnext (ktcb k t) |> |> in
      k ← OsSchedUnlock k;
      Some (Some t, k)
  end.

(** [InitTaskContext] (arch.c): the stack frame of a new task, and the new
    stack pointer. *)
Definition InitTaskContext (task param pstk : Z) (k : kernel) : Z * kernel :=
  let k := st pstk 16777216 k in
  let k := st (pstk - 4) task k in
  let k := st (pstk - 8) 4294967294 k in
  let k := st (pstk - 28) param k in
  (pstk - 60, k).

(** The block of a new task. *)
Definition init_tcb (stkTop pr stk sktSz slice : Z) (b : OSTCB) : OSTCB :=
  mk_tcb stkTop pr (state b) (taskID b) INVALID_ID INVALID_ID slice (stk + 4 - 4 * sktSz)
    0 None None NO_NODE INVALID_VALUE None None.

Definition CreateTask (task argv parameter stk : Z) (k : kernel) : option (Z * kernel) :=
  let sktSz := Z.shiftr (Z.land parameter 1048320) 8 in
  let pr := Z.land parameter 255 in
  if task =? 0 then Some (E_CREATE_FAIL, k)
  else if stk =? 0 then Some (E_CREATE_FAIL, k)
  else if CFG_LOWEST_PRIO <? pr then Some (E_CREATE_FAIL, k)
  else if sktSz <? 20 then Some (E_CREATE_FAIL, k)
  else
    let '(stkTop, k) := InitTaskContext task argv stk k in
    '(t, k) ← AssignTCB k;
    match t with
    | None => Some (E_CREATE_FAIL, k)
    | Some t =>
        let slice := Z.shiftr (Z.land parameter 2147418112) 20 in
        let slice := if slice =? 0 then CFG_TIME_SLICE else slice in
        let k := upd_task t (init_tcb stkTop pr stk sktSz slice) k in
        let k := st (stack (ktcb k t)) MAGIC_WORD k in
        if Z.shiftr parameter 31 =? 0 then
          k ← insert_ready t (OsSchedLock k);
          k ← OsSchedUnlock k;
          Some (taskID (ktcb k t), k)
        else
          let k := upd_task t (set_state TASK_WAITING) k in
          Some (taskID (ktcb k t), k)
    end.

(** The lists a waiting task is taken out of. *)
Definition forget_waiting (t : Z) (k : kernel) : option kernel :=
  let k := if delayTick (ktcb k t) =? INVALID_VALUE then k else k <| sch ::= RemoveDelayList t |> in
  k ← (if eventID (ktcb k t) =? INVALID_ID then Some k else RemoveEventWaittingList t k);
  k ← remove_node (pnode (ktcb k t)) k;
  if mutexID (ktcb k t) =? INVALID_ID then Some k else RemoveMutexList t k.

Definition CoDelTask (id : Z) (k : kernel) : option (Z * kernel) :=
  match tcb_ref id with
  | None => Some (E_INVALID_ID, k)
  | Some t =>
      if bool_decide (state (ktcb k t) = TASK_DORMANT) then Some (E_INVALID_ID, k)
      else if id =? 0 then Some (E_PROTECTED_TASK, k)
      else if bool_decide (state (ktcb k t) = TASK_RUNNING) && negb (OSSchedLock (sch k) =? 0)
      then Some (E_OS_IN_LOCK, k)
      else
        k ← (if mutexID (ktcb k t) =? INVALID_ID then Some k
             else
               m ← mutex_ref (mutexID (ktcb k t));
               if mutex_task (mutex k m) =? taskID (ktcb k t)
               then '(_, k) ← CoLeaveMutexSection m k; Some k
               else Some k);
        let k := OsSchedLock k in
        k ← (match state (ktcb k t) with
             | TASK_READY => Some (k <| sch ::= RemoveFromTCBRdyList t |>)
             | TASK_WAITING => forget_waiting t k
             | _ => Some k
             end);
        let k := upd_task t (set_state TASK_DORMANT) k in
        let k := k <| sch := (sch k) <| TaskSchedReq := true |> |> in
        let k := upd_task t (set_tnext (FreeTCB (sch k))) k in
        let k := k <| sch := (sch k) <| FreeTCB := Some t |> |> in
        k ← OsSchedUnlock k;
        Some (E_OK, k)
  end.

Definition CoExitTask (k : kernel) : option kernel :=
  t ← TCBRunning (sch k);
  '(_, k) ← CoDelTask (taskID (ktcb k t)) k;
  Some k.

Definition CoGetCurTaskID (k : kernel) : option Z :=
  t ← TCBRunning (sch k); Some (taskID (ktcb k t)).

Definition CoSuspendTask (id : Z) (k : kernel) : option (Z * kernel) :=
  if id =? 0 then Some (E_PROTECTED_TASK, k)
  else match tcb_ref id with
  | None => Some (E_INVALID_ID, k)
  | Some t =>
      if bool_decide (state (ktcb k t) = TASK_DORMANT) then Some (E_INVALID_ID, k)
      else if negb (OSSchedLock (sch k) =? 0) then Some (E_OS_IN_LOCK, k)
      else if bool_decide (state (ktcb k t) = TASK_WAITING) then Some (E_ALREADY_IN_WAITING, k)
      else
        let k := OsSchedLock k in
        let k := if bool_decide (TCBRunning (sch k) = Some t)
                 then k <| sch := (sch k) <| TaskSchedReq := true |> |>
                 else k <| sch ::= RemoveFromTCBRdyList t |> in
        let k := upd_task t (set_state TASK_WAITING) k in
        k ← OsSchedUnlock k;
        Some (E_OK, k)
  end.

Definition CoAwakeTask (id : Z) (k : kernel) : option (Z * kernel) :=
  if id =? 0 then Some (E_PROTECTED_TASK, k)
  else match tcb_ref id with
  | None => Some (E_INVALID_ID, k)
  | Some t =>
      let b := ktcb k t in
      if bool_decide (state b = TASK_DORMANT) then Some (E_INVALID_ID, k)
      else if negb (bool_decide (state b = TASK_WAITING)) then Some (E_TASK_NOT_WAITING, k)
      else if negb (delayTick b =? INVALID_VALUE) then Some (E_TASK_WAIT_OTHER, k)
      else if negb (bool_decide (pnode b = NO_NODE)) then Some (E_TASK_WAIT_OTHER, k)
      else if negb (eventID b =? INVALID_ID) then Some (E_TASK_WAIT_OTHER, k)
      else if negb (mutexID b =? INVALID_ID) then Some (E_TASK_WAIT_OTHER, k)
      else
        k ← insert_ready t (OsSchedLock k);
        k ← OsSchedUnlock k;
        Some (E_OK, k)
  end.
End task.
