(* ===== verification/CoSync.v ===== *)
(** * Semaphores, mailboxes and mail queues (CoOS/kernel/sem.c, mbox.c, queue.c)

    A call that blocks is split where the task is switched out: the call gives
    [Waits], and the rest of its body, which runs when the task runs again, is
    the definition with the suffix [_resume]. A mail is the 32-bit value of its
    pointer. *)

From stdpp Require Import gmap.
From S2P Require Import Prelude Dll CoTypes CoSched CoCore.

(** What a call has given when it returns or is switched out. *)
Inductive pended (A : Type) := Returned (a : A) | Waits.
Arguments Returned {A}.
Arguments Waits {A}.

Section sync.
Context `{Port}.

(** [if(id >= CFG_MAX_EVENT)] and the test of the type of the event. *)
Definition event_of (type : event_type) (id : Z) (k : kernel) : option Z :=
  match ecb_ref id with
  | Some e => if bool_decide (eventType (ecb k e) = type) then Some e else None
  | None => None
  end.

(** The task is blocked on the event, with a time-out if there is one. *)
Definition pend_on (e timeout : Z) (k : kernel) : option kernel :=
  cur ← TCBRunning (sch k);
  if timeout =? 0 then EventTaskToWait e cur k
  else
    let k := OsSchedLock k in
    k ← EventTaskToWait e cur k;
    k ← on_sched (InsertDelayList cur timeout) k;
    OsSchedUnlock k.

(** ** Semaphores (sem.c) *)

Definition CoCreateSem (initCnt maxCnt sortType : Z) (k : kernel) : option (Z * kernel) :=
  if maxCnt <? initCnt then Some (E_CREATE_FAIL, k)
  else if negb (sortType =? EVENT_SORT_TYPE_FIFO) && negb (sortType =? EVENT_SORT_TYPE_PRIO)
  then Some (E_CREATE_FAIL, k)
  else
    '(e, k) ← CreatEvent EVENT_TYPE_SEM sortType EV_NULL k;
    match e with
    | None => Some (E_CREATE_FAIL, k)
    | Some e =>
        let k := upd_ecb e (fun b => b <| eventCounter := initCnt |> <| initialEventCounter := maxCnt |>) k in
        Some (ecb_id (ecb k e), k)
    end.

Definition CoDelSem (id opt : Z) (k : kernel) : option (Z * kernel) :=
  match event_of EVENT_TYPE_SEM id k with
  | None => Some (E_INVALID_ID, k)
  | Some e => DeleteEvent e opt k
  end.

Definition dec_counter (b : ECB) : ECB := b <| eventCounter := u16 (eventCounter b - 1) |>.
Definition inc_counter (b : ECB) : ECB := b <| eventCounter := u16 (eventCounter b + 1) |>.

Definition CoAcceptSem (id : Z) (k : kernel) : option (Z * kernel) :=
  match event_of EVENT_TYPE_SEM id k with
  | None => Some (E_INVALID_ID, k)
  | Some e =>
      let k := OsSchedLock k in
      let positive := 0 <? eventCounter (ecb k e) in
      k ← OsSchedUnlock k;
      if positive then Some (E_OK, upd_ecb e dec_counter k) else Some (E_SEM_EMPTY, k)
  end.

Definition CoPendSem (id timeout : Z) (k : kernel) : option (pended Z * kernel) :=
  if 0 <? OSIntNesting (sch k) then Some (Returned E_CALL, k)
  else match event_of EVENT_TYPE_SEM id k with
  | None => Some (Returned E_INVALID_ID, k)
  | Some e =>
      if negb (OSSchedLock (sch k) =? 0) then Some (Returned E_OS_IN_LOCK, k)
      else
        let k := OsSchedLock k in
        if 0 <? eventCounter (ecb k e) then
          k ← OsSchedUnlock (upd_ecb e dec_counter k);
          Some (Returned E_OK, k)
        else
          k ← OsSchedUnlock k;
          k ← pend_on e timeout k;
          Some (Waits, k)
  end.

Definition set_mail (m : Z) (b : OSTCB) : OSTCB := b <| pmail := m |>.

Definition CoPendSem_resume (t timeout : Z) (k : kernel) : Z * kernel :=
  if timeout =? 0 then (E_OK, upd_task t (set_mail 0) k)
  else if pmail (ktcb k t) =? 0 then (E_TIMEOUT, k)
  else (E_OK, upd_task t (set_mail 0) k).

Definition CoPostSem (id : Z) (k : kernel) : option (Z * kernel) :=
  match event_of EVENT_TYPE_SEM id k with
  | None => Some (E_INVALID_ID, k)
  | Some e =>
      if eventCounter (ecb k e) =? initialEventCounter (ecb k e) then Some (E_SEM_FULL, k)
      else
        let k := OsSchedLock k in
        let k := upd_ecb e inc_counter k in
        k ← EventTaskToRdy e k;
        k ← OsSchedUnlock k;
        Some (E_OK, k)
  end.

(** ** Mailboxes (mbox.c) *)

Definition CoCreateMbox (sortType : Z) (k : kernel) : option (Z * kernel) :=
  '(e, k) ← CreatEvent EVENT_TYPE_MBOX sortType EV_NULL k;
  match e with
  | None => Some (E_CREATE_FAIL, k)
  | Some e => let k := upd_ecb e (fun b => b <| eventCounter := 0 |>) k in Some (ecb_id (ecb k e), k)
  end.

Definition CoDelMbox (id opt : Z) (k : kernel) : option (Z * kernel) :=
  match event_of EVENT_TYPE_MBOX id k with
  | None => Some (E_INVALID_ID, k)
  | Some e => DeleteEvent e opt k
  end.

(** [(void* )eventPtr] of a mailbox. *)
Definition mail_of (b : ECB) : Z := match eventPtr b with EV_MAIL m => m | _ => 0 end.

Definition take_mail (e : Z) (k : kernel) : kernel :=
  upd_ecb e (fun b => b <| eventPtr := EV_NULL |> <| eventCounter := 0 |>) k.

(** The result and [*perr]. *)
Definition CoAcceptMail (id : Z) (k : kernel) : option (Z * Z * kernel) :=
  match event_of EVENT_TYPE_MBOX id k with
  | None => Some (0, E_INVALID_ID, k)
  | Some e =>
      let k := OsSchedLock k in
      if eventCounter (ecb k e) =? 1 then
        let mail := mail_of (ecb k e) in
        k ← OsSchedUnlock (take_mail e k);
        Some (mail, E_OK, k)
      else
        k ← OsSchedUnlock k;
        Some (0, E_MBOX_EMPTY, k)
  end.

Definition CoPendMail (id timeout : Z) (k : kernel) : option (pended (Z * Z) * kernel) :=
  if 0 <? OSIntNesting (sch k) then Some (Returned (0, E_CALL), k)
  else match event_of EVENT_TYPE_MBOX id k with
  | None => Some (Returned (0, E_INVALID_ID), k)
  | Some e =>
      if negb (OSSchedLock (sch k) =? 0) then Some (Returned (0, E_OS_IN_LOCK), k)
      else
        let k := OsSchedLock k in
        if eventCounter (ecb k e) =? 1 then
          let mail := mail_of (ecb k e) in
          k ← OsSchedUnlock (take_mail e k);
          Some (Returned (mail, E_OK), k)
        else
          k ← OsSchedUnlock k;
          k ← pend_on e timeout k;
          Some (Waits, k)
  end.

(** The resumption of [CoPendMail] and of [CoPendQueueMail]. *)
Definition pend_mail_resume (t timeout : Z) (k : kernel) : Z * Z * kernel :=
  if timeout =? 0 then (pmail (ktcb k t), E_OK, upd_task t (set_mail 0) k)
  else if pmail (ktcb k t) =? 0 then (0, E_TIMEOUT, k)
  else (pmail (ktcb k t), E_OK, upd_task t (set_mail 0) k).

Definition CoPostMail (id mail : Z) (k : kernel) : option (Z * kernel) :=
  match event_of EVENT_TYPE_MBOX id k with
  | None => Some (E_INVALID_ID, k)
  | Some e =>
      if eventCounter (ecb k e) =? 0 then
        let k := OsSchedLock k in
        let k := upd_ecb e (fun b => b <| eventPtr := EV_MAIL mail |> <| eventCounter := 1 |>) k in
        k ← EventTaskToRdy e k;
        k ← OsSchedUnlock k;
        Some (E_OK, k)
      else Some (E_MBOX_FULL, k)
  end.

(** ** Mail queues (queue.c) *)

(** The loop over the bits of [QueueIDVessel]. *)
Definition free_queue (k : kernel) : option Z :=
  List.find (fun i => negb (has_bit (QueueIDVessel (evs k)) i)) (seqZ 0 CFG_MAX_QUEUE).

Definition CoCreateQueue (start size sortType : Z) (k : kernel) : option (Z * kernel) :=
  if (start =? 0) || (size =? 0) then Some (E_CREATE_FAIL, k)
  else
    let k := OsSchedLock k in
    match free_queue k with
    | Some i =>
        let k := k <| evs := (evs k) <| QueueIDVessel := Z.lor (QueueIDVessel (evs k)) (bit i) |> |> in
        k ← OsSchedUnlock k;
        let k := upd_qcb i (fun _ => mk_qcb start i 0 0 size 0) k in
        '(e, k) ← CreatEvent EVENT_TYPE_QUEUE sortType (EV_QUEUE i) k;
        match e with
        | None => Some (E_CREATE_FAIL, k)
        | Some e => Some (ecb_id (ecb k e), k)
        end
    | None => k ← OsSchedUnlock k; Some (E_CREATE_FAIL, k)
    end.

(** [(P_QCB)pecb->eventPtr] *)
Definition queue_of (b : ECB) : option Z := match eventPtr b with EV_QUEUE q => Some q | _ => None end.

Definition CoDelQueue (id opt : Z) (k : kernel) : option (Z * kernel) :=
  match event_of EVENT_TYPE_QUEUE id k with
  | None => Some (E_INVALID_ID, k)
  | Some e =>
      q ← queue_of (ecb k e);
      '(err, k) ← DeleteEvent e opt k;
      if err =? E_OK then
        let k := k <| evs := (evs k) <| QueueIDVessel :=
          Z.land (QueueIDVessel (evs k)) (u32 (Z.lnot (bit (q_id (qcb k q))))) |> |> in
        Some (err, upd_qcb q (fun _ => qcb_zero) k)
      else Some (err, k)
  end.

(** The oldest mail, and the queue without it. *)
Definition queue_get (b : QCB) : QCB :=
  let h := u16 (q_head b + 1) in
  b <| q_head := (if h =? qMaxSize b then 0 else h) |> <| qSize := u16 (qSize b - 1) |>.
Definition queue_front (k : kernel) (q : Z) : Z := ld k (qStart (qcb k q) + 4 * q_head (qcb k q)).

Definition queue_put (b : QCB) : QCB :=
  let t := u16 (q_tail b + 1) in
  b <| q_tail := (if t =? qMaxSize b then 0 else t) |> <| qSize := u16 (qSize b + 1) |>.

Definition CoAcceptQueueMail (id : Z) (k : kernel) : option (Z * Z * kernel) :=
  match event_of EVENT_TYPE_QUEUE id k with
  | None => Some (0, E_INVALID_ID, k)
  | Some e =>
      q ← queue_of (ecb k e);
      let k := OsSchedLock k in
      if negb (qSize (qcb k q) =? 0) then
        let mail := queue_front k q in
        k ← OsSchedUnlock (upd_qcb q queue_get k);
        Some (mail, E_OK, k)
      else
        k ← OsSchedUnlock k;
        Some (0, E_QUEUE_EMPTY, k)
  end.

Definition CoPendQueueMail (id timeout : Z) (k : kernel) : option (pended (Z * Z) * kernel) :=
  if 0 <? OSIntNesting (sch k) then Some (Returned (0, E_CALL), k)
  else match event_of EVENT_TYPE_QUEUE id k with
  | None => Some (Returned (0, E_INVALID_ID), k)
  | Some e =>
      if negb (OSSchedLock (sch k) =? 0) then Some (Returned (0, E_OS_IN_LOCK), k)
      else
        q ← queue_of (ecb k e);
        let k := OsSchedLock k in
        if negb (qSize (qcb k q) =? 0) then
          let mail := queue_front k q in
          k ← OsSchedUnlock (upd_qcb q queue_get k);
          Some (Returned (mail, E_OK), k)
        else
          k ← OsSchedUnlock k;
          k ← pend_on e timeout k;
          Some (Waits, k)
  end.

Definition CoPostQueueMail (id mail : Z) (k : kernel) : option (Z * kernel) :=
  match event_of EVENT_TYPE_QUEUE id k with
  | None => Some (E_INVALID_ID, k)
  | Some e =>
      q ← queue_of (ecb k e);
      if qSize (qcb k q) =? qMaxSize (qcb k q) then Some (E_QUEUE_FULL, k)
      else
        let k := OsSchedLock k in
        let k := st (qStart (qcb k q) + 4 * q_tail (qcb k q)) mail k in
        let k := upd_qcb q queue_put k in
        k ← EventTaskToRdy e k;
        k ← OsSchedUnlock k;
        Some (E_OK, k)
  end.
End sync.
