(* ===== verification/CoFlags.v ===== *)
(** * Event flags (CoOS/kernel/flag.c)

    Thirty-two flags in three 32-bit words, and the list of the nodes of the
    tasks that wait for flags. A call that blocks is split as in [CoSync]. *)

From stdpp Require Import gmap.
From S2P Require Import Prelude Dll CoTypes CoSched CoCore CoSync.

Section flags.
Context `{Port}.

Definition FLAG_MAX_NUM : Z := 32.

(** [1 << id], for an [id] that the code has not always checked: the shift of
    the processor uses the low byte and gives 0 from 32 on. *)
Definition mask (id : Z) : Z := u32 (Z.shiftl 1 id).

Definition active (id : Z) (k : kernel) : bool := c_true (Z.land (flagActive (FlagCrl k)) (mask id)).
Definition raised (id : Z) (k : kernel) : bool := c_true (Z.land (flagRdy (FlagCrl k)) (mask id)).

Definition upd_flags (f : FCB -> FCB) (k : kernel) : kernel := k <| FlagCrl ::= f |>.

(** [x & ~m] on 32-bit words. *)
Definition clear_bits (x m : Z) : Z := Z.land x (u32 (Z.lnot m)).

(** [pfcb->flagRdy &= ~(flags & pfcb->resetOpt)] *)
Definition auto_reset (flags : Z) (c : FCB) : FCB :=
  c <| flagRdy := clear_bits (flagRdy c) (Z.land flags (resetOpt c)) |>.

Definition CoCreateFlag (bAutoReset bInitialState : Z) (k : kernel) : option (Z * kernel) :=
  let k := OsSchedLock k in
  match List.find (fun i => negb (active i k)) (seqZ 0 FLAG_MAX_NUM) with
  | Some i =>
      let k := upd_flags (fun c =>
        c <| flagActive := Z.lor (flagActive c) (mask i) |>
          <| flagRdy := Z.lor (flagRdy c) (u32 (Z.shiftl bInitialState i)) |>
          <| resetOpt := Z.lor (resetOpt c) (u32 (Z.shiftl bAutoReset i)) |>) k in
      k ← OsSchedUnlock k;
      Some (i, k)
  | None => k ← OsSchedUnlock k; Some (E_CREATE_FAIL, k)
  end.

(** [RemoveFromLink]; the result is [pnode->nextNode], which the removal leaves. *)
Definition RemoveFromLink (n : Z) (k : kernel) : option (option Z * kernel) :=
  let k := RemoveLinkNode n k in
  let t := waitTask (node k n) in
  let k := if delayTick (ktcb k t) =? INVALID_VALUE then k
           else k <| sch ::= RemoveDelayList t |> in
  let k := upd_task t (fun b => b <| pnode := NODE_WOKEN |>) k in
  k ← ready_or_run t k;
  Some (nextNode (node k n), k).

(** The loop of [CoDelFlag]; [None] in the result is the early return. *)
Fixpoint del_flag_loop (fuel : nat) (id opt : Z) (p : option Z) (k : kernel)
  : option (bool * kernel) :=
  match p with
  | None => Some (true, k)
  | Some n =>
      match fuel with
      | O => None
      | S fuel =>
          if c_true (Z.land (waitFlags (node k n)) (mask id)) then
            if opt =? OPT_DEL_NO_PEND then Some (false, k)
            else if opt =? OPT_DEL_ANYWAY then
              if (waitType (node k n) =? OPT_WAIT_ALL) && negb (waitFlags (node k n) =? mask id) then
                let k := upd_node n (fun x => x <| waitFlags := clear_bits (waitFlags x) (mask id) |>) k in
                del_flag_loop fuel id opt (nextNode (node k n)) k
              else
                '(p, k) ← RemoveFromLink n k;
                del_flag_loop fuel id opt p k
            else del_flag_loop fuel id opt (nextNode (node k n)) k
          else del_flag_loop fuel id opt (nextNode (node k n)) k
      end
  end.

Definition CoDelFlag (id opt : Z) (k : kernel) : option (Z * kernel) :=
  if 0 <? OSIntNesting (sch k) then Some (E_CALL, k)
  else if negb (active id k) then Some (E_INVALID_ID, k)
  else
    let k := OsSchedLock k in
    '(deleted, k) ← del_flag_loop task_fuel id opt (headNode (FlagCrl k)) k;
    if deleted : bool then
      let k := upd_flags (fun c =>
        c <| flagActive := clear_bits (flagActive c) (mask id) |>
          <| flagRdy := clear_bits (flagRdy c) (mask id) |>
          <| resetOpt := clear_bits (resetOpt c) (mask id) |>) k in
      k ← OsSchedUnlock k;
      Some (E_OK, k)
    else
      k ← OsSchedUnlock k;
      Some (E_TASK_WAITING, k).

Definition CoAcceptSingleFlag (id : Z) (k : kernel) : option (Z * kernel) :=
  if FLAG_MAX_NUM <=? id then Some (E_INVALID_ID, k)
  else if negb (active id k) then Some (E_INVALID_ID, k)
  else if raised id k then
    k ← OsSchedUnlock (upd_flags (auto_reset (mask id)) (OsSchedLock k));
    Some (E_OK, k)
  else Some (E_FLAG_NOT_READY, k).

(** The flags that end a wait for [flags]. *)
Definition satisfied (flags type : Z) (k : kernel) : bool :=
  let spring := Z.land flags (flagRdy (FlagCrl k)) in
  (negb (spring =? 0) && (type =? OPT_WAIT_ANY)) || ((spring =? flags) && (type =? OPT_WAIT_ALL)).

(** The result and [*perr]. *)
Definition CoAcceptMultipleFlags (flags type : Z) (k : kernel) : option (Z * Z * kernel) :=
  if negb (Z.land flags (flagActive (FlagCrl k)) =? flags) then Some (0, E_INVALID_PARAMETER, k)
  else
    let spring := Z.land flags (flagRdy (FlagCrl k)) in
    let k := OsSchedLock k in
    if satisfied flags type k then
      k ← OsSchedUnlock (upd_flags (auto_reset spring) k);
      Some (spring, E_OK, k)
    else
      k ← OsSchedUnlock k;
      Some (0, E_FLAG_NOT_READY, k).

(** [FlagBlock], with the node of the running task. *)
Definition FlagBlock (flags type : Z) (k : kernel) : option kernel :=
  cur ← TCBRunning (sch k);
  let k := upd_task cur (fun b => b <| pnode := NODE cur |>) k in
  let k := upd_node cur (fun x => x <| waitTask := cur |> <| waitFlags := flags |> <| waitType := type |>) k in
  let k :=
    match tailNode (FlagCrl k) with
    | None =>
        let k := upd_node cur (fun x => x <| nextNode := None |> <| prevNode := None |>) k in
        upd_flags (fun c => c <| headNode := Some cur |>) k
    | Some t =>
        let k := upd_node t (set_nnext (Some cur)) k in
        upd_node cur (fun x => x <| prevNode := Some t |> <| nextNode := None |>) k
    end in
  Some (upd_flags (fun c => c <| tailNode := Some cur |>) k).

(** The task is blocked on its node, with a time-out if there is one. *)
Definition wait_flags (flags type timeout : Z) (k : kernel) : option kernel :=
  cur ← TCBRunning (sch k);
  k ← FlagBlock flags type k;
  k ← (if timeout =? 0 then
         let k := upd_task cur (set_state TASK_WAITING) k in
         Some (k <| sch := (sch k) <| TaskSchedReq := true |> |>)
       else on_sched (InsertDelayList cur timeout) k);
  OsSchedUnlock k.

Definition CoWaitForSingleFlag (id timeout : Z) (k : kernel) : option (pended Z * kernel) :=
  if 0 <? OSIntNesting (sch k) then Some (Returned E_CALL, k)
  else if negb (OSSchedLock (sch k) =? 0) then Some (Returned E_OS_IN_LOCK, k)
  else if FLAG_MAX_NUM <=? id then Some (Returned E_INVALID_ID, k)
  else if negb (active id k) then Some (Returned E_INVALID_ID, k)
  else
    let k := OsSchedLock k in
    if raised id k then
      k ← OsSchedUnlock (upd_flags (auto_reset (mask id)) k);
      Some (Returned E_OK, k)
    else
      k ← wait_flags (mask id) OPT_WAIT_ONE timeout k;
      Some (Waits, k).

(** The flags are taken, and the node is forgotten. *)
Definition flag_taken (t flags : Z) (k : kernel) : option (Z * kernel) :=
  let k := upd_task t (fun b => b <| pnode := NO_NODE |>) k in
  let k := OsSchedLock k in
  let spring := Z.land flags (flagRdy (FlagCrl k)) in
  k ← OsSchedUnlock (upd_flags (auto_reset spring) k);
  Some (spring, k).

Definition CoWaitForSingleFlag_resume (t id timeout : Z) (k : kernel) : option (Z * kernel) :=
  if negb (timeout =? 0) && bool_decide (pnode (ktcb k t) = NO_NODE) then Some (E_TIMEOUT, k)
  else '(_, k) ← flag_taken t (mask id) k; Some (E_OK, k).

Definition CoWaitForMultipleFlags (flags type timeout : Z) (k : kernel)
  : option (pended (Z * Z) * kernel) :=
  if 0 <? OSIntNesting (sch k) then Some (Returned (0, E_CALL), k)
  else if negb (OSSchedLock (sch k) =? 0) then Some (Returned (0, E_OS_IN_LOCK), k)
  else if negb (Z.land flags (flagActive (FlagCrl k)) =? flags)
  then Some (Returned (0, E_INVALID_PARAMETER), k)
  else
    let k := OsSchedLock k in
    let spring := Z.land flags (flagRdy (FlagCrl k)) in
    if satisfied flags type k then
      k ← OsSchedUnlock (upd_flags (auto_reset spring) k);
      Some (Returned (spring, E_OK), k)
    else
      k ← wait_flags flags type timeout k;
      Some (Waits, k).

Definition CoWaitForMultipleFlags_resume (t flags timeout : Z) (k : kernel) : option (Z * Z * kernel) :=
  if negb (timeout =? 0) && bool_decide (pnode (ktcb k t) = NO_NODE) then Some (0, E_TIMEOUT, k)
  else '(spring, k) ← flag_taken t flags k; Some (spring, E_OK, k).

Definition CoClearFlag (id : Z) (k : kernel) : Z * kernel :=
  if FLAG_MAX_NUM <=? id then (E_INVALID_ID, k)
  else if negb (active id k) then (E_INVALID_ID, k)
  else (E_OK, upd_flags (fun c => c <| flagRdy := clear_bits (flagRdy c) (mask id) |>) k).

(** The loop of [CoSetFlag]. *)
Fixpoint set_flag_loop (fuel : nat) (id : Z) (p : option Z) (k : kernel) : option kernel :=
  match p with
  | None => Some k
  | Some n =>
      match fuel with
      | O => None
      | S fuel =>
          let x := node k n in
          let r := Z.land (waitFlags x) (flagRdy (FlagCrl k)) in
          if (if waitType x =? OPT_WAIT_ALL then r =? waitFlags x else negb (r =? 0)) then
            '(p, k) ← RemoveFromLink n k;
            if c_true (Z.land (resetOpt (FlagCrl k)) (mask id)) then Some k
            else set_flag_loop fuel id p k
          else set_flag_loop fuel id (nextNode x) k
      end
  end.

Definition CoSetFlag (id : Z) (k : kernel) : option (Z * kernel) :=
  if FLAG_MAX_NUM <=? id then Some (E_INVALID_ID, k)
  else if negb (active id k) then Some (E_INVALID_ID, k)
  else if raised id k then Some (E_OK, k)
  else
    let k := upd_flags (fun c => c <| flagRdy := Z.lor (flagRdy c) (mask id) |>) k in
    let k := OsSchedLock k in
    k ← set_flag_loop task_fuel id (headNode (FlagCrl k)) k;
    k ← OsSchedUnlock k;
    Some (E_OK, k).
End flags.
