(* ===== verification/CoTimer.v ===== *)
(** * Software timers (CoOS/kernel/timer.c)

    The timers run on a list of delta times, as the delayed tasks do. The
    callback of a timer is code of the application, [timer_call]. *)

From stdpp Require Import gmap.
From S2P Require Import Prelude Dll CoTypes CoSched CoCore.

Definition tmr_zero : TmrCtrl := mk_tmr 0 0 false 0 0 0 None None.
Definition ktmr (k : kernel) (i : Z) : TmrCtrl := default tmr_zero (TmrTbl (tmr k) !! i).
Definition upd_tmr (i : Z) (f : TmrCtrl -> TmrCtrl) (k : kernel) : kernel :=
  k <| tmr := (tmr k) <| TmrTbl := <[i := f (ktmr k i)]> (TmrTbl (tmr k)) |> |>.

Definition set_mnext (n : option Z) (t : TmrCtrl) : TmrCtrl := t <| tmrNext := n |>.
Definition set_mprev (p : option Z) (t : TmrCtrl) : TmrCtrl := t <| tmrPrev := p |>.
Definition set_cnt (c : Z) (t : TmrCtrl) : TmrCtrl := t <| tmrCnt := c |>.

Section timer.
Context `{Port}.

Definition tmr_fuel : nat := Z.to_nat CFG_MAX_TMR.

Definition set_tmr_head (h : option Z) (k : kernel) : kernel :=
  k <| tmr := (tmr k) <| TmrList := h |> |>.

(** The timer [i] is linked before the timer [n] ... *)
Definition tmr_link_before (i n : Z) (k : kernel) : option kernel :=
  match tmrPrev (ktmr k n) with
  | Some p =>
      let k := upd_tmr p (set_mnext (Some i)) k in
      let k := upd_tmr i (set_mprev (tmrPrev (ktmr k n))) k in
      let k := upd_tmr i (set_mnext (Some n)) k in
      Some (upd_tmr n (set_mprev (Some i)) k)
  | None =>
      let k := upd_tmr i (set_mnext (TmrList (tmr k))) k in
      h ← TmrList (tmr k);
      let k := upd_tmr h (set_mprev (Some i)) k in
      Some (set_tmr_head (Some i) k)
  end.

(** ... and the counts of the two are set. *)
Definition tmr_before (i n delta : Z) (k : kernel) : option kernel :=
  k ← tmr_link_before i n k;
  m ← tmrNext (ktmr k i);
  let k := upd_tmr i (set_cnt (u32 (tmrCnt (ktmr k m) + delta))) k in
  Some (upd_tmr m (set_cnt (u32 (tmrCnt (ktmr k m) - tmrCnt (ktmr k i)))) k).

Fixpoint tmr_place (fuel : nat) (i n delta : Z) (k : kernel) : option kernel :=
  match fuel with
  | O => None
  | S fuel =>
      let delta := i32 (delta - tmrCnt (ktmr k n)) in
      if delta <? 0 then tmr_before i n delta k
      else
        match tmrNext (ktmr k n) with
        | None =>
            let k := upd_tmr i (set_mprev (Some n)) k in
            let k := upd_tmr n (set_mnext (Some i)) k in
            Some (upd_tmr i (set_cnt delta) k)
        | Some m => tmr_place fuel i m delta k
        end
  end.

Definition InsertTmrList (i : Z) (k : kernel) : option kernel :=
  let cnt := tmrCnt (ktmr k i) in
  if cnt =? 0 then Some k
  else
    let k := OsSchedLock k in
    k ← match TmrList (tmr k) with
        | None => Some (set_tmr_head (Some i) k)
        | Some h => tmr_place tmr_fuel i h (i32 cnt) k
        end;
    OsSchedUnlock k.

Definition RemoveTmrList (i : Z) (k : kernel) : option kernel :=
  let k := OsSchedLock k in
  let c := tmrCnt (ktmr k i) in
  let k :=
    match tmrPrev (ktmr k i), tmrNext (ktmr k i) with
    | None, None => set_tmr_head None k
    | None, Some n =>
        let k := set_tmr_head (Some n) k in
        let k := upd_tmr n (set_mprev None) k in
        let k := upd_tmr n (set_cnt (u32 (tmrCnt (ktmr k n) + c))) k in
        upd_tmr i (set_mnext None) k
    | Some p, None =>
        let k := upd_tmr p (set_mnext None) k in
        upd_tmr i (set_mprev None) k
    | Some p, Some n =>
        let k := upd_tmr p (set_mnext (Some n)) k in
        let k := upd_tmr n (set_mprev (Some p)) k in
        let k := upd_tmr n (set_cnt (u32 (tmrCnt (ktmr k n) + c))) k in
        let k := upd_tmr i (set_mnext None) k in
        upd_tmr i (set_mprev None) k
    end in
  OsSchedUnlock k.

(** A timer that exists. *)
Definition tmr_used (i : Z) (k : kernel) : bool :=
  (i <? CFG_MAX_TMR) && has_bit (TmrIDVessel (tmr k)) i.

Definition CoCreateTmr (type cnt reload func : Z) (k : kernel) : option (Z * kernel) :=
  if negb (type =? TMR_TYPE_ONE_SHOT) && negb (type =? TMR_TYPE_PERIODIC) then Some (E_CREATE_FAIL, k)
  else if func =? 0 then Some (E_CREATE_FAIL, k)
  else
    let k := OsSchedLock k in
    match List.find (fun i => negb (has_bit (TmrIDVessel (tmr k)) i)) (seqZ 0 CFG_MAX_TMR) with
    | Some i =>
        let k := k <| tmr := (tmr k) <| TmrIDVessel := Z.lor (TmrIDVessel (tmr k)) (bit i) |> |> in
        k ← OsSchedUnlock k;
        Some (i, upd_tmr i (fun _ => mk_tmr i type false cnt reload func None None) k)
    | None => k ← OsSchedUnlock k; Some (E_CREATE_FAIL, k)
    end.

Definition CoStartTmr (i : Z) (k : kernel) : option (Z * kernel) :=
  if negb (tmr_used i k) then Some (E_INVALID_ID, k)
  else if tmrRunning (ktmr k i) then Some (E_OK, k)
  else
    k ← InsertTmrList i (upd_tmr i (fun t => t <| tmrRunning := true |>) k);
    Some (E_OK, k).

Definition CoStopTmr (i : Z) (k : kernel) : option (Z * kernel) :=
  if negb (tmr_used i k) then Some (E_INVALID_ID, k)
  else if negb (tmrRunning (ktmr k i)) then Some (E_OK, k)
  else
    k ← RemoveTmrList i k;
    Some (E_OK, upd_tmr i (fun t => t <| tmrRunning := false |>) k).

Definition CoDelTmr (i : Z) (k : kernel) : option (Z * kernel) :=
  if negb (tmr_used i k) then Some (E_INVALID_ID, k)
  else
    k ← (if tmrRunning (ktmr k i) then RemoveTmrList i k else Some k);
    Some (E_OK, k <| tmr := (tmr k) <| TmrIDVessel :=
      Z.land (TmrIDVessel (tmr k)) (u32 (Z.lnot (bit i))) |> |>).

(** The result and [*perr]. *)
Definition CoGetCurTmrCnt (i : Z) (k : kernel) : Z * Z :=
  if tmr_used i k then (tmrCnt (ktmr k i), E_OK) else (0, E_INVALID_ID).

Definition CoSetTmrCnt (i cnt reload : Z) (k : kernel) : option (Z * kernel) :=
  if negb (tmr_used i k) then Some (E_INVALID_ID, k)
  else
    let k := upd_tmr i (fun t => t <| tmrCnt := cnt |> <| tmrReload := reload |>) k in
    k ← (if tmrRunning (ktmr k i) then k ← RemoveTmrList i k; InsertTmrList i k else Some k);
    Some (E_OK, k).

(** The first timer of the list has expired. *)
Definition serve_timer (i : Z) (k : kernel) : option kernel :=
  let id := tmrID (ktmr k i) in
  if tmrType (ktmr k i) =? TMR_TYPE_ONE_SHOT then
    k ← RemoveTmrList id k;
    let k := upd_tmr i (fun t => t <| tmrRunning := false |>) k in
    timer_call (tmrCallBack (ktmr k i)) k
  else if tmrType (ktmr k i) =? TMR_TYPE_PERIODIC then
    k ← RemoveTmrList id k;
    let k := upd_tmr i (fun t => t <| tmrCnt := tmrReload t |>) k in
    k ← InsertTmrList id k;
    timer_call (tmrCallBack (ktmr k i)) k
  else Some k.

(** [TmrDispose]. A callback may start timers, so nothing bounds the number of
    iterations but the fuel. *)
Fixpoint TmrDispose (fuel : nat) (k : kernel) : option kernel :=
  match TmrList (tmr k) with
  | None => Some k
  | Some i =>
      if tmrCnt (ktmr k i) =? 0 then
        match fuel with
        | O => None
        | S fuel => k ← serve_timer i k; TmrDispose fuel k
        end
      else Some k
  end.

Definition isr_TmrDispose (fuel : nat) (k : kernel) : option kernel :=
  if 1 <? OSSchedLock (sch k)
  then Some (k <| ServiceReq := (ServiceReq k) <| IsrReq := true |> <| TimerReq := true |> |>)
  else TmrDispose fuel k.
End timer.
