(* ===== verification/CoService.v ===== *)
(** * Service requests, system tick and start-up (CoOS/kernel/serviceReq.c, core.c, portable/arch.c)

    The requests that interrupts leave for the kernel, the tick interrupt, the
    initialisation of the kernel, and the functions that interrupts call in
    place of those of [CoSync] and [CoFlags]. [OsSchedUnlock] answers the
    requests and they call it again, but with the schedule locked, where it
    only counts; the knot is tied at two levels. *)

From stdpp Require Import gmap.
From S2P Require Import Prelude Dll CoTypes CoSched CoCore CoTask CoSync CoFlags CoTimer.

(** ** The queue of requests *)

Definition sqc_zero : SQC := mk_sqc SEM_REQ 0 0.
Definition set_srq (f : SRQ -> SRQ) (k : kernel) : kernel := k <| ServiceReq ::= f |>.

(** [Inc8] gives the value before the increment. *)
Definition InsertInSRQ (type : request_type) (id arg : Z) (q : SRQ) : bool * SRQ :=
  if CFG_MAX_SERVICE_REQUEST <=? srq_cnt q then (false, q)
  else
    let cnt := srq_cnt q in
    (true, q <| srq_cnt := u8 (cnt + 1) |> <| IsrReq := true |>
             <| cell := <[(cnt + srq_head q) mod CFG_MAX_SERVICE_REQUEST := mk_sqc type id arg]> (cell q) |>).

(** One cell is extracted. *)
Definition srq_pop (q : SRQ) : SQC * SRQ :=
  (default sqc_zero (cell q !! srq_head q),
   q <| srq_head := (srq_head q + 1) mod CFG_MAX_SERVICE_REQUEST |>
     <| srq_cnt := u8 (srq_cnt q - 1) |>).

Section service.
Context `{Port}.

(** Iterations of [TmrDispose] and of the loop over the requests. *)
Variable fuel : nat.

Definition serve_request (c : SQC) (k : kernel) : option kernel :=
  '(_, k) ← (match sqc_type c with
             | SEM_REQ => CoPostSem (sqc_id c) k
             | MBOX_REQ => CoPostMail (sqc_id c) (sqc_arg c) k
             | FLAG_REQ => CoSetFlag (sqc_id c) k
             | QUEUE_REQ => CoPostQueueMail (sqc_id c) (sqc_arg c) k
             end);
  Some k.

Fixpoint serve_requests (n : nat) (k : kernel) : option kernel :=
  if srq_cnt (ServiceReq k) =? 0 then Some k
  else
    match n with
    | O => None
    | S n =>
        let '(c, q) := srq_pop (ServiceReq k) in
        k ← serve_request c (k <| ServiceReq := q |>);
        serve_requests n k
    end.

Definition RespondSRQ (k : kernel) : option kernel :=
  k ← (if TimeReq (ServiceReq k) then
         k ← TimeDispose k;
         Some (set_srq (fun q => q <| TimeReq := false |>) k)
       else Some k);
  k ← (if TimerReq (ServiceReq k) then
         k ← TmrDispose fuel k;
         Some (set_srq (fun q => q <| TimerReq := false |>) k)
       else Some k);
  k ← serve_requests fuel k;
  Some (if srq_cnt (ServiceReq k) =? 0
        then set_srq (fun q => q <| IsrReq := false |>) k else k).

(** ** Calls from interrupts *)

Definition isr_post (type : request_type) (id arg : Z) (call : kernel -> option (Z * kernel))
  (k : kernel) : option (Z * kernel) :=
  if 0 <? OSSchedLock (sch k) then
    let '(done, q) := InsertInSRQ type id arg (ServiceReq k) in
    Some (if done : bool then E_OK else E_SEV_REQ_FULL, k <| ServiceReq := q |>)
  else call k.

Definition isr_PostSem (id : Z) (k : kernel) : option (Z * kernel) :=
  isr_post SEM_REQ id 0 (CoPostSem id) k.
Definition isr_PostMail (id mail : Z) (k : kernel) : option (Z * kernel) :=
  isr_post MBOX_REQ id mail (CoPostMail id mail) k.
Definition isr_SetFlag (id : Z) (k : kernel) : option (Z * kernel) :=
  isr_post FLAG_REQ id 0 (CoSetFlag id) k.
Definition isr_PostQueueMail (id mail : Z) (k : kernel) : option (Z * kernel) :=
  isr_post QUEUE_REQ id mail (CoPostQueueMail id mail) k.

(** ** The tick (arch.c) *)

(** The head of the delay list counts down. *)
Definition tick_delays (k : kernel) : option kernel :=
  match DlyList (sch k) with
  | None => Some k
  | Some t =>
      if 1 <? delayTick (ktcb k t) then Some (upd_task t (fun b => set_delay (delayTick b - 1) b) k)
      else isr_TimeDispose (upd_task t (set_delay 0) k)
  end.

Definition tick_timers (k : kernel) : option kernel :=
  match TmrList (tmr k) with
  | None => Some k
  | Some i =>
      if 1 <? tmrCnt (ktmr k i) then Some (upd_tmr i (fun t => set_cnt (tmrCnt t - 1) t) k)
      else isr_TmrDispose fuel (upd_tmr i (set_cnt 0) k)
  end.

Definition SysTick_Handler (k : kernel) : option kernel :=
  let k := OsSchedLock k in
  let k := k <| sch := (sch k) <| OSTickCnt := u64 (OSTickCnt (sch k) + 1) |> |> in
  k ← tick_delays k;
  k ← tick_timers k;
  OsSchedUnlock (k <| sch := (sch k) <| TaskSchedReq := true |> |>).

(** ** Start-up (core.c) *)

(** [CoCreateTask] of CoOS.h *)
Definition CoCreateTask (task argv pr stk stkSz : Z) (k : kernel) : option (Z * kernel) :=
  CreateTask task argv (Z.lor pr (Z.land (Z.shiftl stkSz 8) 1048320)) stk k.

(** [CoCreateKheap] of kernelHeap.c; [heap] is the address of the array. *)
Definition CoCreateKheap (heap : Z) (k : kernel) : kernel :=
  let k := k <| mem := (mem k) <| heapStart := heap |> <| heapEnd := u32 (heap + KHEAP_SIZE * 4) |>
                               <| FMBlist := heap |> |> in
  st (heap + 8) 0 (st (heap + 4) 0 (st heap 0 k)).

(** [idle] is the address of [CoIdleTask], [idle_stk] of its stack. The
    registers that [InitSysTick] and [InitInt] write are not modelled. *)
Definition CoInitOS (idle idle_stk heap : Z) (k : kernel) : option kernel :=
  let k := CreateTCBList k in
  let k := CreateEventList k in
  let k := CoCreateKheap heap k in
  let k := OsSchedLock k in
  '(_, k) ← CoCreateTask idle 0 CFG_LOWEST_PRIO (idle_stk + 4 * (CFG_IDLE_STACK_SIZE - 1)) CFG_IDLE_STACK_SIZE k;
  Some k.

Definition CoStartOS (k : kernel) : option kernel :=
  let k := k <| sch := (sch k) <| TCBRunning := Some 0 |> <| TCBNext := Some 0 |> |> in
  let k := upd_task 0 (set_state TASK_RUNNING) k in
  let k := k <| sch ::= RemoveFromTCBRdyList 0 |> in
  OsSchedUnlock k.

(** The pending task switch, taken when the call or the interrupt has ended.
    [psp] is the stack pointer that the hardware has for the outgoing task. *)
Definition settle (psp : Z) (k : kernel) : option kernel :=
  if pendsv (sch k) then on_sched (PendSV_Handler psp) k else Some k.
End service.

(** ** The kernel that answers its requests

    With the schedule locked twice a request is never answered, so the inner
    level needs no answer of its own. *)
#[local] Instance locked_port (null : Z) (call : Z -> kernel -> option kernel) : Port :=
  {| prio_at_null := null; timer_call := call; respond _ := None |}.

Definition coos (null : Z) (call : Z -> kernel -> option kernel) (fuel : nat) : Port :=
  {| prio_at_null := null; timer_call := call;
     respond := RespondSRQ (H := locked_port null call) fuel |}.
