(* ===== verification/CoRun.v ===== *)
(** * Runs of the kernel: tasks, delays and ticks

    [calm] describes the kernel between calls: the task switch has been taken,
    the schedule is unlocked, and the running task is a most urgent one. The
    calls of this file keep it, so it holds in every state the kernel reaches
    through them; a delayed task wakes at its tick. *)

From stdpp Require Import gmap.
From S2P Require Import Prelude Dll CoTypes CoSched CoInv CoPreempt CoCore CoTask.
From S2P Require Import CoSync CoFlags CoTimer CoService.

Section run.
Context `{Port}.

(** ** Facts of the blocks that only depend on [ident] *)

(** The task waits for no event, flag or mutex. *)
Definition plain_tcb (b : OSTCB) : Prop :=
  eventID b = INVALID_ID /\ pnode b = NO_NODE /\ mutexID b = INVALID_ID.

Definition plain (s : sched) (fre : list Z) : Prop :=
  (forall t, is_task t -> taskID (tcb s t) = t) /\
  forall t, is_task t -> t ∉ fre -> plain_tcb (tcb s t).

Lemma ident_fields a b : ident a = ident b ->
  eventID a = eventID b /\ pnode a = pnode b /\ mutexID a = mutexID b /\ taskID a = taskID b /\
  prio a = prio b /\ stkPtr a = stkPtr b /\ stack a = stack b.
Proof. destruct a, b. by intros [=]. Qed.

Lemma plain_ident s s' fre :
  (forall i, ident (tcb s' i) = ident (tcb s i)) -> plain s fre -> plain s' fre.
Proof.
  intros Hi [H1 H2]. split.
  - intros t Ht. destruct (ident_fields _ _ (Hi t)) as (_ & _ & _ & -> & _). by apply H1.
  - intros t Ht Hf. destruct (ident_fields _ _ (Hi t)) as (E1 & E2 & E3 & _).
    unfold plain_tcb. rewrite E1, E2, E3. by apply H2.
Qed.

Lemma stack_ok_ident k a b : ident a = ident b -> stack_ok k a = stack_ok k b.
Proof.
  intros Hi. destruct (ident_fields _ _ Hi) as (_ & _ & _ & _ & _ & E1 & E2).
  unfold stack_ok. by rewrite E1, E2.
Qed.

(** No stack of a task has overflowed. *)
Definition stacks_ok (c : Z) (fre : list Z) (k : kernel) : Prop :=
  forall t, is_task t -> t = c \/ t ∉ fre -> stack_ok k (ktcb k t) = true.

(** ** The kernel between calls, and with the schedule locked once *)

Record calm (c : Z) (k : kernel) (fre rdy dly : list Z) : Prop := {
  ca_run : running_ok c (sch k) fre rdy dly;
  ca_urgent : urgent c (sch k) rdy;
  ca_plain : plain (sch k) fre;
  ca_times : Forall (fun p => 0 < p.2) (expiries (tdelay (sch k)) 0 dly);
  ca_cpu : TCBRunning (sch k) = Some c /\ TCBNext (sch k) = Some c;
  ca_idle : OSSchedLock (sch k) = 0 /\ OSIntNesting (sch k) = 0 /\ pendsv (sch k) = false;
  ca_quiet : IsrReq (ServiceReq k) = false;
  ca_req : TaskSchedReq (sch k) = false \/ rdy = []
}.

Record locked (c : Z) (k : kernel) (fre rdy dly : list Z) : Prop := {
  lo_run : running_ok c (sch k) fre rdy dly;
  lo_urgent : TaskSchedReq (sch k) = true \/ urgent c (sch k) rdy;
  lo_plain : plain (sch k) fre;
  lo_times : Forall (fun p => 0 < p.2) (expiries (tdelay (sch k)) 0 dly);
  lo_cpu : TCBRunning (sch k) = Some c /\ TCBNext (sch k) = Some c;
  lo_lock : OSSchedLock (sch k) = 1 /\ OSIntNesting (sch k) = 0 /\ pendsv (sch k) = false;
  lo_quiet : IsrReq (ServiceReq k) = false
}.

(** The end of a call: the schedule is unlocked and the switch is taken. [psp]
    is the stack pointer of the running task. *)
Definition finish (psp : Z) (k : kernel) : option kernel := settle psp k.

Definition pointer_ok (psp c : Z) (k : kernel) : Prop := stack (ktcb k c) <= u32 (psp - 32).

(** What a call leaves alone. *)
Record untouched (k k' : kernel) : Prop := {
  un_stack : forall t, stack (ktcb k' t) = stack (ktcb k t);
  un_mem : mem k' = mem k;
  un_tmr : tmr k' = tmr k;
  un_prio : forall t, tprio (sch k') t = tprio (sch k) t
}.

#[export] Instance untouched_preorder : PreOrder untouched.
Proof.
  split; [by split|]. intros a b d [A1 A2 A3 A4] [B1 B2 B3 B4].
  split; [intros t; by rewrite B1|by rewrite B2|by rewrite B3|intros t; by rewrite B4].
Qed.


(** The states of the free blocks are left alone. *)
Definition free_kept (fre : list Z) (k k' : kernel) : Prop :=
  forall t, t ∈ fre -> tstate (sch k') t = tstate (sch k) t.

Lemma calm_free c k fre rdy dly t :
  calm c k fre rdy dly -> t ∈ fre -> t ∉ rdy /\ t ∉ dly /\ t <> c.
Proof.
  intros [[Hok (_ & _ & H3) _ _] [Hst _] _ _ _ _ _ _] Ht.
  pose proof (ok_apart_rdy _ _ _ _ Hok) as (_ & _ & _ & N4). destruct (N4 t Ht) as [N5 N6].
  split; [done|]. split; [done|]. intros ->. by apply (H3 Hst).
Qed.

(** ** Unlocking *)

Lemma PendSV_spec (psp : Z) (s : sched) (c c' : Z) :
  TCBRunning s = Some c -> TCBNext s = Some c' ->
  exists s', PendSV_Handler psp s = Some s' /\ same_view s s' /\
    (forall i, tcb s' i = if decide (i = c /\ c <> c') then (tcb s i) <| stkPtr := u32 (psp - 32) |> else tcb s i) /\
    TCBRunning s' = Some c' /\ TCBNext s' = Some c' /\ OSSchedLock s' = 0 /\ pendsv s' = false /\
    OSIntNesting s' = OSIntNesting s /\ OSTickCnt s' = OSTickCnt s /\ TaskSchedReq s' = TaskSchedReq s.
Proof.
  intros H1 H2. unfold PendSV_Handler. rewrite H1, H2. cbn [mbind option_bind].
  eexists. split; [reflexivity|]. destruct (Z.eqb_spec c c') as [<-|Hne].
  - split; [by split|]. split; [|done]. intros i. rewrite decide_False; [done|]. by intros [_ ?].
  - set (f := fun t : OSTCB => t <| stkPtr := u32 (psp - 32) |>).
    assert (forall i, tcb (upd_tcb c f s <| TCBRunning := Some c' |> <| OSSchedLock := 0 |> <| pendsv := false |>) i
      = if decide (i = c) then f (tcb s i) else tcb s i) as E.
    { intros i. rewrite tcb_upd, (tcb_same s) by done. repeat case_decide; congruence. }
    split; [split; [intros i|done..]|split; [intros i|done]].
    + unfold f in E. rewrite (tcb_same (upd_tcb c f s <| TCBRunning := Some c' |> <| OSSchedLock := 0 |> <| pendsv := false |>)) by done.
      unfold f. rewrite E. by case_decide.
    + rewrite (tcb_same (upd_tcb c f s <| TCBRunning := Some c' |> <| OSSchedLock := 0 |> <| pendsv := false |>)) by done.
      rewrite E. repeat case_decide; tauto.
Qed.

(** The switch after a schedule that has set [pendsv] if the task changes. *)
Lemma finish_spec (psp : Z) (k : kernel) (c c' : Z) (fre rdy dly : list Z) :
  running_ok c' (sch k) fre rdy dly -> urgent c' (sch k) rdy -> plain (sch k) fre ->
  Forall (fun p => 0 < p.2) (expiries (tdelay (sch k)) 0 dly) ->
  TCBRunning (sch k) = Some c -> is_task c -> TCBNext (sch k) = Some c' -> pendsv (sch k) = true \/ c' = c ->
  OSSchedLock (sch k) = 0 -> OSIntNesting (sch k) = 0 ->
  IsrReq (ServiceReq k) = false -> TaskSchedReq (sch k) = false \/ rdy = [] -> stacks_ok c fre k -> pointer_ok psp c k ->
  exists k', finish psp k = Some k' /\ calm c' k' fre rdy dly /\ stacks_ok c' fre k' /\ untouched k k' /\
    (forall i, tdelay (sch k') i = tdelay (sch k) i) /\ (forall i, tstate (sch k') i = tstate (sch k) i) /\
    OSTickCnt (sch k') = OSTickCnt (sch k).
Proof.
  intros Hru Hurg Hpl Hti Hrun Hct Hnext Hpend Hlock Hnest Hisr Hreq Hstk Hptr. unfold finish, settle.
  assert (c' ∉ fre) as Hf' by (destruct Hru as [_ (_ & _ & Hf) _ _]; apply Hf, Hurg).
  assert (stacks_ok c' fre k) as Hstk' by (intros t Ht [->|Hf]; apply Hstk; auto).
  destruct (pendsv (sch k)) eqn:Ep.
  - destruct (PendSV_spec psp (sch k) c c' Hrun Hnext) as (s' & E & Hv & Ht & R1 & R2 & R3 & R4 & R5 & R6 & R7).
    unfold on_sched. rewrite E. cbn [mbind option_bind]. exists (k <| sch := s' |>). split; [done|].
    destruct (view_fields _ _ Hv) as (Vp & Vs & Vd & Vn & Vr).
    split; [|split; [|split; [|done]]].
    + split; cbn; try done.
      * by apply (running_view c' (sch k)).
      * by apply (urgent_view c' (sch k)).
      * destruct Hpl as [P1 P2]. split.
        -- intros t Htk. transitivity (taskID (tcb (sch k) t)); [rewrite Ht; by destruct (decide _)|by apply P1].
        -- intros t Htk Htf. specialize (P2 t Htk Htf). rewrite Ht. by destruct (decide _).
      * by rewrite (expiries_ext (tdelay (sch k))).
      * by rewrite R3, R5, R4.
      * by rewrite R7.
    + intros t Htk Htf. unfold stack_ok, ktcb. cbn [sch update updater]. rewrite Ht. destruct (decide _) as [Hd|Hd].
      * destruct Hd as [-> _]. pose proof (Hstk c Htk (or_introl eq_refl)) as Hs. unfold stack_ok, ktcb in Hs.
        apply andb_true_iff in Hs as [_ Hs]. apply andb_true_iff. split; [|exact Hs].
        apply Z.leb_le. exact Hptr.
      * exact (Hstk' t Htk Htf).
    + split; [intros t|done|done|intros t; apply Vp]. unfold ktcb. cbn [sch update updater]. rewrite Ht. by destruct (decide _).
  - destruct Hpend as [|<-]; [done|]. exists k. split; [done|]. split; [|done]. by split.
Qed.

Lemma unlock_locked (c : Z) (k : kernel) (fre rdy dly : list Z) (psp : Z) :
  locked c k fre rdy dly -> stacks_ok c fre k -> pointer_ok psp c k ->
  exists k1 k2 c' rdy', OsSchedUnlock k = Some k1 /\ finish psp k1 = Some k2 /\
    calm c' k2 fre rdy' dly /\ stacks_ok c' fre k2 /\ untouched k k2 /\
    (forall i, tdelay (sch k2) i = tdelay (sch k) i) /\
    OSTickCnt (sch k2) = OSTickCnt (sch k) /\
    (forall i, i ∉ rdy -> i <> c \/ tstate (sch k) c <> TASK_RUNNING ->
      i <> c' /\ tstate (sch k2) i = tstate (sch k) i) /\
    (forall i, i ∈ rdy -> i = c' \/ i ∈ rdy').
Proof.
  intros [Hru Hurg Hpl Hti [Hrun Hnext] (Hlock & Hnest & Hpend) Hisr] Hstk Hptr.
  unfold OsSchedUnlock. rewrite Hlock, Hisr. cbn [mbind option_bind Z.eqb Pos.eqb].
  destruct (TaskSchedReq (sch k)) eqn:Er.
  - destruct (ru_task _ _ _ _ _ Hru) as (Hc & _).
    destruct (Schedule_spec prio_at_null (stack_ok k) (stack_ok_ident k) (sch k) c fre rdy dly Hru Hrun Hnext)
      as (s' & c' & rdy' & E & [S1 S2 S3 S4 S5 S6 S7 S8 S9 S10]); [lia|done|by apply Hstk; [|left]|].
    unfold KSchedule, on_sched. rewrite E. cbn [mbind option_bind].
    set (k1 := k <| sch := s' |> <| sch := (sch (k <| sch := s' |>)) <| OSSchedLock := 0 |> |>).
    unfold clock in S5. injection S5 as C1 C2 C3 C4 C5 C6.
    assert (same_view s' (sch k1)) as Hv by (by split).
    destruct (view_fields _ _ Hv) as (Vp & Vs & Vd & _).
    assert (forall i, ident (tcb (sch k1) i) = ident (tcb (sch k) i)) as Hid by (intros i; apply (S6 i)).
    destruct (finish_spec psp k1 c c' fre rdy' dly) as (k2 & F1 & F2 & F3 & F4 & F5 & F6 & F7); try done.
    + by apply (running_view c' s').
    + by apply (plain_ident (sch k)).
    + rewrite (expiries_ext (tdelay (sch k))); [done|]. intros x _. exact (S7 x).
    + by rewrite <- Hrun.
    + destruct S4 as [S4|[S4 _]]; [by left|by right].
    + by rewrite <- Hnest.
    + intros t Ht Htf. change (stack_ok k (tcb (sch k1) t) = true).
      rewrite (stack_ok_ident k _ _ (Hid t)). by apply Hstk.
    + destruct (ident_fields _ _ (Hid c)) as (_ & _ & _ & _ & _ & _ & E2).
      unfold pointer_ok, ktcb. rewrite E2. apply Hptr.
    + exists k1, k2, c', rdy'. split; [done|]. split; [done|]. split; [done|]. split; [done|]. split.
      * transitivity k1; [|done]. split; [|done|done|].
        -- intros t. by destruct (ident_fields _ _ (Hid t)) as (_ & _ & _ & _ & _ & _ & ?).
        -- intros t. by destruct (ident_fields _ _ (Hid t)) as (_ & _ & _ & _ & ? & _).
      * split; [intros i; rewrite F5; exact (S7 i)|]. split; [by rewrite F7, <- C3|].
        split; [|exact S9]. intros i Hi Hst. rewrite F6. by apply S8.
  - destruct Hurg as [|Hurg]; [done|].
    set (k1 := k <| sch := (sch k) <| OSSchedLock := 0 |> |>).
    destruct (finish_spec psp k1 c c fre rdy dly) as (k2 & F1 & F2 & F3 & F4 & F5 & F6 & F7); try done.
    + apply (running_view c (sch k)); [by split|done].
    + apply (ru_task _ _ _ _ _ Hru).
    + by right.
    + by left.
    + exists k1, k2, c, rdy. split; [done|]. split; [done|]. split; [done|]. split; [done|]. split.
      * transitivity k1; [by split|done].
      * split; [done|]. split; [done|]. split; [|intros; by right]. intros i _ [?|Hst]; [done|by destruct Hurg].
Qed.

(** ** A call, from its lock to the task switch after it *)

(** [k2] is [k] with the schedule locked and some tasks moved between lists. *)
Record held (k k2 : kernel) : Prop := {
  he_ident : forall i, ident (tcb (sch k2) i) = ident (tcb (sch k) i);
  he_cpu : TCBRunning (sch k2) = TCBRunning (sch k) /\ TCBNext (sch k2) = TCBNext (sch k);
  he_lock : OSSchedLock (sch k2) = u8 (OSSchedLock (sch k) + 1) /\
    OSIntNesting (sch k2) = OSIntNesting (sch k) /\ pendsv (sch k2) = pendsv (sch k);
  he_quiet : ServiceReq k2 = ServiceReq k /\ tmr k2 = tmr k;
  he_mem : mem k2 = mem k
}.

(** [k4] is the state after the call has returned and the task was switched. *)
Record returned (c c' : Z) (k k2 k4 : kernel) (fre rdy rdy' dly : list Z) : Prop := {
  re_calm : calm c' k4 fre rdy' dly;
  re_stacks : stacks_ok c' fre k4;
  re_untouched : untouched k k4;
  re_delay : forall i, tdelay (sch k4) i = tdelay (sch k2) i;
  re_tick : OSTickCnt (sch k4) = OSTickCnt (sch k2);
  re_old : forall i, i ∉ rdy -> i <> c \/ tstate (sch k2) c <> TASK_RUNNING ->
    i <> c' /\ tstate (sch k4) i = tstate (sch k2) i;
  re_ready : forall i, i ∈ rdy -> i = c' \/ i ∈ rdy'
}.

Lemma call_spec (c : Z) (k k2 : kernel) (fre0 rdy0 dly0 fre rdy dly : list Z) (psp : Z) :
  calm c k fre0 rdy0 dly0 -> stacks_ok c fre0 k -> pointer_ok psp c k -> held k k2 ->
  (forall t, t ∈ fre0 -> t ∈ fre) ->
  running_ok c (sch k2) fre rdy dly -> (TaskSchedReq (sch k2) = true \/ urgent c (sch k2) rdy) ->
  Forall (fun p => 0 < p.2) (expiries (tdelay (sch k2)) 0 dly) ->
  exists k3 k4 c' rdy', OsSchedUnlock k2 = Some k3 /\ finish psp k3 = Some k4 /\
    returned c c' k k2 k4 fre rdy rdy' dly.
Proof.
  intros [_ _ Hpl _ [Hrun Hnext] (Hlock & Hnest & Hpend) Hisr _] Hstk Hptr
    [H1 [H2 H3] (H4 & H5 & H6) [H7 H8] H9] Hfre Hru Hurg Hti.
  destruct (unlock_locked c k2 fre rdy dly psp) as (k3 & k4 & c' & rdy' & U1 & U2 & U3 & U4 & U5 & U6 & U7 & U8 & U9).
  - split; try done.
    + apply (plain_ident (sch k)); [done|]. destruct Hpl as [P1 P2]. split; [done|].
      intros t Ht Hf. apply P2; [done|]. by intros ?%Hfre.
    + by rewrite H2, H3.
    + by rewrite H4, H5, H6, Hlock.
    + by rewrite H7.
  - intros t Ht Htf. assert (t = c \/ t ∉ fre0) as Htf0 by (destruct Htf; [by left|right; by intros ?%Hfre]).
    specialize (Hstk t Ht Htf0). unfold stack_ok, ktcb, ld in *.
    destruct (ident_fields _ _ (H1 t)) as (_ & _ & _ & _ & _ & E1 & E2). by rewrite H9, E1, E2.
  - destruct (ident_fields _ _ (H1 c)) as (_ & _ & _ & _ & _ & _ & E2).
    unfold pointer_ok, ktcb. rewrite E2. apply Hptr.
  - exists k3, k4, c', rdy'. split; [done|]. split; [done|]. split; try done.
    transitivity k2; [|done]. split; [|done|done|].
    + intros t. by destruct (ident_fields _ _ (H1 t)) as (_ & _ & _ & _ & _ & _ & ?).
    + intros t. by destruct (ident_fields _ _ (H1 t)) as (_ & _ & _ & _ & ? & _).
Qed.
End run.
