(* ===== verification/CoTick.v ===== *)
(** * The system tick (CoOS/portable/arch.c, [SysTick_Handler]; time.c, [TimeDispose])

    The effect of a tick on the lists of [CoInv]: every sleeping task has one
    tick less to sleep, those that have none left are ready, and the running
    task is again a most urgent one. *)

From stdpp Require Import gmap.
From S2P Require Import Prelude Dll CoTypes CoSched CoInv CoPreempt CoCore CoTask.
From S2P Require Import CoSync CoFlags CoTimer CoService CoRun.

(** ** Remaining ticks *)

Definition after_tick (E : list (Z * Z)) : list (Z * Z) :=
  filter (fun p => 0 < p.2) (map (fun p => (p.1, p.2 - 1)) E).

Lemma expiries_pos D base l :
  (forall x, x ∈ l -> 0 <= D x) -> 0 < base -> Forall (fun p => 0 < p.2) (expiries D base l).
Proof.
  revert base. induction l as [|x l IH]; intros base H Hb; [by constructor|].
  assert (0 <= D x) by (apply H, elem_of_cons; by left). cbn [expiries]. constructor; [cbn; lia|].
  apply IH; [|lia]. intros y Hy. apply H, elem_of_cons. by right.
Qed.

Lemma expiries_nonneg D base l :
  (forall x, x ∈ l -> 0 <= D x) -> 0 <= base -> Forall (fun p => 0 <= p.2) (expiries D base l).
Proof.
  revert base. induction l as [|x l IH]; intros base H Hb; [by constructor|].
  assert (0 <= D x) by (apply H, elem_of_cons; by left). cbn [expiries]. constructor; [cbn; lia|].
  apply IH; [|lia]. intros y Hy. apply H, elem_of_cons. by right.
Qed.

Lemma expiries_shift D base d l :
  expiries D (base + d) l = map (fun p => (p.1, p.2 + d)) (expiries D base l).
Proof.
  revert base. induction l as [|x l IH]; intros base; [done|]. cbn [expiries map fst snd].
  rewrite <- IH. f_equal; [f_equal; lia|f_equal; lia].
Qed.

Lemma filter_pos (E : list (Z * Z)) : Forall (fun p => 0 < p.2) E -> filter (fun p => 0 < p.2) E = E.
Proof.
  induction 1 as [|p E Hp _ IH]; [done|]. rewrite filter_cons_True by done. by rewrite IH.
Qed.

(** ** The woken tasks *)

Record disposed (s s' : sched) (fre rdy dly rdy' dly' : list Z) : Prop := {
  di_lists : lists_ok s' fre rdy' dly';
  di_ident : forall i, ident (tcb s' i) = ident (tcb s i);
  di_prio : forall i, tprio s' i = tprio s i;
  di_rest : rest s' = rest s;
  di_times : expiries (tdelay s') 0 dly' = filter (fun p => 0 < p.2) (expiries (tdelay s) 0 dly);
  di_ready : forall i, i ∈ rdy' <-> i ∈ rdy \/ (i, 0) ∈ expiries (tdelay s) 0 dly;
  di_state : forall i, tstate s' i = tstate s i \/
    (tstate s' i = TASK_READY /\ (i, 0) ∈ expiries (tdelay s) 0 dly);
  di_req : TaskSchedReq s = true -> TaskSchedReq s' = true
}.

Section tick.
Context `{Port}.

Lemma time_dispose_plain fuel (k : kernel) (t : Z) :
  DlyList (sch k) = Some t -> tdelay (sch k) t = 0 -> plain_tcb (ktcb k t) ->
  time_dispose (S fuel) k =
  (s ← dispose_body t (sch k); time_dispose fuel (k <| sch := s |>)).
Proof.
  intros Hd H0 (P1 & P2 & _). cbn [time_dispose]. rewrite Hd.
  unfold tdelay in H0. fold (ktcb k t) in H0. rewrite H0, P1, !Z.eqb_refl. cbn [mbind option_bind].
  rewrite P2. cbn [remove_node mbind option_bind].
  unfold dispose_body, insert_ready, on_sched, upd_task, ktcb. cbn [sch update updater].
  destruct (InsertToTCBRdyList _ _) as [s|]; [|done]. cbn [mbind option_bind].
  by destruct (DlyList s) eqn:Ed; cbn [sch update updater]; rewrite Ed.
Qed.

Lemma time_dispose_spec fuel (k : kernel) (fre rdy dly : list Z) :
  lists_ok (sch k) fre rdy dly -> plain (sch k) fre -> (length dly <= fuel)%nat ->
  exists s' rdy' dly', time_dispose fuel k = Some (k <| sch := s' |>) /\
    disposed (sch k) s' fre rdy dly rdy' dly'.
Proof.
  revert k rdy dly. induction fuel as [|fuel IH]; intros k rdy dly Hok Hpl Hlen.
  all: destruct dly as [|t l]; cbn [length] in Hlen; try lia.
  1, 2: (exists (sch k), rdy, []; split; [|split; try done; [intros i; split; [by left|by intros [?|?%elem_of_nil]]|by left]]).
  1, 2: cbn [time_dispose]; rewrite (dll_head _ _ _ _ (ok_dly _ _ _ _ Hok)); by destruct k.
  pose proof (dll_head _ _ _ _ (ok_dly _ _ _ _ Hok)) as Hh. cbn [first] in Hh.
  destruct (ok_delays _ _ _ _ Hok) as [Hnn _].
  assert (forall x, x ∈ l -> 0 <= tdelay (sch k) x) as Hnl by (intros x Hx; apply Hnn, elem_of_cons; by right).
  assert (0 <= tdelay (sch k) t) as Ht0 by (apply Hnn, elem_of_cons; by left).
  destruct (decide (tdelay (sch k) t = 0)) as [H0|H0].
  - destruct (dispose_lists (sch k) t fre rdy l Hok H0) as (s1 & E1 & L1 & [K1 K2 K3 K4] & X1 & Q1).
    assert (is_task t /\ t ∉ fre) as [Ht Hf].
    { pose proof (ok_apart_rdy _ _ _ _ Hok) as (_ & _ & _ & N4). split.
      - apply (ok_tasks _ _ _ _ Hok), elem_of_app. right. apply elem_of_app. right. apply elem_of_cons. by left.
      - intros Hc. apply (proj2 (N4 t Hc)), elem_of_cons. by left. }
    rewrite (time_dispose_plain fuel k t Hh H0 (proj2 Hpl t Ht Hf)), E1. cbn [mbind option_bind].
    set (k1 := k <| sch := s1 |>).
    destruct (IH k1 (insert_prio (tprio (sch k)) t rdy) l L1 (plain_ident _ _ _ K1 Hpl)) as (s' & rdy' & dly' & E & [D1 D2 D3 D4 D5 D6 D7 D8]);
      [lia|].
    exists s', rdy', dly'. split; [exact E|]. change (sch k1) with s1 in *.
    assert (expiries (tdelay (sch k)) 0 (t :: l) = (t, 0) :: expiries (tdelay (sch k)) 0 l) as EE
      by (cbn [expiries]; by rewrite H0).
    split; try done.
    + intros i. by rewrite D2.
    + intros i. by rewrite D3.
    + by rewrite D4.
    + by rewrite D5, X1, EE.
    + intros i. rewrite D6, X1, EE, elem_of_insert_prio, elem_of_cons. naive_solver.
    + intros i. rewrite EE, elem_of_cons, <- X1. destruct (D7 i) as [->|[-> Hi]]; [|naive_solver].
      rewrite K3. destruct (decide (i = t)) as [->|]; [right|left]; naive_solver.
    + auto.
  - assert (Forall (fun p => 0 < p.2) (expiries (tdelay (sch k)) 0 (t :: l))) as Hpos.
    { cbn [expiries]. constructor; [cbn; lia|]. apply expiries_pos; [done|lia]. }
    exists (sch k), rdy, (t :: l). split.
    + cbn [time_dispose]. rewrite Hh. unfold tdelay in H0. fold (ktcb k t) in H0.
      rewrite (proj2 (Z.eqb_neq _ _) H0). by destruct k.
    + split; try done; [by rewrite filter_pos|intros i|by left]. split; [by left|]. intros [?|Hi]; [done|].
      rewrite list.Forall_forall in Hpos. specialize (Hpos _ Hi). cbn in Hpos. lia.
Qed.

(** ** The count-down of the first delay *)

Record counted (s s1 : sched) (fre rdy dly : list Z) : Prop := {
  co_lists : lists_ok s1 fre rdy dly;
  co_ident : forall i, ident (tcb s1 i) = ident (tcb s i);
  co_prio : forall i, tprio s1 i = tprio s i;
  co_state : forall i, tstate s1 i = tstate s i;
  co_rest : rest s1 = rest s;
  co_times : expiries (tdelay s1) 0 dly = map (fun p => (p.1, p.2 - 1)) (expiries (tdelay s) 0 dly);
  co_req : TaskSchedReq s1 = TaskSchedReq s
}.

Lemma head_counted (s : sched) (t : Z) (fre rdy l : list Z) :
  lists_ok s fre rdy (t :: l) -> 0 < tdelay s t ->
  counted s (upd_tcb t (set_delay (tdelay s t - 1)) s) fre rdy (t :: l).
Proof.
  intros Hok Hpos. set (s1 := upd_tcb t (set_delay (tdelay s t - 1)) s).
  assert (forall i, tcb s1 i = if decide (t = i) then set_delay (tdelay s t - 1) (tcb s i) else tcb s i) as T1
    by (intros i; apply tcb_upd).
  assert (forall i, tdelay s1 i = if decide (t = i) then tdelay s t - 1 else tdelay s i) as D1
    by (intros i; unfold tdelay at 1; rewrite T1; by case_decide).
  destruct (ok_apart_rdy _ _ _ _ Hok) as (_ & N2 & _). apply list.NoDup_cons in N2 as [N2 _].
  destruct (ok_delays _ _ _ _ Hok) as [H1 H2].
  assert (forall x, x ∈ l -> tdelay s1 x = tdelay s x) as Dl.
  { intros x Hx. rewrite D1. rewrite decide_False; [done|]. by intros ->. }
  assert (forall f : OSTCB -> Z, (forall b d, f (set_delay d b) = f b) -> forall i, f (tcb s1 i) = f (tcb s i)) as F
    by (intros f Hf i; rewrite T1; case_decide; [apply Hf|done]).
  split; [| |by apply (F prio)| |done| |done].
  - apply (delay_lists s); try done.
    + split.
      * intros x Hx. rewrite D1. case_decide; [lia|by apply H1].
      * cbn [total] in *. rewrite D1, decide_True by done. rewrite (total_ext _ _ l Dl). lia.
    + intros i. unfold tprio, tstate, tnext, tprev. rewrite T1. by case_decide.
    + intros i Hi. rewrite D1. rewrite decide_False; [done|]. intros ->. apply Hi, elem_of_cons. by left.
  - intros i. rewrite T1. by case_decide.
  - intros i. unfold tstate. rewrite T1. by case_decide.
  - cbn [expiries map fst snd]. rewrite D1, decide_True by done.
    rewrite (expiries_ext (tdelay s)) by done. replace (0 + (tdelay s t - 1)) with (0 + tdelay s t + -1) by lia.
    rewrite expiries_shift. done.
Qed.

(** ** The tick *)

Record ticked (s s' : sched) (fre rdy dly rdy' dly' : list Z) : Prop := {
  ti_lists : lists_ok s' fre rdy' dly';
  ti_ident : forall i, ident (tcb s' i) = ident (tcb s i);
  ti_prio : forall i, tprio s' i = tprio s i;
  ti_rest : rest s' = rest s;
  ti_times : expiries (tdelay s') 0 dly' = after_tick (expiries (tdelay s) 0 dly);
  ti_ready : forall i, i ∈ rdy' <-> i ∈ rdy \/ (i, 1) ∈ expiries (tdelay s) 0 dly;
  ti_state : forall i, tstate s' i = tstate s i \/
    (tstate s' i = TASK_READY /\ (i, 1) ∈ expiries (tdelay s) 0 dly);
  ti_req : TaskSchedReq s = true -> TaskSchedReq s' = true
}.

Lemma elem_of_minus_one (i : Z) (E : list (Z * Z)) :
  (i, 0) ∈ map (fun p => (p.1, p.2 - 1)) E <-> (i, 1) ∈ E.
Proof.
  rewrite list_elem_of_fmap. split.
  - intros ([j d] & [= -> Hd] & Hin). by replace 1 with d by lia.
  - intros Hin. exists (i, 1). by split.
Qed.

Lemma counted_disposed s s1 s' fre rdy dly rdy' dly' :
  counted s s1 fre rdy dly -> disposed s1 s' fre rdy dly rdy' dly' -> ticked s s' fre rdy dly rdy' dly'.
Proof.
  intros [C1 C2 C3 C4 C5 C6 C7] [D1 D2 D3 D4 D5 D6 D7 D8]. split; [done| | | | | | |].
  - intros i. by rewrite D2.
  - intros i. by rewrite D3.
  - by rewrite D4.
  - by rewrite D5, C6.
  - intros i. by rewrite D6, C6, elem_of_minus_one.
  - intros i. rewrite <- C4, <- elem_of_minus_one, <- C6. apply D7.
  - intros Hr. apply D8. by rewrite C7.
Qed.

Lemma disposed_none s fre rdy dly :
  lists_ok s fre rdy dly -> Forall (fun p => 0 < p.2) (expiries (tdelay s) 0 dly) ->
  disposed s s fre rdy dly rdy dly.
Proof.
  intros Hok Hp. split; try done; [by rewrite filter_pos| |by left].
  intros i. split; [by left|]. intros [?|Hi]; [done|].
  rewrite list.Forall_forall in Hp. specialize (Hp _ Hi). cbn in Hp. lia.
Qed.

Lemma tick_delays_spec (k : kernel) (fre rdy dly : list Z) :
  lists_ok (sch k) fre rdy dly -> plain (sch k) fre -> OSSchedLock (sch k) = 1 ->
  Forall (fun p => 0 < p.2) (expiries (tdelay (sch k)) 0 dly) ->
  exists s' rdy' dly', tick_delays k = Some (k <| sch := s' |>) /\
    ticked (sch k) s' fre rdy dly rdy' dly'.
Proof.
  intros Hok Hpl Hlock Hpos. unfold tick_delays. pose proof (dll_head _ _ _ _ (ok_dly _ _ _ _ Hok)) as Hh.
  rewrite Hh. destruct dly as [|t l].
  - exists (sch k), rdy, []. split; [by destruct k|].
    apply (counted_disposed _ (sch k)); [by split|by apply disposed_none].
  - cbn [first]. cbn [expiries] in Hpos. pose proof (proj1 (proj1 (list.Forall_cons _ _ _) Hpos)) as H0.
    cbn [snd] in H0. rewrite Z.add_0_l in H0.
    pose proof (head_counted (sch k) t fre rdy l Hok H0) as Hc.
    set (s1 := upd_tcb t (set_delay (tdelay (sch k) t - 1)) (sch k)) in *.
    change (delayTick (ktcb k t)) with (tdelay (sch k) t). case_bool.
    + exists s1, rdy, (t :: l). split.
      * unfold upd_task, s1, upd_tcb, tdelay, ktcb. done.
      * apply (counted_disposed _ s1); [done|]. apply disposed_none; [apply Hc|].
        cbn [expiries]. destruct (ok_delays _ _ _ _ (co_lists _ _ _ _ _ Hc)) as [Hnn _].
        assert (tdelay s1 t = tdelay (sch k) t - 1) as Ht by (unfold tdelay at 1, s1; by rewrite tcb_upd_eq).
        rewrite Ht. constructor; [cbn; lia|]. apply expiries_pos; [|lia].
        intros x Hx. apply Hnn, elem_of_cons. by right.
    + assert (tdelay (sch k) t - 1 = 0) as Ez by lia. subst s1. rewrite Ez in *. set (s1 := upd_tcb t (set_delay 0) (sch k)) in *.
      unfold isr_TimeDispose. rewrite (proj2 (Z.ltb_ge _ _)) by (cbn; lia).
      set (k1 := upd_task t (set_delay 0) k).
      destruct (time_dispose_spec task_fuel k1 fre rdy (t :: l)) as (s' & rdy' & dly' & Et & Hd).
      * apply Hc.
      * apply (plain_ident (sch k)); [apply Hc|done].
      * apply (dly_length _ _ _ _ Hok).
      * exists s', rdy', dly'. split; [exact Et|]. by apply (counted_disposed _ s1).
Qed.

Lemma elem_of_expiries D base l i e : (i, e) ∈ expiries D base l -> i ∈ l.
Proof. intros Hi. rewrite <- (expiries_fst D base l). apply list_elem_of_fmap. by exists (i, e). Qed.

Lemma after_tick_pos E : Forall (fun p => 0 < p.2) (after_tick E).
Proof. apply list.Forall_forall. intros p Hp. by apply list_elem_of_filter in Hp as [? _]. Qed.

(** The running task is not asleep. *)
Lemma urgent_awake c s fre rdy dly : lists_ok s fre rdy dly -> urgent c s rdy -> c ∉ dly.
Proof. intros Hok [Hst _] Hd. apply (ok_asleep _ _ _ _ Hok) in Hd. by rewrite Hst in Hd. Qed.

Lemma ticked_running (s s' : sched) (c : Z) (fre rdy dly rdy' dly' : list Z) :
  running_ok c s fre rdy dly -> c ∉ dly -> ticked s s' fre rdy dly rdy' dly' ->
  running_ok c s' fre rdy' dly'.
Proof.
  intros [Hok (Hc1 & Hc3 & Hc2) Honly Hidle] Hcd [T1 T2 T3 T4 T5 T6 T7 T8].
  split; [done| | |].
  - split; [done|]. split; [rewrite T6; by intros [?|?%elem_of_expiries]|].
    intros Hr. apply Hc2. destruct (T7 c) as [E|[E _]]; [by rewrite <- E|by rewrite E in Hr].
  - intros t Ht Hf Hr. destruct (T7 t) as [E|[E _]]; [|by rewrite E in Hr].
    rewrite E in Hr. by apply Honly.
  - destruct Hidle as [H0|[-> H0]]; [left; apply T6; by left|]. right. split; [done|].
    destruct (T7 0) as [->|[_ Hi%elem_of_expiries]]; done.
Qed.

(** The tick interrupt and the task switch it leads to. *)
Definition tick (psp : Z) (fuel : nat) (k : kernel) : option kernel :=
  k ← SysTick_Handler fuel k; finish psp k.

(** The tick serves the timers, after which their state and the memory that
    their callbacks write are as [P] says; the callbacks leave the ends of the
    stacks alone. *)
Definition timers_tick (fuel : nat) (k : kernel) (c : Z) (fre : list Z) (P : tmrs -> memory -> Prop) : Prop :=
  forall s, OSSchedLock s = 1 -> exists t' m',
    tick_timers fuel (k <| sch := s |>) = Some (k <| sch := s |> <| tmr := t' |> <| mem := m' |>) /\
    P t' m' /\ stacks_ok c fre (k <| mem := m' |>).

Lemma tick_spec (psp : Z) (fuel : nat) (k : kernel) (c : Z) (fre rdy dly : list Z) (P : tmrs -> memory -> Prop) :
  calm c k fre rdy dly -> pointer_ok psp c k -> timers_tick fuel k c fre P ->
  exists k' c' rdy' dly', tick psp fuel k = Some k' /\ calm c' k' fre rdy' dly' /\
    stacks_ok c' fre k' /\ P (tmr k') (mem k') /\
    (forall t, stack (ktcb k' t) = stack (ktcb k t) /\ tprio (sch k') t = tprio (sch k) t) /\
    expiries (tdelay (sch k')) 0 dly' = after_tick (expiries (tdelay (sch k)) 0 dly) /\
    OSTickCnt (sch k') = u64 (OSTickCnt (sch k) + 1) /\
    (forall i, i ∈ rdy \/ (i, 1) ∈ expiries (tdelay (sch k)) 0 dly -> i = c' \/ i ∈ rdy') /\
    free_kept fre k k'.
Proof.
  intros Hcalm Hptr Htt. pose proof Hcalm as [Hru Hurg Hpl Hti _ (Hlock & _) _ _].
  pose proof (ru_lists _ _ _ _ _ Hru) as Hok.
  unfold tick, SysTick_Handler.
  set (k0 := (OsSchedLock k) <| sch := (sch (OsSchedLock k)) <| OSTickCnt := u64 (OSTickCnt (sch (OsSchedLock k)) + 1) |> |>).
  assert (same_view (sch k) (sch k0)) as Hv by (by split).
  destruct (tick_delays_spec k0 fre rdy dly) as (s' & rdy1 & dly' & E1 & Ht).
  { by apply (lists_ok_view (sch k)). }
  { exact Hpl. }
  { change (u8 (OSSchedLock (sch k) + 1) = 1). rewrite Hlock. reflexivity. }
  { exact Hti. }
  rewrite E1. cbn [mbind option_bind].
  change (k0 <| sch := s' |>) with (k <| sch := s' |>).
  pose proof (ti_rest _ _ _ _ _ _ _ Ht) as R. unfold rest in R. injection R as R1 R2 R3 R4 R5 R6 R7.
  destruct (Htt s') as (t' & m' & Et & HP & Hstk).
  { rewrite R6. change (u8 (OSSchedLock (sch k) + 1) = 1). rewrite Hlock. reflexivity. }
  rewrite Et.
  cbn [mbind option_bind]. set (kt := k <| tmr := t' |> <| mem := m' |>).
  set (k2 := kt <| sch := s' <| TaskSchedReq := true |> |>).
  change (exists k4 c' rdy' dly',
    (k ← OsSchedUnlock k2; finish psp k) = Some k4 /\ calm c' k4 fre rdy' dly' /\
    stacks_ok c' fre k4 /\ P (tmr k4) (mem k4) /\
    (forall t, stack (ktcb k4 t) = stack (ktcb k t) /\ tprio (sch k4) t = tprio (sch k) t) /\
    expiries (tdelay (sch k4)) 0 dly' = after_tick (expiries (tdelay (sch k)) 0 dly) /\
    OSTickCnt (sch k4) = u64 (OSTickCnt (sch k) + 1) /\
    (forall i, i ∈ rdy \/ (i, 1) ∈ expiries (tdelay (sch k)) 0 dly -> i = c' \/ i ∈ rdy') /\
    free_kept fre k k4).
  assert (running_ok c (sch k0) fre rdy dly) as Hru0.
  { by apply (running_view c (sch k)). }
  pose proof (ticked_running (sch k0) s' c fre rdy dly rdy1 dly' Hru0 (urgent_awake _ _ _ _ _ Hok Hurg) Ht) as Hru1.
  assert (same_view s' (sch k2)) as Hv2 by (by split).
  destruct Ht as [T1 T2 T3 _ T5 T6 T7 T8].
  assert (calm c kt fre rdy dly) as Hkt by (by destruct Hcalm).
  destruct (call_spec c kt k2 fre rdy dly fre rdy1 dly' psp Hkt Hstk Hptr) as (k3 & k4 & c' & rdy' & U1 & U2 & Hret).
  { split; [exact T2|exact (conj R3 R2)|exact (conj R6 (conj R5 R7))|done|done]. }
  { done. }
  { by apply (running_view c s'). }
  { by left. }
  { change (Forall (fun p => 0 < p.2) (expiries (tdelay s') 0 dly')). rewrite T5. apply after_tick_pos. }
  destruct Hret as [V1 V2 [W1 W2 W3 W4] V4 V5 V7 V6].
  exists k4, c', rdy', dly'. rewrite U1. cbn [mbind option_bind]. split; [done|]. split; [done|]. split; [done|].
  split; [by rewrite W2, W3|]. split; [intros t; split; [apply W1|apply W4]|]. split; [|split; [|split]].
  - rewrite (expiries_ext (tdelay s')) by (intros; apply V4). exact T5.
  - rewrite V5. exact R4.
  - intros i Hi. apply V6, T6. exact Hi.
  - intros i Hi. destruct (calm_free _ _ _ _ _ i Hcalm Hi) as (N1 & N2 & N3).
    assert ((i, 1) ∉ expiries (tdelay (sch k)) 0 dly) as N4 by (by intros ?%elem_of_expiries).
    destruct (V7 i) as [_ ->]; [|by left|].
    + rewrite T6. by intros [?|?].
    + destruct (T7 i) as [E|[_ ?]]; [exact E|done].
Qed.
End tick.
