(* ===== verification/CoCalls.v ===== *)
(** * Calls of tasks (CoOS/kernel/time.c, task.c)

    What the calls that move tasks between the ready list, the delay list and
    the free list do to a kernel in a [calm] state. *)

From stdpp Require Import gmap.
From S2P Require Import Prelude Dll CoTypes CoSched CoInv CoPreempt CoCore CoTask.
From S2P Require Import CoSync CoFlags CoTimer CoService CoRun CoTick.

Section calls.
Context `{Port}.

(** The running task is in no list. *)
Lemma running_loose c s fre rdy dly :
  running_ok c s fre rdy dly -> urgent c s rdy -> loose c fre rdy dly.
Proof.
  intros Hru Hurg. pose proof (urgent_awake _ _ _ _ _ (ru_lists _ _ _ _ _ Hru) Hurg) as Hd.
  destruct Hru as [_ (H1 & H2 & H3) _ _]. specialize (H3 (proj1 Hurg)). split; [done|].
  rewrite elem_of_app, (elem_of_app rdy). tauto.
Qed.

Lemma calm_lists c k fre rdy dly : calm c k fre rdy dly -> lists_ok (sch k) fre rdy dly.
Proof. intros Hc. apply Hc. Qed.

(** The schedule is locked once. *)
Lemma lock_calm c k fre rdy dly :
  calm c k fre rdy dly ->
  running_ok c (sch (OsSchedLock k)) fre rdy dly /\ urgent c (sch (OsSchedLock k)) rdy /\
  lists_ok (sch (OsSchedLock k)) fre rdy dly /\ loose c fre rdy dly /\ held k (OsSchedLock k).
Proof.
  intros Hc. assert (same_view (sch k) (sch (OsSchedLock k))) as Hv by (by split).
  destruct Hc as [H1 H2 _ _ _ _ _ _]. split; [by apply (running_view c (sch k))|]. split; [exact H2|].
  split; [apply (lists_ok_view (sch k)); [done|apply H1]|]. split; [by eapply running_loose|]. by split.
Qed.

(** The state changes by operations on the lists that touch nothing else. *)
Lemma held_sched k k0 (s' : sched) :
  held k k0 -> (forall i, ident (tcb s' i) = ident (tcb (sch k0) i)) -> rest s' = rest (sch k0) ->
  held k (k0 <| sch := s' |>).
Proof.
  intros [H1 [H2 H3] (H4 & H5 & H6) H7 H8] Hi Hr.
  destruct (rest_fields _ _ Hr) as (R1 & R2 & R3 & R4 & R5 & R6 & R7).
  split; [intros i; cbn; by rewrite Hi|cbn; by rewrite R2, R3|cbn; by rewrite R5, R6, R7|done|done].
Qed.

(** The running task has left the processor for the state [x]. *)
Lemma blocked_running s s' c fre rdy dly x dly' :
  running_ok c s fre rdy dly -> kept c x s s' -> x <> TASK_RUNNING -> lists_ok s' fre rdy dly' -> c <> 0 ->
  running_ok c s' fre rdy dly'.
Proof.
  intros [_ (H1 & H2 & H3) H4 H5] [_ _ K3 _] Hx Hok Hc0. split; [done| | |].
  - split; [done|]. split; [done|]. rewrite K3, decide_True by done. done.
  - intros t Ht Hf. rewrite K3. case_decide; [done|]. by apply H4.
  - destruct H5 as [H5|[? _]]; [by left|done].
Qed.

Lemma insert_time_perm t w l : insert_time t w l ≡ₚ (t, w) :: l.
Proof.
  induction l as [|[x e] l IH]; [done|]. cbn [insert_time]. case_bool; [done|].
  rewrite IH. apply Permutation_swap.
Qed.

(** ** CoTickDelay *)

Lemma CoTickDelay_spec (psp : Z) (k : kernel) (c ticks : Z) (fre rdy dly : list Z) :
  calm c k fre rdy dly -> stacks_ok c fre k -> pointer_ok psp c k -> c <> 0 -> 0 < ticks < 2 ^ 31 ->
  exists k3 k4 c' rdy' dly', CoTickDelay ticks k = Some (E_OK, k3) /\ finish psp k3 = Some k4 /\
    calm c' k4 fre rdy' dly' /\ stacks_ok c' fre k4 /\ untouched k k4 /\
    expiries (tdelay (sch k4)) 0 dly' = insert_time c ticks (expiries (tdelay (sch k)) 0 dly) /\
    OSTickCnt (sch k4) = OSTickCnt (sch k) /\
    (forall i, i ∈ rdy -> i = c' \/ i ∈ rdy') /\ free_kept fre k k4.
Proof.
  intros Hcalm Hstk Hptr Hc0 Htk.
  destruct (lock_calm c k fre rdy dly Hcalm) as (Hru & Hurg & Hok & Hloose & Hheld).
  pose proof Hcalm as [_ _ _ Hti [Hrun _] (Hlock & Hnest & _) _ _].
  destruct (sleep_lists (sch (OsSchedLock k)) c ticks fre rdy dly Hok Hloose Htk)
    as (s' & dly' & E & L & [K1 K2 K3 K4] & Hin & Hexp & Hreq).
  set (k2 := (OsSchedLock k) <| sch := s' |>).
  unfold CoTickDelay. rewrite Hnest, Hlock. cbn [Z.ltb Z.compare Z.eqb negb].
  assert (ticks =? INVALID_VALUE = false) as -> by (apply Z.eqb_neq; unfold INVALID_VALUE; lia).
  assert (ticks =? 0 = false) as -> by (apply Z.eqb_neq; lia).
  change (TCBRunning (sch (OsSchedLock k))) with (TCBRunning (sch k)). rewrite Hrun.
  cbn [mbind option_bind]. unfold on_sched. rewrite E. cbn [mbind option_bind]. fold k2.
  destruct (call_spec c k k2 fre rdy dly fre rdy dly' psp Hcalm Hstk Hptr) as (k3 & k4 & c' & rdy' & U1 & U2 & [V1 V2 V3 V4 V5 V6 V7]).
  - by apply held_sched.
  - done.
  - apply (blocked_running (sch (OsSchedLock k)) s' c fre rdy dly TASK_WAITING); done.
  - by left.
  - change (Forall (fun p => 0 < p.2) (expiries (tdelay s') 0 dly')). rewrite Hexp, insert_time_perm.
    constructor; [cbn; lia|exact Hti].
  - exists k3, k4, c', rdy', dly'. rewrite U1. cbn [mbind option_bind]. split; [done|].
    split; [done|]. split; [done|]. split; [done|]. split; [done|]. split; [|split; [|split]].
    + rewrite (expiries_ext (tdelay s')) by (intros; apply V4). exact Hexp.
    + rewrite V5. cbn. destruct (rest_fields _ _ K4) as (_ & _ & _ & R4 & _). exact R4.
    + exact V7.
    + intros i Hi. destruct (calm_free _ _ _ _ _ i Hcalm Hi) as (N1 & _ & N3).
      destruct (V6 i N1 (or_introl N3)) as [_ ->]. change (tstate s' i = tstate (sch k) i).
      rewrite K3. by rewrite decide_False.
Qed.

(** ** CoSuspendTask *)

Lemma tcb_ref_task t : is_task t -> tcb_ref t = Some t.
Proof. intros [H1 H2]. unfold tcb_ref. by rewrite (proj2 (Z.leb_le _ _) H1), (proj2 (Z.ltb_lt _ _) H2). Qed.

(** A task leaves the ready list for the state [x] while [c] runs. *)
Lemma removed_running s c t x fre l1 l2 dly :
  running_ok c s fre (l1 ++ t :: l2) dly -> urgent c s (l1 ++ t :: l2) -> t <> 0 ->
  x <> TASK_READY -> x <> TASK_RUNNING ->
  let s' := upd_tcb t (set_state x) (RemoveFromTCBRdyList t s) in
  running_ok c s' fre (l1 ++ l2) dly /\ urgent c s' (l1 ++ l2).
Proof.
  intros [Hok (H1 & H2 & H3) H4 H5] [Hst Hmin] Ht0 Hx Hx' s'.
  destruct (remove_lists s t x fre l1 l2 dly Hok Hx) as (L & [K1 K2 K3 K4] & Hl & _). fold s' in L, K2, K3.
  assert (forall i, i ∈ l1 ++ t :: l2 <-> i = t \/ i ∈ l1 ++ l2) as Iin
    by (intros i; rewrite !elem_of_app, elem_of_cons; tauto).
  assert (c <> t) as Hct by (intros ->; apply H2, Iin; by left).
  split; [split; [done| | |]|split].
  - split; [done|]. split; [intros Hc; apply H2, Iin; by right|]. rewrite K3. by rewrite decide_False.
  - intros i Hi Hf. rewrite K3. case_decide; [done|]. by apply H4.
  - rewrite K3, decide_False by done. rewrite Iin in H5. destruct H5 as [[?|?]|?]; [done|by left|by right].
  - rewrite K3. by rewrite decide_False.
  - intros i Hi. rewrite !K2. apply Hmin, Iin. by right.
Qed.

Lemma CoSuspendTask_other (psp : Z) (k : kernel) (c t : Z) (fre l1 l2 dly : list Z) :
  calm c k fre (l1 ++ t :: l2) dly -> stacks_ok c fre k -> pointer_ok psp c k -> t <> 0 ->
  exists k3 k4 c' rdy', CoSuspendTask t k = Some (E_OK, k3) /\ finish psp k3 = Some k4 /\
    calm c' k4 fre rdy' dly /\ stacks_ok c' fre k4 /\ untouched k k4 /\
    (forall i, tdelay (sch k4) i = tdelay (sch k) i) /\ OSTickCnt (sch k4) = OSTickCnt (sch k) /\
    tstate (sch k4) t = TASK_WAITING /\ free_kept fre k k4.
Proof.
  intros Hcalm Hstk Hptr Ht0.
  destruct (lock_calm c k _ _ _ Hcalm) as (Hru & Hurg & Hok & Hloose & Hheld).
  pose proof Hcalm as [_ _ _ Hti [Hrun _] (Hlock & Hnest & _) _ _].
  set (s' := upd_tcb t (set_state TASK_WAITING) (RemoveFromTCBRdyList t (sch (OsSchedLock k)))).
  destruct (remove_lists (sch (OsSchedLock k)) t TASK_WAITING fre l1 l2 dly Hok) as (L & [K1 K2 K3 K4] & Hl & Hd & Hdl & Hrq & _);
    [done|]. fold s' in L, K1, K2, K3, K4, Hd, Hdl, Hrq.
  destruct (removed_running (sch (OsSchedLock k)) c t TASK_WAITING fre l1 l2 dly) as [Hru' Hurg']; [done..|].
  fold s' in Hru', Hurg'. destruct (loose_not _ _ _ _ Hl) as (Ht & Hf & Hr & _).
  assert (t ∈ l1 ++ t :: l2) as Hin by (apply elem_of_app; right; apply elem_of_cons; by left).
  assert (c <> t) as Hct by (intros ->; by apply (proj1 (proj2 (ru_task _ _ _ _ _ Hru)))).
  assert (tstate (sch k) t = TASK_READY) as Hst by (by apply (ok_ready _ _ _ _ (calm_lists _ _ _ _ _ Hcalm))).
  set (k2 := (OsSchedLock k) <| sch := s' |>).
  destruct (call_spec c k k2 fre _ dly fre (l1 ++ l2) dly psp Hcalm Hstk Hptr) as (k3 & k4 & c' & rdy' & U1 & U2 & [V1 V2 V3 V4 V5 V6 V7]).
  - by apply held_sched.
  - done.
  - done.
  - by right.
  - change (Forall (fun p => 0 < p.2) (expiries (tdelay s') 0 dly)).
    rewrite (expiries_ext (tdelay (sch k))) by (intros; apply Hd). exact Hti.
  - exists k3, k4, c', rdy'. split.
    + unfold CoSuspendTask. rewrite (proj2 (Z.eqb_neq _ _) Ht0), (tcb_ref_task t Ht).
      change (state (ktcb k t)) with (tstate (sch k) t). rewrite Hst, Hlock.
      rewrite !bool_decide_false by done. cbn [Z.eqb negb].
      change (TCBRunning (sch (OsSchedLock k))) with (TCBRunning (sch k)). rewrite Hrun.
      rewrite bool_decide_false by congruence.
      change (OsSchedUnlock k2 ≫= (fun k => Some (E_OK, k)) = Some (E_OK, k3)). by rewrite U1.
    + split; [done|]. split; [done|]. split; [done|]. split; [done|]. split; [|split; [|split]].
      * intros i. rewrite V4. apply Hd.
      * rewrite V5. cbn. by destruct (rest_fields _ _ K4) as (_ & _ & _ & R4 & _).
      * destruct (V6 t) as [_ ->]; [done|by left|]. change (tstate s' t = TASK_WAITING). rewrite K3.
        by rewrite decide_True.
      * intros i Hi. destruct (calm_free _ _ _ _ _ i Hcalm Hi) as (N1 & _ & N3).
        destruct (V6 i) as [_ ->]; [|by left|].
        -- intros Hin'. apply N1. apply elem_of_app. apply elem_of_app in Hin' as [?|?]; [by left|right].
           apply elem_of_cons. by right.
        -- change (tstate s' i = tstate (sch k) i). rewrite K3. rewrite decide_False; [done|].
           intros ->. by apply Hf.
Qed.

(** The running task changes its state. *)
Lemma loose_state s t x fre rdy dly :
  lists_ok s fre rdy dly -> loose t fre rdy dly -> x <> TASK_READY ->
  lists_ok (upd_tcb t (set_state x) s) fre rdy dly /\ kept t x s (upd_tcb t (set_state x) s) /\
  forall i, tdelay (upd_tcb t (set_state x) s) i = tdelay s i.
Proof.
  intros Hok Hl Hx. set (s' := upd_tcb t (set_state x) s).
  assert (forall i, tcb s' i = if decide (t = i) then set_state x (tcb s i) else tcb s i) as T
    by (intros i; apply tcb_upd).
  assert (forall (A : Type) (f : OSTCB -> A), (forall b, f (set_state x b) = f b) -> forall i, f (tcb s' i) = f (tcb s i)) as F
    by (intros A f Hf i; rewrite T; case_decide; [apply Hf|done]).
  split; [|split; [split|]].
  - apply (loose_lists s s' t); try done.
    + unfold tstate. rewrite T. by rewrite decide_True.
    + by apply (F _ delayTick).
    + by apply (F _ TCBnext).
    + by apply (F _ TCBprev).
    + intros i Hi. rewrite T. by rewrite decide_False by congruence.
  - apply F. intros b. apply ident_state.
  - by apply (F _ prio).
  - intros i. unfold tstate. rewrite T. destruct (decide (t = i)) as [->|?]; [by rewrite decide_True|].
    rewrite decide_False by congruence. done.
  - done.
  - by apply (F _ delayTick).
Qed.

Lemma CoSuspendTask_self (psp : Z) (k : kernel) (c : Z) (fre rdy dly : list Z) :
  calm c k fre rdy dly -> stacks_ok c fre k -> pointer_ok psp c k -> c <> 0 ->
  exists k3 k4 c' rdy', CoSuspendTask c k = Some (E_OK, k3) /\ finish psp k3 = Some k4 /\
    calm c' k4 fre rdy' dly /\ stacks_ok c' fre k4 /\ untouched k k4 /\
    (forall i, tdelay (sch k4) i = tdelay (sch k) i) /\ OSTickCnt (sch k4) = OSTickCnt (sch k) /\
    tstate (sch k4) c = TASK_WAITING /\ free_kept fre k k4.
Proof.
  intros Hcalm Hstk Hptr Hc0.
  destruct (lock_calm c k _ _ _ Hcalm) as (Hru & Hurg & Hok & Hloose & Hheld).
  pose proof Hcalm as [_ _ _ Hti [Hrun _] (Hlock & Hnest & _) _ _].
  set (s0 := (sch (OsSchedLock k)) <| TaskSchedReq := true |>).
  set (s' := upd_tcb c (set_state TASK_WAITING) s0).
  assert (lists_ok s0 fre rdy dly) as Hok0 by (apply (lists_ok_view (sch (OsSchedLock k))); [by split|done]).
  destruct (loose_state s0 c TASK_WAITING fre rdy dly Hok0 Hloose) as (L & [K1 K2 K3 K4] & Hd); [done|].
  fold s' in L, K1, K2, K3, K4, Hd.
  set (k2 := (OsSchedLock k) <| sch := s' |>).
  destruct (call_spec c k k2 fre rdy dly fre rdy dly psp Hcalm Hstk Hptr) as (k3 & k4 & c' & rdy' & U1 & U2 & [V1 V2 V3 V4 V5 V6 V7]).
  - by apply held_sched.
  - done.
  - by apply (blocked_running (sch (OsSchedLock k)) s' c fre rdy dly TASK_WAITING).
  - by left.
  - change (Forall (fun p => 0 < p.2) (expiries (tdelay s') 0 dly)).
    rewrite (expiries_ext (tdelay (sch k))) by (intros; apply Hd). exact Hti.
  - destruct (loose_not _ _ _ _ Hloose) as (Ht & Hf & Hr & _).
    exists k3, k4, c', rdy'. split.
    + unfold CoSuspendTask. rewrite (proj2 (Z.eqb_neq _ _) Hc0), (tcb_ref_task c Ht).
      change (state (ktcb k c)) with (tstate (sch k) c). rewrite (proj1 Hurg : tstate (sch k) c = _), Hlock.
      rewrite !bool_decide_false by done. cbn [Z.eqb negb].
      change (TCBRunning (sch (OsSchedLock k))) with (TCBRunning (sch k)). rewrite Hrun.
      rewrite bool_decide_true by done.
      change (OsSchedUnlock k2 ≫= (fun k => Some (E_OK, k)) = Some (E_OK, k3)). by rewrite U1.
    + split; [done|]. split; [done|]. split; [done|]. split; [done|]. split; [|split; [|split]].
      * intros i. rewrite V4. apply Hd.
      * rewrite V5. done.
      * assert (tstate (sch k2) c = TASK_WAITING) as Hw by (change (tstate s' c = TASK_WAITING); rewrite K3; by rewrite decide_True).
        destruct (V6 c) as [_ ->]; [done|right; by rewrite Hw|done].
      * intros i Hi. destruct (calm_free _ _ _ _ _ i Hcalm Hi) as (N1 & _ & N3).
        destruct (V6 i N1 (or_introl N3)) as [_ ->]. change (tstate s' i = tstate (sch k) i). rewrite K3.
        by rewrite decide_False.
Qed.

(** ** CoAwakeTask *)

Lemma inserted_running s s' c t fre rdy dly :
  running_ok c s fre rdy dly -> t <> c -> kept t TASK_READY s s' ->
  lists_ok s' fre (insert_prio (tprio s) t rdy) dly ->
  running_ok c s' fre (insert_prio (tprio s) t rdy) dly.
Proof.
  intros [_ (H1 & H2 & H3) H4 H5] Htc [_ _ K3 _] L. split; [done| | |].
  - split; [done|]. rewrite elem_of_insert_prio. split; [by intros [?|?]|]. rewrite K3. by rewrite decide_False.
  - intros i Hi Hf. rewrite K3. case_decide; [done|]. by apply H4.
  - rewrite elem_of_insert_prio. destruct H5 as [H5|[-> H5]]; [by left; right|right].
    split; [done|]. rewrite K3. by rewrite decide_False.
Qed.

(** A request was raised, or the inserted task is behind the first one. *)
Lemma requested_urgent s s' c t fre rdy dly :
  urgent c s rdy -> t <> c -> kept t TASK_READY s s' -> requested t rdy s s' ->
  sorted_prio (tprio s) rdy -> lists_ok s' fre (insert_prio (tprio s) t rdy) dly ->
  TaskSchedReq s' = true \/ urgent c s' (insert_prio (tprio s) t rdy).
Proof.
  intros [U1 U2] Htc [_ K2 K3 _] Hreq Hs _. unfold requested in Hreq. destruct rdy as [|h r]; [by left|].
  destruct (tprio s t <? tprio s h) eqn:Hle; [by left|right]. apply Z.ltb_ge in Hle.
  split; [rewrite K3; by rewrite decide_False|]. intros i. rewrite elem_of_insert_prio, !K2.
  intros [->|Hi]; [|by apply U2]. transitivity (tprio s h); [|done]. apply U2, elem_of_cons. by left.
Qed.

(** A task that is in no list becomes ready. *)
Lemma make_ready (psp : Z) (k : kernel) (c t : Z) (fre rdy dly : list Z) :
  calm c k fre rdy dly -> stacks_ok c fre k -> pointer_ok psp c k -> t <> c -> loose t fre rdy dly ->
  exists k2 k3 k4 c' rdy', insert_ready t (OsSchedLock k) = Some k2 /\ OsSchedUnlock k2 = Some k3 /\
    finish psp k3 = Some k4 /\
    calm c' k4 fre rdy' dly /\ stacks_ok c' fre k4 /\ untouched k k4 /\
    (forall i, tdelay (sch k4) i = tdelay (sch k) i) /\ OSTickCnt (sch k4) = OSTickCnt (sch k) /\
    (t = c' \/ t ∈ rdy') /\
    forall i, i <> c -> i <> t -> i ∉ rdy -> tstate (sch k4) i = tstate (sch k) i.
Proof.
  intros Hcalm Hstk Hptr Htc Hl.
  destruct (lock_calm c k _ _ _ Hcalm) as (Hru & Hurg & Hok & _ & Hheld).
  pose proof Hcalm as [_ _ Hpl Hti [Hrun _] (Hlock & Hnest & _) _ _].
  destruct (insert_lists (sch (OsSchedLock k)) t fre rdy dly Hok Hl) as (s' & E & L & Hk & Hdel & Hdl & Hreq).
  pose proof Hk as [K1 K2 K3 K4]. set (k2 := (OsSchedLock k) <| sch := s' |>).
  set (rdy1 := insert_prio (tprio (sch (OsSchedLock k))) t rdy) in *.
  destruct (call_spec c k k2 fre rdy dly fre rdy1 dly psp Hcalm Hstk Hptr) as (k3 & k4 & c' & rdy' & U1 & U2 & [V1 V2 V3 V4 V5 V6 V7]).
  - by apply held_sched.
  - done.
  - by apply (inserted_running (sch (OsSchedLock k))).
  - apply (requested_urgent (sch (OsSchedLock k)) s' c t fre rdy dly); try done. apply Hok.
  - change (Forall (fun p => 0 < p.2) (expiries (tdelay s') 0 dly)).
    rewrite (expiries_ext (tdelay (sch k))) by (intros; apply Hdel). exact Hti.
  - exists k2, k3, k4, c', rdy'. split; [unfold insert_ready, on_sched; by rewrite E|].
    split; [done|]. split; [done|]. split; [done|]. split; [done|]. split; [done|].
    split; [|split; [|split]].
    + intros i. rewrite V4. apply Hdel.
    + rewrite V5. cbn. by destruct (rest_fields _ _ K4) as (_ & _ & _ & R4 & _).
    + apply V7, elem_of_insert_prio. by left.
    + intros i Hic Hit Hir. destruct (V6 i) as [_ ->].
      * unfold rdy1. rewrite elem_of_insert_prio. tauto.
      * by left.
      * change (tstate s' i = tstate (sch k) i). rewrite K3. by rewrite decide_False.
Qed.

Lemma CoAwakeTask_spec (psp : Z) (k : kernel) (c t : Z) (fre rdy dly : list Z) :
  calm c k fre rdy dly -> stacks_ok c fre k -> pointer_ok psp c k -> t <> 0 -> is_task t ->
  t ∉ fre -> t ∉ dly -> tstate (sch k) t = TASK_WAITING ->
  exists k3 k4 c' rdy', CoAwakeTask t k = Some (E_OK, k3) /\ finish psp k3 = Some k4 /\
    calm c' k4 fre rdy' dly /\ stacks_ok c' fre k4 /\ untouched k k4 /\
    (forall i, tdelay (sch k4) i = tdelay (sch k) i) /\ OSTickCnt (sch k4) = OSTickCnt (sch k) /\
    (t = c' \/ t ∈ rdy') /\ free_kept fre k k4.
Proof.
  intros Hcalm Hstk Hptr Ht0 Ht Hf Hd Hst.
  pose proof Hcalm as [_ Hurg Hpl Hti [Hrun _] (Hlock & Hnest & _) _ _].
  pose proof (calm_lists _ _ _ _ _ Hcalm) as Hok.
  assert (t <> c) as Htc by (intros ->; pose proof (proj1 Hurg) as Hc; by rewrite Hst in Hc).
  assert (t ∉ rdy) as Hr by (intros Hr; apply (ok_ready _ _ _ _ Hok) in Hr; [by rewrite Hst in Hr|done..]).
  assert (loose t fre rdy dly) as Hl by (split; [done|]; rewrite elem_of_app, (elem_of_app rdy); tauto).
  destruct (make_ready psp k c t fre rdy dly Hcalm Hstk Hptr Htc Hl)
    as (k2 & k3 & k4 & c' & rdy' & E & U1 & U2 & V1 & V2 & V3 & V4 & V5 & V6 & V7).
  assert (free_kept fre k k4) as Hkept.
  { intros i Hi. destruct (calm_free _ _ _ _ _ i Hcalm Hi) as (N1 & _ & N3).
    apply V7; [done|by intros ->|done]. }
  exists k3, k4, c', rdy'. split; [|done].
  destruct Hpl as [_ Hpl]. destruct (Hpl t Ht Hf) as (P1 & P2 & P3). fold (ktcb k t) in P1, P2, P3.
  unfold CoAwakeTask. rewrite (proj2 (Z.eqb_neq _ _) Ht0), (tcb_ref_task t Ht). cbn zeta.
  change (state (ktcb k t)) with (tstate (sch k) t). change (delayTick (ktcb k t)) with (tdelay (sch k) t).
  rewrite Hst, (ok_awake _ _ _ _ Hok t Ht Hf Hd), P1, P2, P3.
  rewrite bool_decide_false, !bool_decide_true by done. cbn [negb]. rewrite !Z.eqb_refl. cbn [negb].
  rewrite E. cbn [mbind option_bind]. by rewrite U1.
Qed.
End calls.
