(* ===== verification/CoLife.v ===== *)
(** * Creation and deletion of tasks (CoOS/kernel/task.c)

    A created task takes the first free control block and is ready; a deleted
    task leaves the lists it is in, and its block is free again. *)

From stdpp Require Import gmap.
From S2P Require Import Prelude Dll CoTypes CoSched CoInv CoPreempt CoCore CoTask.
From S2P Require Import CoSync CoFlags CoTimer CoService CoRun CoTick CoCalls.

Section life.
Context `{Port}.

(** ** Creation *)

(** Nothing is pending. *)
Definition quiet (k : kernel) : Prop :=
  OSSchedLock (sch k) = 0 /\ IsrReq (ServiceReq k) = false /\
  (TaskSchedReq (sch k) = false \/ TCBRdy (sch k) = None).

Lemma calm_quiet c k fre rdy dly : calm c k fre rdy dly -> quiet k.
Proof.
  intros [Hru _ _ _ _ (Hlock & _) Hisr Hreq]. split; [done|]. split; [done|].
  destruct Hreq as [?| ->]; [by left|right].
  exact (dll_head _ _ _ _ (ok_rdy _ _ _ _ (ru_lists _ _ _ _ _ Hru))).
Qed.

(** Unlocking it again changes nothing. *)
Lemma unlock_quiet k : quiet k -> OsSchedUnlock (OsSchedLock k) = Some k.
Proof.
  intros (Hlock & Hisr & Hreq). unfold OsSchedUnlock.
  change (OSSchedLock (sch (OsSchedLock k))) with (u8 (OSSchedLock (sch k) + 1)). rewrite Hlock.
  change (u8 (0 + 1) =? 1) with true. cbv iota.
  change (IsrReq (ServiceReq (OsSchedLock k))) with (IsrReq (ServiceReq k)). rewrite Hisr.
  change (TaskSchedReq (sch (OsSchedLock k))) with (TaskSchedReq (sch k)). cbn [mbind option_bind].
  change (TaskSchedReq (sch (OsSchedLock k))) with (TaskSchedReq (sch k)).
  assert ((if TaskSchedReq (sch k) then KSchedule (OsSchedLock k) else Some (OsSchedLock k)) = Some (OsSchedLock k)) as ->.
  { destruct Hreq as [->|Hr]; [done|]. case_match; [|done]. unfold KSchedule, on_sched, Schedule.
    change (TCBRdy (sch (OsSchedLock k))) with (TCBRdy (sch k)). rewrite Hr. by destruct k. }
  cbn [mbind option_bind]. f_equal. destruct k as [[] ? ? ? ? ? ?]. cbn in *. by subst.
Qed.

(** The block [t] is taken from the free list. *)
Definition take_tcb (t : Z) (k : kernel) : kernel :=
  k <| sch := (sch k) <| FreeTCB := TCBnext (ktcb k t) |> |>.

Lemma AssignTCB_quiet k : quiet k ->
  AssignTCB k = Some (match FreeTCB (sch k) with
                      | None => (None, k)
                      | Some t => (Some t, take_tcb t k)
                      end).
Proof.
  intros Hq. unfold AssignTCB. change (FreeTCB (sch (OsSchedLock k))) with (FreeTCB (sch k)).
  destruct (FreeTCB (sch k)) as [t|].
  - change (OsSchedUnlock (OsSchedLock (take_tcb t k)) ≫= (fun k => Some (Some t, k)) = Some (Some t, take_tcb t k)).
    by rewrite unlock_quiet.
  - by rewrite unlock_quiet.
Qed.

(** The state before the new task [t] is linked into the ready list. *)
Definition fresh_task (task argv pr stk sktSz slice t : Z) (k : kernel) : kernel :=
  let '(stkTop, k) := InitTaskContext task argv stk k in
  let k := upd_task t (init_tcb stkTop pr stk sktSz slice) (take_tcb t k) in
  st (stack (ktcb k t)) MAGIC_WORD k.

(** The words that [InitTaskContext] writes keep clear of the other stacks. *)
Definition stack_apart (stk : Z) (fre : list Z) (k : kernel) : Prop :=
  forall i, is_task i -> i ∉ fre -> stack (ktcb k i) ∉ [stk; stk - 4; stk - 8; stk - 28].

Lemma ld_st k a v b : ld (st a v k) b = if decide (b = a) then v else ld k b.
Proof.
  unfold ld, st. cbn. case_decide as Hb; [subst; by rewrite lookup_insert_eq|].
  by rewrite lookup_insert_ne by congruence.
Qed.

Section fresh.
Variables (task argv pr stk sktSz slice t : Z) (k : kernel) (fre rdy dly : list Z).
Hypothesis Hok : lists_ok (sch k) (t :: fre) rdy dly.
Hypothesis Hstk : forall i, is_task i -> i ∉ t :: fre -> stack_ok k (ktcb k i) = true.
Hypothesis Hapart : stack_apart stk (t :: fre) k.
Hypothesis Hsize : 20 <= sktSz.

Let kd := upd_task t (set_state TASK_DORMANT) (fresh_task task argv pr stk sktSz slice t k).
Let new : OSTCB := init_tcb (stk - 60) pr stk sktSz slice (ktcb k t).

Lemma fresh_tcb i : ktcb kd i = if decide (i = t) then set_state TASK_DORMANT new else ktcb k i.
Proof using task argv pr stk sktSz slice t k.
  clear Hok Hstk Hapart Hsize.
  unfold kd, fresh_task, InitTaskContext. cbn zeta. unfold ktcb, upd_task, take_tcb, st. cbn [sch update updater mem].
  rewrite !tcb_upd, !(tcb_same (sch k)) by done. repeat case_decide; subst; done.
Qed.

Lemma fresh_ld a : ld kd a = if decide (a = stk + 4 - 4 * sktSz) then MAGIC_WORD
  else ld (st (stk - 28) argv (st (stk - 8) 4294967294 (st (stk - 4) task (st stk 16777216 k)))) a.
Proof.
  set (k1 := upd_task t (init_tcb (stk - 60) pr stk sktSz slice) (take_tcb t (InitTaskContext task argv stk k).2)).
  change (ld kd a) with (ld (st (stack (ktcb k1 t)) MAGIC_WORD k1) a).
  assert (stack (ktcb k1 t) = stk + 4 - 4 * sktSz) as ->.
  { unfold k1, ktcb, upd_task. cbn [sch update updater]. by rewrite tcb_upd_eq. }
  by rewrite ld_st.
Qed.

Lemma fresh_free : loose t fre rdy dly.
Proof.
  pose proof (ok_apart _ _ _ _ Hok) as Hnd. cbn [app] in Hnd. apply list.NoDup_cons in Hnd as [Hnd _].
  split; [|done]. apply (ok_tasks _ _ _ _ Hok), elem_of_cons. by left.
Qed.

Lemma fresh_others i : i <> t -> tcb (sch kd) i = tcb (sch k) i.
Proof. intros Hi. pose proof (fresh_tcb i) as E. by rewrite decide_False in E. Qed.

Lemma fresh_self : tcb (sch kd) t = set_state TASK_DORMANT new.
Proof. pose proof (fresh_tcb t) as E. by rewrite decide_True in E. Qed.

Lemma fresh_lists : lists_ok (sch kd) fre rdy dly.
Proof.
  destruct fresh_free as [Ht Hnt]. rewrite elem_of_app, (elem_of_app rdy) in Hnt.
  pose proof fresh_others as T. pose proof fresh_self as Tt.
  assert (forall l : list Z, t ∉ l -> forall i, i ∈ l -> tcb (sch kd) i = tcb (sch k) i) as Tl
    by (intros l Hl i Hi; apply T; by intros ->).
  pose proof (ok_free _ _ _ _ Hok) as [Hhead Hchain].
  apply (lists_ok_intro (sch k) _ (t :: fre) rdy dly).
  - done.
  - intros i Hi. split; [apply elem_of_cons; by right|]. unfold tnext. rewrite T; [done|]. intros ->. tauto.
  - exact Hchain.
  - eapply dll_ext; [|apply Hok]. intros i Hi. unfold tnext, tprev. rewrite (Tl rdy); tauto.
  - eapply dll_ext; [|apply Hok]. intros i Hi. unfold tnext, tprev. rewrite (Tl dly); tauto.
  - pose proof (ok_apart _ _ _ _ Hok) as Hnd. cbn [app] in Hnd. by apply list.NoDup_cons in Hnd as [_ ?].
  - intros i Hi. apply (ok_tasks _ _ _ _ Hok), elem_of_cons. by right.
  - eapply sorted_prio_ext; [|apply Hok]. intros i Hi. unfold tprio. rewrite (Tl rdy); tauto.
  - eapply delays_ok_ext; [|apply Hok]. intros i Hi. unfold tdelay. rewrite (Tl dly); tauto.
  - intros i Hi Hif. unfold tstate. destruct (decide (i = t)) as [->|Hit]; [rewrite Tt; split; [done|tauto]|].
    rewrite T by done. apply (ok_ready _ _ _ _ Hok i Hi). rewrite elem_of_cons. tauto.
  - intros i Hi. unfold tstate. rewrite (Tl dly) by tauto. by apply (ok_asleep _ _ _ _ Hok).
  - intros i Hi Hif Hid. unfold tdelay. destruct (decide (i = t)) as [->|Hit]; [by rewrite Tt|].
    rewrite T by done. apply (ok_awake _ _ _ _ Hok i Hi); [rewrite elem_of_cons; tauto|done].
  - intros i Hi Hn. unfold tnext, tprev. destruct (decide (i = t)) as [->|Hit]; [by rewrite Tt|].
    rewrite T by done. apply (ok_loose _ _ _ _ Hok i Hi). cbn [app]. rewrite elem_of_cons. tauto.
Qed.

Lemma fresh_plain : plain (sch k) (t :: fre) -> plain (sch kd) fre.
Proof.
  intros [P1 P2]. split; intros i Hi; destruct (decide (i = t)) as [->|Hit].
  - rewrite fresh_self. by apply P1.
  - rewrite fresh_others by done. by apply P1.
  - intros _. by rewrite fresh_self.
  - intros Hf. rewrite fresh_others by done. apply P2; [done|]. rewrite elem_of_cons. tauto.
Qed.

Lemma fresh_stacks i : is_task i -> i ∉ fre -> stack_ok kd (ktcb kd i) = true.
Proof.
  intros Hi Hif. unfold stack_ok. rewrite fresh_tcb, fresh_ld. destruct (decide (i = t)) as [->|Hit].
  - change (stkPtr (set_state TASK_DORMANT new)) with (stk - 60).
    change (stack (set_state TASK_DORMANT new)) with (stk + 4 - 4 * sktSz).
    rewrite decide_True by done. rewrite (proj2 (Z.leb_le _ _)) by lia. by rewrite Z.eqb_refl.
  - assert (i ∉ t :: fre) as Hif' by (rewrite elem_of_cons; tauto).
    pose proof (Hstk i Hi Hif') as Hs. unfold stack_ok in Hs. apply andb_true_iff in Hs as [-> Hs].
    apply Z.eqb_eq in Hs. case_decide; [done|]. pose proof (Hapart i Hi Hif') as Ha.
    rewrite !elem_of_cons in Ha. rewrite !ld_st, !decide_False by tauto. rewrite Hs. done.
Qed.

Lemma fresh_calm c : calm c k (t :: fre) rdy dly -> calm c kd fre rdy dly /\ stacks_ok c fre kd /\ t <> c.
Proof.
  intros Hcalm. pose proof fresh_free as Hl. destruct (loose_not _ _ _ _ Hl) as (Ht & Hf & Hr & Hd).
  pose proof Hcalm as [[_ (R1 & R2 & R3) R4 R5] [U1 U2] Hp H4 H5 H6 H7 H8]. specialize (R3 U1).
  assert (c <> t) as Hct by (intros ->; apply R3, elem_of_cons; by left).
  assert (c ∉ fre) as Hcf by (intros Hc; apply R3, elem_of_cons; by right).
  pose proof fresh_others as T. pose proof fresh_self as Tt.
  split; [split; [split|..]|split; [|done]]; try done.
  - apply fresh_lists.
  - intros i Hi Hif. unfold tstate. destruct (decide (i = t)) as [->|Hit]; [by rewrite Tt|].
    rewrite T by done. apply R4; [done|]. rewrite elem_of_cons. tauto.
  - destruct R5 as [?|[-> Hs]]; [by left|right]. split; [done|]. unfold tstate. by rewrite T.
  - split; [unfold tstate; by rewrite T|]. intros i Hi. unfold tprio. rewrite !T; [by apply U2|by intros ->|done].
  - by apply fresh_plain.
  - rewrite (expiries_ext (tdelay (sch k))); [done|]. intros i Hi. unfold tdelay. rewrite T; [done|]. by intros ->.
  - intros i Hi Hif. apply fresh_stacks; [done|]. by destruct Hif as [->|Hif].
Qed.
End fresh.

(** The fields that [CoCreateTask] packs into one word. *)
Lemma task_parameter pr sz : 0 <= pr < 256 -> 0 <= sz < 4096 ->
  let w := Z.lor pr (Z.land (Z.shiftl sz 8) 1048320) in
  Z.land w 255 = pr /\ Z.shiftr (Z.land w 1048320) 8 = sz /\
  Z.shiftr (Z.land w 2147418112) 20 = 0 /\ Z.shiftr w 31 = 0.
Proof.
  intros Hp Hs w. assert (Z.land (Z.shiftl sz 8) 1048320 = sz * 256) as E.
  { change 1048320 with (Z.shiftl (Z.ones 12) 8). rewrite <- Z.shiftl_land, Z.land_ones by lia.
    rewrite Z.mod_small by lia. by rewrite Z.shiftl_mul_pow2 by lia. }
  assert (Z.land pr (sz * 256) = 0) as E0.
  { change 256 with (2 ^ 8). rewrite <- Z.shiftl_mul_pow2 by lia. apply Z.bits_inj'. intros n Hn.
    rewrite Z.land_spec, Z.bits_0. destruct (decide (n < 8)) as [Hn8|Hn8].
    - rewrite Z.shiftl_spec_low by done. apply andb_false_r.
    - rewrite <- (Z.mod_small pr (2 ^ 8)) by lia. by rewrite Z.mod_pow2_bits_high by lia. }
  assert (w = pr + sz * 256) as -> by (unfold w; rewrite E; pose proof (Z.add_lor_land pr (sz * 256)); lia).
  repeat split.
  - change 255 with (Z.ones 8). rewrite Z.land_ones by lia. rewrite Z.mod_add by lia. by apply Z.mod_small.
  - change 1048320 with (Z.shiftl (Z.ones 12) 8). rewrite Z.shiftr_land, Z.shiftr_shiftl_l by lia.
    rewrite Z.shiftl_0_r, Z.land_ones, Z.shiftr_div_pow2 by lia. change (2 ^ 8) with 256.
    rewrite Z.div_add, Z.div_small by lia. by apply Z.mod_small.
  - rewrite Z.shiftr_land, (Z.shiftr_div_pow2 (pr + sz * 256)) by lia. rewrite Z.div_small by lia. done.
  - rewrite Z.shiftr_div_pow2 by lia. apply Z.div_small. lia.
Qed.

Lemma upd_upd t f g s : upd_tcb t f (upd_tcb t g s) = upd_tcb t (fun b => f (g b)) s.
Proof. unfold upd_tcb at 1. rewrite tcb_upd_eq. unfold upd_tcb. cbn. by rewrite insert_insert_eq. Qed.

Lemma insert_any_state t x s : InsertToTCBRdyList t (upd_tcb t (set_state x) s) = InsertToTCBRdyList t s.
Proof. unfold InsertToTCBRdyList. rewrite upd_upd, tcb_upd_eq. done. Qed.

Lemma finish_taskID psp k k' i : finish psp k = Some k' -> taskID (ktcb k' i) = taskID (ktcb k i).
Proof.
  unfold finish, settle, on_sched, PendSV_Handler. destruct (pendsv (sch k)); [|by intros [= ->]].
  destruct (TCBRunning (sch k)) as [c|]; [|done]. destruct (TCBNext (sch k)) as [n|]; [|done].
  cbn [mbind option_bind]. intros [= <-]. unfold ktcb. cbn [sch update updater].
  case_match; [done|]. rewrite (tcb_same (upd_tcb c (fun b : OSTCB => b <| stkPtr := u32 (psp - 32) |>) (sch k))) by done.
  rewrite tcb_upd. by case_decide.
Qed.

(** The call after the block has been assigned. *)
Lemma CoCreateTask_steps (k : kernel) (t task argv pr stk sz : Z) :
  task <> 0 -> stk <> 0 -> 0 <= pr <= CFG_LOWEST_PRIO -> 20 <= sz < 4096 ->
  AssignTCB (InitTaskContext task argv stk k).2 = Some (Some t, take_tcb t (InitTaskContext task argv stk k).2) ->
  CoCreateTask task argv pr stk sz k =
  (k ← insert_ready t (OsSchedLock (upd_task t (set_state TASK_DORMANT)
         (fresh_task task argv pr stk sz CFG_TIME_SLICE t k)));
   k ← OsSchedUnlock k; Some (taskID (ktcb k t), k)).
Proof.
  intros Htask Hstk0 Hpr Hsz Ha. unfold CFG_LOWEST_PRIO in Hpr. unfold CoCreateTask, CreateTask.
  destruct (task_parameter pr sz) as (-> & -> & -> & ->); [lia|lia|].
  rewrite (proj2 (Z.eqb_neq _ _) Htask), (proj2 (Z.eqb_neq _ _) Hstk0).
  rewrite (proj2 (Z.ltb_ge _ _)) by (unfold CFG_LOWEST_PRIO; lia). rewrite (proj2 (Z.ltb_ge _ _)) by lia.
  unfold InitTaskContext in Ha |- *. cbn [snd] in Ha. set (km := st (stk - 28) _ _) in *.
  rewrite Ha. cbn [mbind option_bind]. change (0 =? 0) with true. cbv iota zeta.
  set (kf := fresh_task task argv pr stk sz CFG_TIME_SLICE t k).
  set (k1 := upd_task t (init_tcb (stk - 60) pr stk sz CFG_TIME_SLICE) (take_tcb t km)).
  assert (st (stack (ktcb k1 t)) MAGIC_WORD k1 = kf) as -> by done.
  set (kd := upd_task t (set_state TASK_DORMANT) kf).
  assert (insert_ready t (OsSchedLock kf) = insert_ready t (OsSchedLock kd)) as ->; [|done].
  unfold insert_ready, on_sched.
  change (sch (OsSchedLock kd)) with (upd_tcb t (set_state TASK_DORMANT) (sch (OsSchedLock kf))).
  by rewrite insert_any_state.
Qed.

(** The words that a creation writes, and what it leaves of the rest. *)
Definition task_words (stk sz : Z) : list Z := [stk; stk - 4; stk - 8; stk - 28; stk + 4 - 4 * sz].

Record task_written (t stk sz : Z) (k k' : kernel) : Prop := {
  tw_tmr : tmr k' = tmr k;
  tw_ram : forall a, a ∉ task_words stk sz -> ram (mem k') !! a = ram (mem k) !! a;
  tw_stack : forall i, stack (ktcb k' i) = if decide (i = t) then stk + 4 - 4 * sz else stack (ktcb k i)
}.

Lemma framed_ram task argv stk sz (k : kernel) a :
  a ∉ task_words stk sz -> ram (mem (InitTaskContext task argv stk k).2) !! a = ram (mem k) !! a.
Proof.
  intros Ha. unfold task_words in Ha. rewrite !not_elem_of_cons in Ha.
  unfold InitTaskContext, st. cbn. rewrite !lookup_insert_ne by (apply not_eq_sym; tauto). done.
Qed.

Lemma fresh_written task argv pr stk sz slice t (k : kernel) :
  task_written t stk sz k (upd_task t (set_state TASK_DORMANT) (fresh_task task argv pr stk sz slice t k)).
Proof.
  split; [done| |].
  - intros a Ha. pose proof (framed_ram task argv stk sz k a Ha) as Hf.
    set (k1 := upd_task t (init_tcb (stk - 60) pr stk sz slice) (take_tcb t (InitTaskContext task argv stk k).2)).
    change (ram (mem (st (stack (ktcb k1 t)) MAGIC_WORD k1)) !! a = ram (mem k) !! a).
    assert (stack (ktcb k1 t) = stk + 4 - 4 * sz) as ->.
    { unfold k1, ktcb, upd_task. cbn [sch update updater]. by rewrite tcb_upd_eq. }
    unfold st. cbn [mem ram update updater]. rewrite lookup_insert_ne; [exact Hf|].
    intros <-. apply Ha. unfold task_words. rewrite !elem_of_cons. tauto.
  - intros i. rewrite fresh_tcb. by case_decide.
Qed.

Lemma fresh_rest task argv pr stk sz slice t (k : kernel) :
  let kd := upd_task t (set_state TASK_DORMANT) (fresh_task task argv pr stk sz slice t k) in
  TCBRunning (sch kd) = TCBRunning (sch k) /\ TCBNext (sch kd) = TCBNext (sch k) /\
  OSSchedLock (sch kd) = OSSchedLock (sch k) /\ OSIntNesting (sch kd) = OSIntNesting (sch k) /\
  pendsv (sch kd) = pendsv (sch k) /\ TaskSchedReq (sch kd) = TaskSchedReq (sch k) /\
  ServiceReq kd = ServiceReq k.
Proof. done. Qed.

Lemma task_written_kept t stk sz k k1 k2 :
  task_written t stk sz k k1 -> mem k2 = mem k1 -> tmr k2 = tmr k1 ->
  (forall i, ident (tcb (sch k2) i) = ident (tcb (sch k1) i)) -> task_written t stk sz k k2.
Proof.
  intros [W1 W2 W3] Em Et Hi. split; [by rewrite Et|intros a Ha; rewrite Em; by apply W2|].
  intros i. destruct (ident_fields _ _ (Hi i)) as (_ & _ & _ & _ & _ & _ & E). unfold ktcb in *. by rewrite E.
Qed.

(** Only the scheduler's part of the kernel changes. *)
Lemma resched_frame (k : kernel) (s s' : sched) :
  mem ((OsSchedLock k) <| sch := s |> <| sch := s' |>) = mem k /\
  tmr ((OsSchedLock k) <| sch := s |> <| sch := s' |>) = tmr k.
Proof. done. Qed.

Lemma CoCreateTask_spec (psp : Z) (k : kernel) (c t : Z) (fre rdy dly : list Z) (task argv pr stk sz : Z) :
  calm c k (t :: fre) rdy dly -> stacks_ok c (t :: fre) k -> pointer_ok psp c k ->
  stack_apart stk (t :: fre) k -> task <> 0 -> stk <> 0 -> 0 <= pr <= CFG_LOWEST_PRIO -> 20 <= sz < 4096 ->
  exists k3 k4 c' rdy', CoCreateTask task argv pr stk sz k = Some (t, k3) /\ finish psp k3 = Some k4 /\
    calm c' k4 fre rdy' dly /\ stacks_ok c' fre k4 /\
    (forall i, i ∈ dly -> tdelay (sch k4) i = tdelay (sch k) i) /\ OSTickCnt (sch k4) = OSTickCnt (sch k) /\
    tprio (sch k4) t = pr /\ (t = c' \/ t ∈ rdy') /\ free_kept fre k k4 /\ task_written t stk sz k k4.
Proof.
  intros Hcalm Hstk Hptr Hapart Htask Hstk0 Hpr Hsz.
  set (kd := upd_task t (set_state TASK_DORMANT) (fresh_task task argv pr stk sz CFG_TIME_SLICE t k)).
  pose proof (calm_lists _ _ _ _ _ Hcalm) as Hok.
  pose proof (fresh_free t k fre rdy dly Hok) as F3.
  destruct (fresh_calm task argv pr stk sz CFG_TIME_SLICE t k fre rdy dly Hok
    (fun i Hi Hf => Hstk i Hi (or_intror Hf)) Hapart ltac:(lia) c Hcalm) as (F1 & F2 & F4).
  fold kd in F1, F2.
  pose proof (fresh_tcb task argv pr stk sz CFG_TIME_SLICE t k) as T. fold kd in T.
  assert (pointer_ok psp c kd) as Hp.
  { unfold pointer_ok. rewrite T. by rewrite decide_False by congruence. }
  destruct (make_ready psp kd c t fre rdy dly F1 F2 Hp F4 F3)
    as (k2 & k3 & k4 & c' & rdy' & E & U1 & U2 & V1 & V2 & V3 & V4 & V5 & V6 & V7).
  exists k3, k4, c', rdy'. split; [|split; [done|]; split; [done|]; split; [done|]; split; [|split; [|split; [|split; [done|split]]]]].
  - rewrite (CoCreateTask_steps k t task argv pr stk sz); try done.
    + fold kd. rewrite E. cbn [mbind option_bind]. rewrite U1. cbn [mbind option_bind].
      rewrite <- (finish_taskID psp k3 k4 t U2).
      by rewrite (proj1 (ca_plain _ _ _ _ _ V1) t (proj1 F3) : taskID (ktcb k4 t) = t).
    + set (km := (InitTaskContext task argv stk k).2).
      assert (quiet km) as Hq by exact (calm_quiet _ _ _ _ _ Hcalm).
      rewrite (AssignTCB_quiet km Hq).
      assert (FreeTCB (sch km) = Some t) as -> by (apply (ok_free _ _ _ _ Hok)). done.
  - intros i Hi. rewrite V4. destruct (loose_not _ _ _ _ F3) as (_ & _ & _ & Hd).
    change (delayTick (ktcb kd i) = tdelay (sch k) i). rewrite T. by rewrite decide_False by (by intros ->).
  - by rewrite V5.
  - rewrite (un_prio _ _ V3). change (prio (ktcb kd t) = pr). rewrite T. by rewrite decide_True.
  - destruct F3 as [_ F3]. intros i Hi.
    destruct (calm_free _ _ _ _ _ i F1 Hi) as (N1 & _ & N3).
    assert (i <> t) as Hit by (intros ->; apply F3, elem_of_app; by left).
    rewrite (V7 i N3 Hit N1). change (state (ktcb kd i) = tstate (sch k) i). rewrite T. by rewrite decide_False.
  - destruct (fresh_written task argv pr stk sz CFG_TIME_SLICE t k) as [W1 W2 W3]. split.
    + by rewrite (un_tmr _ _ V3).
    + intros a Ha. rewrite (un_mem _ _ V3). by apply W2.
    + intros i. rewrite (un_stack _ _ V3). apply W3.
Qed.

(** ** Deletion *)

(** The block [t] goes to the free list. *)
Definition free_block (t : Z) (s : sched) : sched :=
  let s := upd_tcb t (set_state TASK_DORMANT) s <| TaskSchedReq := true |> in
  let s := upd_tcb t (set_tnext (FreeTCB s)) s in
  s <| FreeTCB := Some t |>.

Lemma free_tcbs t s i : tcb (free_block t s) i =
  if decide (i = t) then set_tnext (FreeTCB s) (set_state TASK_DORMANT (tcb s i)) else tcb s i.
Proof.
  unfold free_block. cbn zeta. rewrite (tcb_same (upd_tcb _ (set_tnext _) _)) by done. rewrite upd_upd, tcb_upd.
  repeat case_decide; subst; done.
Qed.

Lemma free_lists s t fre rdy dly :
  lists_ok s fre rdy dly -> loose t fre rdy dly -> lists_ok (free_block t s) (t :: fre) rdy dly.
Proof.
  intros Hok Hl. destruct (loose_not _ _ _ _ Hl) as (Ht & Hf & Hr & Hd). destruct Hl as [_ Hl].
  pose proof (free_tcbs t s) as T. set (s' := free_block t s) in *.
  assert (forall i, i <> t -> tcb s' i = tcb s i) as Tn by (intros i Hi; rewrite T; by rewrite decide_False).
  assert (forall l : list Z, t ∉ l -> forall i, i ∈ l -> tcb s' i = tcb s i) as Tl
    by (intros l Htl i Hi; apply Tn; by intros ->).
  split.
  - split; [done|]. unfold tnext at 2. rewrite T, decide_True by done. cbn [set_tnext TCBnext update updater].
    eapply chained_ext; [|apply Hok]. intros i Hi. unfold tnext. by rewrite (Tl fre).
  - change (TCBRdy s') with (TCBRdy s). eapply dll_ext; [|apply Hok]. intros i Hi. unfold tnext, tprev. by rewrite (Tl rdy).
  - change (DlyList s') with (DlyList s). eapply dll_ext; [|apply Hok]. intros i Hi. unfold tnext, tprev. by rewrite (Tl dly).
  - cbn [app]. apply list.NoDup_cons. split; [done|apply Hok].
  - intros i [->|Hi]%elem_of_cons; [done|by apply (ok_tasks _ _ _ _ Hok)].
  - eapply sorted_prio_ext; [|apply Hok]. intros i Hi. unfold tprio. by rewrite (Tl rdy).
  - eapply delays_ok_ext; [|apply Hok]. intros i Hi. unfold tdelay. by rewrite (Tl dly).
  - intros i Hi. rewrite elem_of_cons. intros Hn. unfold tstate. rewrite Tn by tauto. apply (ok_ready _ _ _ _ Hok i Hi). tauto.
  - intros i Hi. unfold tstate. rewrite (Tl dly) by done. by apply (ok_asleep _ _ _ _ Hok).
  - intros i Hi. rewrite elem_of_cons. intros Hn. unfold tdelay. rewrite Tn by tauto. apply (ok_awake _ _ _ _ Hok i Hi); tauto.
  - intros i Hi. cbn [app]. rewrite elem_of_cons. intros Hn. unfold tnext, tprev. rewrite !Tn by tauto.
    apply (ok_loose _ _ _ _ Hok i Hi). tauto.
Qed.

(** The lists once [t] has been taken out of the one it was in. *)
Record unlisted (t : Z) (s s1 : sched) (fre rdy0 rdy dly : list Z) : Prop := {
  ul_lists : lists_ok s1 fre rdy dly;
  ul_loose : loose t fre rdy dly;
  ul_ident : forall i, ident (tcb s1 i) = ident (tcb s i);
  ul_state : forall i, i <> t -> tstate s1 i = tstate s i;
  ul_rest : rest s1 = rest s;
  ul_rdy : forall i, i ∈ rdy <-> i ∈ rdy0 /\ i <> t;
  ul_times : Forall (fun p => 0 < p.2) (expiries (tdelay s1) 0 dly)
}.

Lemma unlisted_running s s1 c t fre rdy0 dly0 rdy dly :
  running_ok c s fre rdy0 dly0 -> unlisted t s s1 fre rdy0 rdy dly -> t <> 0 ->
  running_ok c (free_block t s1) (t :: fre) rdy dly.
Proof.
  intros [_ (H1 & H2 & H3) H4 H5] [L1 L2 L3 L4 L5 L6 L7] Ht0.
  assert (forall i, tstate (free_block t s1) i = if decide (i = t) then TASK_DORMANT else tstate s i) as Hs.
  { intros i. unfold tstate at 1. rewrite free_tcbs. case_decide; [done|]. by apply L4. }
  split; [by apply free_lists| | |].
  - split; [done|]. split; [rewrite L6; tauto|]. rewrite Hs. case_decide as Hct; [done|].
    rewrite elem_of_cons. intros Hr [?|Hc]; [done|]. by apply (H3 Hr).
  - intros i Hi. rewrite elem_of_cons, Hs. intros Hn. case_decide; [done|]. apply H4; tauto.
  - assert (0 <> t) by congruence. rewrite L6, Hs. rewrite decide_False by done. tauto.
Qed.

(** What [CoDelTask] does with a task that owns and waits for nothing. *)
Definition unlist (t : Z) (s : sched) : sched :=
  match tstate s t with
  | TASK_READY => RemoveFromTCBRdyList t s
  | TASK_WAITING => if tdelay s t =? INVALID_VALUE then s else RemoveDelayList t s
  | _ => s
  end.

Lemma CoDelTask_plain k t :
  is_task t -> t <> 0 -> plain_tcb (ktcb k t) -> tstate (sch k) t <> TASK_DORMANT -> OSSchedLock (sch k) = 0 ->
  (forall i, plain_tcb (tcb (sch k) i) -> plain_tcb (tcb (unlist t (sch (OsSchedLock k))) i)) ->
  CoDelTask t k =
  (k ← OsSchedUnlock ((OsSchedLock k) <| sch := free_block t (unlist t (sch (OsSchedLock k))) |>);
   Some (E_OK, k)).
Proof.
  intros Ht Ht0 (P1 & P2 & P3) Hst Hlock Hpl. unfold CoDelTask. rewrite (tcb_ref_task t Ht).
  rewrite bool_decide_false by exact Hst. rewrite (proj2 (Z.eqb_neq _ _) Ht0), Hlock.
  cbn [Z.eqb negb]. rewrite andb_false_r, P3, Z.eqb_refl. cbn [mbind option_bind].
  destruct (Hpl t (conj P1 (conj P2 P3))) as (Q1 & Q2 & Q3). unfold unlist in *.
  change (tstate (sch (OsSchedLock k)) t) with (state (ktcb (OsSchedLock k) t)) in *.
  destruct (state (ktcb (OsSchedLock k) t)) eqn:Es; try done.
  set (k1 := (if tdelay (sch (OsSchedLock k)) t =? INVALID_VALUE then OsSchedLock k
    else (OsSchedLock k) <| sch ::= RemoveDelayList t |>)).
  assert (sch k1 = if tdelay (sch (OsSchedLock k)) t =? INVALID_VALUE then sch (OsSchedLock k)
    else RemoveDelayList t (sch (OsSchedLock k))) as E1 by (unfold k1; by case_match).
  assert (forall x, k1 <| sch := x |> = (OsSchedLock k) <| sch := x |>) as E2 by (intros x; unfold k1; by case_match).
  rewrite <- E1 in *. fold (ktcb k1 t) in Q1, Q2, Q3.
  assert (forget_waiting t (OsSchedLock k) = Some k1) as ->.
  { unfold forget_waiting. fold k1. cbn zeta.
    change (if delayTick (ktcb (OsSchedLock k) t) =? INVALID_VALUE then OsSchedLock k
      else (OsSchedLock k) <| sch ::= RemoveDelayList t |>) with k1.
    rewrite Q1, Z.eqb_refl. cbn [mbind option_bind]. rewrite Q2. cbn [remove_node mbind option_bind].
    by rewrite Q3, Z.eqb_refl. }
  rewrite <- E2. cbn [mbind option_bind]. done.
Qed.

Lemma free_block_dormant t s : free_block t (upd_tcb t (set_state TASK_DORMANT) s) = free_block t s.
Proof.
  unfold free_block. cbn zeta.
  change ((upd_tcb t (set_state TASK_DORMANT) s) <| TaskSchedReq := true |>)
    with (upd_tcb t (set_state TASK_DORMANT) (s <| TaskSchedReq := true |>)).
  assert (upd_tcb t (set_state TASK_DORMANT) (upd_tcb t (set_state TASK_DORMANT) (s <| TaskSchedReq := true |>))
    = upd_tcb t (set_state TASK_DORMANT) (s <| TaskSchedReq := true |>)) as -> by (by rewrite upd_upd).
  done.
Qed.

(** The state in which the task is dormant, before its block is freed. *)
Definition retire (t : Z) (s : sched) : sched := upd_tcb t (set_state TASK_DORMANT) (unlist t s).

Lemma CoDelTask_spec (psp : Z) (k : kernel) (c t : Z) (fre rdy0 dly0 rdy dly : list Z) :
  calm c k fre rdy0 dly0 -> stacks_ok c fre k -> pointer_ok psp c k -> t <> 0 -> t ∉ fre -> is_task t ->
  tstate (sch k) t <> TASK_DORMANT ->
  unlisted t (sch (OsSchedLock k)) (retire t (sch (OsSchedLock k))) fre rdy0 rdy dly ->
  exists k3 k4 c' rdy', CoDelTask t k = Some (E_OK, k3) /\ finish psp k3 = Some k4 /\
    calm c' k4 (t :: fre) rdy' dly /\ stacks_ok c' (t :: fre) k4 /\ untouched k k4 /\
    (forall i, tdelay (sch k4) i = tdelay (retire t (sch (OsSchedLock k))) i) /\
    OSTickCnt (sch k4) = OSTickCnt (sch k) /\ tstate (sch k4) t = TASK_DORMANT /\ free_kept fre k k4.
Proof.
  intros Hcalm Hstk Hptr Ht0 Hf Ht Hst Hul.
  destruct (lock_calm c k _ _ _ Hcalm) as (Hru & Hurg & Hok & _ & Hheld).
  pose proof Hcalm as [_ _ [Hid Hpl] Hti [Hrun _] (Hlock & Hnest & _) _ _].
  pose proof Hul as [L1 L2 L3 L4 L5 L6 L7].
  set (s1 := retire t (sch (OsSchedLock k))) in *.
  pose proof (free_tcbs t s1) as T.
  set (k2 := (OsSchedLock k) <| sch := free_block t s1 |>).
  destruct (call_spec c k k2 fre rdy0 dly0 (t :: fre) rdy dly psp Hcalm Hstk Hptr)
    as (k3 & k4 & c' & rdy' & U1 & U2 & [V1 V2 V3 V4 V5 V6 V7]).
  - destruct (rest_fields _ _ L5) as (R1 & R2 & R3 & R4 & R5 & R6 & R7).
    split; [|exact (conj R3 R2)|exact (conj R6 (conj R5 R7))|done|done]. intros i. transitivity (ident (tcb s1 i)); [|exact (L3 i)].
    change (ident (tcb (free_block t s1) i) = ident (tcb s1 i)). rewrite T. by case_decide.
  - intros i Hi. apply elem_of_cons. by right.
  - by apply (unlisted_running (sch (OsSchedLock k)) s1 c t fre rdy0 dly0).
  - by left.
  - change (Forall (fun p => 0 < p.2) (expiries (tdelay (free_block t s1)) 0 dly)).
    rewrite (expiries_ext (tdelay s1)); [done|]. intros i _. unfold tdelay. rewrite T. by case_decide.
  - exists k3, k4, c', rdy'. split.
    + rewrite CoDelTask_plain; try done; [|by apply Hpl|].
      * rewrite <- free_block_dormant. fold (retire t (sch (OsSchedLock k))). fold s1. fold k2. by rewrite U1.
      * intros i Hp. assert (ident (tcb (unlist t (sch (OsSchedLock k))) i) = ident (tcb (sch k) i)) as Hi.
        { transitivity (ident (tcb s1 i)); [|exact (L3 i)]. unfold s1, retire. rewrite tcb_upd. by case_decide. }
        destruct Hp as (P1 & P2 & P3). destruct (ident_fields _ _ Hi) as (E1 & E2 & E3 & _).
        unfold plain_tcb. by rewrite E1, E2, E3.
    + split; [done|]. split; [done|]. split; [done|]. split; [done|]. split; [|split; [|split]].
      * intros i. rewrite V4. change (delayTick (tcb (free_block t s1) i) = tdelay s1 i). rewrite T. by case_decide.
      * rewrite V5. cbn. by destruct (rest_fields _ _ L5) as (_ & _ & _ & R4 & _).
      * assert (tstate (sch k2) t = TASK_DORMANT) as Hd.
        { change (state (tcb (free_block t s1) t) = TASK_DORMANT). rewrite T. by rewrite decide_True. }
        destruct (V6 t) as [_ ->]; [rewrite L6; tauto| |done].
        destruct (decide (t = c)) as [->|]; [right; by rewrite Hd|by left].
      * intros i Hi. destruct (calm_free _ _ _ _ _ i Hcalm Hi) as (N1 & _ & N3).
        assert (i <> t) as Hit by by intros ->.
        destruct (V6 i) as [_ ->]; [rewrite L6; tauto|by left|].
        change (state (tcb (free_block t s1) i) = tstate (sch k) i). rewrite T, decide_False by done.
        exact (L4 i Hit).
Qed.

Lemma retire_ready s t fre l1 l2 dly :
  lists_ok s fre (l1 ++ t :: l2) dly -> t ∉ fre -> Forall (fun p => 0 < p.2) (expiries (tdelay s) 0 dly) ->
  unlisted t s (retire t s) fre (l1 ++ t :: l2) (l1 ++ l2) dly /\
  (forall i, tdelay (retire t s) i = tdelay s i).
Proof.
  intros Hok Hf Hti. assert (t ∈ l1 ++ t :: l2) as Hin by (apply elem_of_app; right; apply elem_of_cons; by left).
  assert (is_task t) as Ht by (apply (ok_tasks _ _ _ _ Hok), elem_of_app; right; apply elem_of_app; by left).
  destruct (remove_lists s t TASK_DORMANT fre l1 l2 dly Hok) as (L & [K1 K2 K3 K4] & Hl & Hd & _); [done|].
  assert (retire t s = upd_tcb t (set_state TASK_DORMANT) (RemoveFromTCBRdyList t s)) as Er.
  { unfold retire, unlist. by rewrite (proj2 (ok_ready _ _ _ _ Hok t Ht Hf) Hin). }
  rewrite <- Er in *. split; [|exact Hd]. split; try done.
  - intros i Hi. rewrite K3. by rewrite decide_False.
  - intros i. pose proof (ok_apart_rdy _ _ _ _ Hok) as (N1 & _).
    eapply (NoDup_Permutation_proper _ (t :: l1 ++ l2)) in N1; [|by rewrite <- Permutation_middle].
    apply list.NoDup_cons in N1 as [N1 _]. rewrite <- Permutation_middle, elem_of_cons.
    split; [|tauto]. intros Hi. split; [by right|]. by intros ->.
  - by rewrite (expiries_ext (tdelay s)).
Qed.

Lemma retire_loose s t fre rdy dly :
  lists_ok s fre rdy dly -> loose t fre rdy dly -> tstate s t <> TASK_READY -> 
  Forall (fun p => 0 < p.2) (expiries (tdelay s) 0 dly) ->
  unlisted t s (retire t s) fre rdy rdy dly /\ (forall i, tdelay (retire t s) i = tdelay s i).
Proof.
  intros Hok Hl Hst Hti. destruct (loose_not _ _ _ _ Hl) as (Ht & Hf & Hr & Hd).
  destruct (loose_state s t TASK_DORMANT fre rdy dly Hok Hl) as (L & [K1 K2 K3 K4] & Hdl); [done|].
  assert (retire t s = upd_tcb t (set_state TASK_DORMANT) s) as Er.
  { unfold retire, unlist. rewrite (ok_awake _ _ _ _ Hok t Ht Hf Hd), Z.eqb_refl. by destruct (tstate s t). }
  rewrite <- Er in *. split; [|exact Hdl]. split; try done.
  - intros i Hi. rewrite K3. by rewrite decide_False.
  - intros i. split; [|tauto]. intros Hi. split; [done|]. by intros ->.
  - by rewrite (expiries_ext (tdelay s)).
Qed.

Lemma retire_asleep s t fre rdy l1 l2 :
  lists_ok s fre rdy (l1 ++ t :: l2) -> Forall (fun p => 0 < p.2) (expiries (tdelay s) 0 (l1 ++ t :: l2)) ->
  unlisted t s (retire t s) fre rdy rdy (l1 ++ l2) /\
  expiries (tdelay (retire t s)) 0 (l1 ++ l2)
  = expiries (tdelay s) 0 l1 ++ expiries (tdelay s) (total (tdelay s) (l1 ++ [t])) l2.
Proof.
  intros Hok Hti. assert (t ∈ l1 ++ t :: l2) as Hin by (apply elem_of_app; right; apply elem_of_cons; by left).
  destruct (wake_lists s t fre rdy l1 l2 Hok) as (A1 & A2 & A3 & A4 & A5 & A6 & A7 & A8).
  destruct (loose_not _ _ _ _ A2) as (Ht & Hf & Hr & Hd).
  destruct (loose_state _ t TASK_DORMANT fre rdy (l1 ++ l2) A1 A2) as (L & [K1 K2 K3 K4] & Hdl); [done|].
  assert (retire t s = upd_tcb t (set_state TASK_DORMANT) (RemoveDelayList t s)) as Er.
  { unfold retire, unlist. rewrite (ok_asleep _ _ _ _ Hok t Hin).
    destruct (delays_ok_each _ _ t (ok_delays _ _ _ _ Hok) Hin) as [_ Hlt].
    rewrite (proj2 (Z.eqb_neq _ _)); [done|]. unfold INVALID_VALUE. lia. }
  rewrite <- Er in *. assert (expiries (tdelay (retire t s)) 0 (l1 ++ l2)
    = expiries (tdelay s) 0 l1 ++ expiries (tdelay s) (total (tdelay s) (l1 ++ [t])) l2) as Hexp
    by (rewrite <- A7; by apply expiries_ext).
  split; [|done]. split; try done.
  - intros i. by rewrite K1, A3.
  - intros i Hi. rewrite K3, decide_False by done. apply A5.
  - by rewrite K4, A6.
  - intros i. split; [|tauto]. intros Hi. split; [done|]. by intros ->.
  - rewrite Hexp. rewrite expiries_app in Hti. cbn [expiries] in Hti. rewrite !Z.add_0_l in Hti.
    apply Forall_app in Hti as [H1 H2]. apply list.Forall_cons in H2 as [_ H2]. apply Forall_app. split; [done|].
    rewrite total_app. cbn [total]. by rewrite Z.add_0_r.
Qed.
End life.
