(* ===== verification/CoBoot.v ===== *)
(** * Start-up (CoOS/kernel/core.c, [CoInitOS], [CoStartOS])

    From the zeroed memory to the first running task: [booting] describes the
    kernel while main creates its tasks, with the schedule locked and no task
    running. *)

From stdpp Require Import gmap.
From S2P Require Import Prelude Dll CoTypes CoSched CoInv CoPreempt CoCore CoTask.
From S2P Require Import CoSync CoFlags CoTimer CoService CoRun CoTick CoCalls CoLife.

Section boot.
Context `{Port}.

Record booting (k : kernel) (fre rdy : list Z) : Prop := {
  bo_lists : lists_ok (sch k) fre rdy [];
  bo_plain : plain (sch k) fre;
  bo_states : forall t, is_task t -> t ∉ fre -> tstate (sch k) t = TASK_READY;
  bo_cpu : TCBRunning (sch k) = None /\ TCBNext (sch k) = None;
  bo_lock : OSSchedLock (sch k) = 1 /\ OSIntNesting (sch k) = 0 /\ pendsv (sch k) = false;
  bo_quiet : IsrReq (ServiceReq k) = false;
  bo_stacks : forall t, is_task t -> t ∉ fre -> stack_ok k (ktcb k t) = true;
  bo_req : rdy = [] \/ TaskSchedReq (sch k) = true
}.

(** With the schedule locked a further lock only counts. *)
Lemma relock k : OSSchedLock (sch k) = 1 -> OsSchedUnlock (OsSchedLock k) = Some k.
Proof.
  intros Hl. unfold OsSchedUnlock.
  change (OSSchedLock (sch (OsSchedLock k))) with (u8 (OSSchedLock (sch k) + 1)). rewrite Hl.
  change (u8 (1 + 1) =? 1) with false. cbv iota. f_equal. destruct k as [[] ? ? ? ? ? ?]. cbn in *. by subst.
Qed.

Lemma AssignTCB_boot k t :
  OSSchedLock (sch k) = 1 -> FreeTCB (sch k) = Some t -> AssignTCB k = Some (Some t, take_tcb t k).
Proof.
  intros Hl Hf. unfold AssignTCB. change (FreeTCB (sch (OsSchedLock k))) with (FreeTCB (sch k)). rewrite Hf.
  change (OsSchedUnlock (OsSchedLock (take_tcb t k)) ≫= (fun k => Some (Some t, k)) = Some (Some t, take_tcb t k)).
  by rewrite relock.
Qed.

(** The new block of a task that is linked into the ready list. *)
Record booted (kd k' : kernel) (t : Z) (rdy rdy' : list Z) : Prop := {
  bd_ready : forall i, i ∈ rdy' <-> i = t \/ i ∈ rdy;
  bd_ident : forall i, ident (tcb (sch k') i) = ident (tcb (sch kd) i);
  bd_mem : mem k' = mem kd;
  bd_tmr : tmr k' = tmr kd
}.

Lemma boot_ready (kd : kernel) (t : Z) (fre rdy : list Z) :
  lists_ok (sch kd) fre rdy [] -> loose t fre rdy [] -> plain (sch kd) fre ->
  (forall i, is_task i -> i ∉ fre -> i <> t -> tstate (sch kd) i = TASK_READY) ->
  TCBRunning (sch kd) = None /\ TCBNext (sch kd) = None ->
  OSSchedLock (sch kd) = 1 /\ OSIntNesting (sch kd) = 0 /\ pendsv (sch kd) = false ->
  IsrReq (ServiceReq kd) = false -> (forall i, is_task i -> i ∉ fre -> stack_ok kd (ktcb kd i) = true) ->
  rdy = [] \/ TaskSchedReq (sch kd) = true ->
  exists k' rdy', (k ← insert_ready t (OsSchedLock kd); k ← OsSchedUnlock k; Some (taskID (ktcb k t), k)) = Some (t, k') /\
    booting k' fre rdy' /\ booted kd k' t rdy rdy'.
Proof.
  intros L F P Hst [Hrun Hnext] (Hlock & Hnest & Hpend) Hq Hstk Hreq.
  assert (lists_ok (sch (OsSchedLock kd)) fre rdy []) as L' by (apply (lists_ok_view (sch kd)); [by split|done]).
  destruct (insert_lists (sch (OsSchedLock kd)) t fre rdy [] L' F) as (s' & E & M & [K1 K2 K3 K4] & Hdel & Hdl & Hrq).
  destruct (rest_fields _ _ K4) as (R1 & R2 & R3 & R4 & R5 & R6 & R7).
  set (rdy1 := insert_prio (tprio (sch (OsSchedLock kd))) t rdy) in *.
  assert (OSSchedLock s' = 2) as Hl2.
  { rewrite R6. change (u8 (OSSchedLock (sch kd) + 1) = 2). by rewrite Hlock. }
  set (k2 := (OsSchedLock kd) <| sch := s' |>).
  set (k' := k2 <| sch := (sch k2) <| OSSchedLock := u8 (OSSchedLock (sch k2) - 1) |> |>).
  assert (same_view s' (sch k')) as Hv by (by split).
  exists k', rdy1. split; [|split].
  - unfold insert_ready, on_sched. rewrite E. cbn [mbind option_bind]. fold k2.
    unfold OsSchedUnlock. change (OSSchedLock (sch k2)) with (OSSchedLock s') at 1. rewrite Hl2.
    cbn [Z.eqb Pos.eqb mbind option_bind]. fold k'. f_equal. f_equal.
    change (taskID (ktcb k' t)) with (taskID (tcb s' t)).
    destruct (ident_fields _ _ (K1 t)) as (_ & _ & _ & -> & _). by apply P, F.
  - split.
    + by apply (lists_ok_view s').
    + apply (plain_ident (sch kd)); [|exact P]. intros i. exact (K1 i).
    + intros i Hi Hf. change (tstate s' i = TASK_READY). rewrite K3. case_decide as Hit; [done|].
      change (tstate (sch kd) i = TASK_READY). by apply Hst.
    + exact (conj (eq_trans R3 Hrun) (eq_trans R2 Hnext)).
    + change (u8 (OSSchedLock s' - 1) = 1 /\ OSIntNesting s' = 0 /\ pendsv s' = false). rewrite Hl2, R5, R7. done.
    + exact Hq.
    + intros i Hi Hf. rewrite <- (Hstk i Hi Hf). unfold stack_ok.
      destruct (ident_fields _ _ (K1 i)) as (_ & _ & _ & _ & _ & E1 & E2).
      change (ktcb k' i) with (tcb s' i). by rewrite E1, E2.
    + right. change (TaskSchedReq s' = true). rewrite Hrq. destruct rdy as [|h r]; [done|].
      case_match; [done|]. by destruct Hreq.
  - split; [intros i; apply elem_of_insert_prio|exact K1|done|done].
Qed.

Lemma CoCreateTask_boot (k : kernel) (t : Z) (fre rdy : list Z) (task argv pr stk sz : Z) :
  booting k (t :: fre) rdy -> stack_apart stk (t :: fre) k -> task <> 0 -> stk <> 0 ->
  0 <= pr <= CFG_LOWEST_PRIO -> 20 <= sz < 4096 ->
  exists k' rdy', CoCreateTask task argv pr stk sz k = Some (t, k') /\ booting k' fre rdy' /\
    (forall i, i ∈ rdy' <-> i = t \/ i ∈ rdy) /\ tprio (sch k') t = pr /\
    task_written t stk sz k k'.
Proof.
  intros [Hok Hpl Hst Hcpu Hlock Hq Hstk Hreq] Hapart Htask Hstk0 Hpr Hsz.
  rewrite (CoCreateTask_steps k t task argv pr stk sz); try done.
  2: { apply AssignTCB_boot; [apply Hlock|apply (ok_free _ _ _ _ Hok)]. }
  pose proof (fresh_tcb task argv pr stk sz CFG_TIME_SLICE t k) as T.
  destruct (fresh_rest task argv pr stk sz CFG_TIME_SLICE t k) as (X1 & X2 & X3 & X4 & X5 & X6 & X7).
  destruct (boot_ready (upd_task t (set_state TASK_DORMANT) (fresh_task task argv pr stk sz CFG_TIME_SLICE t k)) t fre rdy)
    as (k' & rdy' & E & Hb & [B1 B2 B3 B4]).
  - by apply fresh_lists.
  - by apply (fresh_free t k fre rdy []).
  - by apply fresh_plain.
  - intros i Hi Hf Hit. unfold tstate. specialize (T i). rewrite decide_False in T by done. unfold ktcb in T. rewrite T.
    apply Hst; [done|]. rewrite elem_of_cons. tauto.
  - by rewrite X1, X2.
  - by rewrite X3, X4, X5.
  - by rewrite X7.
  - apply fresh_stacks; [done|done|lia].
  - by rewrite X6.
  - exists k', rdy'. split; [exact E|]. split; [done|]. split; [done|]. split.
    + unfold tprio. destruct (ident_fields _ _ (B2 t)) as (_ & _ & _ & _ & -> & _).
      specialize (T t). rewrite decide_True in T by done. unfold ktcb in T. by rewrite T.
    + by apply (task_written_kept t stk sz k _ k' (fresh_written task argv pr stk sz CFG_TIME_SLICE t k)).
Qed.

(** ** Initialisation *)

Lemma is_task_cases t : is_task t -> t = 0 \/ t = 1 \/ t = 2 \/ t = 3 \/ t = 4 \/ t = 5.
Proof. unfold is_task. change TASKS with 6. lia. Qed.

(** All blocks, in the order of the free list. *)
Definition all_tasks : list Z := [0; 1; 2; 3; 4; 5].

Lemma in_all_tasks t : is_task t -> t ∈ all_tasks.
Proof. intros Ht. unfold all_tasks. rewrite !elem_of_cons. pose proof (is_task_cases t Ht). tauto. Qed.

(** The kernel when the idle task is created. *)
Definition before_idle (heap : Z) : kernel :=
  OsSchedLock (CoCreateKheap heap (CreateEventList (CreateTCBList kernel_zero))).

Lemma lock_heap heap (k : kernel) : sch (OsSchedLock (CoCreateKheap heap k)) = sch (OsSchedLock k).
Proof. done. Qed.

Definition start_sched : sched := sch (OsSchedLock (CreateEventList (CreateTCBList kernel_zero))).

Lemma booting_start heap : booting (before_idle heap) all_tasks [].
Proof.
  assert (sch (before_idle heap) = start_sched) as Es by exact (lock_heap heap _).
  set (s := sch (before_idle heap)) in *.
  assert (lists_ok s all_tasks [] []) as Hok.
  { rewrite Es. split.
    - by vm_compute.
    - assert (TCBRdy start_sched = None) as -> by by vm_compute. apply dll_nil.
    - assert (DlyList start_sched = None) as -> by by vm_compute. apply dll_nil.
    - repeat constructor; rewrite ?elem_of_cons, ?elem_of_nil; lia.
    - intros t. unfold all_tasks. cbn [app]. rewrite !elem_of_cons, elem_of_nil. unfold is_task. change TASKS with 6. lia.
    - done.
    - split; [by intros t ?%elem_of_nil|done].
    - intros t Ht []. by apply in_all_tasks.
    - by intros t ?%elem_of_nil.
    - intros t Ht []. by apply in_all_tasks.
    - intros t Ht []. by apply in_all_tasks. }
  split; fold s.
  - exact Hok.
  - split; [|intros t Ht []; by apply in_all_tasks]. intros t Ht. fold s. rewrite Es.
    by destruct (is_task_cases t Ht) as [->|[->|[->|[->|[->| ->]]]]]; vm_compute.
  - intros t Ht []. by apply in_all_tasks.
  - rewrite Es. by vm_compute.
  - rewrite Es. by vm_compute.
  - done.
  - intros t Ht []. by apply in_all_tasks.
  - by left.
Qed.

Lemma CoInitOS_spec (idle idle_stk heap : Z) :
  idle <> 0 -> idle_stk + 96 <> 0 ->
  exists k, CoInitOS idle idle_stk heap kernel_zero = Some k /\ booting k [1; 2; 3; 4; 5] [0] /\
    tprio (sch k) 0 = CFG_LOWEST_PRIO /\ stack (ktcb k 0) = idle_stk /\ tmr k = tmr kernel_zero.
Proof.
  intros Hi Hs. unfold CoInitOS. fold (before_idle heap).
  change (idle_stk + 4 * (CFG_IDLE_STACK_SIZE - 1)) with (idle_stk + 96).
  destruct (CoCreateTask_boot (before_idle heap) 0 [1; 2; 3; 4; 5] [] idle 0 CFG_LOWEST_PRIO (idle_stk + 96) CFG_IDLE_STACK_SIZE)
    as (k & rdy & E & Hb & Hin & Hp & [Htm _ Hstk]); try done.
  - apply booting_start.
  - intros i Hi' []. by apply in_all_tasks.
  - rewrite E. cbn [mbind option_bind]. exists k. split; [done|]. split; [|split; [done|]].
    + assert (rdy = [0]) as ->; [|done].
      pose proof (ok_apart_rdy _ _ _ _ (bo_lists _ _ _ Hb)) as (Hnd & _).
      destruct rdy as [|a [|b l]].
      * exfalso. apply (not_elem_of_nil 0), Hin. by left.
      * f_equal. destruct (proj1 (Hin a)) as [|?%elem_of_nil]; [apply elem_of_cons; by left|done..].
      * exfalso. destruct (proj1 (Hin a)) as [Ha|?%elem_of_nil]; [apply elem_of_cons; by left| |done].
        destruct (proj1 (Hin b)) as [Hb'|?%elem_of_nil]; [rewrite !elem_of_cons; tauto| |done].
        subst. apply list.NoDup_cons in Hnd as [Hnd _]. apply Hnd, elem_of_cons. by left.
    + rewrite Hstk, decide_True by done. split; [unfold CFG_IDLE_STACK_SIZE; lia|exact Htm].
Qed.

(** ** The first task *)

Lemma CoStartOS_spec (psp : Z) (k : kernel) (fre rdy : list Z) :
  booting k fre rdy -> 0 ∈ rdy -> pointer_ok psp 0 k ->
  exists k1 k2 c rdy', CoStartOS k = Some k1 /\ finish psp k1 = Some k2 /\
    calm c k2 fre rdy' [] /\ stacks_ok c fre k2 /\ untouched k k2.
Proof.
  intros [Hok Hpl Hst [Hrun Hnext] (Hlock & Hnest & Hpend) Hq Hstk Hreq] H0 Hptr.
  destruct (list_elem_of_split _ _ H0) as (l1 & l2 & ->).
  set (s0 := (sch k) <| TCBRunning := Some 0 |> <| TCBNext := Some 0 |>).
  assert (lists_ok s0 fre (l1 ++ 0 :: l2) []) as Hok0 by (apply (lists_ok_view (sch k)); [by split|done]).
  destruct (remove_lists s0 0 TASK_RUNNING fre l1 l2 [] Hok0) as (L & [K1 K2 K3 K4] & Hl & Hd & Hdl & Hrq & _); [done|].
  destruct (remove_commutes 0 TASK_RUNNING s0) as (C1 & C2 & C3 & C4 & C5).
  set (a := upd_tcb 0 (set_state TASK_RUNNING) (RemoveFromTCBRdyList 0 s0)) in *.
  set (b := RemoveFromTCBRdyList 0 (upd_tcb 0 (set_state TASK_RUNNING) s0)) in *.
  destruct (rest_fields _ _ C3) as (F1 & F2 & F3 & F4 & F5 & F6 & F7).
  destruct (rest_fields _ _ K4) as (G1 & G2 & G3 & G4 & G5 & G6 & G7).
  assert (same_view a b) as Hv by (split; [intros i; by rewrite C1|done..]).
  destruct (view_fields _ _ Hv) as (Vp & Vs & Vd & _).
  assert (forall i, ident (tcb b i) = ident (tcb (sch k) i)) as Hid by (intros i; rewrite C1; apply K1).
  destruct (loose_not _ _ _ _ Hl) as (Ht0 & Hf0 & Hr0 & _).
  assert (TaskSchedReq (sch k) = true) as Hreq'.
  { destruct Hreq as [Hr|]; [|done]. by destruct l1. }
  set (kb := k <| sch := b |>).
  destruct (unlock_locked 0 kb fre (l1 ++ l2) [] psp) as (k1 & k2 & c & rdy' & U1 & U2 & U3 & U4 & U5 & _).
  - split; cbn; try done.
    + split.
      * by apply (lists_ok_view a).
      * done.
      * intros t Ht Hf. rewrite Vs, K3. case_decide; [done|]. change (tstate s0 t) with (tstate (sch k) t).
        by rewrite Hst.
      * right. split; [done|]. rewrite Vs, K3. by rewrite decide_True.
    + left. by rewrite C5, Hrq.
    + by apply (plain_ident (sch k)).
    + by rewrite F3, F2, G3, G2.
    + by rewrite F5, F6, F7, G5, G6, G7.
  - intros t Ht Htf. assert (t ∉ fre) as Hf by (by destruct Htf as [->|]).
    change (stack_ok k (tcb b t) = true). rewrite (stack_ok_ident k _ _ (Hid t)). by apply Hstk.
  - destruct (ident_fields _ _ (Hid 0)) as (_ & _ & _ & _ & _ & _ & E2).
    unfold pointer_ok, ktcb. cbn. rewrite E2. apply Hptr.
  - exists k1, k2, c, rdy'. split; [exact U1|]. split; [done|]. split; [done|]. split; [done|].
    transitivity kb; [|done]. split; [|done|done|].
    + intros t. by destruct (ident_fields _ _ (Hid t)) as (_ & _ & _ & _ & _ & _ & ?).
    + intros t. by destruct (ident_fields _ _ (Hid t)) as (_ & _ & _ & _ & ? & _).
Qed.
End boot.
