(* ===== verification/CoTimerList.v ===== *)
(** * The timer list (CoOS/kernel/timer.c) as an agenda

    The abstract timers: a table of the timers that exist, and the agenda of
    those that run, each with its remaining ticks, in the order in which they
    expire. The list of delta times of CoTimer.v is proved to hold the agenda:
    insertion and removal keep it, and a tick takes the timers that are due off
    its front. *)

From stdpp Require Import gmap.
From S2P Require Import Prelude Dll CoTypes CoSched CoInv CoPreempt CoCore CoTask.
From S2P Require Import CoSync CoFlags CoTimer CoService CoRun CoTick CoCalls CoLife.

(** ** The abstract timers *)

(** [at_cnt] is the count with which a stopped timer starts. *)
Record atimer := mk_at { at_type : Z; at_cnt : Z; at_reload : Z; at_func : Z }.
#[export] Instance eta_atimer : Eta atimer := fun t => mk_at (at_type t) (at_cnt t) (at_reload t) (at_func t).

Record timers := mk_timers { table : gmap Z atimer; agenda : list (Z * Z) }.
#[export] Instance eta_timers : Eta timers := fun T => mk_timers (table T) (agenda T).

Definition no_timers : timers := mk_timers ∅ [].

Definition running (T : timers) : list Z := (agenda T).*1.

(** The ticks between the timer and the one before it. *)
Fixpoint gap (i base : Z) (A : list (Z * Z)) : Z :=
  match A with
  | [] => 0
  | (j, e) :: A => if j =? i then e - base else gap i e A
  end.

Definition remove_time (i : Z) (A : list (Z * Z)) : list (Z * Z) := filter (fun p => p.1 <> i) A.

(** A timer that is taken off the agenda. *)
Definition halt (i : Z) (T : timers) : timers :=
  mk_timers (alter (fun t => t <| at_cnt := gap i 0 (agenda T) |>) i (table T)) (remove_time i (agenda T)).

Definition next_timer (T : timers) : option Z :=
  List.find (fun i => bool_decide (table T !! i = None)) (seqZ 0 CFG_MAX_TMR).

(** A periodic timer that was due is queued again. *)
Definition requeue (tab : gmap Z atimer) (R : list (Z * Z)) (i : Z) : list (Z * Z) :=
  match tab !! i with
  | Some t => if at_type t =? TMR_TYPE_PERIODIC then insert_time i (at_reload t) R else R
  | None => R
  end.

Definition due (A : list (Z * Z)) : list Z := (filter (fun p => p.2 = 1) A).*1.

(** The callbacks of the timers that are due, in their order. *)
Definition callbacks (tab : gmap Z atimer) (ds : list Z) : list Z :=
  omap (fun i => at_func <$> tab !! i) ds.
Definition fired (T : timers) : list Z := callbacks (table T) (due (agenda T)).

(** A timer that has expired has no count left. *)
Definition expire (tab : gmap Z atimer) (i : Z) : gmap Z atimer := alter (fun t => t <| at_cnt := 0 |>) i tab.

Definition tick_step (T : timers) : timers :=
  mk_timers (foldl expire (table T) (due (agenda T)))
            (foldl (requeue (table T)) (after_tick (agenda T)) (due (agenda T))).

(** ** Delta times *)

Lemma insert_time_split t w a b :
  Forall (fun p => p.2 <= w) a -> (match b with [] => True | p :: _ => w < p.2 end) ->
  insert_time t w (a ++ b) = a ++ (t, w) :: b.
Proof.
  intros Ha Hb. induction Ha as [|[x e] a Hx Ha IH]; cbn [app insert_time].
  - destruct b as [|[x e] b]; [done|]. cbn [insert_time]. by rewrite (proj2 (Z.ltb_lt w e) Hb).
  - by rewrite (proj2 (Z.ltb_ge w e) Hx), IH.
Qed.

Lemma expiries_le D l : (forall x, x ∈ l -> 0 <= D x) -> Forall (fun p => p.2 <= total D l) (expiries D 0 l).
Proof.
  induction l as [|x l IH] using rev_ind; intros H; [by constructor|].
  rewrite expiries_app, total_app. cbn [expiries total]. apply Forall_app.
  assert (0 <= D x) by (apply H, elem_of_app; right; by apply list_elem_of_singleton).
  split; [|repeat constructor; cbn; lia].
  apply (list.Forall_impl (fun p => p.2 <= total D l)); [|cbn; intros; lia].
  apply IH. intros y Hy. apply H, elem_of_app. by left.
Qed.

(** A block is linked in with its share of the delta time of its successor. *)
Definition shared (D : Z -> Z) (i d : Z) (after : option Z) (D' : Z -> Z) : Prop :=
  forall j, D' j = if decide (j = i) then d else if decide (after = Some j) then D j - d else D j.

Lemma inserted_times D D' i w l1 l2 :
  shared D i (w - total D l1) (first l2 None) D' -> i ∉ l1 ++ l2 -> NoDup (l1 ++ l2) ->
  (forall x, x ∈ l1 ++ l2 -> 0 <= D x) -> total D l1 <= w ->
  (match l2 with [] => True | n :: _ => w < total D l1 + D n end) ->
  expiries D' 0 (l1 ++ i :: l2) = insert_time i w (expiries D 0 (l1 ++ l2)).
Proof.
  intros Hs Hi Hnd Hpos Hle Hlt. apply list.NoDup_app in Hnd as (_ & N2 & N3).
  assert (forall x, x ∈ l1 -> D' x = D x) as H1.
  { intros x Hx. rewrite Hs, !decide_False; [done|..].
    - intros Hf%first_elem. by apply (N2 x).
    - intros ->. apply Hi, elem_of_app. by left. }
  rewrite !expiries_app. cbn [expiries]. rewrite insert_time_split.
  - rewrite (expiries_ext D D' _ l1), (total_ext D D' l1) by done. f_equal.
    assert (D' i = w - total D l1) as -> by (by rewrite Hs, decide_True).
    destruct l2 as [|n l2]; cbn [expiries]; [f_equal; f_equal; lia|].
    apply list.NoDup_cons in N3 as [N3 _].
    assert (D' n = D n - (w - total D l1)) as ->.
    { rewrite Hs, decide_False, decide_True; [done|done|]. intros ->. apply Hi, elem_of_app. right. apply elem_of_cons. by left. }
    rewrite (expiries_ext D D' _ l2).
    + replace (0 + total D l1 + (w - total D l1)) with w by lia.
      by replace (w + (D n - (w - total D l1))) with (0 + total D l1 + D n) by lia.
    + intros x Hx. rewrite Hs, !decide_False; [done|by intros [= ->]|].
      intros ->. apply Hi, elem_of_app. right. apply elem_of_cons. by right.
  - apply (list.Forall_impl (fun p => p.2 <= total D l1)); [|cbn; intros; lia].
    apply expiries_le. intros x Hx. apply Hpos, elem_of_app. by left.
  - destruct l2; [done|]. cbn. lia.
Qed.

(** A block is taken out, and its delta time goes to its successor. *)
Definition returned_to (D : Z -> Z) (d : Z) (after : option Z) (D' : Z -> Z) : Prop :=
  forall j, D' j = if decide (after = Some j) then D j + d else D j.

Lemma remove_time_notin i A : i ∉ A.*1 -> remove_time i A = A.
Proof.
  induction A as [|[j e] A IH]; [done|]. rewrite fmap_cons. intros [H1 H2]%not_elem_of_cons.
  unfold remove_time in *. rewrite filter_cons_True by (cbn in *; congruence). by rewrite IH.
Qed.

Lemma removed_times D D' i l1 l2 :
  returned_to D (D i) (first l2 None) D' -> NoDup (l1 ++ i :: l2) ->
  expiries D' 0 (l1 ++ l2) = remove_time i (expiries D 0 (l1 ++ i :: l2)).
Proof.
  intros Hs Hnd. apply list.NoDup_app in Hnd as (_ & N2 & N3). apply list.NoDup_cons in N3 as [N3 N4].
  assert (forall x, x ∈ l1 -> D' x = D x) as H1.
  { intros x Hx. rewrite Hs, decide_False; [done|]. intros Hf%first_elem.
    apply (N2 x Hx), elem_of_cons. by right. }
  rewrite !expiries_app. cbn [expiries]. unfold remove_time. rewrite list.filter_app.
  fold (remove_time i (expiries D 0 l1)). rewrite remove_time_notin.
  2: { rewrite expiries_fst. intros Hx. apply (N2 i Hx), elem_of_cons. by left. }
  rewrite filter_cons_False by (cbn; congruence).
  fold (remove_time i (expiries D (0 + total D l1 + D i) l2)).
  rewrite remove_time_notin by (by rewrite expiries_fst).
  rewrite (expiries_ext D D' _ l1), (total_ext D D' l1) by done. f_equal.
  destruct l2 as [|n l2]; [done|]. cbn [expiries].
  apply list.NoDup_cons in N4 as [N4 _].
  rewrite (Hs n), decide_True by done. rewrite (expiries_ext D D' _ l2).
  - by replace (0 + total D l1 + (D n + D i)) with (0 + total D l1 + D i + D n) by lia.
  - intros x Hx. rewrite Hs, decide_False; [done|]. by intros [= ->].
Qed.

Lemma gap_delta D base i l1 l2 :
  NoDup (l1 ++ i :: l2) -> gap i base (expiries D base (l1 ++ i :: l2)) = D i.
Proof.
  revert base. induction l1 as [|x l1 IH]; intros base Hnd; cbn [app expiries gap].
  - rewrite Z.eqb_refl. lia.
  - cbn [app] in Hnd. apply list.NoDup_cons in Hnd as [Hx Hnd].
    rewrite (proj2 (Z.eqb_neq _ _)); [by apply IH|]. intros ->. apply Hx, elem_of_app. right.
    apply elem_of_cons. by left.
Qed.

(** ** The list in memory *)

Definition mnext (k : kernel) (i : Z) : option Z := tmrNext (ktmr k i).
Definition mprev (k : kernel) (i : Z) : option Z := tmrPrev (ktmr k i).
Definition mcnt (k : kernel) (i : Z) : Z := tmrCnt (ktmr k i).

(** A timer without its links and its count. *)
Definition mcore (t : TmrCtrl) : Z * Z * bool * Z * Z :=
  (tmrID t, tmrType t, tmrRunning t, tmrReload t, tmrCallBack t).

(** [k'] is [k] but for its timers, of which the same exist. *)
Definition tmr_only (k k' : kernel) : Prop :=
  k' = k <| tmr := tmr k' |> /\ TmrIDVessel (tmr k') = TmrIDVessel (tmr k).

#[export] Instance tmr_only_preorder : PreOrder tmr_only.
Proof.
  split; [intros k; split; by destruct k|]. intros a b c [E1 V1] [E2 V2]. split; [|by rewrite V2].
  rewrite E1 in E2. rewrite E2 at 1. by destruct a.
Qed.

Lemma ktmr_upd i f k j : ktmr (upd_tmr i f k) j = if decide (i = j) then f (ktmr k i) else ktmr k j.
Proof.
  unfold ktmr, upd_tmr. cbn. case_decide as Hij.
  - subst. by rewrite lookup_insert_eq.
  - by rewrite lookup_insert_ne.
Qed.

Lemma upd_tmr_only i f k : tmr_only k (upd_tmr i f k).
Proof. by split. Qed.
Lemma set_head_only h k : tmr_only k (set_tmr_head h k).
Proof. by split. Qed.

Lemma ktmr_head h k i : ktmr (set_tmr_head h k) i = ktmr k i.
Proof. done. Qed.

(** The timer [i] with count [w] is linked between [l1] and [l2]. *)
Record linked (i w : Z) (l1 l2 : list Z) (k k' : kernel) : Prop := {
  li_only : tmr_only k k';
  li_links : linked_in i (final None l1) (first l2 None) (mnext k) (mprev k) (mnext k') (mprev k');
  li_core : forall j, mcore (ktmr k' j) = mcore (ktmr k j);
  li_cnt : shared (mcnt k) i (w - total (mcnt k) l1) (first l2 None) (mcnt k');
  li_head : TmrList (tmr k') = match l1 with [] => Some i | _ => TmrList (tmr k) end;
  li_place : total (mcnt k) l1 <= w /\
    match l2 with [] => True | n :: _ => w < total (mcnt k) l1 + mcnt k n end
}.

Ltac tmr_cases := rewrite ?ktmr_head, ?ktmr_upd; link_cases.

Section timers.
Context `{Port}.

Lemma tmr_link_before_spec (k : kernel) (i n : Z) (l1 l2 : list Z) :
  dll (mnext k) (mprev k) (TmrList (tmr k)) (l1 ++ n :: l2) -> i ∉ l1 ++ n :: l2 -> mprev k i = None ->
  exists k1, tmr_link_before i n k = Some k1 /\ tmr_only k k1 /\
    linked_in i (final None l1) (Some n) (mnext k) (mprev k) (mnext k1) (mprev k1) /\
    (forall j, mcore (ktmr k1 j) = mcore (ktmr k j) /\ mcnt k1 j = mcnt k j) /\
    TmrList (tmr k1) = match l1 with [] => Some i | _ => TmrList (tmr k) end.
Proof.
  intros Hd Hi Hp. destruct (dll_at _ _ _ _ _ _ Hd) as [_ Hpn].
  assert (i <> n) as Hin by (intros ->; apply Hi, elem_of_app; right; apply elem_of_cons; by left).
  assert (forall j, final None l1 = Some j -> j <> i /\ j <> n) as Hne.
  { intros j Hj%final_elem. split; intros ->.
    - apply Hi, elem_of_app. by left.
    - apply dll_nodup in Hd. apply list.NoDup_app in Hd as (_ & N2 & _).
      apply (N2 n Hj). apply elem_of_cons. by left. }
  unfold tmr_link_before. fold (mprev k n). rewrite Hpn. destruct (final None l1) as [p|] eqn:Ep.
  - destruct (Hne p eq_refl) as [Hpi Hpn'].
    eexists. split; [reflexivity|]. split; [by split|]. split; [|split; [|by destruct l1]].
    + intros j. unfold mnext, mprev in *. tmr_cases.
    + intros j. unfold mcnt. tmr_cases.
  - assert (l1 = []) as -> by (destruct l1 using rev_ind; [done|by rewrite final_snoc in Ep]).
    pose proof (dll_head _ _ _ _ Hd) as Hh. cbn [first app] in Hh. cbv zeta.
    change (TmrList (tmr (upd_tmr i (set_mnext (TmrList (tmr k))) k))) with (TmrList (tmr k)). rewrite Hh.
    eexists. split; [reflexivity|]. split; [by split|]. split; [|split; [|done]].
    + intros j. unfold mnext, mprev in *. tmr_cases.
    + intros j. unfold mcnt. tmr_cases.
Qed.

Lemma tmr_before_spec (k : kernel) (i n w : Z) (l1 l2 : list Z) :
  dll (mnext k) (mprev k) (TmrList (tmr k)) (l1 ++ n :: l2) -> i ∉ l1 ++ n :: l2 -> mprev k i = None ->
  0 <= mcnt k n < 2 ^ 31 -> total (mcnt k) l1 <= w < total (mcnt k) l1 + mcnt k n ->
  exists k', tmr_before i n (w - total (mcnt k) l1 - mcnt k n) k = Some k' /\ linked i w l1 (n :: l2) k k'.
Proof.
  intros Hd Hi Hp Hn Hw.
  assert (i <> n) as Hin by (intros ->; apply Hi, elem_of_app; right; apply elem_of_cons; by left).
  destruct (tmr_link_before_spec k i n l1 l2 Hd Hi Hp) as (k1 & E & O1 & L1 & C1 & H1).
  set (b := total (mcnt k) l1) in *. set (d := w - b - mcnt k n).
  unfold tmr_before. rewrite E. cbn [mbind option_bind].
  assert (tmrNext (ktmr k1 i) = Some n) as -> by (destruct (L1 i) as [X _]; by rewrite decide_True in X).
  cbn [mbind option_bind]. eexists. split; [reflexivity|].
  assert (forall j, tmrCnt (ktmr k1 j) = mcnt k j) as Hc by (intros j; apply C1).
  split.
  - transitivity k1; [done|by split].
  - intros j. destruct (L1 j) as [X1 X2]. cbn [first]. rewrite <- X1, <- X2. unfold mnext, mprev. tmr_cases.
  - intros j. rewrite <- (proj1 (C1 j)). tmr_cases.
  - intros j. unfold mcnt at 1. rewrite !ktmr_upd, !Hc.
    assert (u32 (mcnt k n + d) = w - b) as -> by (rewrite u32_small; unfold d; lia).
    cbn [first]. repeat case_decide; subst; try congruence; cbn [set_cnt tmrCnt update updater]; rewrite ?Hc; try done.
    rewrite u32_small; [done|lia].
  - exact H1.
  - split; [lia|]. lia.
Qed.

Lemma tmr_append_spec (k : kernel) (i n w : Z) (l1 : list Z) :
  dll (mnext k) (mprev k) (TmrList (tmr k)) (l1 ++ [n]) -> i ∉ l1 ++ [n] -> mnext k i = None ->
  total (mcnt k) (l1 ++ [n]) <= w ->
  linked i w (l1 ++ [n]) [] k
    (upd_tmr i (set_cnt (w - total (mcnt k) (l1 ++ [n])))
       (upd_tmr n (set_mnext (Some i)) (upd_tmr i (set_mprev (Some n)) k))).
Proof.
  intros Hd Hi Hn Hle. destruct (dll_at _ _ _ _ _ _ Hd) as [Hnn _].
  assert (i <> n) as Hin by (intros ->; apply Hi, elem_of_app; right; by apply list_elem_of_singleton).
  split; [by split| | | |by destruct l1|by split].
  - intros j. rewrite final_snoc. unfold mnext, mprev in *. tmr_cases.
  - intros j. tmr_cases.
  - intros j. unfold mcnt at 1. cbn [first]. tmr_cases.
Qed.

Lemma tmr_place_spec (k : kernel) (i w : Z) (l2 : list Z) : forall (l1 : list Z) (n : Z) (fuel : nat),
  dll (mnext k) (mprev k) (TmrList (tmr k)) (l1 ++ n :: l2) -> i ∉ l1 ++ n :: l2 ->
  mnext k i = None -> mprev k i = None -> delays_ok (mcnt k) (l1 ++ n :: l2) ->
  total (mcnt k) l1 <= w < 2 ^ 31 -> (length l2 < fuel)%nat ->
  exists k' m1 m2, tmr_place fuel i n (w - total (mcnt k) l1) k = Some k' /\
    n :: l2 = m1 ++ m2 /\ linked i w (l1 ++ m1) m2 k k'.
Proof.
  induction l2 as [|m l2 IH]; intros l1 n fuel Hd Hi Hn Hp Hok Hw Hf;
    (destruct fuel as [|fuel]; [cbn in Hf; lia|]); cbn [tmr_place]; fold (mcnt k n) (mnext k n).
  all: assert (0 <= mcnt k n < 2 ^ 31) as Hrn
    by (apply (delays_ok_each _ _ _ Hok), elem_of_app; right; apply elem_of_cons; by left).
  all: assert (0 <= total (mcnt k) l1) as Hpos
    by (apply total_nonneg; intros x Hx; apply Hok, elem_of_app; by left).
  all: assert (total (mcnt k) (l1 ++ [n]) = total (mcnt k) l1 + mcnt k n) as Esnoc
    by (rewrite total_app; cbn; lia).
  all: rewrite i32_small by lia.
  all: destruct (dll_at _ _ _ _ _ _ Hd) as [Hnx _].
  all: match goal with |- context [_ :: ?l = _] =>
    destruct (w - total (mcnt k) l1 - mcnt k n <? 0) eqn:E;
      [apply Z.ltb_lt in E; destruct (tmr_before_spec k i n w l1 l Hd Hi Hp) as (k' & E1 & E2); [lia|lia|];
       exists k', [], (n :: l); rewrite app_nil_r; done|apply Z.ltb_ge in E] end.
  all: rewrite Hnx; cbn [first].
  - eexists _, [n], []. split; [reflexivity|]. split; [done|].
    replace (w - total (mcnt k) l1 - mcnt k n) with (w - total (mcnt k) (l1 ++ [n])) by lia.
    apply tmr_append_spec; try done. lia.
  - destruct (IH (l1 ++ [n]) m fuel) as (k' & m1 & m2 & E1 & E2 & E3);
      try (rewrite <- app_assoc; done); try done; [lia|cbn in Hf; lia|].
    exists k', (n :: m1), m2. rewrite E2. rewrite <- app_assoc in E3. split; [|done].
    rewrite <- E1. f_equal. lia.
Qed.
(** A lock inside a lock, or with nothing pending, changes nothing. *)
Definition relocks (k : kernel) : Prop :=
  forall k', sch k' = sch k -> ServiceReq k' = ServiceReq k -> OsSchedUnlock (OsSchedLock k') = Some k'.

Lemma quiet_relocks k : quiet k -> relocks k.
Proof. intros Hq k' E1 E2. apply unlock_quiet. unfold quiet. by rewrite E1, E2. Qed.

Lemma locked_relocks k : OSSchedLock (sch k) = 1 -> relocks k.
Proof.
  intros Hl k' E _. rewrite <- E in Hl. unfold OsSchedUnlock.
  change (OSSchedLock (sch (OsSchedLock k'))) with (u8 (OSSchedLock (sch k') + 1)). rewrite Hl.
  change (u8 (1 + 1) =? 1) with false. cbv iota. f_equal. destruct k' as [[] ? ? ? ? ? ?]. cbn in *. by subst.
Qed.

Lemma tmr_only_unlock k k1 :
  relocks k -> tmr_only (OsSchedLock k) k1 ->
  OsSchedUnlock k1 = Some (k <| tmr := tmr k1 |>) /\ tmr_only k (k <| tmr := tmr k1 |>).
Proof.
  intros Hr [E V]. split; [|by split]. transitivity (OsSchedUnlock (OsSchedLock (k <| tmr := tmr k1 |>))).
  - f_equal. exact E.
  - by apply Hr.
Qed.

Lemma InsertTmrList_spec (k : kernel) (i : Z) (l : list Z) :
  dll (mnext k) (mprev k) (TmrList (tmr k)) l -> i ∉ l -> mnext k i = None -> mprev k i = None ->
  delays_ok (mcnt k) l -> 0 < mcnt k i < 2 ^ 31 -> (length l <= tmr_fuel)%nat -> relocks k ->
  exists k' l1 l2, InsertTmrList i k = Some k' /\ l = l1 ++ l2 /\ linked i (mcnt k i) l1 l2 k k'.
Proof.
  intros Hd Hi Hn Hp Hok Hc Hlen Hr. unfold InsertTmrList. fold (mcnt k i). cbv zeta.
  rewrite (proj2 (Z.eqb_neq _ _)) by lia. set (k0 := OsSchedLock k).
  assert (exists k1 l1 l2, match TmrList (tmr k0) with
      | None => Some (set_tmr_head (Some i) k0)
      | Some h => tmr_place tmr_fuel i h (i32 (mcnt k i)) k0
      end = Some k1 /\ l = l1 ++ l2 /\ linked i (mcnt k i) l1 l2 k0 k1) as (k1 & l1 & l2 & E & -> & L).
  { change (TmrList (tmr k0)) with (TmrList (tmr k)). destruct (TmrList (tmr k)) as [h|] eqn:Eh.
    - destruct (dll_some _ _ _ _ Hd) as [l' ->]. rewrite i32_small by lia. rewrite <- Eh in Hd.
      destruct (tmr_place_spec k0 i (mcnt k i) l' [] h tmr_fuel Hd Hi Hn Hp Hok) as (k1 & m1 & m2 & E1 & E2 & E3);
        [cbn; lia|cbn in Hlen; lia|].
      exists k1, m1, m2. cbn [total] in E1. rewrite Z.sub_0_r in E1. done.
    - apply dll_none in Hd as ->. exists (set_tmr_head (Some i) k0), [], []. split; [done|]. split; [done|].
      split; [by split|..]; try done.
      + intros j. cbn [final first]. unfold mnext, mprev in *. rewrite ktmr_head. change (ktmr k0) with (ktmr k). link_cases.
      + intros j. cbn [first total]. rewrite Z.sub_0_r. unfold mcnt. rewrite ktmr_head. link_cases.
      + cbn [total]. split; [lia|done]. }
  rewrite E. cbn [mbind option_bind]. destruct (tmr_only_unlock k k1 Hr (li_only _ _ _ _ _ _ L)) as [U O].
  exists (k <| tmr := tmr k1 |>), l1, l2. split; [exact U|]. split; [done|]. by destruct L.
Qed.

(** The timer [i] is taken out from between [l1] and [l2]. *)
Record unlinked_timer (i : Z) (l1 l2 : list Z) (k k' : kernel) : Prop := {
  ul_only : tmr_only k k';
  ul_links : unlinked i (mnext k) (mprev k) (mnext k') (mprev k');
  ul_self : mnext k' i = None /\ mprev k' i = None;
  ul_core : forall j, mcore (ktmr k' j) = mcore (ktmr k j);
  ul_cnt : returned_to (mcnt k) (mcnt k i) (first l2 None) (mcnt k');
  ul_head : TmrList (tmr k') = match l1 with [] => first l2 None | _ => TmrList (tmr k) end
}.

Lemma RemoveTmrList_spec (k : kernel) (i : Z) (l1 l2 : list Z) :
  dll (mnext k) (mprev k) (TmrList (tmr k)) (l1 ++ i :: l2) -> delays_ok (mcnt k) (l1 ++ i :: l2) ->
  relocks k -> exists k', RemoveTmrList i k = Some k' /\ unlinked_timer i l1 l2 k k'.
Proof.
  intros Hd Hok Hr. destruct (dll_at _ _ _ _ _ _ Hd) as [Hn Hp].
  assert (forall j, final None l1 = Some j \/ first l2 None = Some j -> j <> i) as Hne.
  { intros j Hj ->. apply dll_nodup in Hd. apply list.NoDup_app in Hd as (_ & N2 & N3).
    apply list.NoDup_cons in N3 as [N3 _]. destruct Hj as [Hj%final_elem|Hj%first_elem]; [|done].
    apply (N2 i Hj), elem_of_cons. by left. }
  assert (forall j, final None l1 = Some j -> first l2 None <> Some j) as Hpn.
  { intros j Hj%final_elem Hj2%first_elem. apply dll_nodup in Hd. apply list.NoDup_app in Hd as (_ & N2 & _).
    apply (N2 j Hj), elem_of_cons. by right. }
  assert (forall n, first l2 None = Some n -> u32 (mcnt k n + mcnt k i) = mcnt k n + mcnt k i) as Hw.
  { intros n Hn2%first_elem. destruct (delays_ok_each _ _ n Hok) as [? ?]; [apply elem_of_app; right; apply elem_of_cons; by right|].
    destruct (delays_ok_each _ _ i Hok) as [? ?]; [apply elem_of_app; right; apply elem_of_cons; by left|].
    apply u32_small. lia. }
  unfold RemoveTmrList. set (k0 := OsSchedLock k). cbv zeta.
  fold (mprev k0 i) (mnext k0 i) (mcnt k0 i). change (mprev k0 i) with (mprev k i). change (mnext k0 i) with (mnext k i).
  change (mcnt k0 i) with (mcnt k i). rewrite Hn, Hp.
  match goal with |- exists k', (OsSchedUnlock ?x = _) /\ _ => set (k1 := x) end.
  assert (unlinked_timer i l1 l2 k0 k1) as U.
  { assert (match l1 with [] => first l2 None | _ => TmrList (tmr k) end
      = match final None l1 with None => first l2 None | _ => TmrList (tmr k) end) as Eh
      by (destruct l1 as [|x l _] using rev_ind; [done|rewrite final_snoc; by destruct l]).
    subst k1. unfold mcnt in *. unfold mnext, mprev in *.
    destruct (final None l1) as [p|] eqn:Ep; destruct (first l2 None) as [n|] eqn:En.
    all: try (pose proof (Hne p (or_introl eq_refl)) as Hpi).
    all: try (pose proof (Hne n (or_intror eq_refl)) as Hni).
    all: try (assert (p <> n) by (intros ->; by apply (Hpn n))).
    all: split; [by split|intros j Hj| |intros j|intros j|rewrite En; change (TmrList (tmr k0)) with (TmrList (tmr k)); by rewrite Eh].
    all: unfold mcnt, mnext, mprev in *; rewrite ?ktmr_upd, ?ktmr_head; change (ktmr k0) with (ktmr k).
    all: rewrite ?Hn, ?Hp, ?En.
    all: repeat case_decide; subst; simplify_eq; try congruence; try done.
    all: cbn; rewrite ?Hw by done; done. }
  destruct (tmr_only_unlock k k1 Hr (ul_only _ _ _ _ _ U)) as [E O].
  exists (k <| tmr := tmr k1 |>). split; [exact E|]. by destruct U.
Qed.
End timers.
