(* ===== verification/CoTimers.v ===== *)
(** * The calls and the tick of the timers (CoOS/kernel/timer.c)

    [timers_ok] relates the abstract timers of CoTimerList.v to the kernel; each
    call of timer.c, and the part of the tick that serves the timers, takes a
    kernel for one state of the abstract timers to a kernel for the next. *)

From stdpp Require Import gmap.
From S2P Require Import Prelude Dll CoTypes CoSched CoInv CoPreempt CoCore CoTask.
From S2P Require Import CoSync CoFlags CoTimer CoService CoRun CoTick CoCalls CoLife.
From S2P Require Import CoTimerList.

(** ** The calls *)

Inductive timer_op :=
  | CreateTmr (type cnt reload func : Z)
  | StartTmr (id : Z)
  | StopTmr (id : Z)
  | DelTmr (id : Z)
  | SetTmr (id cnt reload : Z)
  | GetTmr (id : Z).

#[export] Instance timer_op_eq_dec : EqDecision timer_op.
Proof. solve_decision. Defined.

(** The result of a call on the abstract timers, and the timers after it. *)
Definition timer_step (o : timer_op) (T : timers) : Z * timers :=
  match o with
  | CreateTmr type cnt reload func =>
      if negb (type =? TMR_TYPE_ONE_SHOT) && negb (type =? TMR_TYPE_PERIODIC) then (E_CREATE_FAIL, T)
      else if func =? 0 then (E_CREATE_FAIL, T)
      else match next_timer T with
           | Some i => (i, T <| table ::= <[i := mk_at type cnt reload func]> |>)
           | None => (E_CREATE_FAIL, T)
           end
  | StartTmr i =>
      match table T !! i with
      | None => (E_INVALID_ID, T)
      | Some t => (E_OK, if decide (i ∈ running T) then T
                         else T <| agenda ::= insert_time i (at_cnt t) |>)
      end
  | StopTmr i =>
      match table T !! i with
      | None => (E_INVALID_ID, T)
      | Some _ => (E_OK, if decide (i ∈ running T) then halt i T else T)
      end
  | DelTmr i =>
      match table T !! i with
      | None => (E_INVALID_ID, T)
      | Some _ => (E_OK, mk_timers (delete i (table T)) (remove_time i (agenda T)))
      end
  | SetTmr i cnt reload =>
      match table T !! i with
      | None => (E_INVALID_ID, T)
      | Some t => (E_OK, T <| table ::= <[i := t <| at_cnt := cnt |> <| at_reload := reload |>]> |>)
      end
  | GetTmr i =>
      match table T !! i with
      | None => (0, T)
      | Some t => (if decide (i ∈ running T) then gap i 0 (agenda T) else at_cnt t, T)
      end
  end.

(** What the kernel relies on: counts fit the signed counter of the insertion,
    a periodic timer has a period, a timer is started with a count, and its
    count is set while it is stopped. *)
Definition timer_allowed (o : timer_op) (k : kernel) : Prop :=
  match o with
  | CreateTmr type cnt reload _ =>
      0 <= cnt < 2 ^ 31 /\ (type = TMR_TYPE_PERIODIC -> 0 < reload < 2 ^ 31)
  | StartTmr i =>
      0 <= i /\ (tmr_used i k = true -> tmrRunning (ktmr k i) = false -> 0 < tmrCnt (ktmr k i))
  | SetTmr i cnt reload =>
      0 <= i /\ (tmr_used i k = true -> tmrRunning (ktmr k i) = false /\ 0 <= cnt < 2 ^ 31 /\
        (tmrType (ktmr k i) = TMR_TYPE_PERIODIC -> 0 < reload < 2 ^ 31))
  | StopTmr i | DelTmr i | GetTmr i => 0 <= i
  end.

(** ** Identifiers as bits *)

Lemma has_bit_set v i j : 0 <= i -> 0 <= j -> has_bit (Z.lor v (bit i)) j = has_bit v j || (j =? i).
Proof.
  intros Hi Hj. rewrite !has_bit_testbit, Z.lor_spec by done. unfold bit.
  rewrite Z.shiftl_spec by done. f_equal. destruct (Z.eqb_spec j i) as [->|Hne].
  - by rewrite Z.sub_diag.
  - destruct (decide (j < i)); [by rewrite Z.testbit_neg_r by lia|].
    change 1 with (2 ^ 0). rewrite Z.pow2_bits_false; [done|lia].
Qed.

Lemma has_bit_clear v i j :
  0 <= i -> 0 <= j < 32 -> has_bit (Z.land v (u32 (Z.lnot (bit i)))) j = has_bit v j && negb (j =? i).
Proof.
  intros Hi Hj. rewrite !has_bit_testbit, Z.land_spec by lia. f_equal. unfold u32.
  rewrite Z.mod_pow2_bits_low, Z.lnot_spec by lia. f_equal. unfold bit. rewrite Z.shiftl_spec by lia.
  destruct (Z.eqb_spec j i) as [->|Hne]; [by rewrite Z.sub_diag|].
  destruct (decide (j < i)); [by rewrite Z.testbit_neg_r by lia|].
  change 1 with (2 ^ 0). rewrite Z.pow2_bits_false; [done|lia].
Qed.

(** ** The timers in memory *)

Definition good_timer (t : atimer) : Prop :=
  0 <= at_cnt t < 2 ^ 31 /\
  (at_type t = TMR_TYPE_ONE_SHOT \/ at_type t = TMR_TYPE_PERIODIC /\ 0 < at_reload t < 2 ^ 31).

(** The list holds the agenda; the flags [tmrRunning] are left to [timers_ok]. *)
Record listed (T : timers) (k : kernel) : Prop := {
  ls_list : dll (mnext k) (mprev k) (TmrList (tmr k)) (running T);
  ls_times : expiries (mcnt k) 0 (running T) = agenda T;
  ls_delays : delays_ok (mcnt k) (running T);
  ls_ids : forall i, 0 <= i < CFG_MAX_TMR ->
    has_bit (TmrIDVessel (tmr k)) i = bool_decide (is_Some (table T !! i));
  ls_known : forall i, i ∈ running T -> is_Some (table T !! i);
  ls_table : forall i t, table T !! i = Some t ->
    0 <= i < CFG_MAX_TMR /\ good_timer t /\ tmrID (ktmr k i) = i /\ tmrType (ktmr k i) = at_type t /\
    tmrReload (ktmr k i) = at_reload t /\ tmrCallBack (ktmr k i) = at_func t;
  ls_stopped : forall i t, table T !! i = Some t -> i ∉ running T ->
    mcnt k i = at_cnt t /\ mnext k i = None /\ mprev k i = None
}.

Record timers_ok (T : timers) (k : kernel) : Prop := {
  to_listed : listed T k;
  to_flags : forall i t, table T !! i = Some t -> tmrRunning (ktmr k i) = bool_decide (i ∈ running T);
  to_pos : Forall (fun p => 0 < p.2) (agenda T)
}.

Lemma listed_same T k k' : tmr k' = tmr k -> listed T k -> listed T k'.
Proof.
  intros E [L1 L2 L3 L4 L5 L6 L7].
  assert (forall i, ktmr k' i = ktmr k i) as Ek by (intros i; unfold ktmr; by rewrite E).
  assert (forall i, mnext k' i = mnext k i /\ mprev k' i = mprev k i /\ mcnt k' i = mcnt k i) as F
    by (intros i; unfold mnext, mprev, mcnt; by rewrite Ek).
  split; [|..|done| |].
  - rewrite E. apply (dll_ext (mnext k) (mprev k)); [|done]. intros x _. split; apply F.
  - rewrite (expiries_ext (mcnt k)); [done|]. intros x _. apply F.
  - apply (delays_ok_ext (mcnt k)); [|done]. intros x _. apply F.
  - by rewrite E.
  - intros i t. rewrite Ek. apply L6.
  - intros i t. destruct (F i) as (-> & -> & ->). apply L7.
Qed.

Lemma timers_ok_same T k k' : tmr k' = tmr k -> timers_ok T k -> timers_ok T k'.
Proof.
  intros E [L F P]. split; [by apply (listed_same T k)| |done].
  intros i t. unfold ktmr. rewrite E. apply F.
Qed.

Lemma insert_time_fst i w A : (insert_time i w A).*1 ≡ₚ i :: A.*1.
Proof. by rewrite insert_time_perm. Qed.

Lemma elem_of_requeued j i w A : j ∈ (insert_time i w A).*1 <-> j = i \/ j ∈ A.*1.
Proof. rewrite insert_time_fst. apply elem_of_cons. Qed.

Lemma elem_of_removed j i A : j ∈ (remove_time i A).*1 <-> j <> i /\ j ∈ A.*1.
Proof.
  unfold remove_time. rewrite !list_elem_of_fmap. split.
  - intros ([x e] & -> & [Hx Hin]%list_elem_of_filter). split; [done|]. by exists (x, e).
  - intros (Hj & [x e] & -> & Hin). exists (x, e). split; [done|]. by apply list_elem_of_filter.
Qed.

Lemma running_length T k : listed T k -> (length (running T) <= tmr_fuel)%nat.
Proof.
  intros L. unfold tmr_fuel.
  assert (running T ⊆ seqZ 0 CFG_MAX_TMR) as Hs.
  { intros i Hi. destruct (ls_known _ _ L i Hi) as [t Ht]. apply elem_of_seqZ.
    destruct (ls_table _ _ L i t Ht) as [? _]. lia. }
  pose proof (submseteq_length _ _ (NoDup_submseteq _ _ (dll_nodup _ _ _ _ (ls_list _ _ L)) Hs)) as Hl.
  by rewrite length_seqZ in Hl.
Qed.

Lemma find_ext_in {A} (p q : A -> bool) l : (forall x, x ∈ l -> p x = q x) -> List.find p l = List.find q l.
Proof.
  induction l as [|x l IH]; intros E; [done|]. cbn [List.find]. rewrite E by (apply elem_of_cons; by left).
  rewrite IH; [done|]. intros y Hy. apply E, elem_of_cons. by right.
Qed.

Section calls.
Context `{Port}.

Lemma tmr_only_frame k k' : tmr_only k k' -> sch k' = sch k /\ ServiceReq k' = ServiceReq k /\ mem k' = mem k.
Proof. intros [-> _]. done. Qed.

Lemma relocks_ext k k' : sch k' = sch k -> ServiceReq k' = ServiceReq k -> relocks k -> relocks k'.
Proof. intros E1 E2 Hr x X1 X2. apply Hr; congruence. Qed.

Lemma mcore_fields a b : mcore a = mcore b ->
  tmrID a = tmrID b /\ tmrType a = tmrType b /\ tmrRunning a = tmrRunning b /\ tmrReload a = tmrReload b /\
  tmrCallBack a = tmrCallBack b.
Proof. by intros [=]. Qed.

(** ** Queueing and taking off *)

Lemma listed_insert T k i t :
  listed T k -> table T !! i = Some t -> i ∉ running T -> 0 < at_cnt t -> relocks k ->
  exists k', InsertTmrList i k = Some k' /\ tmr_only k k' /\
    listed (T <| agenda ::= insert_time i (at_cnt t) |>) k' /\
    forall j, mcore (ktmr k' j) = mcore (ktmr k j).
Proof.
  intros L Ht Hi Hc Hr. pose proof L as [L1 L2 L3 L4 L5 L6 L7].
  destruct (L7 i t Ht Hi) as (Ec & En & Ep). destruct (L6 i t Ht) as (_ & [Hg _] & _).
  destruct (InsertTmrList_spec k i (running T) L1 Hi En Ep L3) as (k' & l1 & l2 & E & El & [I1 I2 I3 I4 I5 I6]);
    [lia|by apply (running_length T k)|done|].
  exists k'. split; [done|]. split; [done|]. split; [|done]. rewrite El in L1, L2, L3, Hi.
  pose proof (dll_nodup _ _ _ _ L1) as Hnd. destruct I6 as [I6 I7]. rewrite Ec in *.
  pose proof (inserted_times (mcnt k) (mcnt k') i (at_cnt t) l1 l2 I4 Hi Hnd (proj1 L3) I6 I7) as Ex.
  rewrite L2 in Ex.
  set (T' := T <| agenda ::= insert_time i (at_cnt t) |>).
  assert (running T' = l1 ++ i :: l2) as Er
    by (rewrite <- (expiries_fst (mcnt k') 0 (l1 ++ i :: l2)), Ex; done).
  split; rewrite ?Er.
  - rewrite I5. by apply (dll_linked_in (mnext k) (mprev k)).
  - exact Ex.
  - split.
    + intros x. rewrite elem_of_app, elem_of_cons. intros Hx. rewrite I4.
      destruct (decide (x = i)); [lia|]. assert (0 <= mcnt k x) by (apply L3; rewrite elem_of_app; tauto).
      case_decide as Hf; [|done]. destruct l2 as [|m l2]; [done|]. injection Hf as ->. lia.
    + apply total_bound; [done|]. rewrite Ex. apply insert_time_bound; [lia|]. rewrite <- L2.
      by apply expiries_bound; apply L3.
  - by rewrite (proj2 I1).
  - intros j. rewrite elem_of_app, elem_of_cons. intros Hj. destruct (decide (j = i)) as [->|]; [by exists t|].
    apply L5. rewrite El, elem_of_app. tauto.
  - intros j u Hu. destruct (mcore_fields _ _ (I3 j)) as (-> & -> & _ & -> & ->). by apply L6.
  - intros j u Hu. rewrite elem_of_app, elem_of_cons. intros Hj. assert (j <> i /\ j ∉ l1 ++ l2) as [Hji Hjl].
    { rewrite elem_of_app. tauto. }
    rewrite <- El in Hjl. destruct (L7 j u Hu Hjl) as (<- & Xn & Xp). rewrite El in Hjl.
    destruct (linked_in_frame _ _ _ _ _ _ _ j I2 Hji Hjl) as [-> ->]. split; [|done].
    rewrite I4, !decide_False; [done| |done]. intros Hf%first_elem. apply Hjl, elem_of_app. by right.
Qed.
Lemma listed_remove T k i :
  listed T k -> i ∈ running T -> relocks k ->
  exists k', RemoveTmrList i k = Some k' /\ tmr_only k k' /\ listed (halt i T) k' /\
    forall j, mcore (ktmr k' j) = mcore (ktmr k j).
Proof.
  intros L Hi Hr. pose proof L as [L1 L2 L3 L4 L5 L6 L7].
  destruct (list_elem_of_split _ _ Hi) as (l1 & l2 & El). rewrite El in L1, L2, L3.
  destruct (RemoveTmrList_spec k i l1 l2 L1 L3 Hr) as (k' & E & [U1 U2 U3 U4 U5 U6]).
  exists k'. split; [done|]. split; [done|]. split; [|done].
  pose proof (dll_nodup _ _ _ _ L1) as Hnd.
  pose proof (removed_times (mcnt k) (mcnt k') i l1 l2 U5 Hnd) as Ex. rewrite L2 in Ex.
  assert (running (halt i T) = l1 ++ l2) as Er
    by (rewrite <- (expiries_fst (mcnt k') 0 (l1 ++ l2)), Ex; done).
  assert (gap i 0 (agenda T) = mcnt k i) as Eg by (rewrite <- L2; by apply gap_delta).
  assert (0 <= mcnt k i < 2 ^ 31) as Hci
    by (apply (delays_ok_each _ _ _ L3), elem_of_app; right; apply elem_of_cons; by left).
  assert (i ∉ l1 ++ l2) as Hil by (rewrite <- Permutation_middle in Hnd; by apply list.NoDup_cons in Hnd as [? _]).
  assert (forall j u, table (halt i T) !! j = Some u -> exists t, table T !! j = Some t /\
    u = (if decide (j = i) then t <| at_cnt := mcnt k i |> else t)) as Htab.
  { intros j u. cbn [halt table]. rewrite Eg. destruct (decide (j = i)) as [->|Hne].
    - rewrite lookup_alter_eq. intros (t & Ht & ->)%fmap_Some. by exists t.
    - rewrite lookup_alter_ne by done. intros Hu. by exists u. }
  assert (forall j, first l2 None = Some j -> mcnt k' j = mcnt k j + mcnt k i) as Hf
    by (intros j Hj; by rewrite U5, decide_True).
  split; rewrite ?Er.
  - rewrite U6. by apply (dll_unlinked (mnext k) (mprev k)) with (t := i).
  - exact Ex.
  - split.
    + intros x Hx. rewrite U5. assert (0 <= mcnt k x); [|case_decide; lia].
      apply L3. rewrite elem_of_app in *. rewrite elem_of_cons. tauto.
    + apply total_bound; [done|]. rewrite Ex, <- L2. unfold remove_time.
      apply list.Forall_forall. intros p [_ Hp]%list_elem_of_filter.
      pose proof (expiries_bound (mcnt k) (2 ^ 31) _ (proj1 L3) (proj2 L3)) as Hb.
      rewrite list.Forall_forall in Hb. by apply Hb.
  - intros j Hj. rewrite (proj2 U1), L4 by done. apply bool_decide_ext. cbn [halt table].
    destruct (decide (j = i)) as [->|]; [rewrite lookup_alter_eq, fmap_is_Some; done|by rewrite lookup_alter_ne].
  - intros j Hj. assert (is_Some (table T !! j)) as [t Ht].
    { apply L5. rewrite El, !elem_of_app in *. rewrite elem_of_cons. tauto. }
    cbn [halt table]. destruct (decide (j = i)) as [->|]; [rewrite lookup_alter_eq, Ht|rewrite lookup_alter_ne]; done.
  - intros j u (t & Ht & ->)%Htab. destruct (mcore_fields _ _ (U4 j)) as (-> & -> & _ & -> & ->).
    destruct (L6 j t Ht) as (B1 & [B2 B2'] & B3 & B4 & B5 & B6). by case_decide.
  - intros j u (t & Ht & ->)%Htab Hj. destruct (decide (j = i)) as [->|Hne].
    + cbn [at_cnt update updater]. split; [|done]. rewrite U5, decide_False; [done|].
      intros Hc%first_elem. apply Hil, elem_of_app. by right.
    + assert (j ∉ running T) as Hj' by (rewrite El; revert Hj; rewrite !elem_of_app, elem_of_cons; tauto).
      destruct (L7 j t Ht Hj') as (<- & Xn & Xp). rewrite El in Hj'.
      destruct (unlinked_frame i _ l1 l2 _ _ _ _ j L1 U2 Hj') as [-> ->]. split; [|done].
      rewrite U5, decide_False; [done|]. intros Hc%first_elem. apply Hj, elem_of_app. by right.
Qed.
(** ** The calls *)

Definition timer_perform (o : timer_op) (k : kernel) : option (Z * kernel) :=
  match o with
  | CreateTmr type cnt reload func => CoCreateTmr type cnt reload func k
  | StartTmr i => CoStartTmr i k
  | StopTmr i => CoStopTmr i k
  | DelTmr i => CoDelTmr i k
  | SetTmr i cnt reload => CoSetTmrCnt i cnt reload k
  | GetTmr i => Some ((CoGetCurTmrCnt i k).1, k)
  end.

Lemma tmr_used_table T k i :
  listed T k -> 0 <= i -> tmr_used i k = bool_decide (is_Some (table T !! i)).
Proof.
  intros L Hi. unfold tmr_used. destruct (Z.ltb_spec i CFG_MAX_TMR) as [Hl|Hl]; cbn [andb].
  - by apply (ls_ids _ _ L).
  - symmetry. apply bool_decide_eq_false. intros [t Ht]. destruct (ls_table _ _ L i t Ht) as [? _]. lia.
Qed.

(** A change of the block of a timer that is not on the agenda; [k] may have
    more timers than [k0]. *)
Lemma listed_upd T k0 k i f t :
  listed T k0 -> TmrTbl (tmr k) = TmrTbl (tmr k0) -> TmrList (tmr k) = TmrList (tmr k0) ->
  i ∉ running T -> 0 <= i < CFG_MAX_TMR ->
  (forall j, 0 <= j < CFG_MAX_TMR -> has_bit (TmrIDVessel (tmr k)) j = bool_decide (j = i \/ is_Some (table T !! j))) ->
  good_timer t ->
  (let b := f (ktmr k i) in tmrID b = i /\ tmrType b = at_type t /\ tmrReload b = at_reload t /\
     tmrCallBack b = at_func t /\ tmrCnt b = at_cnt t /\ tmrNext b = None /\ tmrPrev b = None) ->
  listed (T <| table ::= <[i := t]> |>) (upd_tmr i f k).
Proof.
  intros [L1 L2 L3 L4 L5 L6 L7] Et Eh Hi Hr Hids Hg (F1 & F2 & F3 & F4 & F5 & F6 & F7).
  assert (forall j, ktmr k j = ktmr k0 j) as E0 by (intros j; unfold ktmr; by rewrite Et).
  assert (forall j, j ∈ running T -> ktmr (upd_tmr i f k) j = ktmr k0 j) as Ek
    by (intros j Hj; rewrite ktmr_upd, decide_False; [done|by intros ->]).
  split; cbn [table agenda running update updater].
  - change (TmrList (tmr (upd_tmr i f k))) with (TmrList (tmr k)). rewrite Eh.
    apply (dll_ext (mnext k0) (mprev k0)); [|done]. intros x Hx. unfold mnext, mprev. by rewrite Ek.
  - rewrite (expiries_ext (mcnt k0)); [done|]. intros x Hx. unfold mcnt. by rewrite Ek.
  - apply (delays_ok_ext (mcnt k0)); [|done]. intros x Hx. unfold mcnt. by rewrite Ek.
  - intros j Hj. change (TmrIDVessel (tmr (upd_tmr i f k))) with (TmrIDVessel (tmr k)). rewrite Hids by done.
    apply bool_decide_ext. destruct (decide (i = j)) as [->|].
    + rewrite lookup_insert_eq. split; [by eexists|by left].
    + rewrite lookup_insert_ne by done. split; [by intros [->|]|by right].
  - intros j Hj. rewrite lookup_insert_ne by (by intros ->). by apply L5.
  - intros j u. rewrite ktmr_upd. destruct (decide (i = j)) as [->|].
    + rewrite lookup_insert_eq. by intros [= <-].
    + rewrite lookup_insert_ne, E0 by done. apply L6.
  - intros j u. unfold mcnt, mnext, mprev. rewrite ktmr_upd. destruct (decide (i = j)) as [->|].
    + rewrite lookup_insert_eq. by intros [= <-].
    + rewrite lookup_insert_ne, E0 by done. apply L7.
Qed.

Lemma listed_flag T k i b :
  listed T k -> listed T (upd_tmr i (fun t => t <| tmrRunning := b |>) k).
Proof.
  intros [L1 L2 L3 L4 L5 L6 L7]. set (k' := upd_tmr i _ k).
  assert (forall j, exists c, ktmr k' j = (ktmr k j) <| tmrRunning := c |>) as Ek.
  { intros j. unfold k'. rewrite ktmr_upd. case_decide as Hij; [subst; by exists b|].
    exists (tmrRunning (ktmr k j)). by destruct (ktmr k j). }
  assert (forall j, mnext k' j = mnext k j /\ mprev k' j = mprev k j /\ mcnt k' j = mcnt k j) as F
    by (intros j; unfold mnext, mprev, mcnt; by destruct (Ek j) as [c ->]).
  split; [|..|done| |].
  - apply (dll_ext (mnext k) (mprev k)); [|done]. intros x _. split; apply F.
  - rewrite (expiries_ext (mcnt k)); [done|]. intros x _. apply F.
  - apply (delays_ok_ext (mcnt k)); [|done]. intros x _. apply F.
  - exact L4.
  - intros j t. destruct (Ek j) as [c ->]. apply L6.
  - intros j t. destruct (F j) as (-> & -> & ->). apply L7.
Qed.

Definition forget_timer (i : Z) (k : kernel) : kernel :=
  k <| tmr := (tmr k) <| TmrIDVessel := Z.land (TmrIDVessel (tmr k)) (u32 (Z.lnot (bit i))) |> |>.

Lemma listed_delete T k i :
  listed T k -> i ∉ running T -> 0 <= i -> listed (T <| table ::= delete i |>) (forget_timer i k).
Proof.
  intros [L1 L2 L3 L4 L5 L6 L7] Hi Hi0.
  split; cbn [table agenda running update updater]; [done..| | | |].
  - intros j Hj. cbn [forget_timer tmr TmrIDVessel update updater].
    rewrite has_bit_clear, L4; [|done|done|split; [lia|]].
    2: { unfold CFG_MAX_TMR in Hj. lia. }
    destruct (Z.eqb_spec j i) as [->|Hne].
    + rewrite andb_false_r. symmetry. apply bool_decide_eq_false. rewrite lookup_delete_eq. by apply is_Some_None.
    + rewrite andb_true_r. by rewrite lookup_delete_ne by done.
  - intros j Hj. rewrite lookup_delete_ne by (by intros ->). by apply L5.
  - intros j u [_ Hu]%lookup_delete_Some. by apply L6.
  - intros j u [_ Hu]%lookup_delete_Some. by apply L7.
Qed.

(** The call has the result and the effect that the abstract timers have. *)
Definition answers (o : timer_op) (T : timers) (k : kernel) : Prop :=
  exists k', timer_perform o k = Some ((timer_step o T).1, k') /\ timers_ok (timer_step o T).2 k' /\
    k' = k <| tmr := tmr k' |>.

Section op.
Variables (T : timers) (k : kernel).
Hypotheses (Hok : timers_ok T k) (Hr : relocks k).

Lemma self_tmr : k = k <| tmr := tmr k |>.
Proof. by destruct k. Qed.

(** A call that leaves everything as it is. *)
Lemma answers_same o r :
  timer_perform o k = Some (r, k) -> timer_step o T = (r, T) -> answers o T k.
Proof using Hok Hr. intros E1 E2. exists k. rewrite E2. split; [done|]. split; [done|]. apply self_tmr. Qed.

Lemma used_none i : 0 <= i -> table T !! i = None -> tmr_used i k = false.
Proof using Hok Hr.
  intros Hi E. rewrite (tmr_used_table T) by (done || apply Hok). rewrite E. by apply bool_decide_eq_false, is_Some_None.
Qed.

Lemma used_some i t : table T !! i = Some t -> tmr_used i k = true.
Proof using Hok Hr.
  intros E. rewrite (tmr_used_table T); [|apply Hok|].
  - rewrite E. by apply bool_decide_eq_true.
  - destruct (ls_table _ _ (to_listed _ _ Hok) i t E) as [? _]. lia.
Qed.

Lemma get_answers i : timer_allowed (GetTmr i) k -> answers (GetTmr i) T k.
Proof using Hok Hr.
  intros Hi. pose proof (to_listed _ _ Hok) as L.
  apply (answers_same _ (timer_step (GetTmr i) T).1); cbn [timer_step timer_perform].
  2: by destruct (table T !! i). unfold CoGetCurTmrCnt. destruct (table T !! i) as [t|] eqn:Et.
  - rewrite (used_some i t Et). cbn [fst]. do 2 f_equal. change (tmrCnt (ktmr k i)) with (mcnt k i).
    case_decide as Hin; [|by apply L]. destruct (list_elem_of_split _ _ Hin) as (l1 & l2 & El).
    rewrite <- (ls_times _ _ L), El. symmetry. apply gap_delta. rewrite <- El.
    apply (dll_nodup _ _ _ _ (ls_list _ _ L)).
  - by rewrite used_none.
Qed.

Lemma stop_answers i : timer_allowed (StopTmr i) k -> answers (StopTmr i) T k.
Proof using Hok Hr.
  intros Hi. destruct Hok as [L F P]. destruct (table T !! i) as [t|] eqn:Et.
  2: { apply (answers_same _ E_INVALID_ID); cbn [timer_step timer_perform]; [|by rewrite Et].
       unfold CoStopTmr. by rewrite used_none. }
  unfold answers. cbn [timer_step timer_perform]. rewrite Et. unfold CoStopTmr. rewrite (used_some i t Et), (F i t Et).
  cbn [negb fst snd]. destruct (decide (i ∈ running T)) as [Hin|Hin].
  - rewrite bool_decide_true by done. cbn [negb].
    destruct (listed_remove T k i L Hin Hr) as (k1 & E & O & L1 & C). rewrite E. cbn [mbind option_bind].
    eexists. split; [reflexivity|]. split; [|rewrite (proj1 O) at 1; by destruct k]. split.
    + by apply listed_flag.
    + intros j u Hu. cbn [halt table] in Hu. change (running (halt i T)) with ((remove_time i (agenda T)).*1).
      rewrite ktmr_upd. case_decide as Hij.
      * subst j. cbn [tmrRunning update updater]. symmetry. apply bool_decide_eq_false. rewrite elem_of_removed. tauto.
      * destruct (mcore_fields _ _ (C j)) as (_ & _ & -> & _). rewrite lookup_alter_ne in Hu by done.
        rewrite (F j u Hu). apply bool_decide_ext. rewrite elem_of_removed. unfold running. naive_solver.
    + cbn [halt agenda]. unfold remove_time. apply list.Forall_forall. intros p [_ Hp]%list_elem_of_filter.
      rewrite list.Forall_forall in P. by apply P.
  - rewrite bool_decide_false by done. cbn [negb]. exists k. split; [done|]. split; [done|]. apply self_tmr.
Qed.
Lemma start_answers i : timer_allowed (StartTmr i) k -> answers (StartTmr i) T k.
Proof using Hok Hr.
  intros [Hi Hc]. destruct Hok as [L F P]. destruct (table T !! i) as [t|] eqn:Et.
  2: { apply (answers_same _ E_INVALID_ID); cbn [timer_step timer_perform]; [|by rewrite Et].
       unfold CoStartTmr. by rewrite used_none. }
  specialize (Hc (used_some i t Et)). rewrite (F i t Et) in Hc.
  unfold answers. cbn [timer_step timer_perform]. rewrite Et. unfold CoStartTmr.
  rewrite (used_some i t Et), (F i t Et). cbn [negb fst snd].
  destruct (decide (i ∈ running T)) as [Hin|Hin].
  - rewrite bool_decide_true by done. exists k. split; [done|]. split; [done|]. apply self_tmr.
  - rewrite bool_decide_false in * by done. specialize (Hc eq_refl).
    change (tmrCnt (ktmr k i)) with (mcnt k i) in Hc.
    destruct (ls_stopped _ _ L i t Et Hin) as (Ec & _). rewrite Ec in Hc.
    set (k1 := upd_tmr i (fun t => t <| tmrRunning := true |>) k).
    destruct (listed_insert T k1 i t) as (k2 & E & O & L2 & C); try done; [by apply listed_flag|].
    rewrite E. cbn [mbind option_bind]. exists k2. split; [done|]. split; [|rewrite (proj1 O) at 1; done].
    split; [done| |].
    + intros j u Hu. cbn [table update updater] in Hu.
      change (running (T <| agenda ::= insert_time i (at_cnt t) |>)) with ((insert_time i (at_cnt t) (agenda T)).*1).
      destruct (mcore_fields _ _ (C j)) as (_ & _ & -> & _). unfold k1. rewrite ktmr_upd. case_decide as Hij.
      * subst j. symmetry. apply bool_decide_eq_true. rewrite elem_of_requeued. by left.
      * rewrite (F j u Hu). apply bool_decide_ext. rewrite elem_of_requeued. unfold running. naive_solver.
    + change (Forall (fun p => 0 < p.2) (insert_time i (at_cnt t) (agenda T))). rewrite insert_time_perm. by constructor.
Qed.

Lemma del_answers i : timer_allowed (DelTmr i) k -> answers (DelTmr i) T k.
Proof using Hok Hr.
  intros Hi. destruct Hok as [L F P]. destruct (table T !! i) as [t|] eqn:Et.
  2: { apply (answers_same _ E_INVALID_ID); cbn [timer_step timer_perform]; [|by rewrite Et].
       unfold CoDelTmr. by rewrite used_none. }
  unfold answers. cbn [timer_step timer_perform]. rewrite Et. unfold CoDelTmr.
  rewrite (used_some i t Et), (F i t Et). cbn [negb fst snd].
  set (T' := mk_timers (delete i (table T)) (remove_time i (agenda T))).
  assert (exists k1, (if bool_decide (i ∈ running T) then RemoveTmrList i k else Some k) = Some k1 /\ tmr_only k k1 /\
    listed T' (forget_timer i k1) /\ forall j, mcore (ktmr k1 j) = mcore (ktmr k j)) as (k1 & E & O & L1 & C).
  { destruct (decide (i ∈ running T)) as [Hin|Hin].
    - rewrite bool_decide_true by done. destruct (listed_remove T k i L Hin Hr) as (k1 & E & O & L1 & C).
      exists k1. split; [done|]. split; [done|]. split; [|done].
      replace T' with ((halt i T) <| table ::= delete i |>); [apply listed_delete; try done|].
      + change (i ∉ (remove_time i (agenda T)).*1). rewrite elem_of_removed. tauto.
      + unfold halt, T'. cbn [table update updater]. f_equal. by rewrite delete_alter_eq.
    - rewrite bool_decide_false by done. exists k. split; [done|]. split; [done|]. split; [|done].
      replace T' with (T <| table ::= delete i |>); [by apply listed_delete|].
      unfold T'. rewrite remove_time_notin by done. by destruct T. }
  rewrite E. cbn [mbind option_bind]. exists (forget_timer i k1). split; [done|].
  split; [|rewrite (proj1 O) at 1; by destruct k]. split; [done| |].
  - intros j u Hu. change (delete i (table T) !! j = Some u) in Hu. apply lookup_delete_Some in Hu as [Hji Hu].
    change (ktmr (forget_timer i k1) j) with (ktmr k1 j).
    destruct (mcore_fields _ _ (C j)) as (_ & _ & -> & _). rewrite (F j u Hu). apply bool_decide_ext.
    unfold running, T'. cbn [agenda]. rewrite elem_of_removed. naive_solver.
  - cbn [T' agenda]. unfold remove_time. apply list.Forall_forall. intros p [_ Hp]%list_elem_of_filter.
    rewrite list.Forall_forall in P. by apply P.
Qed.
Lemma set_answers i cnt reload : timer_allowed (SetTmr i cnt reload) k -> answers (SetTmr i cnt reload) T k.
Proof using Hok Hr.
  intros [Hi Hc]. destruct Hok as [L F P]. destruct (table T !! i) as [t|] eqn:Et.
  2: { apply (answers_same _ E_INVALID_ID); cbn [timer_step timer_perform]; [|by rewrite Et].
       unfold CoSetTmrCnt. by rewrite used_none. }
  destruct (Hc (used_some i t Et)) as (Hst & Hcnt & Hrel). rewrite (F i t Et) in Hst.
  apply bool_decide_eq_false in Hst. destruct (ls_table _ _ L i t Et) as (Hb & [Hg1 Hg2] & T1 & T2 & T3 & T4).
  rewrite T2 in Hrel. unfold answers. cbn [timer_step timer_perform]. rewrite Et. unfold CoSetTmrCnt.
  rewrite (used_some i t Et). cbn [negb fst snd]. set (k1 := upd_tmr i _ k).
  assert (tmrRunning (ktmr k1 i) = false) as ->.
  { unfold k1. rewrite ktmr_upd, decide_True by done. cbn. rewrite (F i t Et). by apply bool_decide_eq_false. }
  cbn [mbind option_bind]. exists k1. split; [done|]. split; [|by unfold k1; destruct k]. split; [| |done].
  - apply (listed_upd T k); try done.
    + intros j Hj. rewrite (ls_ids _ _ L) by done. apply bool_decide_ext. split; [by right|]. intros [->|]; [by exists t|done].
    + split; [done|]. cbn. destruct Hg2 as [?|[? ?]]; [by left|right; auto].
    + cbv zeta. cbn. destruct (ls_stopped _ _ L i t Et Hst) as (_ & ? & ?). done.
  - intros j u. cbn [table running agenda update updater]. unfold k1. rewrite ktmr_upd. case_decide as Hij.
    + subst j. intros _. cbn. rewrite (F i t Et). done.
    + rewrite lookup_insert_ne by done. apply F.
Qed.

Lemma create_answers type cnt reload func :
  timer_allowed (CreateTmr type cnt reload func) k -> answers (CreateTmr type cnt reload func) T k.
Proof using Hok Hr.
  intros [Hcnt Hrel]. destruct Hok as [L F P].
  destruct (negb (type =? TMR_TYPE_ONE_SHOT) && negb (type =? TMR_TYPE_PERIODIC)) eqn:Ety.
  { apply (answers_same _ E_CREATE_FAIL); cbn [timer_step timer_perform]; [unfold CoCreateTmr|]; by rewrite Ety. }
  destruct (func =? 0) eqn:Efn.
  { apply (answers_same _ E_CREATE_FAIL); cbn [timer_step timer_perform]; [unfold CoCreateTmr|]; by rewrite Ety, Efn. }
  assert (List.find (fun i => negb (has_bit (TmrIDVessel (tmr k)) i)) (seqZ 0 CFG_MAX_TMR) = next_timer T) as Efind.
  { unfold next_timer. apply find_ext_in. intros i Hin%elem_of_seqZ.
    rewrite (ls_ids _ _ L) by lia. rewrite <- bool_decide_not. apply bool_decide_ext. by rewrite eq_None_not_Some. }
  unfold answers. cbn [timer_step timer_perform]. unfold CoCreateTmr. rewrite Ety, Efn.
  change (TmrIDVessel (tmr (OsSchedLock k))) with (TmrIDVessel (tmr k)). rewrite Efind.
  destruct (next_timer T) as [i|] eqn:En.
  - unfold next_timer in En. apply List.find_some in En as [Hin%list_elem_of_In Hfree].
    apply bool_decide_eq_true in Hfree. apply elem_of_seqZ in Hin.
    set (k1 := k <| tmr := (tmr k) <| TmrIDVessel := Z.lor (TmrIDVessel (tmr k)) (bit i) |> |>).
    change (OsSchedUnlock _) with (OsSchedUnlock (OsSchedLock k1)). rewrite (Hr k1) by done.
    cbn [mbind option_bind fst snd]. eexists. split; [reflexivity|].
    assert (i ∉ running T) as Hi by (intros Hc; destruct (ls_known _ _ L i Hc); congruence).
    split; [split|].
    + apply (listed_upd T k); try done; [|split; [done|]].
      * intros j Hj. cbn [k1 tmr TmrIDVessel update updater]. rewrite has_bit_set, (ls_ids _ _ L) by lia.
        destruct (Z.eqb_spec j i) as [->|Hne]; [by rewrite orb_true_r, bool_decide_true by by left|].
        rewrite orb_false_r. apply bool_decide_ext. naive_solver.
      * cbn. destruct (Z.eqb_spec type TMR_TYPE_ONE_SHOT) as [->|]; [by left|].
        destruct (Z.eqb_spec type TMR_TYPE_PERIODIC) as [->|]; [right; auto|done].
    + intros j u. cbn [table running agenda update updater]. rewrite ktmr_upd. case_decide as Hij.
      * subst j. intros _. cbn. symmetry. by apply bool_decide_eq_false.
      * rewrite lookup_insert_ne by done. apply F.
    + done.
    + by destruct k.
  - change (OsSchedUnlock _) with (OsSchedUnlock (OsSchedLock k)). rewrite (Hr k) by done.
    cbn [mbind option_bind fst snd]. exists k. split; [done|]. split; [done|]. apply self_tmr.
Qed.

Lemma timer_answers o : timer_allowed o k -> answers o T k.
Proof using Hok Hr.
  destruct o.
  - apply create_answers.
  - apply start_answers.
  - apply stop_answers.
  - apply del_answers.
  - apply set_answers.
  - apply get_answers.
Qed.
End op.
(** ** The expiry *)

Lemma expire_lookup tab i j : expire tab i !! j = (if decide (i = j) then (fun t => t <| at_cnt := 0 |>) <$> tab !! j else tab !! j).
Proof.
  unfold expire. case_decide as Hij; [subst; by rewrite lookup_alter_eq|by rewrite lookup_alter_ne].
Qed.

Lemma requeue_expire tab i R j : requeue (expire tab i) R j = requeue tab R j.
Proof. unfold requeue. rewrite expire_lookup. case_decide; [|done]. by destruct (tab !! j). Qed.

Lemma requeues_expire tab i ds : forall R, foldl (requeue (expire tab i)) R ds = foldl (requeue tab) R ds.
Proof. induction ds as [|d ds IH]; intros R; [done|]. cbn [foldl]. by rewrite requeue_expire, IH. Qed.

Lemma callbacks_expire tab i ds : callbacks (expire tab i) ds = callbacks tab ds.
Proof.
  unfold callbacks. induction ds as [|d ds IH]; [done|]. cbn. rewrite expire_lookup, IH.
  case_decide; [|done]. by destruct (tab !! d).
Qed.

(** The count with which a running timer was started is not kept. *)
Lemma listed_expire tab A k i :
  listed (mk_timers tab A) k -> i ∈ A.*1 -> listed (mk_timers (expire tab i) A) k.
Proof.
  intros [L1 L2 L3 L4 L5 L6 L7] Hi. split; cbn [table agenda running] in *; try done.
  - intros j Hj. rewrite L4 by done. apply bool_decide_ext. rewrite expire_lookup. case_decide; [|done].
    by rewrite fmap_is_Some.
  - intros j Hj. rewrite expire_lookup. case_decide; [rewrite fmap_is_Some|]; by apply L5.
  - intros j u. rewrite expire_lookup. case_decide; [|apply L6]. intros (t & Ht & ->)%fmap_Some.
    destruct (L6 j t Ht) as (B1 & [B2 B2'] & B3). done.
  - intros j u. rewrite expire_lookup. case_decide as Hij; [|apply L7]. subst j. by intros _ ?.
Qed.

(** A one-shot timer that is due is taken off the front. *)
Lemma one_shot_spec tab A k i :
  listed (mk_timers tab ((i, 0) :: A)) k -> relocks k ->
  exists k', RemoveTmrList i k = Some k' /\ tmr_only k k' /\ listed (mk_timers (expire tab i) A) k' /\
    forall j, mcore (ktmr k' j) = mcore (ktmr k j).
Proof.
  intros L Hr. destruct (listed_remove _ k i L) as (k' & E & O & L' & C); [apply elem_of_cons; by left|done|].
  exists k'. split; [done|]. split; [done|]. split; [|done].
  pose proof (dll_nodup _ _ _ _ (ls_list _ _ L)) as Hnd. apply list.NoDup_cons in Hnd as [Hi _].
  replace (mk_timers (expire tab i) A) with (halt i (mk_timers tab ((i, 0) :: A))); [done|].
  unfold halt, expire. cbn [table agenda gap]. rewrite Z.eqb_refl. f_equal.
  unfold remove_time. rewrite filter_cons_False by (cbn; tauto). by apply remove_time_notin.
Qed.

(** A periodic one is queued again with its period. *)
Lemma periodic_spec tab A k i t :
  listed (mk_timers tab ((i, 0) :: A)) k -> relocks k -> tab !! i = Some t -> 0 < at_reload t < 2 ^ 31 ->
  at_type t = TMR_TYPE_PERIODIC ->
  exists k1 k', RemoveTmrList i k = Some k1 /\
    InsertTmrList i (upd_tmr i (fun t => t <| tmrCnt := tmrReload t |>) k1) = Some k' /\ tmr_only k k' /\
    listed (mk_timers (expire tab i) (insert_time i (at_reload t) A)) k' /\
    forall j, mcore (ktmr k' j) = mcore (ktmr k j).
Proof.
  intros L Hr Ht Hrel Hty. destruct (one_shot_spec tab A k i L Hr) as (k1 & E & O & L1 & C).
  pose proof (dll_nodup _ _ _ _ (ls_list _ _ L)) as Hnd. apply list.NoDup_cons in Hnd as [Hi _].
  destruct (ls_table _ _ L i t Ht) as (Hb & _ & F1 & F2 & F3 & F4).
  destruct (mcore_fields _ _ (C i)) as (C1 & C2 & _ & C4 & C5).
  assert (expire tab i !! i = Some (t <| at_cnt := 0 |>)) as Hx
    by (rewrite expire_lookup, decide_True, Ht by done; done).
  destruct (ls_stopped _ _ L1 i _ Hx Hi) as (_ & S2 & S3).
  set (u := t <| at_cnt := at_reload t |>). set (k2 := upd_tmr i (fun t => t <| tmrCnt := tmrReload t |>) k1).
  assert (listed (mk_timers (<[i := u]> (expire tab i)) A) k2) as L2.
  { apply (listed_upd (mk_timers (expire tab i) A) k1); try done.
    - intros j Hj. rewrite (ls_ids _ _ L1) by done. apply bool_decide_ext. split; [by right|].
      intros [->|]; [by exists (t <| at_cnt := 0 |>)|done].
    - split; [cbn; lia|right; done].
    - cbv zeta. cbn. unfold mnext, mprev in *. rewrite C1, C2, C4, C5. done. }
  assert (relocks k2) as Hr2 by (apply (relocks_ext k); [apply (tmr_only_frame k); by transitivity k1..|done]).
  destruct (listed_insert _ k2 i u L2) as (k3 & E3 & O3 & L3 & C3); [apply lookup_insert_eq|done|cbn; lia|done|].
  exists k1, k3. split; [done|]. split; [done|]. split; [by transitivity k1; [|transitivity k2]|]. split.
  - replace (expire tab i) with (expire (<[i := u]> (expire tab i)) i).
    + apply listed_expire; [exact L3|]. rewrite elem_of_requeued. by left.
    + apply map_eq. intros j. rewrite expire_lookup. case_decide as Hij; [|by rewrite lookup_insert_ne].
      subst j. by rewrite lookup_insert_eq, Hx.
  - intros j. rewrite C3. unfold k2. rewrite ktmr_upd, <- C. case_decide as Hij; [by subst|done].
Qed.
End calls.

(** ** The callbacks

    A callback changes the memory of the application, in places of its own. *)

Class Callbacks `{Port} := {
  writes : Z -> Prop;
  effect : Z -> memory -> memory;
  call_effect : forall f k, timer_call f k = Some (k <| mem := effect f (mem k) |>);
  effect_frame : forall f m a, ~ writes a -> ram (effect f m) !! a = ram m !! a
}.

Section dispose.
Context `{Callbacks}.

Definition run_callbacks (fs : list Z) (m : memory) : memory := foldl (fun m f => effect f m) m fs.

Lemma callbacks_frame fs : forall m a, ~ writes a -> ram (run_callbacks fs m) !! a = ram m !! a.
Proof.
  induction fs as [|f fs IH]; intros m a Ha; [done|]. cbn [run_callbacks foldl].
  change (ram (run_callbacks fs (effect f m)) !! a = ram m !! a). rewrite IH by done. by apply effect_frame.
Qed.

Lemma insert_time_behind i w a b :
  Forall (fun p => p.2 <= w) a -> insert_time i w (a ++ b) = a ++ insert_time i w b.
Proof.
  induction 1 as [|[x e] a Hx Ha IH]; [done|]. cbn [app insert_time].
  by rewrite (proj2 (Z.ltb_ge w e) Hx), IH.
Qed.

Definition flagged (l : list Z) (tab : gmap Z atimer) (k : kernel) : Prop :=
  forall j t, tab !! j = Some t -> tmrRunning (ktmr k j) = bool_decide (j ∈ l).

Definition dues (ds : list Z) (R : list (Z * Z)) : list (Z * Z) := map (fun i => (i, 0)) ds ++ R.

Lemma dues_fst ds R : (dues ds R).*1 = ds ++ R.*1.
Proof. unfold dues. rewrite fmap_app. f_equal. induction ds as [|d ds IH]; [done|]. cbn. by rewrite IH. Qed.

Lemma requeue_pos tab R i :
  (forall t, tab !! i = Some t -> good_timer t) -> Forall (fun p => 0 < p.2) R ->
  Forall (fun p => 0 < p.2) (requeue tab R i).
Proof.
  intros Hg HR. unfold requeue. destruct (tab !! i) as [t|]; [|done]. destruct (Hg t eq_refl) as [_ Hg'].
  case_bool; [|done]. rewrite insert_time_perm. constructor; [|done]. cbn. unfold TMR_TYPE_PERIODIC, TMR_TYPE_ONE_SHOT in *. lia.
Qed.

(** The first of the timers that are due. *)
Lemma serve_timer_spec i ds tab R k :
  listed (mk_timers tab (dues (i :: ds) R)) k -> flagged ((i :: ds) ++ R.*1) tab k ->
  relocks k -> exists k' t, serve_timer i k = Some (k' <| mem := effect (at_func t) (mem k) |>) /\
    tab !! i = Some t /\ tmr_only k k' /\
    listed (mk_timers (expire tab i) (dues ds (requeue tab R i))) k' /\
    flagged (ds ++ (requeue tab R i).*1) (expire tab i) k'.
Proof.
  intros L F Hr. destruct (ls_known _ _ L i) as [t Ht]; [apply elem_of_cons; by left|]. cbn [table] in Ht.
  destruct (ls_table _ _ L i t Ht) as (Hb & [_ Hg] & F1 & F2 & F3 & F4).
  pose proof (dll_nodup _ _ _ _ (ls_list _ _ L)) as Hnd. change (running _) with ((dues (i :: ds) R).*1) in Hnd.
  rewrite dues_fst in Hnd. apply list.NoDup_cons in Hnd as [Hi _].
  unfold serve_timer. rewrite F1, F2. unfold requeue. rewrite Ht.
  destruct Hg as [Hty|[Hty Hrel]]; rewrite Hty; cbn [Z.eqb TMR_TYPE_ONE_SHOT TMR_TYPE_PERIODIC Pos.eqb].
  - destruct (one_shot_spec tab (dues ds R) k i L Hr) as (k1 & E & O & L1 & C). rewrite E. cbn [mbind option_bind].
    destruct (mcore_fields _ _ (C i)) as (_ & _ & _ & _ & C5).
    set (k2 := upd_tmr i (fun t => t <| tmrRunning := false |>) k1). exists k2, t. rewrite call_effect.
    assert (tmr_only k k2) as O2 by by transitivity k1.
    destruct (tmr_only_frame _ _ O2) as (_ & _ & ->).
    assert (tmrCallBack (ktmr k2 i) = at_func t) as ->
      by (unfold k2; rewrite ktmr_upd, decide_True by done; cbn; by rewrite C5).
    split; [done|]. split; [done|]. split; [done|]. split; [by apply listed_flag|].
    intros j u. rewrite expire_lookup. unfold k2. rewrite ktmr_upd. case_decide as Hij.
    + subst j. intros _. cbn. symmetry. by apply bool_decide_eq_false.
    + intros Hu. destruct (mcore_fields _ _ (C j)) as (_ & _ & -> & _). rewrite (F j u Hu).
      apply bool_decide_ext. cbn [app]. rewrite elem_of_cons. naive_solver.
  - destruct (periodic_spec tab (dues ds R) k i t L Hr Ht Hrel Hty) as (k1 & k2 & E1 & E2 & O & L2 & C).
    rewrite E1. cbn [mbind option_bind]. rewrite E2. cbn [mbind option_bind]. exists k2, t. rewrite call_effect.
    destruct (tmr_only_frame _ _ O) as (_ & _ & ->). destruct (mcore_fields _ _ (C i)) as (_ & _ & _ & _ & ->).
    rewrite F4. split; [done|]. split; [done|]. split; [done|].
    unfold dues in L2. rewrite insert_time_behind in L2.
    2: { apply list.Forall_forall. intros p (d & -> & _)%list_elem_of_fmap. cbn. lia. }
    split; [done|]. intros j u. rewrite expire_lookup. intros Hu.
    destruct (mcore_fields _ _ (C j)) as (_ & _ & -> & _).
    assert (is_Some (tab !! j)) as [v Hv] by (case_decide; [by apply fmap_Some in Hu as (v & ? & _); exists v|by exists u]).
    rewrite (F j v Hv). apply bool_decide_ext. cbn [app]. rewrite !elem_of_app, elem_of_cons, elem_of_requeued, elem_of_app. tauto.
Qed.

(** The timers [ds] are due; those of [R] are not. *)
Lemma TmrDispose_spec ds : forall fuel k tab R,
  listed (mk_timers tab (dues ds R)) k -> flagged (ds ++ R.*1) tab k ->
  Forall (fun p => 0 < p.2) R -> (length ds <= fuel)%nat -> relocks k ->
  exists t', TmrDispose fuel k = Some (k <| tmr := t' |> <| mem := run_callbacks (callbacks tab ds) (mem k) |>) /\
    timers_ok (mk_timers (foldl expire tab ds) (foldl (requeue tab) R ds)) (k <| tmr := t' |>).
Proof.
  induction ds as [|i ds IH]; intros fuel k tab R L F HR Hf Hr.
  - pose proof (dll_head _ _ _ _ (ls_list _ _ L)) as Hh. cbn [dues app map foldl] in *.
    exists (tmr k). split.
    + assert (Some k = Some (k <| tmr := tmr k |> <| mem := run_callbacks (callbacks tab []) (mem k) |>)) as <-
        by by destruct k.
      destruct R as [|[j e] R]; cbn in Hh; [destruct fuel; cbn [TmrDispose]; by rewrite Hh|].
      apply list.Forall_cons in HR as [He _]. cbn in He.
      pose proof (ls_times _ _ L) as Et. cbn in Et. injection Et as Ee _. unfold mcnt in Ee.
      destruct fuel; cbn [TmrDispose]; rewrite Hh; by rewrite (proj2 (Z.eqb_neq _ _)) by lia.
    + split; [by apply (listed_same _ k)|exact F|done].
  - destruct fuel as [|fuel]; [cbn in Hf; lia|].
    pose proof (dll_head _ _ _ _ (ls_list _ _ L)) as Hh. cbn in Hh.
    pose proof (ls_times _ _ L) as Et. cbn in Et. injection Et as Ee _. unfold mcnt in Ee.
    cbn [TmrDispose]. rewrite Hh, (proj2 (Z.eqb_eq _ _)) by lia.
    destruct (serve_timer_spec i ds tab R k L F Hr) as (k1 & t & -> & Ht & O & L1 & F1). cbn [mbind option_bind].
    destruct (tmr_only_frame _ _ O) as (O1 & O2 & O3).
    set (k2 := k1 <| mem := effect (at_func t) (mem k) |>).
    destruct (IH fuel k2 (expire tab i) (requeue tab R i)) as (t' & E & Hok).
    { by apply (listed_same _ k1). }
    { exact F1. }
    { apply requeue_pos; [|done]. intros u Hu. by destruct (ls_table _ _ L i u Hu) as (_ & ? & _). }
    { cbn in Hf. lia. }
    { by apply (relocks_ext k). }
    exists t'. split.
    + rewrite E. f_equal. rewrite callbacks_expire.
      assert (callbacks tab (i :: ds) = at_func t :: callbacks tab ds) as -> by (unfold callbacks; cbn; by rewrite Ht).
      unfold k2. rewrite (proj1 O). done.
    + apply (timers_ok_same _ (k2 <| tmr := t' |>)); [done|]. cbn [foldl]. by rewrite requeues_expire in Hok.
Qed.
(** ** The tick *)

Definition count_down (A : list (Z * Z)) : list (Z * Z) := map (fun p => (p.1, p.2 - 1)) A.

(** After the count-down the timers that are due come first. *)
Lemma count_down_split D l : forall base,
  (forall x, x ∈ l -> 0 <= D x) -> Forall (fun p => 0 < p.2) (expiries D base l) ->
  count_down (expiries D base l) = dues (due (expiries D base l)) (after_tick (expiries D base l)) /\
  (1 < base -> due (expiries D base l) = []).
Proof.
  induction l as [|x l IH]; intros base Hn Hp; [done|].
  cbn [expiries] in *. apply list.Forall_cons in Hp as [Hx Hp]. cbn in Hx.
  assert (0 <= D x) by (apply Hn, elem_of_cons; by left).
  destruct (IH (base + D x)) as [I1 I2]; [intros y Hy; apply Hn, elem_of_cons; by right|done|].
  unfold due, after_tick, count_down in *. cbn [map fst snd]. rewrite !filter_cons. cbn [fst snd].
  destruct (decide (base + D x = 1)) as [E|E].
  - rewrite decide_False by lia. cbn [dues map fmap list_fmap app fst]. split; [|intros ?; exfalso; lia].
    unfold dues in *. cbn [map app]. f_equal; [f_equal; lia|exact I1].
  - rewrite decide_True by lia. rewrite (I2 ltac:(lia)) in *. split; [|done].
    unfold dues in *. cbn [map app]. f_equal. exact I1.
Qed.

Lemma total_map_head D D' i l d :
  D' i = D i - d -> (forall x, x ∈ l -> D' x = D x) ->
  expiries D' 0 (i :: l) = map (fun p => (p.1, p.2 - d)) (expiries D 0 (i :: l)).
Proof.
  intros Hi Hl. cbn [expiries map fst snd]. rewrite Hi, (expiries_ext D D' _ l) by done.
  replace (0 + (D i - d)) with (0 + D i + - d) by lia. by rewrite expiries_shift.
Qed.

(** The first timer of the list counts down. *)
Lemma listed_count T k i e A f :
  listed T k -> agenda T = (i, e) :: A -> 0 < e -> f (ktmr k i) = set_cnt (e - 1) (ktmr k i) ->
  listed (mk_timers (table T) (count_down (agenda T))) (upd_tmr i f k).
Proof.
  intros [L1 L2 L3 L4 L5 L6 L7] EA He Hf. set (k' := upd_tmr i f k).
  assert (running (mk_timers (table T) (count_down (agenda T))) = running T) as Er.
  { unfold running, count_down. cbn [agenda]. rewrite <- list_fmap_compose. by apply list_fmap_ext. }
  assert (running T = i :: A.*1) as Et by (unfold running; by rewrite EA).
  assert (forall j, ktmr k' j = if decide (i = j) then set_cnt (e - 1) (ktmr k i) else ktmr k j) as Ek
    by (intros j; unfold k'; by rewrite ktmr_upd, Hf).
  assert (forall j, mnext k' j = mnext k j /\ mprev k' j = mprev k j) as Fl
    by (intros j; unfold mnext, mprev; rewrite Ek; case_decide as Hij; [by subst|done]).
  assert (mcnt k i = e) as Hc by (rewrite Et, EA in L2; cbn in L2; injection L2 as X _; lia).
  assert (mcnt k' i = mcnt k i - 1) as Hc' by (unfold mcnt at 1; rewrite Ek, decide_True by done; by rewrite Hc).
  assert (forall j, j <> i -> mcnt k' j = mcnt k j) as Hne by (intros j Hj; unfold mcnt; by rewrite Ek, decide_False by done).
  pose proof (dll_nodup _ _ _ _ L1) as Hnd. rewrite Et in Hnd. apply list.NoDup_cons in Hnd as [Hi _].
  assert (forall x, x ∈ A.*1 -> mcnt k' x = mcnt k x) as HA by (intros x Hx; apply Hne; by intros ->).
  split; rewrite ?Er; cbn [table agenda]; [|..|done|done| |].
  - apply (dll_ext (mnext k) (mprev k)); [|done]. intros x _. apply Fl.
  - rewrite <- L2, Et. by apply total_map_head.
  - destruct L3 as [D1 D2]. rewrite Et in *. split.
    + intros x [->|Hx]%elem_of_cons; [lia|]. rewrite HA by done. apply D1, elem_of_cons. by right.
    + cbn [total] in *. rewrite (total_ext _ _ _ HA). lia.
  - intros j t Ht. destruct (L6 j t Ht) as (B1 & B2 & B3). split; [done|]. split; [done|].
    rewrite Ek. case_decide as Hij; [by subst|done].
  - intros j t Ht Hj. destruct (Fl j) as [-> ->]. rewrite Hne; [by apply L7|]. intros ->. apply Hj.
    rewrite Et. apply elem_of_cons. by left.
Qed.
(** No timer is due while the first one has more than a tick left. *)
Lemma nothing_due D l : forall base,
  (forall x, x ∈ l -> 0 <= D x) -> 1 < base ->
  due (expiries D base l) = [] /\ after_tick (expiries D base l) = count_down (expiries D base l).
Proof.
  intros base Hn Hb.
  assert (Forall (fun p => 0 < p.2) (expiries D base l)) as Hp by (apply expiries_pos; [done|lia]).
  destruct (count_down_split D l base Hn Hp) as [E1 E2]. rewrite E2 in * by done. by rewrite E1.
Qed.

Lemma due_length T k : timers_ok T k -> (length (due (agenda T)) <= tmr_fuel)%nat.
Proof.
  intros [L _ _]. pose proof (running_length T k L) as Hl. unfold due, running in *.
  rewrite length_fmap in *. etransitivity; [apply length_filter|done].
Qed.

Lemma running_count_down tab A : running (mk_timers tab (count_down A)) = A.*1.
Proof. unfold running, count_down. cbn [agenda]. rewrite <- list_fmap_compose. by apply list_fmap_ext. Qed.

Lemma count_flagged T k i f :
  (forall t, tmrRunning (f t) = tmrRunning t) -> flagged (running T) (table T) k ->
  flagged (running (mk_timers (table T) (count_down (agenda T)))) (table T) (upd_tmr i f k).
Proof.
  intros Hf F j t Ht. rewrite running_count_down, ktmr_upd. destruct (decide (i = j)) as [->|]; [rewrite Hf|]; by apply (F _ t).
Qed.

(** The first timer has more than a tick left. *)
Lemma tick_count_spec T k i e A f :
  timers_ok T k -> agenda T = (i, e) :: A -> 1 < e -> f (ktmr k i) = set_cnt (e - 1) (ktmr k i) ->
  (forall t, tmrRunning (f t) = tmrRunning t) ->
  fired T = [] /\ timers_ok (tick_step T) (upd_tmr i f k).
Proof.
  intros [L F P] EA He Hf Hf'. pose proof (proj1 (ls_delays _ _ L)) as Hn.
  pose proof (ls_times _ _ L) as Ht. rewrite EA in Ht. unfold running in *. rewrite EA in Ht, Hn.
  cbn [fmap list_fmap fst expiries] in Ht, Hn. injection Ht as Hc EA'. rewrite Hc in EA'.
  destruct (nothing_due (mcnt k) A.*1 e) as [N1 N2]; [intros x Hx; apply Hn, elem_of_cons; by right|done|].
  change (A.*1) with (map fst A) in *. setoid_rewrite EA' in N1. setoid_rewrite EA' in N2.
  assert (due (agenda T) = []) as Ed.
  { rewrite EA. unfold due in *. rewrite filter_cons_False by (cbn; lia). exact N1. }
  assert (after_tick (agenda T) = count_down (agenda T)) as Ea.
  { rewrite EA. unfold after_tick, count_down in *. cbn [map fst snd].
    rewrite filter_cons_True by (cbn; lia). f_equal. exact N2. }
  unfold fired, tick_step. rewrite Ed, Ea. split; [done|]. cbn [foldl]. split.
  - apply (listed_count T k i e A); try done. lia.
  - exact (count_flagged T k i f Hf' F).
  - cbn [agenda]. rewrite <- Ea. apply after_tick_pos.
Qed.

(** It expires. *)
Lemma tick_due_spec fuel T k i A :
  timers_ok T k -> agenda T = (i, 1) :: A -> (tmr_fuel <= fuel)%nat -> relocks k ->
  exists t', TmrDispose fuel (upd_tmr i (set_cnt 0) k)
      = Some (k <| tmr := t' |> <| mem := run_callbacks (fired T) (mem k) |>) /\
    timers_ok (tick_step T) (k <| tmr := t' |>).
Proof.
  intros Hok EA Hf Hr. pose proof Hok as [L F P]. set (k1 := upd_tmr i (set_cnt 0) k).
  assert (listed (mk_timers (table T) (count_down (agenda T))) k1) as L1 by (by apply (listed_count T k i 1 A)).
  assert (flagged (running (mk_timers (table T) (count_down (agenda T)))) (table T) k1) as F1
    by (by apply count_flagged).
  destruct (count_down_split (mcnt k) (running T) 0) as [S1 _].
  { apply (ls_delays _ _ L). }
  { by rewrite (ls_times _ _ L). }
  rewrite (ls_times _ _ L) in S1. rewrite S1 in L1.
  assert (running (mk_timers (table T) (count_down (agenda T))) = due (agenda T) ++ (after_tick (agenda T)).*1) as Er.
  { unfold running. cbn [agenda]. by rewrite S1, dues_fst. }
  rewrite Er in F1.
  destruct (TmrDispose_spec (due (agenda T)) fuel k1 (table T) (after_tick (agenda T)) L1 F1) as (t' & E & Hok').
  - apply after_tick_pos.
  - etransitivity; [by apply (due_length T k)|done].
  - by apply (relocks_ext k).
  - exists t'. by split.
Qed.

Lemma tick_timers_spec fuel T k :
  timers_ok T k -> OSSchedLock (sch k) = 1 -> (tmr_fuel <= fuel)%nat ->
  exists t', tick_timers fuel k = Some (k <| tmr := t' |> <| mem := run_callbacks (fired T) (mem k) |>) /\
    timers_ok (tick_step T) (k <| tmr := t' |>).
Proof.
  intros Hok Hl Hf. pose proof Hok as [L F P]. unfold tick_timers.
  pose proof (dll_head _ _ _ _ (ls_list _ _ L)) as Hh. pose proof (ls_times _ _ L) as Ht. unfold running in *.
  destruct (agenda T) as [|[i e] A] eqn:EA; cbn [first fmap list_fmap fst] in *; rewrite Hh.
  { exists (tmr k). unfold fired, tick_step. rewrite EA. split; [by destruct k|]. apply (timers_ok_same _ k); [done|].
    destruct T. cbn in *. by subst. }
  pose proof (proj1 (list.Forall_cons _ _ _) P) as [He _]. cbn in He.
  assert (mcnt k i = e) as Hc by (cbn in Ht; injection Ht as X _; lia).
  change (tmrCnt (ktmr k i)) with (mcnt k i). rewrite Hc. case_bool.
  - set (k1 := upd_tmr i _ k). destruct (tick_count_spec T k i e A (fun t => set_cnt (tmrCnt t - 1) t)) as [-> Hok1]; try done.
    { lia. } { by rewrite <- Hc. }
    exists (tmr k1). split; [by destruct k|]. by apply (timers_ok_same _ k1).
  - assert (e = 1) as -> by lia. unfold isr_TmrDispose.
    change (OSSchedLock (sch (upd_tmr i (set_cnt 0) k))) with (OSSchedLock (sch k)). rewrite Hl.
    apply (tick_due_spec fuel T k i A); try done. by apply locked_relocks.
Qed.
End dispose.

(** ** The agenda counts the ticks *)

Lemma started_is_queued T i t :
  table T !! i = Some t -> i ∉ running T -> (i, at_cnt t) ∈ agenda (timer_step (StartTmr i) T).2.
Proof.
  intros Ht Hi. cbn [timer_step]. rewrite Ht, decide_False by done. cbn [snd agenda update updater].
  rewrite insert_time_perm. apply elem_of_cons. by left.
Qed.

Lemma requeues_keep tab ds p : forall R, p ∈ R -> p ∈ foldl (requeue tab) R ds.
Proof.
  induction ds as [|d ds IH]; intros R Hp; [done|]. cbn [foldl]. apply IH. unfold requeue.
  destruct (tab !! d) as [t|]; [|done]. case_bool; [|done]. rewrite insert_time_perm. apply elem_of_cons. by right.
Qed.

Lemma tick_counts T i e : (i, e) ∈ agenda T -> 1 < e -> (i, e - 1) ∈ agenda (tick_step T).
Proof.
  intros Hin He. apply requeues_keep. unfold after_tick. apply list_elem_of_filter. split; [cbn; lia|].
  apply list_elem_of_fmap. by exists (i, e).
Qed.

Lemma tick_fires T i t : (i, 1) ∈ agenda T -> table T !! i = Some t -> at_func t ∈ fired T.
Proof.
  intros Hin Ht. unfold fired, callbacks. apply list_elem_of_omap. exists i. rewrite Ht. split; [|done].
  apply list_elem_of_fmap. exists (i, 1). split; [done|]. by apply list_elem_of_filter.
Qed.

Lemma tick_requeues T i t :
  (i, 1) ∈ agenda T -> table T !! i = Some t -> at_type t = TMR_TYPE_PERIODIC ->
  (i, at_reload t) ∈ agenda (tick_step T).
Proof.
  intros Hin Ht Hty. unfold tick_step. cbn [agenda].
  assert (i ∈ due (agenda T)) as Hd.
  { apply list_elem_of_fmap. exists (i, 1). split; [done|]. by apply list_elem_of_filter. }
  apply list_elem_of_split in Hd as (d1 & d2 & ->). rewrite foldl_app. cbn [foldl]. apply requeues_keep.
  unfold requeue at 1. rewrite Ht, Hty. cbn [Z.eqb TMR_TYPE_PERIODIC Pos.eqb].
  rewrite insert_time_perm. apply elem_of_cons. by left.
Qed.

(** ** Outside the conditions of [timer_allowed] *)

Module misuse.
#[local] Instance idle_port : Port := coos 0 (fun _ k => Some k) 20.

Definition perform_all (os : list timer_op) (k : kernel) : kernel :=
  foldl (fun k o => default kernel_zero (snd <$> timer_perform o k)) k os.

Definition two_started (cnt1 cnt2 : Z) : kernel :=
  perform_all [CreateTmr TMR_TYPE_ONE_SHOT cnt1 0 8000; CreateTmr TMR_TYPE_ONE_SHOT cnt2 0 9000;
               StartTmr 0; StartTmr 1] kernel_zero.

(** Setting the count of a running timer moves the timers behind it: the second
    one is due in 15 ticks instead of 20. *)
Lemma set_running_hurries_others :
  let k := perform_all [SetTmr 0 5 0] (two_started 10 20) in
  expiries (mcnt (two_started 10 20)) 0 [0; 1] = [(0, 10); (1, 20)] /\
  expiries (mcnt k) 0 [0; 1] = [(0, 5); (1, 15)].
Proof. split; by vm_compute. Qed.

(** The current count of a running timer is the distance to the timer before it. *)
Lemma count_is_distance : (CoGetCurTmrCnt 1 (two_started 10 20)).1 = 10.
Proof. by vm_compute. Qed.

(** A timer that has expired and is started again is marked as running but not
    queued; stopping it empties the list, and the other timer never expires. *)
Lemma restart_loses_others :
  let k := perform_all [StartTmr 0; StopTmr 0] (default kernel_zero (tick_timers 20 (OsSchedLock (two_started 1 5)))) in
  TmrList (tmr k) = None /\ tmrRunning (ktmr k 1) = true.
Proof. split; by vm_compute. Qed.

(** With the schedule locked the tick leaves the timer that is due to the
    unlock, and the ticks until then are lost for the timer behind it. *)
Lemma locked_ticks_are_lost :
  let lock k := OsSchedLock (OsSchedLock k) in
  let tick k := default kernel_zero (tick_timers 20 k) in
  let k := tick (tick (tick (lock (two_started 1 5)))) in
  expiries (mcnt k) 0 [0; 1] = [(0, 0); (1, 4)].
Proof. by vm_compute. Qed.
End misuse.
