(* ===== verification/CoReach.v ===== *)
(** * Every reachable state of the kernel

    An application creates tasks, starts the kernel, and from then on the tick
    interrupt and the calls of the running task follow each other, each ended
    by the task switch it leads to. [reaches] is the set of states between
    them, with the identifiers that [CoCreateTask] has given out. *)

From stdpp Require Import gmap.
From S2P Require Import Prelude Dll CoTypes CoSched CoInv CoPreempt CoCore CoTask.
From S2P Require Import CoSync CoFlags CoTimer CoService CoRun CoTick CoCalls CoLife CoBoot.
From S2P Require Import CoTimerList CoTimers.

Inductive call :=
  | Tick
  | Delay (ticks : Z)
  | Suspend (id : Z)
  | Awake (id : Z)
  | Create (task argv pr stk sz : Z)
  | Delete (id : Z)
  | Timer (o : timer_op).

#[export] Instance call_eq_dec : EqDecision call.
Proof. solve_decision. Defined.

Section reach.
Context `{Callbacks}.
Variable fuel : nat.

Definition perform (o : call) (k : kernel) : option (Z * kernel) :=
  match o with
  | Tick => k ← SysTick_Handler fuel k; Some (E_OK, k)
  | Delay n => CoTickDelay n k
  | Suspend id => CoSuspendTask id k
  | Awake id => CoAwakeTask id k
  | Create task argv pr stk sz => CoCreateTask task argv pr stk sz k
  | Delete id => CoDelTask id k
  | Timer o => timer_perform o k
  end.

(** A call and the task switch after it; [psp] is the stack pointer of the
    task that runs. *)
Definition step (psp : Z) (o : call) (k : kernel) : option (Z * kernel) :=
  '(r, k) ← perform o k; k ← finish psp k; Some (r, k).

(** The frame of a new task keeps clear of the lowest word of every stack, and
    the task of the places where the timer callbacks write. *)
Definition frame_clear (created : list Z) (pr stk sz : Z) (k : kernel) : Prop :=
  0 <= pr < 256 /\ 0 <= sz < 4096 /\
  (forall i, i ∈ created -> stack (ktcb k i) ∉ [stk; stk - 4; stk - 8; stk - 28]) /\
  forall a, a ∈ task_words stk sz -> ~ writes a.

(** The stack of the running task has room for its registers; the idle task
    makes no calls; a call names tasks by identifiers it was given. *)
Definition allowed (created : list Z) (psp : Z) (o : call) (k : kernel) : Prop :=
  exists c, TCBRunning (sch k) = Some c /\ pointer_ok psp c k /\
  match o with
  | Tick => True
  | Delay n => c <> 0 /\ 0 <= n < 2 ^ 31
  | Suspend id | Awake id | Delete id => c <> 0 /\ id ∈ created
  | Create _ _ pr stk sz => c <> 0 /\ frame_clear created pr stk sz k
  | Timer o => c <> 0 /\ timer_allowed o k
  end.

Definition given (o : call) (r : Z) (created : list Z) : list Z :=
  match o with Create _ _ _ _ _ => r :: created | _ => created end.

Inductive boots : kernel -> list Z -> Prop :=
  | boots_init idle idle_stk heap k :
      idle <> 0 -> idle_stk + 96 <> 0 -> ~ writes idle_stk -> CoInitOS idle idle_stk heap kernel_zero = Some k -> boots k [0]
  | boots_create k created task argv pr stk sz r k' :
      boots k created -> frame_clear created pr stk sz k ->
      CoCreateTask task argv pr stk sz k = Some (r, k') -> boots k' (r :: created).

Inductive reaches : kernel -> list Z -> Prop :=
  | reaches_start k created psp k1 k2 :
      boots k created -> pointer_ok psp 0 k -> CoStartOS k = Some k1 -> finish psp k1 = Some k2 ->
      reaches k2 created
  | reaches_step k created psp o r k' :
      reaches k created -> allowed created psp o k -> step psp o k = Some (r, k') ->
      reaches k' (given o r created).

(** ** The invariant *)

Record steady (created : list Z) (k : kernel) (c : Z) (fre rdy dly : list Z) (T : timers) : Prop := {
  sy_calm : calm c k fre rdy dly;
  sy_stacks : stacks_ok c fre k;
  sy_created : forall t, is_task t -> t ∉ fre -> t ∈ created;
  sy_dormant : forall t, t ∈ fre -> t ∈ created -> tstate (sch k) t = TASK_DORMANT;
  sy_timers : timers_ok T k;
  sy_clear : forall t, is_task t -> t ∉ fre -> ~ writes (stack (ktcb k t))
}.

(** The ticks that the sleeping tasks have left. *)
Definition remaining (k : kernel) (dly : list Z) : list (Z * Z) := expiries (tdelay (sch k)) 0 dly.

(** What a call does to a sleeping task that it does not delete. *)
Definition sleeps_on (o : call) (k k' : kernel) (c' : Z) (dly rdy' dly' : list Z) : Prop :=
  forall t e, (t, e) ∈ remaining k dly -> o <> Delete t ->
  match o with
  | Tick => (e = 1 -> t = c' \/ t ∈ rdy') /\ (1 < e -> (t, e - 1) ∈ remaining k' dly')
  | _ => (t, e) ∈ remaining k' dly'
  end.

(** What a call does to the timers and to what their callbacks write. *)
Definition served (o : call) (r : Z) (T T' : timers) (k k' : kernel) : Prop :=
  match o with
  | Tick => T' = tick_step T /\ mem k' = run_callbacks (fired T) (mem k)
  | Timer o => (r, T') = timer_step o T /\ mem k' = mem k
  | _ => T' = T /\ forall a, writes a -> ram (mem k') !! a = ram (mem k) !! a
  end.

Record outcome (o : call) (created : list Z) (k : kernel) (c : Z) (dly : list Z) (T : timers) (r : Z) (k' : kernel)
    (c' : Z) (fre' rdy' dly' : list Z) (T' : timers) : Prop := {
  oc_steady : steady (given o r created) k' c' fre' rdy' dly' T';
  oc_sleeps : sleeps_on o k k' c' dly rdy' dly';
  oc_delay : forall n, o = Delay n -> 0 < n -> (c, n) ∈ remaining k' dly';
  oc_served : served o r T T' k k'
}.

Section step.
Variables (created : list Z) (k : kernel) (c : Z) (fre rdy dly : list Z) (T : timers) (psp : Z).
Hypothesis Hfuel : (tmr_fuel <= fuel)%nat.
Hypothesis Hst : steady created k c fre rdy dly T.
Hypothesis Hptr : pointer_ok psp c k.

(** The call [o] has the outcome the invariant asks for. *)
Definition good (o : call) : Prop :=
  exists r k' c' fre' rdy' dly' T', step psp o k = Some (r, k') /\
    outcome o created k c dly T r k' c' fre' rdy' dly' T'.

(** A call of the scheduler: not the tick, a creation or a call on timers. *)
Definition schedules (o : call) : Prop :=
  match o with Tick | Create _ _ _ _ _ | Timer _ => False | _ => True end.

Lemma steady_untouched (created' : list Z) (k' : kernel) (c' : Z) (fre' rdy' dly' : list Z) :
  untouched k k' -> calm c' k' fre' rdy' dly' -> stacks_ok c' fre' k' ->
  (forall t, is_task t -> t ∉ fre' -> t ∈ created' /\ t ∉ fre) ->
  (forall t, t ∈ fre' -> t ∈ created' -> tstate (sch k') t = TASK_DORMANT) ->
  steady created' k' c' fre' rdy' dly' T.
Proof using Hst Hptr Hfuel.
  intros [U1 U2 U3 U4] Hc Hs Hcr Hd. destruct Hst as [S1 S2 S3 S4 S5 S6]. split; try done.
  - intros t Ht Hf. by apply Hcr.
  - by apply (timers_ok_same _ k).
  - intros t Ht Hf. rewrite U1. apply S6; [done|]. by apply Hcr.
Qed.

Lemma served_untouched o r k' : schedules o -> untouched k k' -> served o r T T k k'.
Proof. intros Ho [_ U2 _ _]. destruct o; try done; (split; [done|]; intros a _; by rewrite U2). Qed.

(** A call that changes nothing. *)
Lemma good_refused o r :
  perform o k = Some (r, k) -> schedules o -> (forall n, o = Delay n -> n = 0) -> good o.
Proof using Hst Hptr Hfuel.
  intros E Ho Hd. pose proof (ca_idle _ _ _ _ _ (sy_calm _ _ _ _ _ _ _ Hst)) as (_ & _ & Hp).
  exists r, k, c, fre, rdy, dly, T. split.
  - unfold step. rewrite E. cbn [mbind option_bind]. unfold finish, settle. by rewrite Hp.
  - split.
    + by destruct o.
    + intros t e Hin _. by destruct o.
    + intros n -> Hn. specialize (Hd n eq_refl). lia.
    + by apply served_untouched.
Qed.

(** A call after which the free blocks and the delays are the same. *)
Lemma good_same o r k3 k4 c' rdy' :
  perform o k = Some (r, k3) -> finish psp k3 = Some k4 -> schedules o -> (forall n, o <> Delay n) ->
  calm c' k4 fre rdy' dly -> stacks_ok c' fre k4 -> untouched k k4 ->
  (forall i, tdelay (sch k4) i = tdelay (sch k) i) -> free_kept fre k k4 -> good o.
Proof using Hst Hptr Hfuel.
  intros E F Ho Hd Hc Hs Hu Hdel Hk. exists r, k4, c', fre, rdy', dly, T. split.
  - unfold step. rewrite E. cbn [mbind option_bind]. by rewrite F.
  - pose proof Hst as [_ _ S3 S4 _ _]. split.
    + assert (given o r created = created) as -> by (by destruct o).
      apply steady_untouched; try done; [by auto|]. intros t Hf Ht'. rewrite Hk by done. by apply S4.
    + intros t e Hin _. assert ((t, e) ∈ remaining k4 dly); [|by destruct o].
      unfold remaining. by rewrite (expiries_ext (tdelay (sch k))).
    + intros n Hn. by destruct (Hd n).
    + by apply served_untouched.
Qed.

(** The callbacks leave the ends of the stacks alone. *)
Lemma callbacks_stacks fs : stacks_ok c fre (k <| mem := run_callbacks fs (mem k) |>).
Proof using Hst Hptr Hfuel.
  destruct Hst as [S1 S2 S3 S4 S5 S6]. intros t Ht Hf. specialize (S2 t Ht Hf). unfold stack_ok, ld in *.
  change (ktcb (k <| mem := run_callbacks fs (mem k) |>) t) with (ktcb k t).
  cbn [mem update updater]. rewrite callbacks_frame; [done|]. apply S6; [done|].
  destruct Hf as [->|Hf]; [|done]. intros Hc. by destruct (calm_free _ _ _ _ _ c S1 Hc) as (_ & _ & ?).
Qed.

Lemma good_tick : good Tick.
Proof using Hst Hptr Hfuel.
  pose proof Hst as [S1 S2 S3 S4 S5 S6].
  destruct (tick_spec psp fuel k c fre rdy dly
    (fun t' m' => timers_ok (tick_step T) (k <| tmr := t' |>) /\ m' = run_callbacks (fired T) (mem k)) S1 Hptr)
    as (k' & c' & rdy' & dly' & E & T1 & T2 & [T3 Tm] & Ts & T4 & _ & T6 & T7).
  { intros s Hl. destruct (tick_timers_spec fuel T (k <| sch := s |>)) as (t' & Et & Hok);
      [by apply (timers_ok_same _ k)|done|done|].
    exists t', (run_callbacks (fired T) (mem k)). split; [exact Et|]. split; [|apply callbacks_stacks].
    split; [|done]. by apply (timers_ok_same _ (k <| sch := s |> <| tmr := t' |>)). }
  exists E_OK, k', c', fre, rdy', dly', (tick_step T). split.
  - unfold step. cbn [perform]. unfold tick in E. destruct (SysTick_Handler fuel k) as [k1|]; [|done].
    cbn [mbind option_bind] in *. by rewrite E.
  - split; [split; try done| |done|done].
    + intros t Hf Ht. rewrite T7 by done. by apply S4.
    + by apply (timers_ok_same _ (k <| tmr := tmr k' |>)).
    + intros t Ht Hf. rewrite (proj1 (Ts t)). by apply S6.
    + intros t e Hin _. split.
      * intros ->. apply T6. by right.
      * intros He. unfold remaining. rewrite T4. apply list_elem_of_filter. split; [cbn; lia|].
        apply list_elem_of_fmap. by exists (t, e).
Qed.

Lemma good_timer o : timer_allowed o k -> good (Timer o).
Proof using Hst Hptr Hfuel.
  intros Ha. pose proof Hst as [S1 S2 S3 S4 S5 S6].
  pose proof (ca_idle _ _ _ _ _ S1) as (_ & _ & Hp).
  destruct (timer_answers T k S5 (quiet_relocks k (calm_quiet _ _ _ _ _ S1)) o Ha) as (k' & E & Hok & Ek).
  exists (timer_step o T).1, k', c, fre, rdy, dly, (timer_step o T).2.
  assert (sch k' = sch k /\ ServiceReq k' = ServiceReq k /\ mem k' = mem k) as (Es & Eq & Em) by (by rewrite Ek).
  split.
  - unfold step. cbn [perform]. rewrite E. cbn [mbind option_bind]. unfold finish, settle. by rewrite Es, Hp.
  - split.
    + cbn [given]. split; try done.
      * destruct S1. by split; rewrite ?Es, ?Eq.
      * intros t Ht Hf. specialize (S2 t Ht Hf). unfold stack_ok, ktcb, ld in *. by rewrite Es, Em.
      * intros t Ht Hf. rewrite Es. by apply S4.
      * intros t Ht Hf. unfold ktcb. rewrite Es. by apply S6.
    + intros t e Hin _. unfold remaining. by rewrite Es.
    + done.
    + split; [by destruct (timer_step o T)|done].
Qed.

Lemma good_delay n : c <> 0 -> 0 <= n < 2 ^ 31 -> good (Delay n).
Proof using Hst Hptr Hfuel.
  intros Hc Hn. destruct (decide (n = 0)) as [->|Hn0].
  - apply (good_refused (Delay 0) E_OK); [|done|by intros n [= <-]].
    destruct (ca_idle _ _ _ _ _ (sy_calm _ _ _ _ _ _ _ Hst)) as (_ & Hnest & _).
    cbn [perform]. unfold CoTickDelay. by rewrite Hnest.
  - pose proof Hst as [S1 S2 S3 S4 _ _].
    destruct (CoTickDelay_spec psp k c n fre rdy dly S1 S2 Hptr Hc)
      as (k3 & k4 & c' & rdy' & dly' & E & F & D1 & D2 & D3 & D4 & _ & _ & D7); [lia|].
    exists E_OK, k4, c', fre, rdy', dly', T. split.
    + unfold step. cbn [perform]. rewrite E. cbn [mbind option_bind]. by rewrite F.
    + split; [apply steady_untouched; try done; [by auto|]| | |by apply served_untouched].
      * intros t Hf Ht. rewrite D7 by done. by apply S4.
      * intros t e Hin _. unfold remaining. rewrite D4, insert_time_perm. apply elem_of_cons. by right.
      * intros m [= <-] _. unfold remaining. rewrite D4, insert_time_perm. apply elem_of_cons. by left.
Qed.

Lemma tcb_ref_cases t : tcb_ref t = None \/ is_task t.
Proof.
  unfold tcb_ref. destruct ((0 <=? t) && (t <? TASKS)) eqn:Eb; [right|by left].
  apply andb_true_iff in Eb as [E1 E2]. split; lia.
Qed.

(** Where a task that is not free can be. *)
Lemma whereabouts t : is_task t -> t ∉ fre ->
  t = c \/ t ∈ rdy \/ t ∈ dly \/
  (loose t fre rdy dly /\ (tstate (sch k) t = TASK_WAITING \/ tstate (sch k) t = TASK_DORMANT)).
Proof using Hst Hptr Hfuel.
  intros Ht Hf. destruct Hst as [[[Hok _ Honly _] _ _ _ _ _ _ _] _ _ _ _ _].
  destruct (decide (t = c)) as [|Hc]; [by left|]. destruct (decide (t ∈ rdy)) as [|Hr]; [tauto|].
  destruct (decide (t ∈ dly)) as [|Hd]; [tauto|]. do 3 right. split.
  - split; [done|]. rewrite !elem_of_app. tauto.
  - destruct (tstate (sch k) t) eqn:E; [|by destruct Hc; apply Honly|by left|by right].
    by apply (ok_ready _ _ _ _ Hok t Ht Hf) in E.
Qed.

Lemma good_suspend t : c <> 0 -> t ∈ created -> good (Suspend t).
Proof using Hst Hptr Hfuel.
  intros Hc0 Hcr. pose proof Hst as [S1 S2 S3 S4 S5 S6]. pose proof (calm_lists _ _ _ _ _ S1) as Hok.
  destruct (decide (t = 0)) as [->|Ht0]; [by apply (good_refused _ E_PROTECTED_TASK)|].
  destruct (tcb_ref_cases t) as [Er|Ht].
  { apply (good_refused _ E_INVALID_ID); try done. cbn [perform]. unfold CoSuspendTask.
    by rewrite (proj2 (Z.eqb_neq _ _) Ht0), Er. }
  pose proof (tcb_ref_task t Ht) as Er.
  assert (tstate (sch k) t = TASK_DORMANT -> good (Suspend t)) as Hdorm.
  { intros Hd. apply (good_refused _ E_INVALID_ID); try done. cbn [perform]. unfold CoSuspendTask.
    rewrite (proj2 (Z.eqb_neq _ _) Ht0), Er. change (state (ktcb k t)) with (tstate (sch k) t). by rewrite Hd. }
  assert (tstate (sch k) t = TASK_WAITING -> good (Suspend t)) as Hwait.
  { intros Hd. apply (good_refused _ E_ALREADY_IN_WAITING); try done. cbn [perform]. unfold CoSuspendTask.
    rewrite (proj2 (Z.eqb_neq _ _) Ht0), Er. change (state (ktcb k t)) with (tstate (sch k) t). rewrite Hd.
    by rewrite (proj1 (ca_idle _ _ _ _ _ S1)). }
  destruct (decide (t ∈ fre)) as [Hf|Hf]; [by apply Hdorm, S4|].
  destruct (whereabouts t Ht Hf) as [->|[Hr|[Hd|(_ & [?|?])]]]; [| | |by apply Hwait|by apply Hdorm].
  - destruct (CoSuspendTask_self psp k c fre rdy dly S1 S2 Hptr Hc0)
      as (k3 & k4 & c' & rdy' & E & F & D1 & D2 & D3 & D4 & _ & _ & D7).
    by apply (good_same _ E_OK k3 k4 c' rdy').
  - destruct (list_elem_of_split _ _ Hr) as (l1 & l2 & El). rewrite El in S1.
    destruct (CoSuspendTask_other psp k c t fre l1 l2 dly S1 S2 Hptr Ht0)
      as (k3 & k4 & c' & rdy' & E & F & D1 & D2 & D3 & D4 & _ & _ & D7).
    by apply (good_same _ E_OK k3 k4 c' rdy').
  - by apply Hwait, (ok_asleep _ _ _ _ Hok).
Qed.

Lemma good_awake t : t ∈ created -> good (Awake t).
Proof using Hst Hptr Hfuel.
  intros Hcr. pose proof Hst as [S1 S2 S3 S4 S5 S6]. pose proof (calm_lists _ _ _ _ _ S1) as Hok.
  destruct (decide (t = 0)) as [->|Ht0]; [by apply (good_refused _ E_PROTECTED_TASK)|].
  destruct (tcb_ref_cases t) as [Er|Ht].
  { apply (good_refused _ E_INVALID_ID); try done. cbn [perform]. unfold CoAwakeTask.
    by rewrite (proj2 (Z.eqb_neq _ _) Ht0), Er. }
  pose proof (tcb_ref_task t Ht) as Er.
  assert (forall r, CoAwakeTask t k = Some (r, k) -> good (Awake t)) as Hno
    by (intros r E; by apply (good_refused _ r)).
  unfold CoAwakeTask in Hno. rewrite (proj2 (Z.eqb_neq _ _) Ht0), Er in Hno.
  change (state (ktcb k t)) with (tstate (sch k) t) in Hno.
  change (delayTick (ktcb k t)) with (tdelay (sch k) t) in Hno.
  destruct (decide (t ∈ fre)) as [Hf|Hf].
  { apply (Hno E_INVALID_ID). by rewrite (S4 t Hf Hcr). }
  destruct (whereabouts t Ht Hf) as [->|[Hr|[Hd|(Hl & [Hw|Hw])]]].
  - apply (Hno E_TASK_NOT_WAITING). by rewrite (proj1 (ca_urgent _ _ _ _ _ S1)).
  - apply (Hno E_TASK_NOT_WAITING). by rewrite (proj2 (ok_ready _ _ _ _ Hok t Ht Hf) Hr).
  - apply (Hno E_TASK_WAIT_OTHER). rewrite (ok_asleep _ _ _ _ Hok t Hd).
    destruct (delays_ok_each _ _ t (ok_delays _ _ _ _ Hok) Hd) as [_ Hlt].
    rewrite (proj2 (Z.eqb_neq _ _)); [done|]. unfold INVALID_VALUE. lia.
  - destruct (loose_not _ _ _ _ Hl) as (_ & _ & _ & Hd).
    destruct (CoAwakeTask_spec psp k c t fre rdy dly S1 S2 Hptr Ht0 Ht Hf Hd Hw)
      as (k3 & k4 & c' & rdy' & E & F & D1 & D2 & D3 & D4 & _ & _ & D7).
    by apply (good_same _ E_OK k3 k4 c' rdy').
  - apply (Hno E_INVALID_ID). by rewrite Hw.
Qed.

(** A deletion that takes the task out of the lists. *)
Lemma good_deleted t rdy1 dly1 :
  t ∈ created -> t <> 0 -> is_task t -> t ∉ fre -> tstate (sch k) t <> TASK_DORMANT ->
  unlisted t (sch (OsSchedLock k)) (retire t (sch (OsSchedLock k))) fre rdy rdy1 dly1 ->
  (forall x e, (x, e) ∈ remaining k dly -> x <> t ->
     (x, e) ∈ expiries (tdelay (retire t (sch (OsSchedLock k)))) 0 dly1) ->
  good (Delete t).
Proof using Hst Hptr Hfuel.
  intros Hcr Ht0 Ht Hf Hnd Hul Hrem. pose proof Hst as [S1 S2 S3 S4 _ _].
  destruct (CoDelTask_spec psp k c t fre rdy dly rdy1 dly1 S1 S2 Hptr Ht0 Hf Ht Hnd Hul)
    as (k3 & k4 & c' & rdy' & E & F & D1 & D2 & D3 & D4 & _ & D6 & D7).
  exists E_OK, k4, c', (t :: fre), rdy', dly1, T. split.
  - unfold step. cbn [perform]. rewrite E. cbn [mbind option_bind]. by rewrite F.
  - split; [apply steady_untouched; try done| |done|by apply served_untouched].
    + intros i Hi Hn. cbn [given]. rewrite not_elem_of_cons in Hn. split; [apply S3|]; tauto.
    + intros i [->|Hi]%elem_of_cons Hic; [done|]. rewrite D7 by done. by apply S4.
    + intros x e Hin Hx. unfold remaining.
      rewrite (expiries_ext (tdelay (retire t (sch (OsSchedLock k))))) by (intros; apply D4).
      apply Hrem; [done|congruence].
Qed.

Lemma good_delete t : t ∈ created -> good (Delete t).
Proof using Hst Hptr Hfuel.
  intros Hcr. pose proof Hst as [S1 S2 S3 S4 S5 S6]. pose proof (calm_lists _ _ _ _ _ S1) as Hok.
  destruct (tcb_ref_cases t) as [Er|Ht].
  { apply (good_refused _ E_INVALID_ID); try done. cbn [perform]. unfold CoDelTask. by rewrite Er. }
  pose proof (tcb_ref_task t Ht) as Er.
  destruct (decide (tstate (sch k) t = TASK_DORMANT)) as [Hd|Hd].
  { apply (good_refused _ E_INVALID_ID); try done. cbn [perform]. unfold CoDelTask. rewrite Er.
    by rewrite bool_decide_true. }
  destruct (decide (t = 0)) as [->|Ht0].
  { apply (good_refused _ E_PROTECTED_TASK); try done. cbn [perform]. unfold CoDelTask. rewrite Er.
    by rewrite bool_decide_false. }
  destruct (decide (t ∈ fre)) as [Hf|Hf]; [by destruct Hd; apply S4|].
  assert (lists_ok (sch (OsSchedLock k)) fre rdy dly) as HokL by (apply (lists_ok_view (sch k)); [by split|done]).
  pose proof (ca_times _ _ _ _ _ S1) as Hti.
  assert (loose t fre rdy dly -> tstate (sch k) t <> TASK_READY -> good (Delete t)) as Hloose.
  { intros Hl Hnr. destruct (retire_loose (sch (OsSchedLock k)) t fre rdy dly HokL Hl Hnr Hti) as [Hul Hdel].
    apply (good_deleted t rdy dly); try done. intros x e Hin _.
    by rewrite (expiries_ext (tdelay (sch k))) by (intros; apply Hdel). }
  destruct (whereabouts t Ht Hf) as [->|[Hr|[Hdl|(Hl & [Hw|Hw])]]].
  - apply Hloose; [apply (running_loose c (sch k)); apply S1|]. by rewrite (proj1 (ca_urgent _ _ _ _ _ S1)).
  - destruct (list_elem_of_split _ _ Hr) as (l1 & l2 & El).
    pose proof (retire_ready (sch (OsSchedLock k)) t fre l1 l2 dly) as R. rewrite <- El in R.
    destruct (R HokL Hf Hti) as [Hul Hdel]. apply (good_deleted t (l1 ++ l2) dly); try done.
    intros x e Hin _. by rewrite (expiries_ext (tdelay (sch k))) by (intros; apply Hdel).
  - destruct (list_elem_of_split _ _ Hdl) as (l1 & l2 & El).
    pose proof (retire_asleep (sch (OsSchedLock k)) t fre rdy l1 l2) as R. rewrite <- El in R.
    destruct (R HokL Hti) as [Hul Hexp]. apply (good_deleted t rdy (l1 ++ l2)); try done.
    intros x e Hin Hx. rewrite Hexp. unfold remaining in Hin. rewrite El, expiries_app in Hin.
    cbn [expiries] in Hin. rewrite total_app. cbn [total]. rewrite !Z.add_0_l, ?Z.add_0_r in *.
    apply elem_of_app in Hin as [Hin|[[= ? _]|Hin]%elem_of_cons]; [|done|]; apply elem_of_app; [by left|by right].
  - apply Hloose; [done|]. by rewrite Hw.
  - done.
Qed.

(** ** Creation *)

(** The kernel once the frame of a task is written. *)
Definition framed (task argv stk : Z) (x : kernel) : kernel := (InitTaskContext task argv stk x).2.

Lemma CoCreateTask_refused task argv pr stk sz (x : kernel) :
  0 <= pr < 256 -> 0 <= sz < 4096 ->
  task = 0 \/ stk = 0 \/ CFG_LOWEST_PRIO < pr \/ sz < 20 ->
  CoCreateTask task argv pr stk sz x = Some (E_CREATE_FAIL, x).
Proof.
  intros Hp Hs Hbad. unfold CoCreateTask, CreateTask. destruct (task_parameter pr sz) as (-> & -> & _); [done|done|].
  repeat (case_bool; [done|]). exfalso. lia.
Qed.

Lemma CoCreateTask_full task argv pr stk sz (x : kernel) :
  0 <= pr <= CFG_LOWEST_PRIO -> 20 <= sz < 4096 -> task <> 0 -> stk <> 0 ->
  AssignTCB (framed task argv stk x) = Some (None, framed task argv stk x) ->
  CoCreateTask task argv pr stk sz x = Some (E_CREATE_FAIL, framed task argv stk x).
Proof.
  intros Hp Hs Ht Hk Ha. unfold CFG_LOWEST_PRIO in Hp. unfold CoCreateTask, CreateTask.
  destruct (task_parameter pr sz) as (-> & -> & _); [lia|lia|].
  rewrite (proj2 (Z.eqb_neq _ _) Ht), (proj2 (Z.eqb_neq _ _) Hk).
  rewrite (proj2 (Z.ltb_ge _ _)) by (unfold CFG_LOWEST_PRIO; lia). rewrite (proj2 (Z.ltb_ge _ _)) by lia.
  unfold framed in *. destruct (InitTaskContext task argv stk x) as [top x']. cbn [snd] in Ha.
  rewrite Ha. done.
Qed.

(** The frame does not touch the stacks it keeps clear of. *)
Lemma framed_stack task argv stk (x : kernel) b :
  stack b ∉ [stk; stk - 4; stk - 8; stk - 28] -> stack_ok (framed task argv stk x) b = stack_ok x b.
Proof.
  intros Hn. rewrite !elem_of_cons in Hn. unfold stack_ok, framed, InitTaskContext. cbn [snd].
  rewrite !ld_st, !decide_False by tauto. done.
Qed.

Lemma good_create task argv pr stk sz :
  frame_clear created pr stk sz k -> good (Create task argv pr stk sz).
Proof using Hst Hptr Hfuel.
  intros (Hp & Hs & Hclear & Hw). pose proof Hst as [S1 S2 S3 S4 S5 S6].
  pose proof (ca_idle _ _ _ _ _ S1) as (_ & _ & Hpend).
  assert (forall x, perform (Create task argv pr stk sz) k = Some (E_CREATE_FAIL, x) -> sch x = sch k ->
    ServiceReq x = ServiceReq k -> tmr x = tmr k -> stacks_ok c fre x ->
    (forall a, a ∉ task_words stk sz -> ram (mem x) !! a = ram (mem k) !! a) ->
    good (Create task argv pr stk sz)) as Hfail.
  { intros x E Es Eq Et Hx Hram. exists E_CREATE_FAIL, x, c, fre, rdy, dly, T. split.
    - unfold step. rewrite E. cbn [mbind option_bind]. unfold finish, settle. by rewrite Es, Hpend.
    - split; [|by intros t e Hin _; unfold remaining; rewrite Es|done|].
      2: { split; [done|]. intros a Ha. apply Hram. intros Hin. by apply (Hw a). }
      split; try done.
      + destruct S1. by split; rewrite ?Es, ?Eq, ?Et.
      + intros t Ht Hf. apply elem_of_cons. right. by apply S3.
      + intros t Hf [->|Ht]%elem_of_cons; [|rewrite Es; by apply S4].
        pose proof (ok_tasks _ _ _ _ (calm_lists _ _ _ _ _ S1) E_CREATE_FAIL) as Hn.
        destruct Hn as [_ Hn]; [apply elem_of_app; by left|done].
      + by apply (timers_ok_same _ k).
      + intros t Ht Hf. unfold ktcb. rewrite Es. by apply S6. }
  destruct (decide (task = 0 \/ stk = 0 \/ CFG_LOWEST_PRIO < pr \/ sz < 20)) as [Hbad|Hgood].
  { apply (Hfail k); try done. cbn [perform]. by apply CoCreateTask_refused. }
  assert (task <> 0 /\ stk <> 0 /\ 0 <= pr <= CFG_LOWEST_PRIO /\ 20 <= sz < 4096) as (Ht & Hk & Hp' & Hs') by lia.
  destruct fre as [|t fre'] eqn:Ef.
  - apply (Hfail (framed task argv stk k)); try done.
    + cbn [perform]. apply CoCreateTask_full; try done.
      assert (quiet (framed task argv stk k)) as Hq by exact (calm_quiet _ _ _ _ _ S1).
      rewrite (AssignTCB_quiet _ Hq). change (FreeTCB (sch (framed task argv stk k))) with (FreeTCB (sch k)).
      assert (FreeTCB (sch k) = None) as ->; [|done]. exact (ok_free _ _ _ _ (calm_lists _ _ _ _ _ S1)).
    + intros i Hi Hif. change (ktcb (framed task argv stk k) i) with (ktcb k i).
      rewrite framed_stack; [by apply S2|]. apply Hclear, S3; [done|]. by intros ?%elem_of_nil.
    + intros a Ha. by apply (framed_ram task argv stk sz).
  - assert (stack_apart stk (t :: fre') k) as Hap by (intros i Hi Hif; by apply Hclear, S3).
    destruct (CoCreateTask_spec psp k c t fre' rdy dly task argv pr stk sz S1 S2 Hptr Hap Ht Hk Hp' Hs')
      as (k3 & k4 & c' & rdy' & E & F & D1 & D2 & D3 & _ & _ & _ & D7 & [W1 W2 W3]).
    pose proof (ok_apart _ _ _ _ (calm_lists _ _ _ _ _ S1)) as Hnd. cbn [app] in Hnd.
    apply list.NoDup_cons in Hnd as [Hnd _]. rewrite elem_of_app in Hnd.
    exists t, k4, c', fre', rdy', dly, T. split.
    + unfold step. cbn [perform]. rewrite E. cbn [mbind option_bind]. by rewrite F.
    + split; [split; try done| |done|].
      * intros i Hi Hif. apply elem_of_cons. destruct (decide (i = t)) as [->|Hit]; [by left|right].
        apply S3; [done|]. rewrite elem_of_cons. tauto.
      * intros i Hif [->|Hic]%elem_of_cons; [tauto|]. rewrite D7 by done. apply S4; [|done].
        apply elem_of_cons. by right.
      * by apply (timers_ok_same _ k).
      * intros i Hi Hif. rewrite W3. case_decide as Hit.
        -- apply Hw. unfold task_words. rewrite !elem_of_cons. tauto.
        -- apply S6; [done|]. rewrite elem_of_cons. tauto.
      * intros x e Hin _. unfold remaining. rewrite (expiries_ext (tdelay (sch k))); [done|].
        intros y Hy. by apply D3.
      * split; [done|]. intros a Ha. apply W2. intros Hin. by apply (Hw a).
Qed.
End step.

Hypothesis Hfuel : (tmr_fuel <= fuel)%nat.

Lemma step_good created k c fre rdy dly T psp o :
  steady created k c fre rdy dly T -> allowed created psp o k -> good created k c dly T psp o.
Proof using Hfuel.
  intros Hst (c' & Hc' & Hptr & Ho). pose proof (ca_cpu _ _ _ _ _ (sy_calm _ _ _ _ _ _ _ Hst)) as [Hc _].
  rewrite Hc in Hc'. injection Hc' as <-. destruct o as [|n|id|id|task argv pr stk sz|id|o].
  - by apply (good_tick created k c fre rdy).
  - destruct Ho as [H1 H2]. by apply (good_delay created k c fre rdy).
  - destruct Ho as [H1 H2]. by apply (good_suspend created k c fre rdy).
  - destruct Ho as [H1 H2]. by apply (good_awake created k c fre rdy dly).
  - destruct Ho as [H1 H2]. by apply (good_create created k c fre rdy).
  - destruct Ho as [H1 H2]. by apply (good_delete created k c fre rdy).
  - destruct Ho as [H1 H2]. by apply (good_timer created k c fre rdy dly).
Qed.

(** ** Reachable states are steady *)

(** The kernel while main creates its tasks. *)
Record boot_ok (k : kernel) (created fre rdy : list Z) : Prop := {
  bk_booting : booting k fre rdy;
  bk_idle : 0 ∈ rdy;
  bk_created : forall t, is_task t -> t ∉ fre <-> t ∈ created;
  bk_tmr : tmr k = tmr kernel_zero;
  bk_clear : forall t, is_task t -> t ∉ fre -> ~ writes (stack (ktcb k t))
}.

Lemma boot_failed k created fre rdy x :
  boot_ok k created fre rdy -> sch x = sch k -> ServiceReq x = ServiceReq k -> tmr x = tmr k ->
  (forall t, is_task t -> t ∉ fre -> stack_ok x (ktcb k t) = true) ->
  boot_ok x (E_CREATE_FAIL :: created) fre rdy.
Proof.
  intros [Hb H0' Hcr Htm Hcl] Es Eq Et Hst. split; [|done| |by rewrite Et|].
  - destruct Hb. split; rewrite ?Es, ?Eq; try done. intros t Ht Hf. unfold ktcb. rewrite Es. by apply Hst.
  - intros t Ht. rewrite elem_of_cons, Hcr by done. split; [by right|]. intros [->|?]; [|done].
    by destruct Ht as [_ Ht].
  - intros t Ht Hf. unfold ktcb. rewrite Es. by apply Hcl.
Qed.

Lemma boot_created k created fre rdy task argv pr stk sz r k' :
  boot_ok k created fre rdy -> frame_clear created pr stk sz k ->
  CoCreateTask task argv pr stk sz k = Some (r, k') ->
  exists fre' rdy', boot_ok k' (r :: created) fre' rdy'.
Proof.
  intros Hbk (Hp & Hsz & Hclear & Hw) E. pose proof Hbk as [Hbo H0' Hcr Htm Hcl].
  destruct (decide (task = 0 \/ stk = 0 \/ CFG_LOWEST_PRIO < pr \/ sz < 20)) as [Hbad|Hgood].
  { rewrite CoCreateTask_refused in E by done. injection E as <- <-. exists fre, rdy.
    apply (boot_failed k); try done. apply (bo_stacks _ _ _ Hbo). }
  assert (task <> 0 /\ stk <> 0 /\ 0 <= pr <= CFG_LOWEST_PRIO /\ 20 <= sz < 4096) as (Ht & Hk & Hp' & Hs') by lia.
  destruct fre as [|t fre'].
  - rewrite CoCreateTask_full in E; try done.
    + injection E as <- <-. exists [], rdy. apply (boot_failed k); try done.
      intros t Htk Hf. rewrite framed_stack; [by apply (bo_stacks _ _ _ Hbo)|]. by apply Hclear, Hcr.
    + unfold AssignTCB.
      change (FreeTCB (sch (OsSchedLock (framed task argv stk k)))) with (FreeTCB (sch k)).
      pose proof (ok_free _ _ _ _ (bo_lists _ _ _ Hbo)) as Hfr. cbn [chained] in Hfr. rewrite Hfr.
      by rewrite relock by apply (bo_lock _ _ _ Hbo).
  - destruct (CoCreateTask_boot k t fre' rdy task argv pr stk sz Hbo)
      as (k2 & rdy' & E' & Hb' & Hin & _ & [W1 _ W3]); try done.
    { intros i Hi Hif. by apply Hclear, Hcr. }
    rewrite E in E'. injection E' as -> ->. exists fre', rdy'. split; [done|apply Hin; by right| |by rewrite W1|].
    + intros i Hi. rewrite elem_of_cons, <- Hcr, elem_of_cons by done.
      pose proof (ok_apart _ _ _ _ (bo_lists _ _ _ Hbo)) as Hnd. cbn [app] in Hnd.
      apply list.NoDup_cons in Hnd as [Hnd _]. rewrite elem_of_app in Hnd.
      destruct (decide (i = t)) as [->|]; tauto.
    + intros i Hi Hif. rewrite W3. case_decide as Hit.
      * apply Hw. unfold task_words. rewrite !elem_of_cons. tauto.
      * apply Hcl; [done|]. rewrite elem_of_cons. tauto.
Qed.

Lemma boots_booting k created : boots k created -> exists fre rdy, boot_ok k created fre rdy.
Proof.
  induction 1 as [idle stk heap k Hi Hs Hw E|k created task argv pr stk sz r k' Hb IH Hf E].
  - destruct (CoInitOS_spec idle stk heap Hi Hs) as (k' & E' & Hb & _ & Hk & Htm).
    rewrite E in E'. injection E' as <-. exists [1; 2; 3; 4; 5], [0].
    assert (forall t, is_task t -> t ∉ [1; 2; 3; 4; 5] <-> t = 0) as Hfree.
    { intros t Ht. rewrite !elem_of_cons, elem_of_nil. pose proof (is_task_cases t Ht). lia. }
    split; [done|apply elem_of_cons; by left| |done|].
    + intros t Ht. rewrite Hfree, list_elem_of_singleton by done. done.
    + intros t Ht Hf%Hfree; [|done]. by rewrite Hf, Hk.
  - destruct IH as (fre & rdy & Hbk). by apply (boot_created k created fre rdy task argv pr stk sz).
Qed.

Lemma zero_timers k : tmr k = tmr kernel_zero -> timers_ok no_timers k.
Proof.
  intros E. apply (timers_ok_same _ kernel_zero); [done|]. split; [|done|constructor]. split; try done.
  - apply dll_nil.
  - by intros i ?%elem_of_nil.
Qed.

Lemma reaches_steady k created :
  reaches k created -> exists c fre rdy dly T, steady created k c fre rdy dly T.
Proof using Hfuel.
  induction 1 as [k created psp k1 k2 Hb Hptr E F|k created psp o r k' Hr IH Ha E].
  - destruct (boots_booting k created Hb) as (fre & rdy & [Hbo H0' Hcr Htm Hcl]).
    destruct (CoStartOS_spec psp k fre rdy Hbo H0' Hptr) as (x1 & x2 & c & rdy' & E1 & F1 & Hc & Hs & [U1 _ U3 _]).
    rewrite E in E1. injection E1 as <-. rewrite F in F1. injection F1 as <-.
    exists c, fre, rdy', [], no_timers. split; [done|done|intros t Ht; by apply Hcr| | |].
    + intros t Hf Ht. assert (is_task t) as Htk.
      { apply (ok_tasks _ _ _ _ (calm_lists _ _ _ _ _ Hc)), elem_of_app. by left. }
      by apply (proj2 (Hcr t Htk)) in Ht.
    + apply zero_timers. by rewrite U3.
    + intros t Ht Hf. rewrite U1. by apply Hcl.
  - destruct IH as (c & fre & rdy & dly & T & Hst).
    destruct (step_good created k c fre rdy dly T psp o Hst Ha) as (r' & k2 & c' & fre' & rdy' & dly' & T' & E' & [Ho _ _ _]).
    rewrite E in E'. injection E' as -> ->. by exists c', fre', rdy', dly', T'.
Qed.

(** ** The theorems *)

(** C6: In every reachable state exactly one of the created tasks runs, no
    created task that is ready is more urgent, and every call the running task
    may make, and every tick, is carried out: none of them loops for ever or
    follows a null pointer. *)
Theorem highest_priority_runs (k : kernel) (created : list Z) :
  reaches k created ->
  exists c, TCBRunning (sch k) = Some c /\ c ∈ created /\ tstate (sch k) c = TASK_RUNNING /\
    (forall t, is_task t -> t ∈ created -> tstate (sch k) t = TASK_RUNNING -> t = c) /\
    (forall t, is_task t -> t ∈ created -> tstate (sch k) t = TASK_READY -> tprio (sch k) c <= tprio (sch k) t) /\
    forall psp o, allowed created psp o k -> exists r k', step psp o k = Some (r, k').
Proof using Hfuel.
  intros Hr. destruct (reaches_steady k created Hr) as (c & fre & rdy & dly & T & Hst).
  pose proof Hst as [[[Hok (Hc & _ & Hcf) Honly _] [Hrun Hmin] _ _ [Hcpu _] _ _ _] _ Hcr Hdorm _ _].
  assert (forall t, is_task t -> t ∈ created -> tstate (sch k) t <> TASK_DORMANT -> t ∉ fre) as Hn
    by (intros t Ht Htc Hd Hf; by apply Hd, Hdorm).
  exists c. split; [done|]. split; [by apply Hcr, Hcf|]. split; [done|]. split; [|split].
  - intros t Ht Htc E. apply Honly; try done. apply Hn; [done..|]. by rewrite E.
  - intros t Ht Htc E. apply Hmin, (ok_ready _ _ _ _ Hok t Ht); [|done]. apply Hn; [done..|]. by rewrite E.
  - intros psp o Ha. destruct (step_good created k c fre rdy dly T psp o Hst Ha) as (r & k' & _ & _ & _ & _ & _ & E & _).
    by exists r, k'.
Qed.

(** A run of calls and ticks, with their results. *)
Inductive runs : kernel -> list Z -> list call -> list Z -> kernel -> list Z -> Prop :=
  | runs_nil k created : runs k created [] [] k created
  | runs_cons k created psp o r k1 os rs k2 created2 :
      allowed created psp o k -> step psp o k = Some (r, k1) ->
      runs k1 (given o r created) os rs k2 created2 -> runs k created (o :: os) (r :: rs) k2 created2.

Definition ticks_of (os : list call) : Z := Z.of_nat (length (filter (fun o => o = Tick) os)).

Lemma runs_asleep k created os rs k2 created2 :
  runs k created os rs k2 created2 -> forall c fre rdy dly T t n,
  steady created k c fre rdy dly T -> (t, n) ∈ remaining k dly -> Delete t ∉ os -> ticks_of os < n ->
  exists c2 fre2 rdy2 dly2 T2, steady created2 k2 c2 fre2 rdy2 dly2 T2 /\ (t, n - ticks_of os) ∈ remaining k2 dly2.
Proof using Hfuel.
  induction 1 as [k created|k created psp o r k1 os rs k2 created2 Ha E Hr IH]; intros c fre rdy dly T t n Hst Hin Hnd Hlt.
  - exists c, fre, rdy, dly, T. split; [done|]. by replace (n - ticks_of []) with n by (change (ticks_of []) with 0; lia).
  - destruct (step_good created k c fre rdy dly T psp o Hst Ha)
      as (r' & k' & c' & fre' & rdy' & dly' & T' & E' & [Ho1 Ho2 _ _]).
    rewrite E in E'. injection E' as <- <-. apply not_elem_of_cons in Hnd as [Hno Hnd].
    specialize (Ho2 t n Hin (not_eq_sym Hno)). unfold ticks_of in *. rewrite filter_cons in *.
    destruct (decide (o = Tick)) as [->|Hot].
    + cbn [length] in *. destruct Ho2 as [_ Ho2].
      destruct (IH c' fre' rdy' dly' T' t (n - 1)) as (c2 & fre2 & rdy2 & dly2 & T2 & S2 & I2); try done.
      * apply Ho2. lia.
      * lia.
      * exists c2, fre2, rdy2, dly2, T2. split; [done|].
        match type of I2 with (t, ?a) ∈ _ => match goal with |- (t, ?b) ∈ _ => by replace b with a by lia end end.
    + apply (IH c' fre' rdy' dly' T' t n); try done. by destruct o.
Qed.


(** ** Timers in a run *)

(** The results of the calls on timers and the callbacks of a run, as the
    abstract timers give them. *)
Fixpoint agenda_run (os : list call) (T : timers) : list Z * list Z * timers :=
  match os with
  | [] => ([], [], T)
  | Tick :: os =>
      let '(vs, fs, T') := agenda_run os (tick_step T) in (vs, fired T ++ fs, T')
  | Timer o :: os =>
      let '(v, T) := timer_step o T in
      let '(vs, fs, T') := agenda_run os T in (v :: vs, fs, T')
  | _ :: os => agenda_run os T
  end.

Fixpoint timer_results (os : list call) (rs : list Z) : list Z :=
  match os, rs with
  | Timer _ :: os, r :: rs => r :: timer_results os rs
  | _ :: os, _ :: rs => timer_results os rs
  | _, _ => []
  end.

(** What the callbacks leave in memory: a trace of their calls. *)
Class Traced := {
  trace : memory -> list Z;
  trace_effect : forall f m, trace (effect f m) = trace m ++ [f];
  trace_local : forall m m', (forall a, writes a -> ram m' !! a = ram m !! a) -> trace m' = trace m
}.

Context `{Traced}.

Lemma trace_callbacks fs : forall m, trace (run_callbacks fs m) = trace m ++ fs.
Proof.
  induction fs as [|f fs IH]; intros m; [by rewrite app_nil_r|]. cbn [run_callbacks foldl].
  change (trace (run_callbacks fs (effect f m)) = trace m ++ f :: fs).
  by rewrite IH, trace_effect, <- app_assoc.
Qed.

Lemma runs_agenda k created os rs k2 created2 :
  runs k created os rs k2 created2 -> forall c fre rdy dly T,
  steady created k c fre rdy dly T ->
  let '(vs, fs, T2) := agenda_run os T in
  timer_results os rs = vs /\ trace (mem k2) = trace (mem k) ++ fs /\ timers_ok T2 k2.
Proof using Hfuel.
  induction 1 as [k created|k created psp o r k1 os rs k2 created2 Ha E Hr IH]; intros c fre rdy dly T Hst.
  - cbn [agenda_run]. rewrite app_nil_r. split; [done|]. split; [done|]. apply Hst.
  - destruct (step_good created k c fre rdy dly T psp o Hst Ha)
      as (r' & k' & c' & fre' & rdy' & dly' & T' & E' & [Ho1 _ _ Ho4]).
    rewrite E in E'. injection E' as <- <-. specialize (IH c' fre' rdy' dly' T' Ho1).
    destruct o; cbn [agenda_run timer_results served] in *; destruct Ho4 as [Ht Hm].
    1: subst T'; destruct (agenda_run os (tick_step T)) as [[vs fs] T2]; destruct IH as (I1 & I2 & I3);
      rewrite I2, Hm, trace_callbacks, app_assoc; done.
    6: rewrite <- Ht; destruct (agenda_run os T') as [[vs fs] T2]; destruct IH as (I1 & I2 & I3);
      rewrite I1, I2, Hm; done.
    all: subst T'; destruct (agenda_run os T) as [[vs fs] T2]; destruct IH as (I1 & I2 & I3);
      rewrite I2, (trace_local _ _ Hm); done.
Qed.

End reach.

(** ** Callbacks that keep a journal

    The callbacks append their address to an array of words, whose length is in
    the word before it. *)

Module journal.
Definition base : Z := 536870912.

Definition entries (m : memory) : nat := Z.to_nat (default 0 (ram m !! base)).
Definition place (j : nat) : Z := base + 4 * Z.of_nat (S j).

Definition note (f : Z) (m : memory) : memory :=
  m <| ram := <[base := Z.of_nat (S (entries m))]> (<[place (entries m) := f]> (ram m)) |>.

Definition entry (m : memory) (j : nat) : Z := default 0 (ram m !! place j).

Definition record_call (f : Z) (k : kernel) : option kernel := Some (k <| mem ::= note f |>).

#[local] Instance journal_port : Port := coos 7 record_call 20.

Lemma place_behind j : base < place j.
Proof. unfold place. lia. Qed.

Lemma note_frame f m a : ~ base <= a -> ram (note f m) !! a = ram m !! a.
Proof.
  intros Ha. pose proof (place_behind (entries m)). unfold note. cbn [ram update updater].
  by rewrite !lookup_insert_ne by lia.
Qed.

Lemma entries_note f m : entries (note f m) = S (entries m).
Proof. unfold entries at 1, note. cbn [ram update updater]. rewrite lookup_insert_eq. apply Nat2Z.id. Qed.

Lemma entry_note f m j : (j <= entries m)%nat ->
  entry (note f m) j = if decide (j = entries m) then f else entry m j.
Proof.
  intros Hj. pose proof (place_behind j). unfold entry, note. cbn [ram update updater].
  rewrite lookup_insert_ne by lia. case_decide as Hc; [subst; by rewrite lookup_insert_eq|].
  rewrite lookup_insert_ne; [done|]. unfold place. lia.
Qed.

Definition read_trace (m : memory) : list Z := map (entry m) (seq 0 (entries m)).

Lemma read_trace_note f m : read_trace (note f m) = read_trace m ++ [f].
Proof.
  unfold read_trace. rewrite entries_note, seq_S, map_app. cbn [map Nat.add]. f_equal.
  - apply map_ext_in. intros j Hj%in_seq. rewrite entry_note by lia. rewrite decide_False; [done|lia].
  - by rewrite entry_note, decide_True by done.
Qed.

Lemma read_trace_local m m' :
  (forall a, base <= a -> ram m' !! a = ram m !! a) -> read_trace m' = read_trace m.
Proof.
  intros E. assert (entries m' = entries m) as En by (unfold entries; by rewrite E by lia).
  unfold read_trace. rewrite En. apply map_ext. intros j. unfold entry. rewrite E; [done|].
  pose proof (place_behind j). lia.
Qed.

#[export] Instance journal_callbacks : Callbacks (H := journal_port) :=
  {| writes a := base <= a; effect := note; call_effect _ _ := eq_refl; effect_frame := note_frame |}.

#[export] Instance journal_traced : Traced (H := journal_port) :=
  {| trace := read_trace; trace_effect := read_trace_note; trace_local := read_trace_local |}.
End journal.

(** ** A concrete run

    Two tasks of priorities 10 and 20 are created, the first one delays itself
    for three ticks. *)

Module demo.
Import journal.
#[local] Existing Instance journal_port.

Definition after (r : option kernel) : kernel := default kernel_zero r.
Definition result (r : option (Z * kernel)) : kernel := after (snd <$> r).

Definition k0 := after (CoInitOS 4096 268435456 268436000 kernel_zero).
Definition k1 := result (CoCreateTask 4100 0 10 268437000 40 k0).
Definition k2 := result (CoCreateTask 4200 0 20 268438000 40 k1).
Definition k3 := after (CoStartOS k2).
Definition k4 := after (finish 268435500 k3).
Definition k5 := result (step 20 268436900 (Delay 3) k4).
Definition k6 := result (step 20 268437900 Tick k5).
Definition k7 := result (step 20 268437900 Tick k6).
Definition k8 := result (step 20 268437900 Tick k7).

Lemma clear_frame (created : list Z) (pr stk sz : Z) (k : kernel) :
  0 <= pr < 256 -> 0 <= sz < 4096 ->
  forallb (fun i => bool_decide (stack (ktcb k i) ∉ [stk; stk - 4; stk - 8; stk - 28])) created = true ->
  stk + 4 < base -> frame_clear created pr stk sz k.
Proof.
  intros Hp Hs Hc Hb. split; [done|]. split; [done|]. split.
  - intros i Hi%list_elem_of_In. rewrite forallb_forall in Hc. specialize (Hc i Hi).
    by apply bool_decide_eq_true in Hc.
  - intros a. unfold task_words. rewrite !elem_of_cons, elem_of_nil. change (writes a) with (base <= a). lia.
Qed.

Lemma started : reaches 20 k4 [2; 1; 0].
Proof.
  apply (reaches_start 20 k2 [2; 1; 0] 268435500 k3); [|by vm_compute..].
  apply (boots_create k1 [1; 0] 4200 0 20 268438000 40).
  - apply (boots_create k0 [0] 4100 0 10 268437000 40).
    + apply (boots_init 4096 268435456 268436000); [done|done| |by vm_compute].
      intros Hc. change (base <= 268435456) in Hc. unfold base in Hc. lia.
    + apply clear_frame; by vm_compute.
    + by vm_compute.
  - apply clear_frame; by vm_compute.
  - by vm_compute.
Qed.

Lemma enough : (tmr_fuel <= 20)%nat.
Proof. apply Nat.leb_le. by vm_compute. Qed.

Lemma may_delay : allowed [2; 1; 0] 268436900 (Delay 3) k4.
Proof. exists 1. split; [by vm_compute|]. split; [by vm_compute|]. done. Qed.

Lemma two_ticks : runs 20 k5 [2; 1; 0] [Tick; Tick] [E_OK; E_OK] k7 [2; 1; 0].
Proof.
  apply (runs_cons 20 k5 [2; 1; 0] 268437900 Tick E_OK k6 [Tick] [E_OK]); [|by vm_compute|].
  - exists 2. by split; [vm_compute|split; [vm_compute|]].
  - apply (runs_cons 20 k6 [2; 1; 0] 268437900 Tick E_OK k7 [] []); [|by vm_compute|constructor].
    exists 2. by split; [vm_compute|split; [vm_compute|]].
Qed.

Lemma highest_priority_runs_witness :
  reaches 20 k4 [2; 1; 0] /\
  exists c, TCBRunning (sch k4) = Some c /\ c ∈ [2; 1; 0] /\ tstate (sch k4) c = TASK_RUNNING /\
    (forall t, is_task t -> t ∈ [2; 1; 0] -> tstate (sch k4) t = TASK_RUNNING -> t = c) /\
    (forall t, is_task t -> t ∈ [2; 1; 0] -> tstate (sch k4) t = TASK_READY ->
       tprio (sch k4) c <= tprio (sch k4) t) /\
    forall psp o, allowed [2; 1; 0] psp o k4 -> exists r k', step 20 psp o k4 = Some (r, k').
Proof.
  split; [exact started|]. apply (highest_priority_runs 20 enough k4 [2; 1; 0]). exact started.
Defined.


(** The first task starts a periodic timer, due at the first tick and every
    second tick from there, and a timer that is due once, at the second tick. *)
Definition timing : list call :=
  [Timer (CreateTmr TMR_TYPE_PERIODIC 1 2 8000); Timer (CreateTmr TMR_TYPE_ONE_SHOT 2 0 9000);
   Timer (StartTmr 0); Timer (StartTmr 1); Tick; Timer (GetTmr 0); Tick; Tick].

Definition run_from (os : list call) (k : kernel) : list Z * kernel :=
  foldl (fun '(rs, k) o => let x := step 20 268436900 o k in (rs ++ [default (-1) (fst <$> x)], result x)) ([], k) os.

Definition k9 := (run_from timing k4).2.

Lemma timing_runs : runs 20 k4 [2; 1; 0] timing [0; 1; E_OK; E_OK; E_OK; 1; E_OK; E_OK] k9 [2; 1; 0].
Proof.
  assert (forall o k, TCBRunning (sch k) = Some 1 -> pointer_ok 268436900 1 k ->
    match o with Tick => True | Timer o => timer_allowed o k | _ => False end ->
    allowed [2; 1; 0] 268436900 o k) as Ha.
  { intros o k H1 H2 H3. exists 1. split; [done|]. split; [done|]. by destruct o. }
  unfold timing.
  repeat (eapply (runs_cons 20 _ _ 268436900); [apply Ha; [by vm_compute|by vm_compute|]|by vm_compute|]; cbn [given]).
  all: try by constructor.
  done.
Qed.

End demo.
