(* ===== verification/CoMem.v ===== *)
(** * Memory partitions and time conversion (CoOS/kernel/mm.c, utility.c)

    A partition is an array of blocks of one size; the first word of a free
    block is the address of the next free one. [pool_call] is what a client
    does with a partition, its writes into the blocks it holds included. *)

From stdpp Require Import gmap.
From S2P Require Import Prelude Dll CoTypes CoSched CoInv CoPreempt CoCore CoTask.
From S2P Require Import CoSync CoFlags CoTimer CoService CoRun CoTick CoCalls CoLife.

Definition mm_zero : MM := mk_mm 0 0 0 0.
Definition mm (k : kernel) (i : Z) : MM := default mm_zero (MemoryTbl (mem k) !! i).
Definition upd_mm (i : Z) (f : MM -> MM) (k : kernel) : kernel :=
  k <| mem := (mem k) <| MemoryTbl ::= <[i := f (mm k i)]> |> |>.
Definition set_vessel (v : Z) (k : kernel) : kernel := k <| mem := (mem k) <| MemoryIDVessel := v |> |>.

Section mm.
Context `{Port}.

(** ** mm.c *)

(** The identifier names a partition in use. *)
Definition mm_used (id : Z) (k : kernel) : bool :=
  (id <? CFG_MAX_MM) && negb (Z.land (Z.shiftl 1 id) (MemoryIDVessel (mem k)) =? 0).

(** The loop that links the blocks; its counter has eight bits. *)
Fixpoint link_blocks (fuel : nat) (j memory memBlk bsize bnum : Z) (k : kernel) : option kernel :=
  if j <? bnum - 1 then
    match fuel with
    | O => None
    | S fuel =>
        let memory := u32 (memory + bsize) in
        let k := st memBlk memory k in
        link_blocks fuel (u8 (j + 1)) memory (ld k memBlk) bsize bnum k
    end
  else Some (st memBlk 0 k).

Definition CoCreateMemPartition (memBuf bsize bnum : Z) (k : kernel) : option (Z * kernel) :=
  if memBuf =? 0 then Some (E_CREATE_FAIL, k)
  else if bsize =? 0 then Some (E_CREATE_FAIL, k)
  else if negb (Z.land bsize 3 =? 0) then Some (E_CREATE_FAIL, k)
  else if bnum <=? 1 then Some (E_CREATE_FAIL, k)
  else
    let k := OsSchedLock k in
    match list_find (fun i => Z.land (MemoryIDVessel (mem k)) (Z.shiftl 1 i) = 0) (seqZ 0 CFG_MAX_MM) with
    | None => k ← OsSchedUnlock k; Some (E_CREATE_FAIL, k)
    | Some (_, i) =>
        let k := set_vessel (Z.lor (MemoryIDVessel (mem k)) (Z.shiftl 1 i)) k in
        k ← OsSchedUnlock k;
        let k := upd_mm i (fun _ => mk_mm memBuf memBuf bsize bnum) k in
        k ← link_blocks 256 0 memBuf memBuf bsize bnum k;
        Some (i, k)
    end.

Definition CoDelMemoryPartition (id : Z) (k : kernel) : option (Z * kernel) :=
  if negb (mm_used id k) then Some (E_INVALID_ID, k)
  else
    let k := OsSchedLock k in
    let k := set_vessel (Z.land (MemoryIDVessel (mem k)) (Z.lnot (Z.shiftl 1 id))) k in
    k ← OsSchedUnlock k;
    Some (E_OK, upd_mm id (fun _ => mk_mm 0 0 0 0) k).

(** The walk along the free blocks; [None] is a walk longer than the fuel. *)
Fixpoint count_blocks (fuel : nat) (memBlk fbNum : Z) (k : kernel) : option Z :=
  if memBlk =? 0 then Some fbNum
  else match fuel with
       | O => None
       | S fuel => count_blocks fuel (ld k memBlk) (u32 (fbNum + 1)) k
       end.

(** The count, [*perr] and the new state. *)
Definition CoGetFreeBlockNum (fuel : nat) (id : Z) (k : kernel) : option (Z * Z * kernel) :=
  if negb (mm_used id k) then Some (0, E_INVALID_ID, k)
  else
    let k := OsSchedLock k in
    n ← count_blocks fuel (freeBlock (mm k id)) 0 k;
    k ← OsSchedUnlock k;
    Some (n, E_OK, k).

(** The address of the block, or 0. *)
Definition CoGetMemoryBuffer (id : Z) (k : kernel) : option (Z * kernel) :=
  if negb (mm_used id k) then Some (0, k)
  else
    let k := OsSchedLock k in
    let memBlk := freeBlock (mm k id) in
    if memBlk =? 0 then k ← OsSchedUnlock k; Some (0, k)
    else
      let k := upd_mm id (fun m => m <| freeBlock := ld k memBlk |>) k in
      k ← OsSchedUnlock k;
      Some (memBlk, k).

Definition CoFreeMemoryBuffer (id buf : Z) (k : kernel) : option (Z * kernel) :=
  if negb (mm_used id k) then Some (E_INVALID_ID, k)
  else if buf =? 0 then Some (E_INVALID_PARAMETER, k)
  else if buf <? memAddr (mm k id) then Some (E_INVALID_PARAMETER, k)
  else if u32 (memAddr (mm k id) + u32 (blockSize (mm k id) * blockNum (mm k id))) <? buf
  then Some (E_INVALID_PARAMETER, k)
  else if negb (u32 (buf - memAddr (mm k id)) mod blockSize (mm k id) =? 0)
  then Some (E_INVALID_PARAMETER, k)
  else
    let k := OsSchedLock k in
    let k := st buf (freeBlock (mm k id)) k in
    let k := upd_mm id (fun m => m <| freeBlock := buf |>) k in
    k ← OsSchedUnlock k;
    Some (E_OK, k).

(** ** The pool that a client sees *)

Inductive pool_call :=
  | Get
  | Put (buf : Z)
  | Count
  | Write (a v : Z).

(** The blocks of a partition, in the order of their addresses. *)
Definition blocks (base size num : Z) : list Z := (fun j => base + size * j) <$> seqZ 0 num.

(** One call on the free blocks: the result and the free blocks after it;
    [None] is a client that gives back or writes into what it does not hold. *)
Definition pool_step (base size num : Z) (o : pool_call) (free : list Z) : option (Z * list Z) :=
  match o with
  | Get => Some (match free with [] => (0, []) | b :: free => (b, free) end)
  | Put b => if decide (b ∈ blocks base size num /\ b ∉ free) then Some (E_OK, b :: free) else None
  | Count => Some (Z.of_nat (length free), free)
  | Write a _ =>
      if decide (Exists (fun b => b ∉ free /\ b <= a < b + size) (blocks base size num))
      then Some (0, free) else None
  end.

Fixpoint pool_run (base size num : Z) (os : list pool_call) (free : list Z) : option (list Z * list Z) :=
  match os with
  | [] => Some ([], free)
  | o :: os =>
      '(r, free) ← pool_step base size num o free;
      '(rs, free) ← pool_run base size num os free;
      Some (r :: rs, free)
  end.

Definition mem_step (fuel : nat) (id : Z) (o : pool_call) (k : kernel) : option (Z * kernel) :=
  match o with
  | Get => CoGetMemoryBuffer id k
  | Put b => CoFreeMemoryBuffer id b k
  | Count => '(n, _, k) ← CoGetFreeBlockNum fuel id k; Some (n, k)
  | Write a v => Some (0, st a v k)
  end.

Fixpoint mem_run (fuel : nat) (id : Z) (os : list pool_call) (k : kernel) : option (list Z * kernel) :=
  match os with
  | [] => Some ([], k)
  | o :: os =>
      '(r, k) ← mem_step fuel id o k;
      '(rs, k) ← mem_run fuel id os k;
      Some (r :: rs, k)
  end.

(** ** The free blocks are chained *)

Fixpoint chain (k : kernel) (head : Z) (l : list Z) : Prop :=
  match l with
  | [] => head = 0
  | x :: l => head = x /\ chain k (ld k x) l
  end.

Lemma free_chain_ext k k' l : (forall a, a ∈ l -> ld k' a = ld k a) -> forall h, chain k h l -> chain k' h l.
Proof.
  induction l as [|x l IH]; intros He h Hc; [done|]. destruct Hc as [-> Hc]. split; [done|].
  rewrite He by (apply elem_of_cons; by left). apply IH; [|done]. intros a Ha. apply He, elem_of_cons. by right.
Qed.

Lemma mm_upd i f k : mm (upd_mm i f k) i = f (mm k i).
Proof. unfold mm at 1, upd_mm. cbn. by rewrite lookup_insert_eq. Qed.

Lemma elem_of_blocks base size num b :
  b ∈ blocks base size num <-> exists j, b = base + size * j /\ 0 <= j < num.
Proof.
  unfold blocks. rewrite list_elem_of_fmap. split.
  - intros (j & -> & Hj%elem_of_seqZ). exists j. split; [done|lia].
  - intros (j & -> & Hj). exists j. split; [done|]. apply elem_of_seqZ. lia.
Qed.

Lemma blocks_cons base size n :
  0 < n -> blocks base size n = base :: blocks (base + size) size (n - 1).
Proof.
  intros Hn. unfold blocks. rewrite (seqZ_cons 0) by lia. rewrite fmap_cons. f_equal; [lia|].
  change (Z.succ 0) with (1 + 0). rewrite <- (fmap_add_seqZ 1 0), <- list_fmap_compose.
  apply list_fmap_ext. intros i x _. cbn. lia.
Qed.

Record geometry (base size num : Z) : Prop := {
  ge_base : 0 < base;
  ge_size : 0 < size /\ size mod 4 = 0;
  ge_num : 2 <= num <= 256;
  ge_fits : base + size * num < 2 ^ 32
}.

(** Two blocks do not overlap. *)
Lemma blocks_apart base size num b b' a :
  geometry base size num -> b ∈ blocks base size num -> b' ∈ blocks base size num ->
  b <= a < b + size -> b' <= a < b' + size -> b = b'.
Proof.
  intros [_ [Hs _] _ _] (j & -> & _)%elem_of_blocks (j' & -> & _)%elem_of_blocks H1 H2.
  assert (j = j') by nia. by subst.
Qed.

Lemma block_bounds base size num b :
  geometry base size num -> b ∈ blocks base size num -> base <= b /\ b + size <= base + size * num < 2 ^ 32.
Proof. intros [H0 [Hs _] _ Hf] (j & -> & Hj)%elem_of_blocks. nia. Qed.

Record pool_ok (id base size num : Z) (k : kernel) (free : list Z) : Prop := {
  pk_quiet : quiet k;
  pk_used : mm_used id k = true;
  pk_mm : mm k id = mk_mm base (freeBlock (mm k id)) size num;
  pk_chain : chain k (freeBlock (mm k id)) free;
  pk_blocks : forall b, b ∈ free -> b ∈ blocks base size num;
  pk_nodup : NoDup free
}.

Lemma quiet_sch k k' : sch k' = sch k -> ServiceReq k' = ServiceReq k -> quiet k -> quiet k'.
Proof. unfold quiet. by intros -> ->. Qed.

Lemma count_chain k l : forall fuel h n, (length l <= fuel)%nat -> (forall a, a ∈ l -> a <> 0) -> chain k h l ->
  0 <= n -> n + Z.of_nat (length l) < 2 ^ 32 ->
  count_blocks fuel h n k = Some (n + Z.of_nat (length l)).
Proof.
  induction l as [|x l IH]; intros fuel h n Hf Hn Hc H0 Hb.
  - cbn in Hc. subst h. destruct fuel; cbn; f_equal; lia.
  - destruct Hc as [-> Hc]. cbn [length] in Hf. destruct fuel as [|fuel]; [lia|]. cbn [count_blocks].
    rewrite (proj2 (Z.eqb_neq _ _)) by (apply Hn, elem_of_cons; by left).
    cbn [length] in Hb. assert (u32 (n + 1) = n + 1) as -> by (apply Z.mod_small; lia).
    rewrite IH; [f_equal; cbn [length]; lia|lia| |done|lia|lia].
    intros a Ha. apply Hn, elem_of_cons. by right.
Qed.

(** ** The loop of the creation *)

Lemma link_blocks_spec size num : forall m fuel j base (k : kernel),
  0 < size -> num <= 256 -> 0 <= j -> j + Z.of_nat m = num - 1 -> (m <= fuel)%nat ->
  0 < base -> base + size * (Z.of_nat m + 1) < 2 ^ 32 ->
  exists k', link_blocks fuel j base base size num k = Some k' /\
    chain k' base (blocks base size (Z.of_nat m + 1)) /\
    sch k' = sch k /\ ServiceReq k' = ServiceReq k /\ MemoryIDVessel (mem k') = MemoryIDVessel (mem k) /\
    MemoryTbl (mem k') = MemoryTbl (mem k) /\
    forall a, a < base \/ base + size * (Z.of_nat m + 1) <= a -> ld k' a = ld k a.
Proof.
  induction m as [|m IH]; intros fuel j base k Hs Hn Hj Hm Hf H0 Hb.
  - exists (st base 0 k). assert ((j <? num - 1) = false) as E by (apply Z.ltb_ge; lia). split.
    + destruct fuel; cbn [link_blocks]; by rewrite E.
    + split; [|split; [done|]; split; [done|]; split; [done|]; split; [done|]].
      * change (Z.of_nat 0 + 1) with 1. unfold blocks. cbn. split; [lia|].
        rewrite Z.mul_0_r, Z.add_0_r, ld_st. by rewrite decide_True.
      * intros a Ha. rewrite ld_st. rewrite decide_False by lia. done.
  - destruct fuel as [|fuel]; [lia|]. cbn [link_blocks].
    rewrite (proj2 (Z.ltb_lt _ _)) by lia. cbn zeta.
    assert (u32 (base + size) = base + size) as -> by (apply Z.mod_small; lia).
    rewrite ld_st, decide_True by done.
    assert (u8 (j + 1) = j + 1) as -> by (apply Z.mod_small; lia).
    set (k1 := st base (base + size) k).
    destruct (IH fuel (j + 1) (base + size) k1) as (k' & E & Hc & E1 & E2 & E3 & E4 & Hfr); try lia.
    exists k'. split; [exact E|]. split; [|split; [done|]; split; [done|]; split; [done|]; split; [done|]].
    + assert (blocks base size (Z.of_nat (S m) + 1) = base :: blocks (base + size) size (Z.of_nat m + 1)) as ->.
      { rewrite blocks_cons by lia. do 2 f_equal. lia. }
      split; [done|]. rewrite Hfr by lia. unfold k1. rewrite ld_st, decide_True by done. exact Hc.
    + intros a Ha. rewrite Hfr by lia. unfold k1. rewrite ld_st, decide_False by lia. done.
Qed.

(** ** The operations keep the pool *)

Section pool.
Variables (id base size num : Z).
Hypothesis Hgeo : geometry base size num.

Lemma block_not_zero b : b ∈ blocks base size num -> b <> 0.
Proof using Hgeo. intros Hb%(block_bounds _ _ _ _ Hgeo). pose proof (ge_base _ _ _ Hgeo). lia. Qed.

Lemma blocks_length : length (blocks base size num) = Z.to_nat num.
Proof. unfold blocks. by rewrite length_fmap, length_seqZ. Qed.

Lemma free_length free : NoDup free -> (forall b, b ∈ free -> b ∈ blocks base size num) ->
  (length free <= 256)%nat.
Proof using Hgeo.
  intros Hn Hb. transitivity (length (blocks base size num)).
  - apply submseteq_length, NoDup_submseteq; done.
  - rewrite blocks_length. pose proof (ge_num _ _ _ Hgeo). lia.
Qed.

(** One call of a client that keeps to its blocks. *)
Lemma mem_step_spec fuel o k free r free' :
  (256 <= fuel)%nat -> pool_ok id base size num k free -> pool_step base size num o free = Some (r, free') ->
  exists k', mem_step fuel id o k = Some (r, k') /\ pool_ok id base size num k' free'.
Proof using Hgeo.
  intros Hfuel [Hq Hu Hm Hc Hb Hn] E. pose proof (unlock_quiet k Hq) as Hunlock.
  destruct o as [|b| |a v]; cbn [pool_step] in E; cbn [mem_step].
  - destruct free as [|b free]; injection E as <- <-; unfold CoGetMemoryBuffer; rewrite Hu; cbn [negb];
      change (mm (OsSchedLock k) id) with (mm k id).
    + cbn [chain] in Hc. rewrite Hc. exists k. split; [cbn [Z.eqb]; by rewrite Hunlock|done].
    + destruct Hc as [Hh Hc]. rewrite Hh. rewrite (proj2 (Z.eqb_neq _ _))
        by (apply block_not_zero, Hb, elem_of_cons; by left).
      set (k' := upd_mm id (fun m => m <| freeBlock := ld k b |>) k). exists k'.
      assert (quiet k') as Hq' by (by apply (quiet_sch k)). split.
      * change (OsSchedUnlock (OsSchedLock k') ≫= (fun k => Some (b, k)) = Some (b, k')). by rewrite unlock_quiet.
      * apply list.NoDup_cons in Hn as [_ Hn]. split; [done|done| | | |done].
        -- unfold k'. rewrite mm_upd, Hm. done.
        -- unfold k'. rewrite mm_upd. cbn [freeBlock update updater]. by apply (free_chain_ext k).
        -- intros x Hx. apply Hb, elem_of_cons. by right.
  - case_decide as Hd; [|done]. injection E as <- <-. destruct Hd as [Hin Hnf].
    pose proof (block_bounds _ _ _ _ Hgeo Hin) as [Hlo Hhi]. pose proof Hgeo as [G1 [G2 _] G3 G4].
    set (k' := upd_mm id (fun m => m <| freeBlock := b |>) (st b (freeBlock (mm k id)) k)). exists k'.
    assert (quiet k') as Hq' by (by apply (quiet_sch k)). split.
    + unfold CoFreeMemoryBuffer. rewrite Hu. cbn [negb].
      rewrite (proj2 (Z.eqb_neq _ _)) by (by apply block_not_zero).
      assert (memAddr (mm k id) = base /\ blockSize (mm k id) = size /\ blockNum (mm k id) = num) as (-> & -> & ->)
        by (by rewrite Hm).
      rewrite (proj2 (Z.ltb_ge _ _)) by lia.
      assert (0 < size * num < 2 ^ 32) by nia.
      assert (u32 (size * num) = size * num) as -> by (apply Z.mod_small; lia).
      assert (u32 (base + size * num) = base + size * num) as -> by (apply Z.mod_small; lia).
      assert (u32 (b - base) = b - base) as -> by (apply Z.mod_small; lia).
      rewrite (proj2 (Z.ltb_ge _ _)) by lia.
      assert ((b - base) mod size = 0) as ->.
      { apply elem_of_blocks in Hin as (j & -> & _). replace (base + size * j - base) with (j * size) by lia.
        apply Z.mod_mul. lia. }
      change (OsSchedUnlock (OsSchedLock k') ≫= (fun k => Some (E_OK, k)) = Some (E_OK, k')). by rewrite unlock_quiet.
    + split; [done|done| | | |by apply list.NoDup_cons].
      * unfold k'. rewrite mm_upd. change (mm (st b (freeBlock (mm k id)) k) id) with (mm k id). by rewrite Hm.
      * unfold k'. rewrite mm_upd. cbn [freeBlock update updater chain]. split; [done|].
        change (ld (upd_mm _ _ ?x) b) with (ld x b). rewrite ld_st, decide_True by done.
        apply (free_chain_ext k); [|done]. intros a Ha. change (ld (upd_mm _ _ ?x) a) with (ld x a).
        rewrite ld_st. rewrite decide_False; [done|]. by intros ->.
      * intros x [->|Hx]%elem_of_cons; [done|by apply Hb].
  - injection E as <- <-. exists k. split; [|done]. unfold CoGetFreeBlockNum. rewrite Hu. cbn [negb].
    change (mm (OsSchedLock k) id) with (mm k id).
    rewrite (count_chain (OsSchedLock k) free fuel (freeBlock (mm k id)) 0); [|..].
    + cbn [mbind option_bind]. rewrite Hunlock. cbn [mbind option_bind]. by rewrite Z.add_0_l.
    + pose proof (free_length free Hn Hb). lia.
    + intros x Hx. by apply block_not_zero, Hb.
    + by apply (free_chain_ext k).
    + done.
    + pose proof (free_length free Hn Hb). lia.
  - case_decide as Hd; [|done]. injection E as <- <-. exists (st a v k). split; [done|].
    split; [by apply (quiet_sch k)|done|done| |done|done].
    change (mm (st a v k) id) with (mm k id). apply (free_chain_ext k); [|done]. intros x Hx. rewrite ld_st.
    rewrite decide_False; [done|]. intros ->. apply list.Exists_exists in Hd as (y & Hy & Hyf & Hya).
    apply Hyf. assert (y = a) as ->; [|done]. pose proof (Hb a Hx) as Ha. pose proof (proj1 (ge_size _ _ _ Hgeo)).
    apply (blocks_apart base size num y a a Hgeo Hy Ha Hya). lia.
Qed.

Lemma mem_run_spec fuel os k free rs free' :
  (256 <= fuel)%nat -> pool_ok id base size num k free -> pool_run base size num os free = Some (rs, free') ->
  exists k', mem_run fuel id os k = Some (rs, k') /\ pool_ok id base size num k' free'.
Proof using Hgeo.
  intros Hf. revert k free rs. induction os as [|o os IH]; intros k free rs Hk E; cbn [pool_run mem_run] in *.
  - injection E as <- <-. by exists k.
  - destruct (pool_step base size num o free) as [[r free1]|] eqn:E1; [|done]. cbn [mbind option_bind] in E.
    destruct (pool_run base size num os free1) as [[rs1 free2]|] eqn:E2; [|done]. injection E as <- <-.
    destruct (mem_step_spec fuel o k free r free1 Hf Hk E1) as (k1 & -> & Hk1). cbn [mbind option_bind].
    destruct (IH k1 free1 rs1 Hk1 E2) as (k2 & -> & Hk2). by exists k2.
Qed.
End pool.

(** ** Creation *)

Lemma land_lor_bit a v : Z.land a (Z.lor v a) = a.
Proof.
  apply Z.bits_inj'. intros n _. rewrite Z.land_spec, Z.lor_spec. by destruct (Z.testbit a n), (Z.testbit v n).
Qed.

Lemma bind_some {A B} (x : A) (f : A -> option B) : Some x ≫= f = f x.
Proof. done. Qed.

(** The first partition that is not in use. *)
Definition free_mm (k : kernel) : option (nat * Z) :=
  list_find (fun i => Z.land (MemoryIDVessel (mem k)) (Z.shiftl 1 i) = 0) (seqZ 0 CFG_MAX_MM).

Definition claim_mm (i : Z) (k : kernel) : kernel :=
  set_vessel (Z.lor (MemoryIDVessel (mem k)) (Z.shiftl 1 i)) k.

Lemma CoCreateMemPartition_steps (base size num : Z) (k : kernel) :
  geometry base size num -> quiet k ->
  CoCreateMemPartition base size num k =
  match free_mm k with
  | None => Some (E_CREATE_FAIL, k)
  | Some (_, i) =>
      k ← link_blocks 256 0 base base size num (upd_mm i (fun _ => mk_mm base base size num) (claim_mm i k));
      Some (i, k)
  end.
Proof.
  intros [G1 [G2 G2'] G3 G4] Hq. unfold CoCreateMemPartition.
  rewrite !(proj2 (Z.eqb_neq _ _)) by lia.
  assert (Z.land size 3 = 0) as ->.
  { change 3 with (Z.ones 2). rewrite Z.land_ones by lia. exact G2'. }
  cbn [Z.eqb negb]. rewrite (proj2 (Z.leb_gt _ _)) by lia. cbn zeta.
  change (list_find _ _) with (free_mm k). destruct (free_mm k) as [[j i]|].
  - assert (quiet (claim_mm i k)) as Hqv by (by apply (quiet_sch k)).
    change (set_vessel _ (OsSchedLock k)) with (OsSchedLock (claim_mm i k)).
    rewrite (unlock_quiet _ Hqv), bind_some. reflexivity.
  - rewrite (unlock_quiet k Hq), bind_some. reflexivity.
Qed.

Lemma created_pool (base size num i : Z) (k k1 k2 : kernel) :
  geometry base size num -> quiet k -> 0 <= i < CFG_MAX_MM ->
  k1 = upd_mm i (fun _ => mk_mm base base size num) (claim_mm i k) ->
  chain k2 base (blocks base size num) -> sch k2 = sch k1 -> ServiceReq k2 = ServiceReq k1 ->
  MemoryIDVessel (mem k2) = MemoryIDVessel (mem k1) -> MemoryTbl (mem k2) = MemoryTbl (mem k1) ->
  pool_ok i base size num k2 (blocks base size num).
Proof.
  intros [G1 [G2 G2'] G3 G4] Hq Hi -> Hc E1 E2 E3 E4.
  assert (mm k2 i = mk_mm base base size num) as Emm.
  { transitivity (mm (upd_mm i (fun _ => mk_mm base base size num) (claim_mm i k)) i); [|apply mm_upd].
    unfold mm. by rewrite E4. }
  split.
  - by apply (quiet_sch k).
  - unfold mm_used. rewrite E3.
    change (MemoryIDVessel (mem (upd_mm i (fun _ => mk_mm base base size num) (claim_mm i k))))
      with (Z.lor (MemoryIDVessel (mem k)) (Z.shiftl 1 i)).
    rewrite land_lor_bit, (proj2 (Z.ltb_lt _ _)) by lia. rewrite (proj2 (Z.eqb_neq _ _)); [done|].
    rewrite Z.shiftl_1_l. pose proof (Z.pow_pos_nonneg 2 i). lia.
  - by rewrite Emm.
  - rewrite Emm. exact Hc.
  - done.
  - unfold blocks. apply NoDup_fmap_2_strong; [|apply NoDup_seqZ]. intros x y _ _ ?. nia.
Qed.

Lemma CoCreateMemPartition_spec (base size num : Z) (k : kernel) :
  geometry base size num -> quiet k ->
  (CoCreateMemPartition base size num k = Some (E_CREATE_FAIL, k) /\
   forall i, 0 <= i < CFG_MAX_MM -> mm_used i k = true) \/
  exists id k', CoCreateMemPartition base size num k = Some (id, k') /\ 0 <= id < CFG_MAX_MM /\
    mm_used id k = false /\ pool_ok id base size num k' (blocks base size num).
Proof.
  intros Hgeo Hq. rewrite (CoCreateMemPartition_steps base size num k Hgeo Hq).
  pose proof Hgeo as [G1 [G2 G2'] G3 G4]. destruct (free_mm k) as [[j i]|] eqn:Ef.
  - right. apply list_find_Some in Ef as (Hj & Hbit & _).
    assert (0 <= i < CFG_MAX_MM) as Hi.
    { apply list_elem_of_lookup_2, elem_of_seqZ in Hj. lia. }
    set (k1 := upd_mm i (fun _ => mk_mm base base size num) (claim_mm i k)).
    assert (Z.of_nat (Z.to_nat (num - 1)) + 1 = num) as En by lia.
    destruct (link_blocks_spec size num (Z.to_nat (num - 1)) 256 0 base k1) as (k2 & E & Hc & E1 & E2 & E3 & E4 & _);
      rewrite ?En; try lia.
    rewrite En in Hc. exists i, k2. rewrite E, bind_some. split; [reflexivity|]. split; [done|]. split.
    + unfold mm_used. rewrite Z.land_comm, Hbit. cbn [Z.eqb negb]. by rewrite andb_false_r.
    + by apply (created_pool base size num i k k1 k2).
  - left. split; [reflexivity|]. intros i Hi. unfold mm_used.
    rewrite (proj2 (Z.ltb_lt _ _)) by lia. cbn [andb]. apply negb_true_iff, Z.eqb_neq. intros E0.
    assert (i ∈ seqZ 0 CFG_MAX_MM) as Hin by (apply elem_of_seqZ; lia).
    apply list_find_None in Ef. rewrite list.Forall_forall in Ef. apply (Ef i Hin). by rewrite Z.land_comm.
Qed.

(** C17: A memory partition of 2 to 256 blocks is a pool: after its creation,
    which ends, every sequence of calls of a client that gives back and writes
    only blocks it holds behaves as on the list of the free blocks. A block is
    never given out twice, the count is exact, and the client's writes do not
    disturb the free blocks, whose first words hold the list. *)
Theorem partition_is_pool (base size num : Z) (fuel : nat) (k : kernel) :
  geometry base size num -> quiet k -> (256 <= fuel)%nat ->
  exists id k1, CoCreateMemPartition base size num k = Some (id, k1) /\
    (id = E_CREATE_FAIL /\ (forall i, 0 <= i < CFG_MAX_MM -> mm_used i k = true) \/
     0 <= id < CFG_MAX_MM /\ mm_used id k = false /\
     forall os rs free, pool_run base size num os (blocks base size num) = Some (rs, free) ->
       exists k2, mem_run fuel id os k1 = Some (rs, k2) /\
         NoDup free /\ forall b, b ∈ free -> b ∈ blocks base size num).
Proof.
  intros Hgeo Hq Hf. destruct (CoCreateMemPartition_spec base size num k Hgeo Hq)
    as [[E Hall]|(id & k1 & E & Hid & Hu & Hp)].
  - exists E_CREATE_FAIL, k. split; [done|]. by left.
  - exists id, k1. split; [done|]. right. split; [done|]. split; [done|]. intros os rs free Er.
    destruct (mem_run_spec id base size num Hgeo fuel os k1 _ rs free Hf Hp Er) as (k2 & Ek & [_ _ _ _ P5 P6]).
    by exists k2.
Qed.

(** ** What the creation and the release do not check *)

(** With more than 256 blocks the counter wraps around and the loop that links
    the blocks never ends. *)
Lemma link_blocks_diverges size num : 256 < num -> forall fuel j memory memBlk (k : kernel),
  j < 256 -> link_blocks fuel j memory memBlk size num k = None.
Proof.
  intros Hn. induction fuel as [|fuel IH]; intros j memory memBlk k Hj; cbn [link_blocks];
    rewrite (proj2 (Z.ltb_lt _ _)) by lia; [done|].
  apply IH. unfold u8. pose proof (Z.mod_pos_bound (j + 1) (2 ^ 8)). lia.
Qed.

(** The address just behind the last block is accepted as a free block. *)
Lemma end_address_accepted id base size num (k : kernel) free :
  geometry base size num -> pool_ok id base size num k free ->
  exists k', CoFreeMemoryBuffer id (base + size * num) k = Some (E_OK, k') /\
    freeBlock (mm k' id) ∉ blocks base size num.
Proof.
  intros Hgeo [Hq Hu Hm _ _ _]. pose proof Hgeo as [G1 [G2 _] G3 G4].
  set (b := base + size * num).
  set (k' := upd_mm id (fun m => m <| freeBlock := b |>) (st b (freeBlock (mm k id)) k)). exists k'.
  assert (quiet k') as Hq' by (by apply (quiet_sch k)). split.
  - unfold CoFreeMemoryBuffer. rewrite Hu. cbn [negb]. rewrite (proj2 (Z.eqb_neq _ _)) by (unfold b; lia).
    assert (memAddr (mm k id) = base /\ blockSize (mm k id) = size /\ blockNum (mm k id) = num) as (-> & -> & ->)
      by (by rewrite Hm).
    assert (0 < size * num < 2 ^ 32) by nia.
    rewrite (proj2 (Z.ltb_ge _ _)) by (unfold b; lia).
    assert (u32 (size * num) = size * num) as -> by (apply Z.mod_small; lia).
    assert (u32 (base + size * num) = b) as -> by (apply Z.mod_small; lia).
    rewrite (proj2 (Z.ltb_ge _ _)) by lia.
    assert (u32 (b - base) mod size = 0) as ->.
    { assert (u32 (b - base) = b - base) as -> by (apply Z.mod_small; unfold b; lia).
      unfold b. replace (base + size * num - base) with (num * size) by lia. apply Z.mod_mul. lia. }
    change (OsSchedUnlock (OsSchedLock k') ≫= (fun k => Some (E_OK, k)) = Some (E_OK, k')).
    by rewrite unlock_quiet.
  - unfold k'. rewrite mm_upd. cbn [freeBlock update updater]. intros (j & E & Hj)%elem_of_blocks. unfold b in E. nia.
Qed.
End mm.

(** A kernel whose timers do nothing. *)
#[local] Instance mem_port : Port := coos 7 (fun _ k => Some k) 20.

Lemma partition_is_pool_witness :
  exists id k1, CoCreateMemPartition 268435456 12 3 kernel_zero = Some (id, k1) /\
    (id = E_CREATE_FAIL /\ (forall i, 0 <= i < CFG_MAX_MM -> mm_used i kernel_zero = true) \/
     0 <= id < CFG_MAX_MM /\ mm_used id kernel_zero = false /\
     forall os rs free, pool_run 268435456 12 3 os (blocks 268435456 12 3) = Some (rs, free) ->
       exists k2, mem_run 256 id os k1 = Some (rs, k2) /\
         NoDup free /\ forall b, b ∈ free -> b ∈ blocks 268435456 12 3).
Proof.
  apply (partition_is_pool 268435456 12 3 256 kernel_zero).
  - split; [lia|by split|lia|lia].
  - split; [done|]. split; [done|]. by left.
  - lia.
Defined.


(** ** Time conversion (utility.c) *)

(** Hours, minutes, seconds and milliseconds, in their C types. *)
Definition CoTickToTime (ticks : Z) : Z * Z * Z * Z :=
  let totalTime := u32 (ticks * (1000 / CFG_SYSTICK_FREQ)) in
  let millsec := u16 (totalTime mod 1000) in
  let totalTime := totalTime / 1000 in
  let sec := u8 (totalTime mod 60) in
  let totalTime := totalTime / 60 in
  let minute := u8 (totalTime mod 60) in
  let totalTime := totalTime / 60 in
  (u8 totalTime, minute, sec, millsec).

(** The status and [*ticks], which an error leaves as it was. *)
Definition CoTimeToTick (hour minute sec millsec ticks : Z) : Z * Z :=
  if (59 <? minute) || (59 <? sec) || (999 <? millsec) then (E_INVALID_PARAMETER, ticks)
  else (E_OK, u32 ((hour * 3600 + minute * 60 + sec) * CFG_SYSTICK_FREQ
                   + Z.quot (millsec * CFG_SYSTICK_FREQ + 500) 1000)).


