(* ===== verification/CoHeap.v ===== *)
(** * The kernel heap (CoOS/kernel/kernelHeap.c)

    A first-fit allocator over an array of words. A used block begins with two
    words, a free block with three; each block knows its neighbours, whose
    addresses carry a set lowest bit if they are used, and the free blocks form
    a list in the order of their addresses. [blk] is the abstract view: the
    heap is the list of its blocks. *)

From stdpp Require Import gmap.
From S2P Require Import Prelude Dll CoTypes CoSched CoInv CoPreempt CoCore CoTask.
From S2P Require Import CoSync CoFlags CoTimer CoService CoRun CoTick CoCalls CoLife.

Definition set_FMBlist (a : Z) (k : kernel) : kernel := k <| mem := (mem k) <| FMBlist := a |> |>.
Definition kFMB (k : kernel) : Z := FMBlist (mem k).

(** ** Fields of a block header (OsKernelHeap.h) *)

Definition nextMB (k : kernel) (b : Z) : Z := ld k b.
Definition preMB (k : kernel) (b : Z) : Z := ld k (u32 (b + 4)).
Definition nextFMB (k : kernel) (b : Z) : Z := ld k b.
Definition nextUMB (k : kernel) (b : Z) : Z := ld k (u32 (b + 4)).
Definition preUMB (k : kernel) (b : Z) : Z := ld k (u32 (b + 8)).

Definition set_nextMB (b v : Z) (k : kernel) : kernel := st b v k.
Definition set_preMB (b v : Z) (k : kernel) : kernel := st (u32 (b + 4)) v k.
Definition set_nextFMB (b v : Z) (k : kernel) : kernel := st b v k.
Definition set_nextUMB (b v : Z) (k : kernel) : kernel := st (u32 (b + 4)) v k.
Definition set_preUMB (b v : Z) (k : kernel) : kernel := st (u32 (b + 8)) v k.

(** A pointer with its lowest bit set, and without. *)
Definition marked (p : Z) : Z := Z.lor p 1.
Definition unmarked (p : Z) : Z := u32 (p - 1).
Definition is_used (p : Z) : bool := negb (Z.land p 1 =? 0).

Section heap.
Context `{Port}.

(** ** CoKmalloc *)

(** The first free block that is large enough, the free block before it, and
    its size; [None] is a list longer than the fuel. *)
Fixpoint find_fit (fuel : nat) (size freeMB preFMB : Z) (k : kernel) : option (option (Z * Z * Z)) :=
  if freeMB =? 0 then Some None
  else match fuel with
  | O => None
  | S fuel =>
      let freeSize := if nextUMB k freeMB =? 0 then u32 (heapEnd (mem k) - freeMB)
                      else u32 (unmarked (nextUMB k freeMB) - freeMB) in
      if size <=? freeSize then Some (Some (freeMB, preFMB, freeSize))
      else find_fit fuel size (nextFMB k freeMB) freeMB k
  end.

(** The whole free block becomes the used one. *)
Definition take_whole (freeMB preFMB : Z) (k : kernel) : kernel :=
  let k := if preFMB =? 0 then set_FMBlist (nextFMB k freeMB) k
           else set_nextFMB preFMB (nextFMB k freeMB) k in
  let k := if nextUMB k freeMB =? 0 then k
           else set_preMB (unmarked (nextUMB k freeMB)) (marked freeMB) k in
  let k := set_nextMB freeMB (nextUMB k freeMB) k in
  set_preMB freeMB (preUMB k freeMB) k.

(** The free block is divided, the used one comes first. *)
Definition take_part (size freeMB preFMB : Z) (k : kernel) : kernel :=
  let newFMB := u32 (freeMB + size) in
  let k := if preFMB =? 0 then set_FMBlist newFMB k else set_nextFMB preFMB newFMB k in
  let k := set_preUMB newFMB (marked freeMB) k in
  let k := set_nextUMB newFMB (nextUMB k freeMB) k in
  let k := set_nextFMB newFMB (nextFMB k freeMB) k in
  let k := if nextUMB k freeMB =? 0 then k
           else set_preMB (unmarked (nextUMB k freeMB)) newFMB k in
  let k := set_nextMB freeMB newFMB k in
  set_preMB freeMB (preUMB k freeMB) k.

(** Rounded up to words, with the header. *)
Definition block_size (size : Z) : Z := u32 (Z.shiftl (Z.shiftr (u32 (size + 3)) 2) 2 + 8).

Definition CoKmalloc (fuel : nat) (size : Z) (k : kernel) : option (Z * kernel) :=
  if size =? 0 then Some (0, k)
  else
    let size := block_size size in
    let k := OsSchedLock k in
    r ← find_fit fuel size (kFMB k) 0 k;
    match r with
    | None => k ← OsSchedUnlock k; Some (0, k)
    | Some (freeMB, preFMB, freeSize) =>
        let k := if u32 (freeSize - size) <? 12 then take_whole freeMB preFMB k
                 else take_part size freeMB preFMB k in
        let k := if preUMB k freeMB =? 0 then k
                 else set_nextMB (unmarked (preUMB k freeMB)) (marked freeMB) k in
        k ← OsSchedUnlock k;
        Some (u32 (freeMB + 8), k)
    end.

(** ** CoKfree *)

(** The walks that look for the block in the list of the used ones. *)
Fixpoint find_back (fuel : nat) (pre usedMB : Z) (k : kernel) : option bool :=
  if pre =? usedMB then Some true
  else if pre =? 0 then Some false
  else match fuel with
       | O => None
       | S fuel => find_back fuel (unmarked (preMB k pre)) usedMB k
       end.

Fixpoint find_forward (fuel : nat) (next usedMB : Z) (k : kernel) : option bool :=
  if next =? usedMB then Some true
  else if next =? 0 then Some false
  else match fuel with
       | O => None
       | S fuel =>
           find_forward fuel
             (if is_used (nextMB k next) then unmarked (nextMB k next)
              else unmarked (nextUMB k (nextMB k next))) usedMB k
       end.

Definition find_used (fuel : nat) (usedMB : Z) (k : kernel) : option bool :=
  if usedMB <? kFMB k then find_back fuel (unmarked (preUMB k (kFMB k))) usedMB k
  else if kFMB k =? 0 then find_forward fuel (heapStart (mem k)) usedMB k
  else if nextUMB k (kFMB k) =? 0 then find_forward fuel 0 usedMB k
  else find_forward fuel (unmarked (nextUMB k (kFMB k))) usedMB k.

(** The free block before a used one. *)
Fixpoint GetPreFMB (fuel : nat) (usedMB : Z) (k : kernel) : option Z :=
  if is_used (preMB k usedMB) then
    match fuel with
    | O => None
    | S fuel => GetPreFMB fuel (unmarked (preMB k usedMB)) k
    end
  else Some (preMB k usedMB).

(** Between free blocks or the ends of the heap: the new free block. *)
Definition free_between (usedMB : Z) (k : kernel) : Z * kernel :=
  if (nextMB k usedMB =? 0) && (preMB k usedMB =? 0) then
    let k := set_nextFMB usedMB 0 k in
    let k := set_nextUMB usedMB 0 k in
    let k := set_preUMB usedMB 0 k in
    (usedMB, set_FMBlist usedMB k)
  else if preMB k usedMB =? 0 then
    let next := nextMB k usedMB in
    let k := set_nextFMB usedMB (nextFMB k next) k in
    let k := set_nextUMB usedMB (nextUMB k next) k in
    let k := set_preUMB usedMB 0 k in
    (usedMB, set_FMBlist usedMB k)
  else if nextMB k usedMB =? 0 then
    let cur := preMB k usedMB in
    let k := set_nextFMB cur 0 k in
    (cur, set_nextUMB cur 0 k)
  else
    let next := nextMB k usedMB in
    let cur := preMB k usedMB in
    let k := set_nextFMB cur (nextFMB k next) k in
    (cur, set_nextUMB cur (nextUMB k next) k).

(** After a free block or the start of the heap, before a used block. *)
Definition free_after_free (usedMB : Z) (k : kernel) : Z * kernel :=
  if preMB k usedMB =? 0 then
    let next := nextMB k usedMB in
    let k := set_nextUMB usedMB next k in
    let k := set_preUMB usedMB 0 k in
    let k := set_nextFMB usedMB (kFMB k) k in
    (usedMB, set_FMBlist usedMB k)
  else
    let cur := preMB k usedMB in
    let next := nextMB k usedMB in
    (cur, set_nextUMB cur next k).

(** The new free block enters the list of the free ones. *)
Definition insert_FMB (preF cur : Z) (k : kernel) : Z * kernel :=
  if preF =? 0 then (kFMB k, set_FMBlist cur k)
  else (nextFMB k preF, set_nextFMB preF cur k).

(** After a used block, before a free block or the end of the heap. *)
Definition free_before_free (preF usedMB : Z) (k : kernel) : Z * kernel :=
  let pre := preMB k usedMB in
  let '(next, k) := insert_FMB preF usedMB k in
  if next =? 0 then
    let k := set_preUMB usedMB pre k in
    let k := set_nextUMB usedMB 0 k in
    (usedMB, set_nextFMB usedMB 0 k)
  else
    let k := set_preUMB usedMB pre k in
    let k := set_nextUMB usedMB (nextUMB k next) k in
    (usedMB, set_nextFMB usedMB (nextFMB k next) k).

(** Between two used blocks. *)
Definition free_among_used (preF usedMB : Z) (k : kernel) : Z * kernel :=
  let pre := preMB k usedMB in
  let nextU := nextMB k usedMB in
  let '(next, k) := insert_FMB preF usedMB k in
  let k := set_preUMB usedMB pre k in
  let k := set_nextUMB usedMB nextU k in
  (usedMB, set_nextFMB usedMB next k).

(** The cases of the neighbours. *)
Definition make_free (fuel : nat) (usedMB : Z) (k : kernel) : option (Z * kernel) :=
  if negb (is_used (nextMB k usedMB)) && negb (is_used (preMB k usedMB))
  then Some (free_between usedMB k)
  else if negb (is_used (preMB k usedMB)) then Some (free_after_free usedMB k)
  else
    preF ← GetPreFMB fuel usedMB k;
    if negb (is_used (nextMB k usedMB)) then Some (free_before_free preF usedMB k)
    else Some (free_among_used preF usedMB k).

(** The used neighbours learn of the free block. *)
Definition link_neighbours (cur : Z) (k : kernel) : kernel :=
  let k := if preUMB k cur =? 0 then k else set_nextMB (unmarked (preUMB k cur)) cur k in
  if nextUMB k cur =? 0 then k else set_preMB (unmarked (nextUMB k cur)) cur k.

Definition CoKfree (fuel : nat) (memBuf : Z) (k : kernel) : option kernel :=
  if memBuf =? 0 then Some k
  else
    let usedMB := u32 (memBuf - 8) in
    if memBuf <? heapStart (mem k) then Some k
    else if heapEnd (mem k) <? memBuf then Some k
    else
      let k := OsSchedLock k in
      found ← find_used fuel usedMB k;
      if negb found then OsSchedUnlock k
      else
        '(cur, k) ← make_free fuel usedMB k;
        OsSchedUnlock (link_neighbours cur k).
End heap.

(** ** The list of the blocks *)

(** A block: whether it is used, and its size with the header. *)
Abbreviation blk := (bool * Z)%type.

Fixpoint size_of (l : list blk) : Z :=
  match l with [] => 0 | (_, s) :: l => s + size_of l end.

(** The pointer to a neighbour. *)
Definition tag (a : Z) (u : bool) : Z := if u then a + 1 else a.
Definition headtag (a : Z) (l : list blk) (nx : Z) : Z := match l with [] => nx | (u, _) :: _ => tag a u end.
Fixpoint lasttag (p a : Z) (l : list blk) : Z :=
  match l with [] => p | (u, s) :: l => lasttag (tag a u) (a + s) l end.

Fixpoint nextfree (a : Z) (l : list blk) (nf : Z) : Z :=
  match l with [] => nf | (u, s) :: l => if u then nextfree (a + s) l nf else a end.
Fixpoint lastfree (a : Z) (l : list blk) (pf : Z) : Z :=
  match l with [] => pf | (u, s) :: l => lastfree (a + s) l (if u then pf else a) end.

(** The words of the headers of the blocks [l] at the address [a]: [p] is the
    pointer to what is before, [nx] to what follows, [nf] to the next free. *)
Fixpoint seg (M : Z -> Z) (p a : Z) (l : list blk) (nx nf : Z) : Prop :=
  match l with
  | [] => True
  | (u, s) :: l =>
      (if u then M a = headtag (a + s) l nx /\ M (a + 4) = p
       else M a = nextfree (a + s) l nf /\ M (a + 4) = headtag (a + s) l nx /\ M (a + 8) = p) /\
      seg M (tag a u) (a + s) l nx nf
  end.

(** Two free blocks are never neighbours. *)
Fixpoint apart (u : bool) (l : list blk) : Prop :=
  match l with [] => True | (v, _) :: l => (u || v) = true /\ apart v l end.
Fixpoint lastflag (u : bool) (l : list blk) : bool :=
  match l with [] => u | (v, _) :: l => lastflag v l end.

Definition sizes_ok (l : list blk) : Prop := Forall (fun b : blk => 12 <= b.2 /\ b.2 mod 4 = 0) l.

Lemma size_app l1 l2 : size_of (l1 ++ l2) = size_of l1 + size_of l2.
Proof. induction l1 as [|[u s] l1 IH]; [done|]. cbn [app size_of]. rewrite IH. lia. Qed.

Lemma headtag_app a l1 l2 nx :
  headtag a (l1 ++ l2) nx = headtag a l1 (headtag (a + size_of l1) l2 nx).
Proof. destruct l1 as [|[u s] l1]; cbn; [by rewrite Z.add_0_r|done]. Qed.

Lemma lasttag_app p a l1 l2 :
  lasttag p a (l1 ++ l2) = lasttag (lasttag p a l1) (a + size_of l1) l2.
Proof.
  revert p a. induction l1 as [|[u s] l1 IH]; intros p a; cbn; [by rewrite Z.add_0_r|].
  rewrite IH. by rewrite Z.add_assoc.
Qed.

Lemma nextfree_app a l1 l2 nf :
  nextfree a (l1 ++ l2) nf = nextfree a l1 (nextfree (a + size_of l1) l2 nf).
Proof.
  revert a. induction l1 as [|[[] s] l1 IH]; intros a; cbn; [by rewrite Z.add_0_r| |done].
  rewrite IH. by rewrite Z.add_assoc.
Qed.

Lemma lastfree_app a l1 l2 pf :
  lastfree a (l1 ++ l2) pf = lastfree (a + size_of l1) l2 (lastfree a l1 pf).
Proof.
  revert a pf. induction l1 as [|[u s] l1 IH]; intros a pf; cbn; [by rewrite Z.add_0_r|].
  rewrite IH. by rewrite Z.add_assoc.
Qed.

Lemma lastflag_app u l1 l2 : lastflag u (l1 ++ l2) = lastflag (lastflag u l1) l2.
Proof. revert u. induction l1 as [|[v s] l1 IH]; intros u; [done|]. apply IH. Qed.

Lemma apart_app u l1 l2 : apart u (l1 ++ l2) <-> apart u l1 /\ apart (lastflag u l1) l2.
Proof. revert u. induction l1 as [|[v s] l1 IH]; intros u; cbn; [tauto|]. rewrite IH. tauto. Qed.

Lemma apart_weaken u l : apart false l -> apart u l.
Proof. destruct l as [|[v s] l]; [done|]. cbn. intros [-> ?]. by destruct u. Qed.

Lemma seg_app M p a l1 l2 nx nf :
  seg M p a (l1 ++ l2) nx nf <->
  seg M p a l1 (headtag (a + size_of l1) l2 nx) (nextfree (a + size_of l1) l2 nf) /\
  seg M (lasttag p a l1) (a + size_of l1) l2 nx nf.
Proof.
  revert p a. induction l1 as [|[u s] l1 IH]; intros p a; cbn [app seg lasttag size_of].
  - rewrite Z.add_0_r. tauto.
  - rewrite IH, headtag_app, nextfree_app, !Z.add_assoc. tauto.
Qed.

Lemma sizes_pos l : sizes_ok l -> 0 <= size_of l.
Proof. induction 1 as [|[u s] l [Hs _] _ IH]; cbn in *; lia. Qed.

Lemma sizes_mod a l : sizes_ok l -> a mod 4 = 0 -> (a + size_of l) mod 4 = 0.
Proof.
  intros Hl. revert a. induction Hl as [|[u s] l [_ Hs] _ IH]; intros a Ha; cbn [size_of snd] in *.
  - by rewrite Z.add_0_r.
  - rewrite Z.add_assoc. apply IH. rewrite Z.add_mod, Ha, Hs by lia. done.
Qed.

Lemma seg_frame M M' p a l nx nf :
  sizes_ok l -> (forall x, a <= x < a + size_of l -> M' x = M x) -> seg M p a l nx nf -> seg M' p a l nx nf.
Proof.
  intros Hl. revert p a. induction Hl as [|[u s] l [Hs _] Hl IH]; intros p a He Hg; [done|].
  cbn [seg size_of snd] in *. pose proof (sizes_pos l Hl). destruct Hg as [Hb Hg]. split.
  - destruct u; rewrite !He by lia; exact Hb.
  - apply IH; [|done]. intros x Hx. apply He. lia.
Qed.

Definition all_used (l : list blk) : Prop := Forall (fun b : blk => b.1 = true) l.

Lemma used_nf M p a l nx nf nf' : all_used l -> seg M p a l nx nf -> seg M p a l nx nf'.
Proof.
  intros Hl. revert p a. induction Hl as [|[u s] l Hu _ IH]; intros p a Hg; [done|].
  cbn [fst] in Hu. subst u. cbn [seg] in *. split; [apply Hg|]. apply IH, Hg.
Qed.

Lemma used_nextfree a l nf : all_used l -> nextfree a l nf = nf.
Proof. intros Hl. revert a. induction Hl as [|[u s] l Hu _ IH]; intros a; [done|]. cbn in *. subst. apply IH. Qed.

Lemma used_lastfree a l pf : all_used l -> lastfree a l pf = pf.
Proof. intros Hl. revert a. induction Hl as [|[u s] l Hu _ IH]; intros a; [done|]. cbn in *. subst. apply IH. Qed.

(** The last free block of a list, and the first. *)
Lemma split_last_free l : all_used l \/ exists l1 s l2, l = l1 ++ (false, s) :: l2 /\ all_used l2.
Proof.
  induction l as [|[u s] l IH] using rev_ind; [by left; constructor|].
  destruct u.
  - destruct IH as [IH|(l1 & r & l2 & -> & IH)].
    + left. apply Forall_app. split; [done|]. by repeat constructor.
    + right. exists l1, r, (l2 ++ [(true, s)]). split; [by rewrite <- app_assoc|].
      apply Forall_app. split; [done|]. by repeat constructor.
  - right. exists l, s, []. split; [done|constructor].
Qed.

Lemma split_first_free l : all_used l \/ exists l1 s l2, l = l1 ++ (false, s) :: l2 /\ all_used l1.
Proof.
  induction l as [|[u s] l IH]; [by left; constructor|]. destruct u.
  - destruct IH as [IH|(l1 & r & l2 & -> & IH)].
    + left. by constructor.
    + right. exists ((true, s) :: l1), r, l2. split; [done|by constructor].
  - right. exists [], s, l. split; [done|constructor].
Qed.

Lemma split_last (l : list blk) : l = [] \/ exists l' u s, l = l' ++ [(u, s)].
Proof. destruct l as [|[u s] l _] using rev_ind; [by left|right]. by exists l, u, s. Qed.

Lemma marked_tag a : a mod 4 = 0 -> marked a = tag a true.
Proof.
  intros Ha. unfold marked, tag. assert (Z.land a 1 = 0) as E.
  { change 1 with (Z.ones 1). rewrite Z.land_ones by lia. change (2 ^ 1) with 2.
    rewrite (Z.div_mod a 4), Ha, Z.add_0_r by lia. replace (4 * (a / 4)) with (2 * (a / 4) * 2) by lia.
    apply Z.mod_mul. lia. }
  pose proof (Z.add_lor_land a 1). lia.
Qed.

Lemma is_used_tag a u : a mod 4 = 0 -> is_used (tag a u) = u.
Proof.
  intros Ha. unfold is_used, tag. change 1 with (Z.ones 1) at 2. rewrite Z.land_ones by lia. change (2 ^ 1) with 2.
  assert ((a + (if u then 1 else 0)) mod 2 = if u then 1 else 0) as E.
  { rewrite (Z.div_mod a 4), Ha, Z.add_0_r by lia.
    replace (4 * (a / 4)) with (2 * (a / 4) * 2) by lia. rewrite Z.add_comm, Z.mod_add by lia. by destruct u. }
  destruct u; [by rewrite E|]. rewrite Z.add_0_r in E. by rewrite E.
Qed.

Lemma unmarked_tag a : 0 <= a < 2 ^ 32 -> unmarked (tag a true) = a.
Proof. intros Ha. unfold unmarked, tag, u32. rewrite Z.mod_small; lia. Qed.

(** ** The heap around a block *)

(** Only the memory changes, and not the bounds of the heap. *)
Definition mem_only (k k' : kernel) : Prop :=
  exists m, k' = k <| mem := m |> /\ heapStart m = heapStart (mem k) /\ heapEnd m = heapEnd (mem k).

Lemma mem_only_refl k : mem_only k k.
Proof. exists (mem k). split; [by destruct k|done]. Qed.

Lemma mem_only_trans k1 k2 k3 : mem_only k1 k2 -> mem_only k2 k3 -> mem_only k1 k3.
Proof. intros (m & -> & E1 & E2) (m' & -> & E3 & E4). exists m'. split; [done|]. by rewrite E3, E4. Qed.

#[export] Instance mem_only_preorder : PreOrder mem_only.
Proof. split; [exact mem_only_refl|exact mem_only_trans]. Qed.

Lemma mem_only_st x v k : mem_only k (st x v k).
Proof. by eexists. Qed.

Lemma mem_only_fmb v k : mem_only k (set_FMBlist v k).
Proof. by eexists. Qed.

(** The blocks [l1] and [l2] around the [s] bytes at [f], which are about to
    change: [nx] and [nf] are what [l1] says of what follows, [p2] what [l2]
    says of what is before. *)
Record zone (k : kernel) (a : Z) (l1 : list blk) (nx nf f s : Z) (l2 : list blk) (p2 : Z) : Prop := {
  zo_f : f = a + size_of l1;
  zo_start : 0 < a /\ a mod 4 = 0;
  zo_sizes : sizes_ok l1 /\ sizes_ok l2 /\ 12 <= s /\ s mod 4 = 0;
  zo_fits : f + s + size_of l2 < 2 ^ 32;
  zo_bounds : heapStart (mem k) = a /\ heapEnd (mem k) = f + s + size_of l2;
  zo_list : kFMB k = nextfree a l1 nf;
  zo_seg1 : seg (ld k) 0 a l1 nx nf;
  zo_seg2 : seg (ld k) p2 (f + s) l2 0 0
}.

Record near (f s : Z) (k k' : kernel) : Prop := {
  nr_only : mem_only k k';
  nr_ld : forall x, f <= x < f + s -> ld k' x = ld k x
}.

Lemma ld_fmb v k x : ld (set_FMBlist v k) x = ld k x.
Proof. done. Qed.

Section zone.
Variables (k : kernel) (a : Z) (l1 : list blk) (nx nf f s : Z) (l2 : list blk) (p2 : Z).
Hypothesis Hz : zone k a l1 nx nf f s l2 p2.

Lemma zone_arith : 0 < a /\ a mod 4 = 0 /\ f = a + size_of l1 /\ f mod 4 = 0 /\ (f + s) mod 4 = 0 /\
  0 <= size_of l1 /\ 0 <= size_of l2 /\ 12 <= s /\ f + s + size_of l2 < 2 ^ 32.
Proof using Hz.
  destruct Hz as [-> [H1 H2] (H3 & H4 & H5 & H6) H7 _ _ _ _].
  pose proof (sizes_pos l1 H3). pose proof (sizes_pos l2 H4).
  pose proof (sizes_mod a l1 H3 H2) as Hf. repeat split; try done.
  rewrite Z.add_mod, Hf, H6 by lia. done.
Qed.

Lemma zone_inner x v : f <= x < f + s -> zone (st x v k) a l1 nx nf f s l2 p2.
Proof using Hz.
  intros Hx. pose proof zone_arith. destruct Hz as [Z1 Z2 Z3 Z4 Z5 Z6 Z7 Z8]. split; try done.
  - apply (seg_frame (ld k)); [apply Z3| |done]. intros y Hy. rewrite ld_st. by rewrite decide_False by lia.
  - apply (seg_frame (ld k)); [apply Z3| |done]. intros y Hy. rewrite ld_st. by rewrite decide_False by lia.
Qed.

(** The last free block before the zone, or the head of the list, points to
    [v]. *)
Lemma zone_relink v :
  let k' := if lastfree a l1 0 =? 0 then set_FMBlist v k else set_nextFMB (lastfree a l1 0) v k in
  zone k' a l1 nx v f s l2 p2 /\ near f s k k'.
Proof using Hz.
  pose proof zone_arith as (A1 & A2 & A3 & A4 & A5 & A6 & A7 & A8 & A9).
  pose proof Hz as [Z1 Z2 Z3 Z4 Z5 Z6 Z7 Z8]. cbn zeta. destruct (split_last_free l1) as [Hu|(m1 & r & m2 & El & Hu)].
  - rewrite (used_lastfree a l1 0 Hu). cbn [Z.eqb]. split.
    + split; try done; [by rewrite used_nextfree|by apply (used_nf _ _ _ _ _ nf)].
    + split; [apply mem_only_fmb|done].
  - destruct Z3 as [S1 [S2 S3]]. rewrite El in S1. apply Forall_app in S1 as [S1 S4].
    apply list.Forall_cons in S4 as [S4 S5]. cbn [snd] in S4.
    pose proof (sizes_pos m1 S1). pose proof (sizes_pos m2 S5).
    assert (size_of l1 = size_of m1 + (r + size_of m2)) as Es by (rewrite El, size_app; done).
    assert (lastfree a l1 0 = a + size_of m1) as ->.
    { rewrite El, lastfree_app. cbn [lastfree]. by rewrite used_lastfree. }
    rewrite (proj2 (Z.eqb_neq _ _)) by lia. unfold set_nextFMB. set (x := a + size_of m1).
    split; [|split; [apply mem_only_st|intros y Hy; rewrite ld_st; by rewrite decide_False by lia]].
    split; try done.
    + split; [|done]. rewrite El. apply Forall_app. split; [done|]. by constructor.
    + change (kFMB (st x v k)) with (kFMB k). rewrite Z6, El, !nextfree_app. done.
    + rewrite El in Z7 |- *. apply seg_app in Z7 as [G1 G2]. apply seg_app. fold x in G1, G2 |- *. split.
      * apply (seg_frame (ld k)); [done| |exact G1]. intros y Hy. rewrite ld_st. by rewrite decide_False by lia.
      * cbn [seg] in G2 |- *. destruct G2 as [(_ & W2 & W3) G2]. split.
        -- rewrite !ld_st, decide_True by done. rewrite !decide_False by lia.
           split; [by rewrite used_nextfree|done].
        -- apply (seg_frame (ld k)); [done| |by apply (used_nf _ _ _ _ _ nf)].
           intros y Hy. rewrite ld_st. by rewrite decide_False by lia.
    + apply (seg_frame (ld k)); [done| |done]. intros y Hy. rewrite ld_st. by rewrite decide_False by lia.
Qed.

(** The used block before the zone points to [v]. *)
Lemma zone_next v : lastflag true l1 = true ->
  let k' := if lasttag 0 a l1 =? 0 then k else set_nextMB (unmarked (lasttag 0 a l1)) v k in
  zone k' a l1 v nf f s l2 p2 /\ near f s k k'.
Proof using Hz.
  intros Hl. pose proof zone_arith as (A1 & A2 & A3 & A4 & A5 & A6 & A7 & A8 & A9).
  pose proof Hz as [Z1 Z2 Z3 Z4 Z5 Z6 Z7 Z8]. cbn zeta. destruct (split_last l1) as [->|(m & u & r & El)].
  - cbn [lasttag Z.eqb]. split; [by split|]. split; [apply mem_only_refl|done].
  - destruct Z3 as [S1 [S2 S3]]. rewrite El in S1, Hl. rewrite lastflag_app in Hl. cbn in Hl. subst u.
    apply Forall_app in S1 as [S1 S4]. apply list.Forall_cons in S4 as [S4 S5]. cbn [snd] in S4.
    pose proof (sizes_pos m S1).
    assert (size_of l1 = size_of m + r) as Es by (rewrite El, size_app; cbn; lia).
    set (x := a + size_of m).
    assert (lasttag 0 a l1 = tag x true) as -> by (rewrite El, lasttag_app; done).
    rewrite unmarked_tag by lia. rewrite (proj2 (Z.eqb_neq _ _)) by (unfold tag; lia). unfold set_nextMB.
    split; [|split; [apply mem_only_st|intros y Hy; rewrite ld_st; by rewrite decide_False by lia]].
    split; try done.
    + split; [|done]. rewrite El. apply Forall_app. split; [done|]. by constructor.
    + rewrite El in Z7 |- *. apply seg_app in Z7 as [G1 G2]. apply seg_app. fold x in G1, G2 |- *. split.
      * apply (seg_frame (ld k)); [done| |exact G1]. intros y Hy. rewrite ld_st. by rewrite decide_False by lia.
      * cbn [seg] in G2 |- *. destruct G2 as [(_ & W2) _]. split; [|done].
        rewrite !ld_st, decide_True by done. rewrite decide_False by lia. done.
    + apply (seg_frame (ld k)); [done| |done]. intros y Hy. rewrite ld_st. by rewrite decide_False by lia.
Qed.

(** The used block behind the zone points back to [v]. *)
Lemma zone_prev v : apart false l2 ->
  let k' := if headtag (f + s) l2 0 =? 0 then k else set_preMB (unmarked (headtag (f + s) l2 0)) v k in
  zone k' a l1 nx nf f s l2 v /\ near f s k k'.
Proof using Hz.
  intros Hap. pose proof zone_arith as (A1 & A2 & A3 & A4 & A5 & A6 & A7 & A8 & A9).
  pose proof Hz as [Z1 Z2 Z3 Z4 Z5 Z6 Z7 Z8]. cbn zeta. destruct l2 as [|[u r] m].
  - cbn [headtag Z.eqb]. split; [by split|]. split; [apply mem_only_refl|done].
  - cbn [apart orb] in Hap. destruct Hap as [-> _]. cbn [headtag].
    destruct Z3 as [S1 [S2 S3]]. pose proof S2 as S2'. apply list.Forall_cons in S2 as [S4 S5]. cbn [snd size_of] in *.
    pose proof (sizes_pos m S5).
    rewrite unmarked_tag by lia. rewrite (proj2 (Z.eqb_neq _ _)) by (unfold tag; lia). unfold set_preMB.
    assert (u32 (f + s + 4) = f + s + 4) as -> by (apply Z.mod_small; lia).
    split; [|split; [apply mem_only_st|intros y Hy; rewrite ld_st; by rewrite decide_False by lia]].
    split; try done.
    + apply (seg_frame (ld k)); [done| |done]. intros y Hy. rewrite ld_st. by rewrite decide_False by lia.
    + cbn [seg] in Z8 |- *. destruct Z8 as [(W1 & _) G]. split.
      * rewrite !ld_st, decide_False by lia. rewrite decide_True by done. done.
      * apply (seg_frame (ld k)); [done| |done]. intros y Hy. rewrite ld_st. by rewrite decide_False by lia.
Qed.
End zone.

(** ** The whole heap *)

Record heap_ok (k : kernel) (a : Z) (l : list blk) : Prop := {
  hp_start : 0 < a /\ a mod 4 = 0;
  hp_sizes : sizes_ok l;
  hp_apart : apart true l;
  hp_fits : a + size_of l < 2 ^ 32;
  hp_bounds : heapStart (mem k) = a /\ heapEnd (mem k) = a + size_of l;
  hp_list : kFMB k = nextfree a l 0;
  hp_seg : seg (ld k) 0 a l 0 0
}.

Lemma heap_open k a l1 mid l2 :
  heap_ok k a (l1 ++ mid ++ l2) -> 12 <= size_of mid ->
  let f := a + size_of l1 in let s := size_of mid in
  zone k a l1 (headtag f mid (headtag (f + s) l2 0)) (nextfree f mid (nextfree (f + s) l2 0)) f s l2
    (lasttag (lasttag 0 a l1) f mid) /\
  seg (ld k) (lasttag 0 a l1) f mid (headtag (f + s) l2 0) (nextfree (f + s) l2 0).
Proof.
  intros [H1 H2 H3 H4 H5 H6 H7] Hs f s. rewrite !size_app in *.
  apply Forall_app in H2 as [S1 S2]. apply Forall_app in S2 as [S2 S3].
  apply seg_app in H7 as [G1 G2]. fold f in G1, G2. apply seg_app in G2 as [G2 G3]. fold s in G2, G3.
  rewrite headtag_app, nextfree_app in G1. fold s in G1. rewrite !nextfree_app in H6. fold f s in H6.
  split; [|done]. split; try done; try (unfold f, s in *; lia).
  split; [done|]. split; [done|]. split; [done|]. pose proof (sizes_mod 0 mid S2 eq_refl) as E. by rewrite Z.add_0_l in E.
Qed.

Lemma heap_close k a l1 mid l2 nx nf f s p2 :
  zone k a l1 nx nf f s l2 p2 -> s = size_of mid -> sizes_ok mid -> apart true (l1 ++ mid ++ l2) ->
  nx = headtag f mid (headtag (f + s) l2 0) -> nf = nextfree f mid (nextfree (f + s) l2 0) ->
  p2 = lasttag (lasttag 0 a l1) f mid ->
  seg (ld k) (lasttag 0 a l1) f mid (headtag (f + s) l2 0) (nextfree (f + s) l2 0) ->
  heap_ok k a (l1 ++ mid ++ l2).
Proof.
  intros [-> Z2 (S1 & S2 & _) Z4 Z5 Z6 Z7 Z8] -> S3 Hap -> -> -> G. split; try done.
  - apply Forall_app. split; [done|]. by apply Forall_app.
  - rewrite !size_app. lia.
  - rewrite !size_app. split; [apply Z5|]. destruct Z5 as [_ ->]. lia.
  - by rewrite !nextfree_app.
  - apply seg_app. rewrite headtag_app, nextfree_app. split; [done|]. apply seg_app. by split.
Qed.

(** ** Allocation *)

(** The first free block of at least [size] bytes. *)
Fixpoint fit (size : Z) (l : list blk) : option (list blk * Z * list blk) :=
  match l with
  | [] => None
  | (u, s) :: l =>
      if negb u && (size <=? s) then Some ([], s, l)
      else '(l1, r, l2) ← fit size l; Some ((u, s) :: l1, r, l2)
  end.

Lemma fit_split size l l1 s l2 : fit size l = Some (l1, s, l2) -> l = l1 ++ (false, s) :: l2 /\ size <= s.
Proof.
  revert l1. induction l as [|[u r] l IH]; intros l1 E; [done|]. cbn [fit] in E.
  destruct (negb u && (size <=? r)) eqn:Eb.
  - injection E as <- <- <-. apply andb_true_iff in Eb as [Eu Er]. destruct u; [done|]. split; [done|lia].
  - destruct (fit size l) as [[[m1 t] m2]|]; [|done]. cbn [mbind option_bind] in E. injection E as <- -> ->.
    destruct (IH m1 eq_refl) as [-> Hle]. done.
Qed.

Lemma find_fit_spec (k : kernel) size l : forall fuel p a pf,
  seg (ld k) p a l 0 0 -> sizes_ok l -> 0 < a -> a + size_of l < 2 ^ 32 -> heapEnd (mem k) = a + size_of l ->
  (exists u, apart u l) -> (length l <= fuel)%nat ->
  find_fit fuel size (nextfree a l 0) pf k =
  Some (match fit size l with
        | None => None
        | Some (l1, s, _) => Some (a + size_of l1, lastfree a l1 pf, s)
        end).
Proof.
  induction l as [|[u s] l IH]; intros fuel p a pf Hg Hs Ha Hb He [v Hap] Hf.
  - by destruct fuel.
  - apply list.Forall_cons in Hs as [[Hs1 Hs2] Hs]. cbn [snd] in *. cbn [size_of length] in *.
    pose proof (sizes_pos l Hs). cbn [seg] in Hg. destruct Hg as [Hw Hg]. cbn [apart] in Hap. destruct Hap as [Hv Hap].
    assert (forall fuel pf, (length l <= fuel)%nat ->
      find_fit fuel size (nextfree (a + s) l 0) pf k =
      Some (match fit size l with None => None | Some (l1, r, _) => Some (a + s + size_of l1, lastfree (a + s) l1 pf, r) end)) as IH'.
    { intros fuel' pf' Hf'. apply (IH fuel' (tag a u)); try done; try lia. by exists u. }
    destruct u; cbn [fit nextfree negb andb].
    + rewrite IH' by lia. destruct (fit size l) as [[[l1 r] l2]|]; [|done]. cbn. by rewrite Z.add_assoc.
    + destruct fuel as [|fuel]; [lia|]. cbn [find_fit]. rewrite (proj2 (Z.eqb_neq _ _)) by lia.
      destruct Hw as (W1 & W2 & W3). unfold nextUMB, nextFMB. cbn zeta.
      assert (u32 (a + 4) = a + 4) as -> by (apply Z.mod_small; lia). rewrite W1, W2.
      assert ((if headtag (a + s) l 0 =? 0 then u32 (heapEnd (mem k) - a)
               else u32 (unmarked (headtag (a + s) l 0) - a)) = s) as ->.
      { destruct l as [|[u r] l]; cbn [headtag Z.eqb].
        - rewrite He. cbn [size_of] in *. unfold u32. rewrite Z.mod_small; lia.
        - cbn [apart orb] in Hap. destruct Hap as [-> _].
          apply list.Forall_cons in Hs as [[Hr1 _] Hs]. cbn [snd size_of] in *. pose proof (sizes_pos l Hs).
          rewrite unmarked_tag by lia. rewrite (proj2 (Z.eqb_neq _ _)) by (unfold tag; lia).
          unfold u32. rewrite Z.mod_small; lia. }
      destruct (size <=? s) eqn:Es.
      * cbn. by rewrite Z.add_0_r.
      * rewrite IH' by lia. destruct (fit size l) as [[[l1 r] l2]|]; [|done]. cbn. by rewrite Z.add_assoc.
Qed.

(** The blocks an allocation makes of a free block of [s] bytes. *)
Definition carve (size s : Z) : list blk :=
  if s - size <? 12 then [(true, s)] else [(true, size); (false, s - size)].

(** The end of [CoKmalloc]: the used block before learns of the new one. *)
Definition link_used (f : Z) (k : kernel) : kernel :=
  if preUMB k f =? 0 then k else set_nextMB (unmarked (preUMB k f)) (marked f) k.

Ltac words := rewrite ?ld_st; repeat case_decide; try lia; try done.

Section malloc.
Variables (k : kernel) (a : Z) (l1 : list blk) (s : Z) (l2 : list blk) (size : Z).
Hypothesis Hok : heap_ok k a (l1 ++ [(false, s)] ++ l2).
Hypothesis Hsize : 12 <= size <= s /\ size mod 4 = 0.
Let f := a + size_of l1.
Let pf := lastfree a l1 0.

Lemma free_neighbours : lastflag true l1 = true /\ apart false l2 /\ apart true l1.
Proof using Hok.
  pose proof (hp_apart _ _ _ Hok) as H0. apply apart_app in H0 as [H1 H0]. cbn [app apart] in H0.
  destruct H0 as [H0 H2]. rewrite orb_false_r in H0. done.
Qed.

Lemma take_whole_ok : s - size < 12 ->
  let k' := link_used f (take_whole f pf k) in
  heap_ok k' a (l1 ++ [(true, s)] ++ l2) /\ mem_only k k'.
Proof using Hok Hsize.
  intros Hlt. destruct free_neighbours as (N1 & N2 & N3).
  destruct (heap_open k a l1 [(false, s)] l2 Hok) as [Hz Hw]; [cbn; lia|]. fold f in Hz, Hw.
  cbn [size_of headtag nextfree lasttag seg tag] in Hz, Hw. rewrite Z.add_0_r in Hz, Hw.
  destruct Hw as [(W1 & W2 & W3) _].
  destruct (zone_arith k a l1 _ _ f s l2 _ Hz) as (A1 & A2 & A3 & A4 & A5 & A6 & A7 & A8 & A9).
  set (nf2 := nextfree (f + s) l2 0) in *. set (h2 := headtag (f + s) l2 0) in *. set (t1 := lasttag 0 a l1) in *.
  assert (u32 (f + 4) = f + 4 /\ u32 (f + 8) = f + 8) as [U4 U8] by (split; apply Z.mod_small; lia).
  unfold take_whole, nextFMB, nextUMB, preUMB, set_nextMB, set_preMB. rewrite W1, U4, U8. cbn zeta.
  destruct (zone_relink k a l1 _ _ f s l2 _ Hz nf2) as [Z1 [M1 R1]]. fold pf in Z1, M1, R1.
  unfold set_nextFMB in *. set (k1 := if pf =? 0 then set_FMBlist nf2 k else st pf nf2 k) in *.
  rewrite R1, W2 by lia.
  destruct (zone_prev k1 a l1 _ _ f s l2 _ Z1 (marked f) N2) as [Z2 [M2 R2]]. fold h2 in Z2, M2, R2.
  unfold set_preMB in *. set (k2 := if h2 =? 0 then k1 else st (u32 (unmarked h2 + 4)) (marked f) k1) in *.
  assert (ld k2 (f + 4) = h2) as -> by (rewrite R2, R1 by lia; exact W2).
  pose proof (zone_inner k2 a l1 _ _ f s l2 _ Z2 f h2 ltac:(lia)) as Z3.
  set (k3 := st f h2 k2) in *.
  assert (ld k3 (f + 8) = t1) as E3 by (unfold k3; words; rewrite R2, R1 by lia; exact W3).
  rewrite E3. pose proof (zone_inner k3 a l1 _ _ f s l2 _ Z3 (f + 4) t1 ltac:(lia)) as Z4.
  set (k4 := st (f + 4) t1 k3) in *. unfold link_used, preUMB, set_nextMB. rewrite U8.
  assert (ld k4 (f + 8) = t1) as -> by (unfold k4; words).
  destruct (zone_next k4 a l1 _ _ f s l2 _ Z4 (marked f) N1) as [Z5 [M5 R5]]. fold t1 in Z5, M5, R5.
  unfold set_nextMB in *. set (k5 := if t1 =? 0 then k4 else st (unmarked t1) (marked f) k4) in *.
  split.
  - apply (heap_close k5 a l1 [(true, s)] l2 (marked f) nf2 f s (marked f) Z5); cbn; try done.
    + lia.
    + repeat constructor; cbn; [lia|apply Z3].
    + apply apart_app. split; [done|]. cbn. rewrite orb_true_r. split; [done|]. by apply apart_weaken.
    + by rewrite marked_tag.
    + by rewrite marked_tag.
    + split; [|done]. rewrite !R5 by lia. unfold k4, k3. split; words.
  - transitivity k1; [done|]. transitivity k2; [done|]. transitivity k3; [apply mem_only_st|].
    transitivity k4; [apply mem_only_st|done].
Qed.

Lemma take_part_ok : 12 <= s - size ->
  let k' := link_used f (take_part size f pf k) in
  heap_ok k' a (l1 ++ [(true, size); (false, s - size)] ++ l2) /\ mem_only k k'.
Proof using Hok Hsize.
  intros Hlt. destruct free_neighbours as (N1 & N2 & N3).
  destruct (heap_open k a l1 [(false, s)] l2 Hok) as [Hz Hw]; [cbn; lia|]. fold f in Hz, Hw.
  cbn [size_of headtag nextfree lasttag seg tag] in Hz, Hw. rewrite Z.add_0_r in Hz, Hw.
  destruct Hw as [(W1 & W2 & W3) _].
  destruct (zone_arith k a l1 _ _ f s l2 _ Hz) as (A1 & A2 & A3 & A4 & A5 & A6 & A7 & A8 & A9).
  set (nf2 := nextfree (f + s) l2 0) in *. set (h2 := headtag (f + s) l2 0) in *. set (t1 := lasttag 0 a l1) in *.
  set (n := f + size).
  assert (u32 (f + 4) = f + 4 /\ u32 (f + 8) = f + 8) as [U4 U8] by (split; apply Z.mod_small; lia).
  assert (u32 n = n /\ u32 (n + 4) = n + 4 /\ u32 (n + 8) = n + 8) as (V0 & V4 & V8)
    by (unfold n; repeat split; apply Z.mod_small; lia).
  unfold take_part, nextFMB, nextUMB, preUMB, set_nextMB, set_preMB, set_preUMB, set_nextUMB. fold n.
  rewrite V0, V4, V8, U4, U8. cbn zeta.
  destruct (zone_relink k a l1 _ _ f s l2 _ Hz n) as [Z1 [M1 R1]]. fold pf in Z1, M1, R1.
  unfold set_nextFMB in *. set (k1 := if pf =? 0 then set_FMBlist n k else st pf n k) in *.
  pose proof (zone_inner k1 a l1 _ _ f s l2 _ Z1 (n + 8) (marked f) ltac:(lia)) as Z2.
  set (k2 := st (n + 8) (marked f) k1) in *.
  assert (ld k2 (f + 4) = h2) as -> by (unfold k2; words; rewrite R1 by lia; exact W2).
  pose proof (zone_inner k2 a l1 _ _ f s l2 _ Z2 (n + 4) h2 ltac:(lia)) as Z3.
  set (k3 := st (n + 4) h2 k2) in *.
  assert (ld k3 f = nf2) as -> by (unfold k3, k2; words; rewrite R1 by lia; exact W1).
  pose proof (zone_inner k3 a l1 _ _ f s l2 _ Z3 n nf2 ltac:(lia)) as Z4.
  set (k4 := st n nf2 k3) in *.
  assert (forall x, f <= x < n -> ld k4 x = ld k x) as R4.
  { intros x Hx. unfold k4, k3, k2. words. apply R1. lia. }
  assert (ld k4 (f + 4) = h2) as -> by (rewrite R4 by lia; exact W2).
  destruct (zone_prev k4 a l1 _ _ f s l2 _ Z4 n N2) as [Z5 [M5 R5]]. fold h2 in Z5, M5, R5.
  unfold set_preMB in *. set (k5 := if h2 =? 0 then k4 else st (u32 (unmarked h2 + 4)) n k4) in *.
  pose proof (zone_inner k5 a l1 _ _ f s l2 _ Z5 f n ltac:(lia)) as Z6. set (k6 := st f n k5) in *.
  assert (ld k6 (f + 8) = t1) as -> by (unfold k6; words; rewrite R5, R4 by lia; exact W3).
  pose proof (zone_inner k6 a l1 _ _ f s l2 _ Z6 (f + 4) t1 ltac:(lia)) as Z7. set (k7 := st (f + 4) t1 k6) in *.
  unfold link_used, preUMB, set_nextMB. rewrite U8.
  assert (ld k7 (f + 8) = t1) as -> by (unfold k7, k6; words; rewrite R5, R4 by lia; exact W3).
  destruct (zone_next k7 a l1 _ _ f s l2 _ Z7 (marked f) N1) as [Z8 [M8 R8]]. fold t1 in Z8, M8, R8.
  unfold set_nextMB in *. set (k8 := if t1 =? 0 then k7 else st (unmarked t1) (marked f) k7) in *.
  split.
  - apply (heap_close k8 a l1 [(true, size); (false, s - size)] l2 (marked f) n f s n Z8); cbn; try done.
    + lia.
    + apply list.Forall_cons. split; [cbn; split; [lia|apply Hsize]|]. apply list.Forall_cons.
      split; [cbn; split; [lia|]|constructor].
      rewrite Zminus_mod. destruct Hz as [_ _ (_ & _ & _ & ->) _ _ _ _ _]. by rewrite (proj2 Hsize).
    + apply apart_app. split; [done|]. cbn. rewrite orb_true_r. done.
    + by rewrite marked_tag.
    + replace (f + size + (s - size)) with (f + s) by lia. fold n. rewrite !R8 by lia.
      assert (f + 1 = marked f) as -> by (by rewrite marked_tag). unfold k7, k6. repeat split; words; rewrite ?R5 by lia; unfold k4, k3, k2; words.
  - transitivity k1; [done|]. transitivity k2; [apply mem_only_st|]. transitivity k3; [apply mem_only_st|].
    transitivity k4; [apply mem_only_st|]. transitivity k5; [done|]. transitivity k6; [apply mem_only_st|].
    transitivity k7; [apply mem_only_st|done].
Qed.
End malloc.

Lemma heap_ok_mem k k' a l : mem k' = mem k -> heap_ok k a l -> heap_ok k' a l.
Proof.
  intros E [H1 H2 H3 H4 H5 H6 H7]. split; try done.
  - by rewrite E.
  - unfold kFMB. by rewrite E.
  - apply (seg_frame (ld k)); [done| |done]. intros x _. unfold ld. by rewrite E.
Qed.

Lemma mem_only_quiet k k' : mem_only k k' -> quiet k -> quiet k'.
Proof. intros (m & -> & _) Hq. exact Hq. Qed.

Section unlock.
Context `{Port}.

Lemma unlock_mem k k' : quiet k -> mem_only (OsSchedLock k) k' ->
  exists k2, OsSchedUnlock k' = Some k2 /\ mem_only k k2 /\ mem k2 = mem k'.
Proof.
  intros Hq (m & -> & E1 & E2). set (k2 := k <| mem := m |>). exists k2.
  change ((OsSchedLock k) <| mem := m |>) with (OsSchedLock k2).
  assert (quiet k2) as Hq2 by exact Hq. rewrite (unlock_quiet k2 Hq2). split; [done|]. split; [|done].
  by exists m.
Qed.

Lemma block_size_ok n : 0 < n <= 4294967284 -> block_size n = 4 * ((n + 3) / 4) + 8 /\
  12 <= block_size n /\ block_size n mod 4 = 0.
Proof.
  intros Hn. assert (block_size n = 4 * ((n + 3) / 4) + 8) as E.
  { unfold block_size. assert (u32 (n + 3) = n + 3) as -> by (apply Z.mod_small; lia).
    rewrite Z.shiftr_div_pow2, Z.shiftl_mul_pow2 by lia. change (2 ^ 2) with 4.
    pose proof (Z.mul_div_le (n + 3) 4). unfold u32. rewrite Z.mod_small; [lia|].
    assert (0 <= (n + 3) / 4) by (apply Z.div_pos; lia). lia. }
  split; [done|]. rewrite E. assert (1 <= (n + 3) / 4) by (apply Z.div_le_lower_bound; lia). split; [lia|].
  replace (4 * ((n + 3) / 4) + 8) with (((n + 3) / 4 + 2) * 4) by lia. apply Z.mod_mul. lia.
Qed.

(** What [CoKmalloc] promises: the address, or 0, and the blocks. *)
Definition allocate (a size : Z) (l : list blk) : Z * list blk :=
  match fit (block_size size) l with
  | None => (0, l)
  | Some (l1, s, l2) => (a + size_of l1 + 8, l1 ++ carve (block_size size) s ++ l2)
  end.

Lemma CoKmalloc_spec (fuel : nat) (size : Z) (k : kernel) (a : Z) (l : list blk) :
  heap_ok k a l -> quiet k -> 0 < size <= 4294967284 -> (length l <= fuel)%nat ->
  exists k', CoKmalloc fuel size k = Some ((allocate a size l).1, k') /\
    heap_ok k' a (allocate a size l).2 /\ mem_only k k'.
Proof.
  intros Hok Hq Hsize Hfuel. destruct (block_size_ok size Hsize) as (_ & B1 & B2).
  pose proof Hok as [[H0 _] H2 H3 H4 [_ H5] H6 H7]. unfold CoKmalloc, allocate.
  rewrite (proj2 (Z.eqb_neq _ _)) by lia. cbn zeta. change (kFMB (OsSchedLock k)) with (kFMB k). rewrite H6.
  rewrite (find_fit_spec (OsSchedLock k) (block_size size) l fuel 0 a 0);
    [|by apply (seg_frame (ld k))|done|done|done|done|by exists true|done].
  cbn [mbind option_bind]. destruct (fit (block_size size) l) as [[[l1 s] l2]|] eqn:Ef.
  - destruct (fit_split _ _ _ _ _ Ef) as [-> Hle]. cbn [fst snd].
    set (f := a + size_of l1). set (pf := lastfree a l1 0).
    assert (heap_ok (OsSchedLock k) a (l1 ++ [(false, s)] ++ l2)) as HokL by (by apply (heap_ok_mem k)).
    rewrite size_app in H4. cbn [size_of] in H4. apply Forall_app in H2 as [S1 S2].
    apply list.Forall_cons in S2 as [[S2 _] S3]. cbn [snd] in S2. pose proof (sizes_pos l1 S1). pose proof (sizes_pos l2 S3).
    assert (u32 (s - block_size size) = s - block_size size) as -> by (apply Z.mod_small; lia).
    assert (u32 (f + 8) = f + 8) as -> by (apply Z.mod_small; unfold f; lia). unfold carve.
    destruct (Z.ltb_spec (s - block_size size) 12).
    + destruct (take_whole_ok (OsSchedLock k) a l1 s l2 (block_size size) HokL) as [R1 R2]; [done|done|].
      fold f pf in R1, R2. destruct (unlock_mem k _ Hq R2) as (k2 & E & M & Em). exists k2.
      change (OsSchedUnlock (link_used f (take_whole f pf (OsSchedLock k))) ≫= (fun k => Some (f + 8, k)) = Some (f + 8, k2) /\
        heap_ok k2 a (l1 ++ [(true, s)] ++ l2) /\ mem_only k k2).
      rewrite E. split; [done|]. split; [|done]. by apply (heap_ok_mem (link_used f (take_whole f pf (OsSchedLock k)))).
    + destruct (take_part_ok (OsSchedLock k) a l1 s l2 (block_size size) HokL) as [R1 R2]; [done|lia|].
      fold f pf in R1, R2. destruct (unlock_mem k _ Hq R2) as (k2 & E & M & Em). exists k2.
      change (OsSchedUnlock (link_used f (take_part (block_size size) f pf (OsSchedLock k))) ≫= (fun k => Some (f + 8, k)) = Some (f + 8, k2) /\
        heap_ok k2 a (l1 ++ [(true, block_size size); (false, s - block_size size)] ++ l2) /\ mem_only k k2).
      rewrite E. split; [done|]. split; [|done].
      by apply (heap_ok_mem (link_used f (take_part (block_size size) f pf (OsSchedLock k)))).
  - cbn [fst snd]. rewrite (unlock_quiet k Hq). exists k. split; [done|]. split; [done|apply mem_only_refl].
Qed.
End unlock.

(** ** The walks of [CoKfree] *)

(** Back from the word at [x] that points to what is before it. *)
Lemma GetPreFMB_spec (k : kernel) a l : forall fuel x nx nf,
  seg (ld k) 0 a l nx nf -> sizes_ok l -> 0 < a -> a mod 4 = 0 -> a + size_of l < 2 ^ 32 -> (length l <= fuel)%nat ->
  preMB k x = lasttag 0 a l -> GetPreFMB fuel x k = Some (lastfree a l 0).
Proof.
  induction l as [|[u s] l IH] using rev_ind; intros fuel x nx nf Hg Hs Ha Hm Hb Hf Hx.
  - cbn in Hx. destruct fuel; cbn [GetPreFMB]; by rewrite Hx.
  - apply Forall_app in Hs as [S1 S2]. apply list.Forall_cons in S2 as [[S2 _] _]. cbn [snd] in S2.
    rewrite size_app in Hb. cbn [size_of] in Hb. pose proof (sizes_pos l S1).
    apply seg_app in Hg as [G1 G2]. rewrite lasttag_app in Hx. rewrite lastfree_app. cbn [lasttag lastfree] in *.
    set (b := a + size_of l) in *. assert (b mod 4 = 0) as Hbm by (by apply sizes_mod).
    rewrite length_app in Hf. cbn [length] in Hf. destruct fuel as [|fuel]; [lia|].
    cbn [GetPreFMB]. rewrite Hx, is_used_tag by done. destruct u; [|done].
    rewrite unmarked_tag by lia. eapply (IH fuel b); try done; try lia.
    unfold preMB. assert (u32 (b + 4) = b + 4) as -> by (apply Z.mod_small; lia).
    cbn [seg] in G2. apply G2.
Qed.

(** Back along used blocks [m], to the used block before them. *)
Lemma find_back_spec (k : kernel) s : forall m fuel p a nx nf,
  all_used m -> seg (ld k) p a ((true, s) :: m) nx nf -> sizes_ok ((true, s) :: m) -> 0 < a -> a mod 4 = 0 ->
  a + size_of ((true, s) :: m) < 2 ^ 32 -> (length m <= fuel)%nat ->
  find_back fuel (unmarked (lasttag p a ((true, s) :: m))) a k = Some true.
Proof.
  induction m as [|[u r] m IH] using rev_ind; intros fuel p a nx nf Hu Hg Hs Ha Hm Hb Hf.
  - cbn [lasttag]. cbn [size_of] in Hb. apply list.Forall_cons in Hs as [[Hs _] _]. cbn [snd] in Hs.
    rewrite unmarked_tag by lia. destruct fuel; cbn [find_back]; by rewrite Z.eqb_refl.
  - apply Forall_app in Hu as [Hu Hu1]. apply list.Forall_cons in Hu1 as [Hu1 _]. cbn [fst] in Hu1. subst u.
    rewrite app_comm_cons in Hg, Hs, Hb |- *. apply Forall_app in Hs as [S1 S2].
    apply list.Forall_cons in S2 as [[S2 _] _]. cbn [snd] in S2.
    rewrite size_app in Hb. change (size_of [(true, r)]) with (r + 0) in Hb. pose proof (sizes_pos _ S1).
    pose proof (proj1 (list.Forall_cons _ _ _) S1) as [[S3 _] S4]. cbn [snd] in S3. pose proof (sizes_pos _ S4).
    apply seg_app in Hg as [G1 G2]. rewrite lasttag_app.
    set (b := a + size_of ((true, s) :: m)) in *.
    change (size_of ((true, s) :: m)) with (s + size_of m) in *.
    rewrite length_app in Hf. cbn [length] in Hf. destruct fuel as [|fuel]; [lia|].
    change (lasttag (lasttag p a ((true, s) :: m)) b [(true, r)]) with (tag b true).
    rewrite unmarked_tag by (unfold b in *; lia). cbn [find_back].
    rewrite (proj2 (Z.eqb_neq _ _)) by (unfold b; lia). rewrite (proj2 (Z.eqb_neq _ _)) by (unfold b; lia).
    unfold preMB. assert (u32 (b + 4) = b + 4) as -> by (apply Z.mod_small; unfold b in *; lia).
    cbn [seg] in G2. destruct G2 as [[_ ->] _]. eapply IH; try done; try lia.
Qed.

(** Forward from a used block at [x]. *)
Lemma find_forward_spec (k : kernel) s l2 : forall n m fuel p x,
  (length m <= n)%nat -> apart false (m ++ (true, s) :: l2) -> seg (ld k) p x (m ++ (true, s) :: l2) 0 0 ->
  sizes_ok (m ++ (true, s) :: l2) -> 0 < x -> x mod 4 = 0 ->
  x + size_of (m ++ (true, s) :: l2) < 2 ^ 32 -> (length m <= fuel)%nat ->
  find_forward fuel x (x + size_of m) k = Some true.
Proof.
  induction n as [|n IH]; intros m fuel p x Hn Hap Hg Hs Hx Hm Hb Hf.
  { destruct m; [|cbn in Hn; lia]. cbn. rewrite Z.add_0_r. destruct fuel; cbn; by rewrite Z.eqb_refl. }
  destruct m as [|[u r] m].
  { cbn. rewrite Z.add_0_r. destruct fuel; cbn; by rewrite Z.eqb_refl. }
  cbn [app apart orb size_of length] in *. destruct Hap as [-> Hap].
  apply list.Forall_cons in Hs as [[S1 S1'] Hs]. cbn [snd] in S1, S1'.
  pose proof (sizes_pos _ Hs). cbn [seg] in Hg. destruct Hg as [[W1 _] Hg].
  assert (sizes_ok m) as Sm by (by apply Forall_app in Hs as [? _]). pose proof (sizes_pos m Sm).
  assert ((x + r) mod 4 = 0) as Hm1 by (rewrite Z.add_mod, Hm, S1' by lia; done).
  destruct fuel as [|fuel]; [lia|]. cbn [find_forward].
  rewrite (proj2 (Z.eqb_neq _ _)) by lia. rewrite (proj2 (Z.eqb_neq _ _)) by lia.
  unfold nextMB. rewrite W1. destruct m as [|[v t] m]; cbn [app headtag].
  - rewrite is_used_tag, unmarked_tag by (done || lia). cbn [size_of]. rewrite Z.add_0_r.
    destruct fuel; cbn [find_forward]; by rewrite Z.eqb_refl.
  - rewrite is_used_tag by done. destruct v.
    + rewrite unmarked_tag by (cbn [app size_of] in *; lia).
      replace (x + (r + size_of ((true, t) :: m))) with (x + r + size_of ((true, t) :: m)) by lia.
      eapply (IH _ _ _ (x + r)); try done; lia.
    + cbn [tag]. cbn [app seg apart orb size_of length] in *. destruct Hap as [_ Hap].
      destruct Hg as [(_ & W2 & _) Hg]. apply list.Forall_cons in Hs as [[S2 S2'] Hs]. cbn [snd] in S2, S2'.
      pose proof (sizes_pos _ Hs). apply list.Forall_cons in Sm as [_ Sm]. pose proof (sizes_pos m Sm).
      unfold nextUMB. assert (u32 (x + r + 4) = x + r + 4) as -> by (apply Z.mod_small; lia). rewrite W2.
      assert ((x + r + t) mod 4 = 0) as Hm2 by (rewrite Z.add_mod, Hm1, S2' by lia; done).
      assert (headtag (x + r + t) (m ++ (true, s) :: l2) 0 = tag (x + r + t) true) as ->.
      { destruct m as [|[w q] m]; [done|]. cbn [app apart orb] in Hap. by destruct Hap as [-> _]. }
      rewrite unmarked_tag by lia.
      replace (x + (r + (t + size_of m))) with (x + r + t + size_of m) by lia.
      eapply (IH _ _ _ (x + r + t)); try done; lia.
Qed.

Lemma used_apart u l : all_used l -> apart u l.
Proof.
  intros Hl. revert u. induction Hl as [|[v s] l Hv _ IH]; intros u; [done|]. cbn in *. subst v.
  split; [apply orb_true_r|]. apply IH.
Qed.

Lemma find_used_spec (k : kernel) a l1 s l2 fuel :
  heap_ok k a (l1 ++ (true, s) :: l2) -> (length (l1 ++ (true, s) :: l2) <= fuel)%nat ->
  find_used fuel (a + size_of l1) k = Some true.
Proof.
  intros [[H0 H1] H2 H3 H4 [H5 _] H6 H7] Hf. rewrite length_app in Hf. cbn [length] in Hf.
  rewrite size_app in H4. cbn [size_of] in H4. apply Forall_app in H2 as [S1 S2].
  pose proof S2 as S2'. apply list.Forall_cons in S2 as [[S3 _] S4]. cbn [snd] in S3.
  pose proof (sizes_pos l1 S1). pose proof (sizes_pos l2 S4). unfold find_used.
  destruct (split_first_free l1) as [Hu|(n1 & r & n2 & -> & Hu)].
  - rewrite nextfree_app, used_nextfree in H6 by done. cbn [nextfree] in H6.
    destruct (split_first_free l2) as [Hu2|(m1 & t & m2 & -> & Hu2)].
    + rewrite used_nextfree in H6 by done. rewrite H6, H5. rewrite (proj2 (Z.ltb_ge _ _)) by lia. cbn [Z.eqb].
      eapply (find_forward_spec k s l2 (length l1)); try done; [|by apply Forall_app|rewrite size_app; cbn [size_of]; lia|lia].
      apply used_apart, Forall_app. split; [done|]. by constructor.
    + rewrite nextfree_app, used_nextfree in H6 by done. cbn [nextfree] in H6.
      apply Forall_app in S4 as [S4 S5]. apply list.Forall_cons in S5 as [[S5 _] S6]. cbn [snd] in S5.
      pose proof (sizes_pos m1 S4). pose proof (sizes_pos m2 S6).
      rewrite size_app in H4. cbn [size_of] in H4. rewrite H6. rewrite (proj2 (Z.ltb_lt _ _)) by lia.
      set (x := a + size_of l1) in *. rewrite app_comm_cons in H7. apply seg_app in H7 as [_ G]. fold x in G.
      apply seg_app in G as [G1 G2]. cbn [size_of] in G1, G2. rewrite Z.add_assoc in G1, G2.
      unfold preUMB. assert (u32 (x + s + size_of m1 + 8) = x + s + size_of m1 + 8) as -> by (apply Z.mod_small; lia).
      cbn [seg] in G2. destruct G2 as [(_ & _ & ->) _].
      rewrite length_app in Hf.
      eapply find_back_spec; try done; [by constructor; [apply list.Forall_cons in S2' as [? _]|]|lia|by apply sizes_mod|cbn [size_of]; lia|lia].
  - rewrite !nextfree_app, used_nextfree in H6 by done. cbn [nextfree] in H6.
    apply Forall_app in S1 as [S1 S5]. apply list.Forall_cons in S5 as [[S5 S5'] S6]. cbn [snd] in S5, S5'.
    rewrite size_app in *. cbn [size_of] in *. pose proof (sizes_pos n1 S1). pose proof (sizes_pos n2 S6).
    set (g := a + size_of n1) in *. assert (g mod 4 = 0) as Hg by (by apply sizes_mod).
    rewrite H6. rewrite (proj2 (Z.ltb_ge _ _)) by lia. rewrite (proj2 (Z.eqb_neq _ _)) by lia.
    rewrite <- app_assoc in H7, H3. cbn [app] in H7, H3. apply seg_app in H7 as [_ G]. fold g in G. cbn [seg] in G.
    destruct G as [(_ & W2 & _) G]. apply apart_app in H3 as [_ H3]. cbn [apart] in H3. destruct H3 as [_ H3].
    unfold nextUMB. assert (u32 (g + 4) = g + 4) as -> by (apply Z.mod_small; lia). rewrite W2.
    assert (headtag (g + r) (n2 ++ (true, s) :: l2) 0 = tag (g + r) true) as ->.
    { destruct n2 as [|[w q] n2]; [done|]. cbn [app apart orb] in H3. by destruct H3 as [-> _]. }
    rewrite unmarked_tag by lia. rewrite (proj2 (Z.eqb_neq _ _)) by (unfold tag; lia).
    replace (a + (size_of n1 + (r + size_of n2))) with (g + r + size_of n2) by (unfold g; lia).
    rewrite length_app in Hf. cbn [length] in Hf.
    eapply (find_forward_spec k s l2 (length n2)); try done; [by apply Forall_app|lia| |rewrite size_app; cbn [size_of]; lia|lia].
    rewrite Z.add_mod, Hg, S5' by lia. done.
Qed.

(** ** Release *)

(** The neighbours that are free are joined to the block. *)
Definition join_next (s : Z) (l2 : list blk) : Z * list blk :=
  match l2 with (false, t) :: l2 => (s + t, l2) | _ => (s, l2) end.
Definition join_prev (l1 : list blk) (s : Z) : list blk * Z :=
  match rev l1 with (false, r) :: m => (rev m, r + s) | _ => (l1, s) end.
Definition release (l1 : list blk) (s : Z) (l2 : list blk) : list blk :=
  let '(s, l2) := join_next s l2 in
  let '(l1, s) := join_prev l1 s in
  l1 ++ (false, s) :: l2.

(** The free block at [f] has its three words; the neighbours follow. *)
Lemma link_neighbours_ok (k : kernel) a l1 nx f s l2 p2 :
  zone k a l1 nx f f s l2 p2 -> apart true (l1 ++ [(false, s)] ++ l2) ->
  ld k f = nextfree (f + s) l2 0 -> ld k (f + 4) = headtag (f + s) l2 0 -> ld k (f + 8) = lasttag 0 a l1 ->
  heap_ok (link_neighbours f k) a (l1 ++ [(false, s)] ++ l2) /\ mem_only k (link_neighbours f k).
Proof.
  intros Hz Hap W1 W2 W3. pose proof Hap as Hap'. apply apart_app in Hap' as [N3 N]. cbn [app apart] in N.
  destruct N as [N1 N2]. rewrite orb_false_r in N1.
  destruct (zone_arith k a l1 _ _ f s l2 _ Hz) as (A1 & A2 & A3 & A4 & A5 & A6 & A7 & A8 & A9).
  assert (u32 (f + 4) = f + 4 /\ u32 (f + 8) = f + 8) as [U4 U8] by (split; apply Z.mod_small; lia).
  unfold link_neighbours, preUMB, nextUMB. rewrite U4, U8, W3. cbn zeta.
  destruct (zone_next k a l1 _ _ f s l2 _ Hz f N1) as [Z1 [M1 R1]].
  set (k1 := if lasttag 0 a l1 =? 0 then k else set_nextMB (unmarked (lasttag 0 a l1)) f k) in *.
  rewrite R1, W2 by lia. destruct (zone_prev k1 a l1 _ _ f s l2 _ Z1 f N2) as [Z2 [M2 R2]].
  set (k2 := if headtag (f + s) l2 0 =? 0 then k1 else set_preMB (unmarked (headtag (f + s) l2 0)) f k1) in *.
  split; [|by transitivity k1].
  apply (heap_close k2 a l1 [(false, s)] l2 f f f s f Z2); try done.
  - cbn. lia.
  - destruct Hz as [_ _ (_ & _ & S1 & S2) _ _ _ _ _]. by repeat constructor.
  - cbn. by rewrite !R2, !R1 by lia.
Qed.

(** The new free block has its words and its place in the list. *)
Definition freed (k : kernel) a l1 s l2 (r : Z * kernel) : Prop :=
  mem_only k r.2 /\ exists nx p2, zone r.2 a l1 nx r.1 r.1 s l2 p2 /\
    ld r.2 r.1 = nextfree (r.1 + s) l2 0 /\ ld r.2 (r.1 + 4) = headtag (r.1 + s) l2 0 /\
    ld r.2 (r.1 + 8) = lasttag 0 a l1.

(** What the last free block before the zone, or the head of the list, points
    to. *)
Lemma zone_oldnext k a l1 nx nf f s l2 p2 :
  zone k a l1 nx nf f s l2 p2 ->
  (if lastfree a l1 0 =? 0 then kFMB k else ld k (lastfree a l1 0)) = nf.
Proof.
  intros Hz. pose proof (zone_arith _ _ _ _ _ _ _ _ _ Hz) as (A1 & _).
  destruct Hz as [_ _ (S1 & _) _ _ Z6 Z7 _]. destruct (split_last_free l1) as [Hu|(m1 & r & m2 & -> & Hu)].
  - rewrite used_lastfree by done. cbn [Z.eqb]. by rewrite Z6, used_nextfree.
  - rewrite lastfree_app. cbn [lastfree]. rewrite used_lastfree by done.
    apply Forall_app in S1 as [S1 _]. pose proof (sizes_pos m1 S1).
    rewrite (proj2 (Z.eqb_neq _ _)) by lia. apply seg_app in Z7 as [_ G]. cbn [seg] in G.
    destruct G as [(-> & _) _]. by apply used_nextfree.
Qed.

Lemma insert_FMB_spec k a l1 nx nf f s l2 p2 :
  zone k a l1 nx nf f s l2 p2 -> exists k', insert_FMB (lastfree a l1 0) f k = (nf, k') /\
  zone k' a l1 nx f f s l2 p2 /\ near f s k k'.
Proof.
  intros Hz. pose proof (zone_oldnext _ _ _ _ _ _ _ _ _ Hz) as E.
  destruct (zone_relink _ _ _ _ _ _ _ _ _ Hz f) as [Z1 N1]. eexists. split; [|split; [exact Z1|exact N1]].
  unfold insert_FMB, nextFMB. destruct (lastfree a l1 0 =? 0); by rewrite E.
Qed.

Section free.
Variables (k : kernel) (a : Z) (l1 : list blk) (s : Z) (l2 : list blk).

Ltac header f := assert (u32 (f + 4) = f + 4 /\ u32 (f + 8) = f + 8) as [U4 U8] by (split; apply Z.mod_small; lia).

(** The walk over the words of a few blocks whose sizes are known. *)
Ltac open_heap Hok mid f :=
  let Hz := fresh "Hz" in let Hw := fresh "Hw" in
  pose proof (hp_sizes _ _ _ Hok) as Hs; apply Forall_app in Hs as [S1 Hs]; apply Forall_app in Hs as [S2 S3];
  repeat (apply list.Forall_cons in S2 as [[? ?] S2]); cbn [snd] in *;
  pose proof (sizes_pos _ S1); pose proof (sizes_pos _ S3);
  destruct (heap_open k a l1 mid l2 Hok) as [Hz Hw]; [cbn [size_of]; lia|]; set (f := a + size_of l1) in *;
  cbn [size_of headtag nextfree lasttag seg tag] in Hz, Hw; rewrite ?Z.add_0_r in *;
  destruct (zone_arith _ _ _ _ _ _ _ _ _ Hz) as (A1 & A2 & A3 & A4 & A5 & A6 & A7 & A8 & A9).

(** The definitions of the fields and of the branches. *)
Ltac fields := unfold free_between, free_after_free, free_before_free, free_among_used, nextMB, preMB, nextFMB, nextUMB,
  preUMB, set_nextFMB, set_nextUMB, set_preUMB.

Lemma freed_pf_nf r t :
  heap_ok k a (l1 ++ [(false, r); (true, s); (false, t)] ++ l2) ->
  let x := a + size_of l1 + r in
  nextMB k x = tag (x + s) false /\ preMB k x = tag (a + size_of l1) false /\
  freed k a l1 (r + (s + t)) l2 (free_between x k).
Proof.
  intros Hok. open_heap Hok [(false, r); (true, s); (false, t)] f. cbn zeta. set (x := f + r) in *.
  destruct Hw as [(W1 & W2 & W3) [[W4 W5] [(W6 & W7 & W8) _]]]. header f.
  assert (u32 (x + 4) = x + 4 /\ u32 (x + s + 4) = x + s + 4) as [U5 U6] by (unfold x; split; apply Z.mod_small; lia).
  fields. rewrite U5, W4, W5. split; [done|]. split; [done|].
  rewrite !(proj2 (Z.eqb_neq _ _)) by (unfold x; lia). cbn [andb]. rewrite U4, U6, W6.
  rewrite ld_st, decide_False, W7 by (unfold x; lia).
  split; [etransitivity; apply mem_only_st|].
  cbn [fst snd]. eexists _, _. split; [eapply zone_inner; [eapply zone_inner; [exact Hz|lia]|lia]|].
  unfold x in *. repeat split; words.
Qed.

(** Nothing, or a used block, follows. *)
Definition no_next : Prop := forall e, headtag e l2 0 = 0 /\ nextfree e l2 0 = 0.
Definition used_next : Prop := forall e, headtag e l2 0 = tag e true.
(** Nothing, or a used block, is before. *)
Definition no_prev : Prop := lasttag 0 a l1 = 0 /\ lastfree a l1 0 = 0.

Lemma freed_pf_n0 r :
  heap_ok k a (l1 ++ [(false, r); (true, s)] ++ l2) -> no_next ->
  let x := a + size_of l1 + r in
  nextMB k x = 0 /\ preMB k x = tag (a + size_of l1) false /\ freed k a l1 (r + s) l2 (free_between x k).
Proof.
  intros Hok Hn. open_heap Hok [(false, r); (true, s)] f. cbn zeta. set (x := f + r) in *.
  destruct (Hn (f + (r + s))) as [N1 N2]. rewrite N1, N2 in *.
  destruct Hw as [(W1 & W2 & W3) [[W4 W5] _]]. header f.
  assert (u32 (x + 4) = x + 4) as U5 by (unfold x; apply Z.mod_small; lia).
  fields. rewrite U5, W4, W5. split; [done|]. split; [done|].
  rewrite (proj2 (Z.eqb_neq f 0)) by lia. cbn [andb Z.eqb]. rewrite U4.
  split; [etransitivity; apply mem_only_st|].
  cbn [fst snd]. eexists _, _. split; [eapply zone_inner; [eapply zone_inner; [exact Hz|lia]|lia]|].
  rewrite N1, N2. unfold x in *. repeat split; words.
Qed.

Lemma freed_pf_nu r :
  heap_ok k a (l1 ++ [(false, r); (true, s)] ++ l2) -> used_next ->
  let x := a + size_of l1 + r in
  nextMB k x = tag (x + s) true /\ preMB k x = tag (a + size_of l1) false /\
  freed k a l1 (r + s) l2 (free_after_free x k).
Proof.
  intros Hok Hn. open_heap Hok [(false, r); (true, s)] f. cbn zeta. set (x := f + r) in *.
  pose proof (Hn (f + (r + s))) as N1. rewrite N1 in *.
  destruct Hw as [(W1 & W2 & W3) [[W4 W5] _]]. header f.
  assert (u32 (x + 4) = x + 4) as U5 by (unfold x; apply Z.mod_small; lia).
  fields. rewrite U5, W4, W5. split; [unfold x; by rewrite Z.add_assoc|]. split; [done|].
  rewrite (proj2 (Z.eqb_neq f 0)) by lia. rewrite U4. split; [apply mem_only_st|].
  cbn [fst snd]. eexists _, _. split; [eapply zone_inner; [exact Hz|lia]|].
  rewrite N1. unfold x in *. repeat split; words.
Qed.

Lemma freed_p0_n0 :
  heap_ok k a (l1 ++ [(true, s)] ++ l2) -> no_next -> no_prev ->
  let x := a + size_of l1 in
  nextMB k x = 0 /\ preMB k x = 0 /\ freed k a l1 s l2 (free_between x k).
Proof.
  intros Hok Hn [P1 P2]. open_heap Hok [(true, s)] f. cbn zeta.
  destruct (Hn (f + s)) as [N1 N2]. rewrite N1, N2, P1 in *.
  destruct Hw as [[W1 W2] _]. header f.
  fields. rewrite U4, U8, W1, W2. split; [done|]. split; [done|]. cbn [andb Z.eqb].
  assert (zone (st (f + 8) 0 (st (f + 4) 0 (st f 0 k))) a l1 (f + 1) 0 f s l2 (f + 1)) as Z1
    by (eapply zone_inner; [eapply zone_inner; [eapply zone_inner; [exact Hz|lia]|lia]|lia]).
  pose proof (zone_relink _ _ _ _ _ _ _ _ _ Z1 f) as [Z2 [_ R2]]. rewrite P2 in Z2, R2. cbn [Z.eqb] in Z2, R2.
  split; [do 3 (etransitivity; [apply mem_only_st|]); apply mem_only_fmb|].
  cbn [fst snd]. eexists _, _. split; [exact Z2|]. rewrite N1, N2, P1, !R2 by lia. repeat split; words.
Qed.

Lemma freed_p0_nf t :
  heap_ok k a (l1 ++ [(true, s); (false, t)] ++ l2) -> no_prev ->
  let x := a + size_of l1 in
  nextMB k x = tag (x + s) false /\ preMB k x = 0 /\ freed k a l1 (s + t) l2 (free_between x k).
Proof.
  intros Hok [P1 P2]. open_heap Hok [(true, s); (false, t)] f. cbn zeta. rewrite P1 in *.
  destruct Hw as [[W1 W2] [(W3 & W4 & W5) _]]. header f.
  assert (u32 (f + s + 4) = f + s + 4) as U5 by (apply Z.mod_small; lia).
  fields. rewrite U4, U8, W1, W2. split; [done|]. split; [done|].
  rewrite (proj2 (Z.eqb_neq (f + s) 0)) by lia. cbn [andb Z.eqb]. rewrite U5, W3, ld_st, decide_False, W4 by lia.
  set (nf2 := nextfree (f + (s + t)) l2 0) in *. set (h2 := headtag (f + (s + t)) l2 0) in *.
  assert (zone (st (f + 8) 0 (st (f + 4) h2 (st f nf2 k))) a l1 (f + 1) (f + s) f (s + t) l2 (f + s)) as Z1
    by (eapply zone_inner; [eapply zone_inner; [eapply zone_inner; [exact Hz|lia]|lia]|lia]).
  pose proof (zone_relink _ _ _ _ _ _ _ _ _ Z1 f) as [Z2 [_ R2]]. rewrite P2 in Z2, R2. cbn [Z.eqb] in Z2, R2.
  split; [do 3 (etransitivity; [apply mem_only_st|]); apply mem_only_fmb|].
  cbn [fst snd]. eexists _, _. split; [exact Z2|]. rewrite P1, !R2 by lia. repeat split; words.
Qed.

Lemma freed_p0_nu :
  heap_ok k a (l1 ++ [(true, s)] ++ l2) -> used_next -> no_prev ->
  let x := a + size_of l1 in
  nextMB k x = tag (x + s) true /\ preMB k x = 0 /\ freed k a l1 s l2 (free_after_free x k).
Proof.
  intros Hok Hn [P1 P2]. open_heap Hok [(true, s)] f. cbn zeta.
  pose proof (Hn (f + s)) as N1. rewrite N1, P1 in *.
  destruct Hw as [[W1 W2] _]. header f.
  fields. rewrite U4, U8, W1, W2. split; [done|]. split; [done|]. cbn [Z.eqb].
  set (nf2 := nextfree (f + s) l2 0) in *.
  set (k2 := st (f + 8) 0 (st (f + 4) (tag (f + s) true) k)).
  assert (kFMB k2 = nf2) as ->.
  { transitivity (kFMB k); [done|]. pose proof (zone_oldnext _ _ _ _ _ _ _ _ _ Hz) as E. rewrite P2 in E. exact E. }
  assert (zone (st f nf2 k2) a l1 (f + 1) nf2 f s l2 (f + 1)) as Z1
    by (eapply zone_inner; [eapply zone_inner; [eapply zone_inner; [exact Hz|lia]|lia]|lia]).
  pose proof (zone_relink _ _ _ _ _ _ _ _ _ Z1 f) as [Z2 [_ R2]]. rewrite P2 in Z2, R2. cbn [Z.eqb] in Z2, R2.
  split; [do 3 (etransitivity; [apply mem_only_st|]); apply mem_only_fmb|].
  cbn [fst snd]. eexists _, _. split; [exact Z2|]. rewrite N1, P1, !R2 by lia. unfold k2. repeat split; words.
Qed.

Lemma freed_pu_n0 :
  heap_ok k a (l1 ++ [(true, s)] ++ l2) -> no_next ->
  let x := a + size_of l1 in
  nextMB k x = 0 /\ preMB k x = lasttag 0 a l1 /\ freed k a l1 s l2 (free_before_free (lastfree a l1 0) x k).
Proof.
  intros Hok Hn. open_heap Hok [(true, s)] f. cbn zeta.
  destruct (Hn (f + s)) as [N1 N2]. rewrite N1, N2 in *.
  destruct Hw as [[W1 W2] _]. header f. destruct (insert_FMB_spec _ _ _ _ _ _ _ _ _ Hz) as (k1 & E & Z1 & [M1 R1]).
  fields. rewrite E, U4, U8, W1, W2. split; [done|]. split; [done|]. cbn [Z.eqb].
  split; [transitivity k1; [done|]; do 2 (etransitivity; [apply mem_only_st|]); apply mem_only_st|].
  cbn [fst snd]. eexists _, _.
  split; [eapply zone_inner; [eapply zone_inner; [eapply zone_inner; [exact Z1|lia]|lia]|lia]|].
  rewrite N1, N2. repeat split; words.
Qed.

Lemma freed_pu_nf t :
  heap_ok k a (l1 ++ [(true, s); (false, t)] ++ l2) ->
  let x := a + size_of l1 in
  nextMB k x = tag (x + s) false /\ preMB k x = lasttag 0 a l1 /\
  freed k a l1 (s + t) l2 (free_before_free (lastfree a l1 0) x k).
Proof.
  intros Hok. open_heap Hok [(true, s); (false, t)] f. cbn zeta.
  destruct Hw as [[W1 W2] [(W3 & W4 & W5) _]]. header f.
  assert (u32 (f + s + 4) = f + s + 4) as U5 by (apply Z.mod_small; lia).
  destruct (insert_FMB_spec _ _ _ _ _ _ _ _ _ Hz) as (k1 & E & Z1 & [M1 R1]).
  fields. rewrite E, U4, U8, W1, W2. split; [done|]. split; [done|].
  rewrite (proj2 (Z.eqb_neq (f + s) 0)) by lia. rewrite U5.
  set (t1 := lasttag 0 a l1) in *.
  set (nf2 := nextfree (f + (s + t)) l2 0) in *. set (h2 := headtag (f + (s + t)) l2 0) in *.
  assert (ld (st (f + 8) t1 k1) (f + s + 4) = h2) as -> by (words; rewrite R1 by lia; exact W4).
  assert (ld (st (f + 4) h2 (st (f + 8) t1 k1)) (f + s) = nf2) as ->.
  { words; rewrite R1 by lia; exact W3. }
  split; [transitivity k1; [done|]; do 2 (etransitivity; [apply mem_only_st|]); apply mem_only_st|].
  cbn [fst snd]. eexists _, _.
  split; [eapply zone_inner; [eapply zone_inner; [eapply zone_inner; [exact Z1|lia]|lia]|lia]|].
  repeat split; words.
Qed.

Lemma freed_pu_nu :
  heap_ok k a (l1 ++ [(true, s)] ++ l2) -> used_next ->
  let x := a + size_of l1 in
  nextMB k x = tag (x + s) true /\ preMB k x = lasttag 0 a l1 /\
  freed k a l1 s l2 (free_among_used (lastfree a l1 0) x k).
Proof.
  intros Hok Hn. open_heap Hok [(true, s)] f. cbn zeta.
  pose proof (Hn (f + s)) as N1. rewrite N1 in *.
  destruct Hw as [[W1 W2] _]. header f. destruct (insert_FMB_spec _ _ _ _ _ _ _ _ _ Hz) as (k1 & E & Z1 & [M1 R1]).
  fields. rewrite E, U4, U8, W1, W2. split; [done|]. split; [done|].
  split; [transitivity k1; [done|]; do 2 (etransitivity; [apply mem_only_st|]); apply mem_only_st|].
  cbn [fst snd]. eexists _, _.
  split; [eapply zone_inner; [eapply zone_inner; [eapply zone_inner; [exact Z1|lia]|lia]|lia]|].
  rewrite N1. repeat split; words.
Qed.
End free.

Lemma make_free_ok fuel k a l1 s l2 :
  heap_ok k a (l1 ++ (true, s) :: l2) -> (length l1 <= fuel)%nat ->
  exists r l1' s' l2', make_free fuel (a + size_of l1) k = Some r /\ freed k a l1' s' l2' r /\
    release l1 s l2 = l1' ++ [(false, s')] ++ l2' /\ apart true (l1' ++ [(false, s')] ++ l2').
Proof.
  intros Hok Hf. pose proof Hok as [[H0 H1] H2 H3 H4 _ _ H7].
  apply Forall_app in H2 as [S1 S2].
  pose proof (sizes_mod a l1 S1 H1) as Hx. set (x := a + size_of l1) in *.
  assert ((x + s) mod 4 = 0) as Hxs.
  { apply list.Forall_cons in S2 as [[_ Es] _]. cbn in Es. rewrite Z.add_mod, Hx, Es by lia. done. }
  pose proof (proj1 (proj1 (list.Forall_cons _ _ _) S2)) as [Hs12 _]. cbn in Hs12.
  pose proof (sizes_pos l1 S1). pose proof (sizes_pos l2 (proj2 (proj1 (list.Forall_cons _ _ _) S2))).
  rewrite size_app in H4. cbn [size_of] in H4.
  apply apart_app in H3 as [N1 N2]. cbn [apart] in N2. destruct N2 as [_ N2].
  assert (is_used (tag (x + s) true) = true /\ is_used (tag (x + s) false) = false) as [T1 T2]
    by (split; by apply is_used_tag).
  assert (is_used 0 = false) as T0 by done.
  (* what is before *)
  destruct (split_last l1) as [El|(m & u & r & El)]; [|destruct u].
  - assert (no_prev a l1) as P by (by rewrite El).
    assert (release l1 s l2 = l1 ++ [(false, (join_next s l2).1)] ++ (join_next s l2).2) as Er.
    { rewrite El. unfold release. by destruct (join_next s l2). }
    rewrite Er.
    destruct l2 as [|[[] t] l2']; cbn [join_next].
    + destruct (freed_p0_n0 k a l1 s [] Hok ltac:(done) P) as (E1 & E2 & F). fold x in E1, E2, F.
      unfold make_free. rewrite E1, E2, T0. cbn [negb andb].
      eexists _, l1, s, []. split; [reflexivity|]. split; [done|]. split; [done|].
      by rewrite El.
    + destruct (freed_p0_nu k a l1 s ((true, t) :: l2') Hok ltac:(done) P) as (E1 & E2 & F). fold x in E1, E2, F.
      unfold make_free. rewrite E1, E2, T0, T1. cbn [negb andb].
      eexists _, l1, s, _. split; [reflexivity|]. split; [done|]. split; [done|]. by rewrite El.
    + destruct (freed_p0_nf k a l1 s l2' t Hok P) as (E1 & E2 & F). fold x in E1, E2, F.
      unfold make_free. rewrite E1, E2, T0, T2. cbn [negb andb].
      eexists _, l1, (s + t), l2'. split; [reflexivity|]. split; [done|]. split; [done|].
      rewrite El. split; [done|]. apply N2.
  - assert (y_ok : (a + size_of m) mod 4 = 0).
    { apply sizes_mod; [|done]. rewrite El in S1. by apply Forall_app in S1 as [? _]. }
    assert (is_used (lasttag 0 a l1) = true) as Tp by (rewrite El, lasttag_app; by apply is_used_tag).
    assert (release l1 s l2 = l1 ++ [(false, (join_next s l2).1)] ++ (join_next s l2).2) as Er.
    { unfold release, join_prev. rewrite El, rev_unit. by destruct (join_next s l2). }
    assert (lastflag true l1 = true) as Hl by (by rewrite El, lastflag_app).
    assert (preMB k x = lasttag 0 a l1 -> GetPreFMB fuel x k = Some (lastfree a l1 0)) as Hpre.
    { intros Hx'. apply seg_app in H7 as [G1 _]. eapply GetPreFMB_spec; try done. lia. }
    rewrite Er. destruct l2 as [|[[] t] l2']; cbn [join_next fst snd].
    + destruct (freed_pu_n0 k a l1 s [] Hok ltac:(done)) as (E1 & E2 & F). fold x in E1, E2, F.
      unfold make_free. rewrite E1, E2, T0, Tp, Hpre by done. cbn [negb andb mbind option_bind].
      eexists _, l1, s, []. split; [reflexivity|]. split; [done|]. split; [done|].
      apply apart_app. split; [done|]. by rewrite Hl.
    + destruct (freed_pu_nu k a l1 s ((true, t) :: l2') Hok ltac:(done)) as (E1 & E2 & F). fold x in E1, E2, F.
      unfold make_free. rewrite E1, E2, T1, Tp, Hpre by done. cbn [negb andb mbind option_bind].
      eexists _, l1, s, _. split; [reflexivity|]. split; [done|]. split; [done|].
      apply apart_app. split; [done|]. by rewrite Hl.
    + destruct (freed_pu_nf k a l1 s l2' t Hok) as (E1 & E2 & F). fold x in E1, E2, F.
      unfold make_free. rewrite E1, E2, T2, Tp, Hpre by done. cbn [negb andb mbind option_bind].
      eexists _, l1, (s + t), l2'. split; [reflexivity|]. split; [done|]. split; [done|].
      apply apart_app. split; [done|]. rewrite Hl. split; [done|]. apply N2.
  - assert (y_ok : (a + size_of m) mod 4 = 0).
    { apply sizes_mod; [|done]. rewrite El in S1. by apply Forall_app in S1 as [? _]. }
    pose proof (is_used_tag _ false y_ok) as Tp.
    assert (release l1 s l2 = m ++ [(false, r + (join_next s l2).1)] ++ (join_next s l2).2) as Er.
    { unfold release, join_prev. rewrite El, rev_unit, rev_involutive. by destruct (join_next s l2). }
    assert (x = a + size_of m + r) as Ex by (unfold x; rewrite El, size_app; cbn; lia).
    rewrite El in Hok, N1. rewrite <- app_assoc in Hok. apply apart_app in N1 as [N1 N3].
    cbn [apart] in N3. rewrite orb_false_r in N3. destruct N3 as [N3 _].
    rewrite Er. destruct l2 as [|[[] t] l2']; cbn [join_next fst snd].
    + destruct (freed_pf_n0 k a m s [] r Hok ltac:(done)) as (E1 & E2 & F). rewrite <- Ex in E1, E2, F.
      unfold make_free. rewrite E1, E2, T0, Tp. cbn [negb andb].
      eexists _, m, (r + s), []. split; [reflexivity|]. split; [done|]. split; [done|].
      apply apart_app. split; [done|]. by rewrite N3.
    + destruct (freed_pf_nu k a m s ((true, t) :: l2') r Hok ltac:(done)) as (E1 & E2 & F). rewrite <- Ex in E1, E2, F.
      unfold make_free. rewrite E1, E2, T1, Tp. cbn [negb andb].
      eexists _, m, (r + s), _. split; [reflexivity|]. split; [done|]. split; [done|].
      apply apart_app. split; [done|]. by rewrite N3.
    + destruct (freed_pf_nf k a m s l2' r t Hok) as (E1 & E2 & F). rewrite <- Ex in E1, E2, F.
      unfold make_free. rewrite E1, E2, T2, Tp. cbn [negb andb].
      eexists _, m, (r + (s + t)), l2'. split; [reflexivity|]. split; [done|]. split; [done|].
      apply apart_app. split; [done|]. rewrite N3. split; [done|]. apply N2.
Qed.

Lemma CoKfree_spec `{Port} (fuel : nat) (k : kernel) a l1 s l2 :
  heap_ok k a (l1 ++ (true, s) :: l2) -> quiet k -> (length (l1 ++ (true, s) :: l2) <= fuel)%nat ->
  exists k', CoKfree fuel (a + size_of l1 + 8) k = Some k' /\ heap_ok k' a (release l1 s l2) /\ mem_only k k'.
Proof.
  intros Hok Hq Hf. pose proof Hok as [[H0 _] H2 _ H4 [H5 H6] _ _].
  apply Forall_app in H2 as [S1 S2]. apply list.Forall_cons in S2 as [[S2 _] S3]. cbn [snd] in S2.
  pose proof (sizes_pos l1 S1). pose proof (sizes_pos l2 S3). rewrite size_app in H4, H6. cbn [size_of] in H4, H6.
  set (x := a + size_of l1). unfold CoKfree.
  rewrite (proj2 (Z.eqb_neq _ _)) by (unfold x; lia). cbn zeta. rewrite H5, H6.
  rewrite !(proj2 (Z.ltb_ge _ _)) by (unfold x; lia).
  assert (u32 (x + 8 - 8) = x) as -> by (unfold u32; rewrite Z.mod_small; unfold x; lia).
  assert (heap_ok (OsSchedLock k) a (l1 ++ (true, s) :: l2)) as HokL by (by apply (heap_ok_mem k)).
  rewrite (find_used_spec (OsSchedLock k) a l1 s l2 fuel HokL Hf : find_used fuel x _ = _). cbn [mbind option_bind negb].
  rewrite length_app in Hf.
  destruct (make_free_ok fuel (OsSchedLock k) a l1 s l2 HokL ltac:(lia)) as ([cur kf] & l1' & s' & l2' & E & [M (nx & p2 & Hz & W1 & W2 & W3)] & Er & Hap).
  fold x in E. rewrite E. cbn [mbind option_bind fst snd] in *. rewrite Er.
  destruct (link_neighbours_ok kf a l1' nx cur s' l2' p2 Hz Hap W1 W2 W3) as [Hok' M'].
  destruct (unlock_mem k (link_neighbours cur kf) Hq) as (k2 & E2 & M2 & Em).
  { by transitivity kf. }
  exists k2. split; [done|]. split; [|done]. by apply (heap_ok_mem (link_neighbours cur kf)).
Qed.

(** ** Clients of the heap *)

Inductive heap_call :=
  | Malloc (size : Z)
  | Release (p : Z)
  | Store (x v : Z).

(** The used block at the address [x]. *)
Fixpoint locate (a x : Z) (l : list blk) : option (list blk * Z * list blk) :=
  match l with
  | [] => None
  | (u, s) :: l =>
      if u && (a =? x) then Some ([], s, l)
      else '(l1, r, l2) ← locate (a + s) x l; Some ((u, s) :: l1, r, l2)
  end.

(** The address [x] is in the memory of an allocated block. *)
Fixpoint in_payload (a x : Z) (l : list blk) : bool :=
  match l with
  | [] => false
  | (u, s) :: l => u && (a + 8 <=? x) && (x <? a + s) || in_payload (a + s) x l
  end.

(** One call on the blocks; [None] is a client that frees or writes what it
    has not been given, or asks for more than any heap can hold. *)
Definition heap_step (a : Z) (o : heap_call) (l : list blk) : option (Z * list blk) :=
  match o with
  | Malloc n =>
      if n =? 0 then Some (0, l)
      else if (0 <? n) && (n <=? 4294967284) then Some (allocate a n l) else None
  | Release p => '(l1, s, l2) ← locate a (p - 8) l; Some (0, release l1 s l2)
  | Store x _ => if in_payload a x l then Some (0, l) else None
  end.

Fixpoint heap_run (a : Z) (os : list heap_call) (l : list blk) : option (list Z * list blk) :=
  match os with
  | [] => Some ([], l)
  | o :: os => '(r, l) ← heap_step a o l; '(rs, l) ← heap_run a os l; Some (r :: rs, l)
  end.

Lemma locate_split x l : forall a l1 s l2,
  locate a x l = Some (l1, s, l2) -> l = l1 ++ (true, s) :: l2 /\ x = a + size_of l1.
Proof.
  induction l as [|[u r] l IH]; intros a l1 s l2 E; [done|]. cbn [locate] in E.
  destruct (u && (a =? x)) eqn:Eb.
  - injection E as <- <- <-. apply andb_true_iff in Eb as [-> Ex]. split; [done|]. cbn. lia.
  - destruct (locate (a + r) x l) as [[[m1 t] m2]|] eqn:El; [|done]. cbn [mbind option_bind] in E.
    injection E as <- -> ->. destruct (IH _ _ _ _ El) as [-> ->]. split; [done|]. cbn. lia.
Qed.

Lemma payload_split x l : forall a, in_payload a x l = true ->
  exists l1 s l2, l = l1 ++ (true, s) :: l2 /\ a + size_of l1 + 8 <= x < a + size_of l1 + s.
Proof.
  induction l as [|[u r] l IH]; intros a E; [done|]. cbn [in_payload] in E.
  apply orb_true_iff in E as [E|E].
  - apply andb_true_iff in E as [E E2]. apply andb_true_iff in E as [-> E1].
    exists [], r, l. split; [done|]. cbn. lia.
  - destruct (IH _ E) as (l1 & s & l2 & -> & Hx). exists ((u, r) :: l1), s, l2. split; [done|]. cbn. lia.
Qed.

Lemma blocks_count l : sizes_ok l -> 12 * Z.of_nat (length l) <= size_of l.
Proof. induction 1 as [|[u s] l [Hs _] _ IH]; cbn [length size_of snd] in *; lia. Qed.

(** A write into an allocated block does not touch the headers. *)
Lemma store_ok k a l x v : heap_ok k a l -> in_payload a x l = true -> heap_ok (st x v k) a l.
Proof.
  intros Hok Hx. destruct (payload_split x l a Hx) as (l1 & s & l2 & -> & Hb).
  pose proof Hok as [H1 H2 H3 H4 H5 H6 H7]. apply Forall_app in H2 as [S1 S2].
  pose proof (proj2 (proj1 (list.Forall_cons _ _ _) S2)) as S3. pose proof (sizes_pos l1 S1). pose proof (sizes_pos l2 S3).
  split; try done; [by apply Forall_app|]. apply seg_app in H7 as [G1 G2]. apply seg_app. split.
  - apply (seg_frame (ld k)); [done| |done]. intros y Hy. words.
  - cbn [seg] in G2 |- *. destruct G2 as [[W1 W2] G2]. split; [split; words|].
    apply (seg_frame (ld k)); [done| |done]. intros y Hy. words.
Qed.

Section clients.
Context `{Port}.

Definition kheap_step (fuel : nat) (o : heap_call) (k : kernel) : option (Z * kernel) :=
  match o with
  | Malloc n => CoKmalloc fuel n k
  | Release p => k ← CoKfree fuel p k; Some (0, k)
  | Store x v => Some (0, st x v k)
  end.

Fixpoint kheap_run (fuel : nat) (os : list heap_call) (k : kernel) : option (list Z * kernel) :=
  match os with
  | [] => Some ([], k)
  | o :: os => '(r, k) ← kheap_step fuel o k; '(rs, k) ← kheap_run fuel os k; Some (r :: rs, k)
  end.

Lemma kheap_step_ok fuel o k a l r l' :
  heap_ok k a l -> quiet k -> size_of l <= 12 * Z.of_nat fuel -> heap_step a o l = Some (r, l') ->
  exists k', kheap_step fuel o k = Some (r, k') /\ heap_ok k' a l' /\ quiet k' /\ size_of l' = size_of l.
Proof.
  intros Hok Hq Hf E. pose proof (blocks_count l (hp_sizes _ _ _ Hok)) as Hc.
  assert (forall k', mem_only k k' -> heap_ok k' a l' -> quiet k' /\ size_of l' = size_of l) as Hkeep.
  { intros k' Hm Hok'. split; [by apply (mem_only_quiet k)|]. destruct Hm as (m & -> & _ & Em).
    pose proof (hp_bounds _ _ _ Hok) as [_ B1]. pose proof (hp_bounds _ _ _ Hok') as [_ B2]. cbn in B2. lia. }
  destruct o as [n|p|x v]; cbn [heap_step] in E; cbn [kheap_step].
  - destruct (Z.eqb_spec n 0) as [->|Hn].
    + injection E as <- <-. exists k. split; [done|]. split; [done|]. by apply Hkeep; [apply mem_only_refl|].
    + destruct ((0 <? n) && (n <=? 4294967284)) eqn:Eb; [|done]. apply andb_true_iff in Eb as [E1 E2].
      destruct (CoKmalloc_spec fuel n k a l Hok Hq) as (k' & Ek & Hok' & M); [lia|lia|].
      injection E as E. rewrite E in Ek, Hok'. exists k'. split; [done|]. split; [done|]. by apply Hkeep.
  - destruct (locate a (p - 8) l) as [[[l1 s] l2]|] eqn:El; [|done]. cbn [mbind option_bind] in E.
    injection E as <- <-. destruct (locate_split _ _ _ _ _ _ El) as [-> Ep].
    destruct (CoKfree_spec fuel k a l1 s l2 Hok Hq) as (k' & Ek & Hok' & M); [lia|].
    replace p with (a + size_of l1 + 8) by lia. rewrite Ek. exists k'. split; [done|]. split; [done|]. by apply Hkeep.
  - destruct (in_payload a x l) eqn:Ep; [|done]. injection E as <- <-. exists (st x v k).
    pose proof (store_ok k a l x v Hok Ep) as Hok'. split; [done|]. split; [done|].
    by apply Hkeep; [apply mem_only_st|].
Qed.

Lemma kheap_run_ok fuel os : forall k a l rs l',
  heap_ok k a l -> quiet k -> size_of l <= 12 * Z.of_nat fuel -> heap_run a os l = Some (rs, l') ->
  exists k', kheap_run fuel os k = Some (rs, k') /\ heap_ok k' a l' /\ size_of l' = size_of l.
Proof.
  induction os as [|o os IH]; intros k a l rs l' Hok Hq Hf E; cbn [heap_run kheap_run] in *.
  - injection E as <- <-. by exists k.
  - destruct (heap_step a o l) as [[r l1]|] eqn:E1; [|done]. cbn [mbind option_bind] in E.
    destruct (heap_run a os l1) as [[rs1 l2]|] eqn:E2; [|done]. injection E as <- <-.
    destruct (kheap_step_ok fuel o k a l r l1 Hok Hq Hf E1) as (k1 & -> & Hok1 & Hq1 & Es). cbn [mbind option_bind].
    destruct (IH k1 a l1 rs1 l2 Hok1 Hq1 ltac:(lia) E2) as (k2 & -> & Hok2 & Es2). exists k2.
    split; [done|]. split; [done|]. lia.
Qed.

Lemma CoCreateKheap_ok (heap : Z) (k : kernel) :
  0 < heap -> heap mod 4 = 0 -> heap + 200 < 2 ^ 32 -> heap_ok (CoCreateKheap heap k) heap [(false, 200)].
Proof.
  intros H0 Hm Hb. assert (u32 (heap + KHEAP_SIZE * 4) = heap + 200) as E by (apply Z.mod_small; unfold KHEAP_SIZE; lia).
  split; try done.
  - by repeat constructor.
  - cbn [seg nextfree headtag tag]. unfold CoCreateKheap. repeat split; words.
Qed.

(** C11: The kernel heap behaves as the list of its blocks: from its creation
    every sequence of allocations, releases and writes of clients that keep to
    what they were given ends, with the addresses of first fit. The blocks fill
    the heap at all times, two free blocks are never neighbours, and when all
    is released the heap is one free block again. *)
Theorem kernel_heap_refines (heap : Z) (fuel : nat) (k : kernel) (os : list heap_call) (rs : list Z) (l : list (bool * Z)) :
  0 < heap -> heap mod 4 = 0 -> heap + 200 < 2 ^ 32 -> quiet k -> (17 <= fuel)%nat ->
  heap_run heap os [(false, 200)] = Some (rs, l) ->
  exists k', kheap_run fuel os (CoCreateKheap heap k) = Some (rs, k') /\
    heap_ok k' heap l /\ size_of l = 200 /\ (Forall (fun b => b.1 = false) l -> l = [(false, 200)]).
Proof.
  intros H0 Hm Hb Hq Hf E. pose proof (CoCreateKheap_ok heap k H0 Hm Hb) as Hok.
  destruct (kheap_run_ok fuel os (CoCreateKheap heap k) heap _ rs l Hok) as (k' & Ek & Hok' & Es); try done.
  { cbn. lia. }
  exists k'. split; [done|]. split; [done|]. split; [done|]. intros Hl.
  pose proof (hp_apart _ _ _ Hok') as Hap. destruct l as [|[u s] l]; [done|].
  apply list.Forall_cons in Hl as [Hu Hl]. cbn in Hu. subst u. destruct l as [|[v t] l].
  - cbn in Es. do 2 f_equal. lia.
  - apply list.Forall_cons in Hl as [Hv _]. cbn in Hv. subst v. by destruct Hap as [_ [? _]].
Qed.
End clients.

(** A kernel whose timers do nothing. *)
#[local] Instance heap_port : Port := coos 7 (fun _ k => Some k) 20.

Lemma kernel_heap_refines_witness :
  exists k', kheap_run 17 [Malloc 10; Malloc 30; Malloc 200; Store 268436009 7; Release 268436008; Malloc 4; Release 268436028; Release 268436008]
      (CoCreateKheap 268436000 kernel_zero) = Some ([268436008; 268436028; 0; 0; 0; 268436008; 0; 0], k') /\
    heap_ok k' 268436000 [(false, 200)] /\ size_of [(false, 200)] = 200 /\
    (Forall (fun b => b.1 = false) [(false, 200)] -> [(false, 200)] = [(false, 200)]).
Proof.
  apply (kernel_heap_refines 268436000 17 kernel_zero
    [Malloc 10; Malloc 30; Malloc 200; Store 268436009 7; Release 268436008; Malloc 4; Release 268436028; Release 268436008]
    [268436008; 268436028; 0; 0; 0; 268436008; 0; 0] [(false, 200)]).
  - lia.
  - reflexivity.
  - lia.
  - split; [done|]. split; [done|]. by left.
  - lia.
  - vm_compute. reflexivity.
Defined.

(** A request near the top of the range wraps around: the block that is handed
    out has no room for a single byte, and its free neighbour overlaps it. *)
Lemma huge_request_wraps : block_size 4294967295 = 8 /\
  (fst <$> CoKmalloc 17 4294967295 (CoCreateKheap 268436000 kernel_zero)) = Some 268436008 /\
  (kFMB ∘ snd <$> CoKmalloc 17 4294967295 (CoCreateKheap 268436000 kernel_zero)) = Some 268436008.
Proof. by vm_compute. Qed.
