(* ===== verification/CoObjects.v ===== *)
(** * The kernel's objects behave as counters, cells and queues

    Semaphores, mailboxes and mail queues (CoOS/kernel/event.c, sem.c, mbox.c,
    queue.c) of an application that creates, uses and deletes any number of
    them: as long as nobody has to wait they behave, independently of each
    other, as bounded counters, as cells for one mail, and as bounded queues of
    mails. *)

From stdpp Require Import gmap.
From S2P Require Import Prelude Dll CoTypes CoSched CoInv CoPreempt CoCore CoTask.
From S2P Require Import CoSync CoFlags CoTimer CoService CoRun CoTick CoCalls CoLife.
From S2P Require Import CoMem.

(** ** The abstract objects *)

(** A queue also has its control block, and its array of [cap] words at
    [start]. *)
Inductive object :=
  | Sem (n max : Z)
  | Mbox (mail : option Z)
  | MailQueue (q start cap : Z) (l : list Z).

(** The event blocks in the order they will be handed out, the objects by
    their identifiers, and the queue blocks in use. *)
Record world := mk_world {
  free_ids : list Z;
  objects : gmap Z object;
  claimed : list Z
}.
#[export] Instance eta_world : Eta world := fun w => mk_world (free_ids w) (objects w) (claimed w).

Inductive object_call :=
  | CreateSem (initCnt maxCnt sortType : Z)
  | CreateMbox (sortType : Z)
  | CreateQueue (start size sortType : Z)
  | DelSem (id opt : Z)
  | DelMbox (id opt : Z)
  | DelQueue (id opt : Z)
  | PostSem (id : Z)
  | PostMail (id mail : Z)
  | PostQueueMail (id mail : Z)
  | AcceptSem (id : Z)
  | AcceptMail (id : Z)
  | AcceptQueueMail (id : Z)
  | PendSem (id timeout : Z)
  | PendMail (id timeout : Z)
  | PendQueueMail (id timeout : Z).

Definition good_sort (sortType : Z) : bool :=
  (sortType =? EVENT_SORT_TYPE_FIFO) || (sortType =? EVENT_SORT_TYPE_PRIO).
Definition good_opt (opt : Z) : bool := (opt =? OPT_DEL_NO_PEND) || (opt =? OPT_DEL_ANYWAY).

(** A new object on the next event block. *)
Definition create (o : object) (w : world) : (Z * Z) * world :=
  match free_ids w with
  | [] => ((0, E_CREATE_FAIL), w)
  | e :: fre => ((0, e), mk_world fre (<[e := o]> (objects w)) (claimed w))
  end.

Definition put_object (e : Z) (o : object) (w : world) : world := w <| objects ::= <[e := o]> |>.

Definition remove_object (e : Z) (w : world) : world :=
  mk_world (e :: free_ids w) (delete e (objects w)) (claimed w).

(** The first queue block that is not in use. *)
Definition next_queue (w : world) : option Z :=
  List.find (fun i => negb (bool_decide (i ∈ claimed w))) (seqZ 0 CFG_MAX_QUEUE).

(** The words of the arrays of the queues. *)
Definition owns (o : object) (a : Z) : Prop :=
  match o with MailQueue _ s c _ => s <= a < s + 4 * c | _ => False end.

Definition array_free (start size : Z) (w : world) : Prop :=
  map_Forall (fun _ o => match o with
    | MailQueue _ s c _ => s + 4 * c <= start \/ start + 4 * size <= s
    | _ => True
    end) (objects w).

#[export] Instance array_free_dec start size w : Decision (array_free start size w).
Proof. apply map_Forall_dec. intros e [| |]; apply _. Defined.

(** Taking something: the result, the error code, and the object after it. *)
Definition take (o : object) : option (Z * object) :=
  match o with
  | Sem n max => if 0 <? n then Some (0, Sem (n - 1) max) else None
  | Mbox (Some m) => Some (m, Mbox None)
  | Mbox None => None
  | MailQueue q s c (m :: l) => Some (m, MailQueue q s c l)
  | MailQueue q s c [] => None
  end.

Definition empty_code (o : object) : Z :=
  match o with Sem _ _ => E_SEM_EMPTY | Mbox _ => E_MBOX_EMPTY | MailQueue _ _ _ _ => E_QUEUE_EMPTY end.

(** Giving something: the object after it, or the error code. *)
Definition give (m : Z) (o : object) : object + Z :=
  match o with
  | Sem n max => if n =? max then inr E_SEM_FULL else inl (Sem (n + 1) max)
  | Mbox None => inl (Mbox (Some m))
  | Mbox (Some _) => inr E_MBOX_FULL
  | MailQueue q s c l =>
      if Z.of_nat (length l) =? c then inr E_QUEUE_FULL else inl (MailQueue q s c (l ++ [m]))
  end.

Definition kind (o : object) : event_type :=
  match o with
  | Sem _ _ => EVENT_TYPE_SEM | Mbox _ => EVENT_TYPE_MBOX | MailQueue _ _ _ _ => EVENT_TYPE_QUEUE
  end.

(** The object of an identifier, of the kind the call is for. *)
Definition object_of (type : event_type) (id : Z) (w : world) : option object :=
  o ← objects w !! id; if bool_decide (kind o = type) then Some o else None.

Definition post_step (type : event_type) (id m : Z) (w : world) : (Z * Z) * world :=
  match object_of type id w with
  | None => ((0, E_INVALID_ID), w)
  | Some o =>
      match give m o with inl o' => ((0, E_OK), put_object id o' w) | inr err => ((0, err), w) end
  end.

Definition accept_step (type : event_type) (id : Z) (w : world) : (Z * Z) * world :=
  match object_of type id w with
  | None => ((0, E_INVALID_ID), w)
  | Some o =>
      match take o with
      | Some (m, o') => ((m, E_OK), put_object id o' w)
      | None => ((0, empty_code o), w)
      end
  end.

(** A pend on an object that has nothing makes the task wait. *)
Definition pend_step (type : event_type) (id : Z) (w : world) : option ((Z * Z) * world) :=
  match object_of type id w with
  | None => Some ((0, E_INVALID_ID), w)
  | Some o =>
      match take o with
      | Some (m, o') => Some ((m, E_OK), put_object id o' w)
      | None => None
      end
  end.

Definition release_queue (o : object) (w : world) : world :=
  match o with
  | MailQueue q _ _ _ => w <| claimed ::= List.filter (fun i => negb (i =? q)) |>
  | _ => w
  end.

Definition del_step (type : event_type) (id opt : Z) (w : world) : option ((Z * Z) * world) :=
  match object_of type id w with
  | None => Some ((0, E_INVALID_ID), w)
  | Some o =>
      if good_opt opt then Some ((0, E_OK), release_queue o (remove_object id w)) else None
  end.

(** One call; [None] is a call that waits, or an application that breaks its
    side: counts and sizes outside their types, overlapping arrays, an option of
    deletion that does not exist. *)
Definition world_step (c : object_call) (w : world) : option ((Z * Z) * world) :=
  match c with
  | CreateSem n max s =>
      if (0 <=? n) && (max <? 2 ^ 16) then
        Some (if (max <? n) || negb (good_sort s) then ((0, E_CREATE_FAIL), w)
              else create (Sem n max) w)
      else None
  | CreateMbox s => Some (create (Mbox None) w)
  | CreateQueue start size s =>
      if decide (0 <= start /\ 0 <= size < 2 ^ 16 /\ array_free start size w) then
        Some (if (start =? 0) || (size =? 0) then ((0, E_CREATE_FAIL), w)
              else match next_queue w with
                   | None => ((0, E_CREATE_FAIL), w)
                   | Some q => create (MailQueue q start size []) (w <| claimed ::= cons q |>)
                   end)
      else None
  | DelSem id opt => del_step EVENT_TYPE_SEM id opt w
  | DelMbox id opt => del_step EVENT_TYPE_MBOX id opt w
  | DelQueue id opt => del_step EVENT_TYPE_QUEUE id opt w
  | PostSem id => Some (post_step EVENT_TYPE_SEM id 0 w)
  | PostMail id m => Some (post_step EVENT_TYPE_MBOX id m w)
  | PostQueueMail id m => Some (post_step EVENT_TYPE_QUEUE id m w)
  | AcceptSem id => Some (accept_step EVENT_TYPE_SEM id w)
  | AcceptMail id => Some (accept_step EVENT_TYPE_MBOX id w)
  | AcceptQueueMail id => Some (accept_step EVENT_TYPE_QUEUE id w)
  | PendSem id _ => pend_step EVENT_TYPE_SEM id w
  | PendMail id _ => pend_step EVENT_TYPE_MBOX id w
  | PendQueueMail id _ => pend_step EVENT_TYPE_QUEUE id w
  end.

Fixpoint world_run (cs : list object_call) (w : world) : option (list (Z * Z) * world) :=
  match cs with
  | [] => Some ([], w)
  | c :: cs =>
      '(r, w) ← world_step c w;
      '(rs, w) ← world_run cs w;
      Some (r :: rs, w)
  end.

(** ** The calls on the kernel *)

Section calls.
Context `{Port}.

Definition no_value (r : option (Z * kernel)) : option ((Z * Z) * kernel) :=
  '(err, k) ← r; Some ((0, err), k).

Definition object_step (c : object_call) (k : kernel) : option ((Z * Z) * kernel) :=
  match c with
  | CreateSem n max s => no_value (CoCreateSem n max s k)
  | CreateMbox s => no_value (CoCreateMbox s k)
  | CreateQueue start size s => no_value (CoCreateQueue start size s k)
  | DelSem id opt => no_value (CoDelSem id opt k)
  | DelMbox id opt => no_value (CoDelMbox id opt k)
  | DelQueue id opt => no_value (CoDelQueue id opt k)
  | PostSem id => no_value (CoPostSem id k)
  | PostMail id m => no_value (CoPostMail id m k)
  | PostQueueMail id m => no_value (CoPostQueueMail id m k)
  | AcceptSem id => no_value (CoAcceptSem id k)
  | AcceptMail id => CoAcceptMail id k
  | AcceptQueueMail id => CoAcceptQueueMail id k
  | PendSem id timeout =>
      '(r, k) ← CoPendSem id timeout k;
      match r with Returned err => Some ((0, err), k) | Waits => None end
  | PendMail id timeout =>
      '(r, k) ← CoPendMail id timeout k;
      match r with Returned r => Some (r, k) | Waits => None end
  | PendQueueMail id timeout =>
      '(r, k) ← CoPendQueueMail id timeout k;
      match r with Returned r => Some (r, k) | Waits => None end
  end.

Fixpoint object_run (cs : list object_call) (k : kernel) : option (list (Z * Z) * kernel) :=
  match cs with
  | [] => Some ([], k)
  | c :: cs =>
      '(r, k) ← object_step c k;
      '(rs, k) ← object_run cs k;
      Some (r :: rs, k)
  end.
End calls.

(** ** Objects in the kernel *)

Definition is_event (e : Z) : Prop := 0 <= e < CFG_MAX_EVENT.
Definition is_queue (q : Z) : Prop := 0 <= q < CFG_MAX_QUEUE.

(** The mails of a queue, from its head around its array. *)
Record ring_holds (k : kernel) (b : QCB) (l : list Z) : Prop := {
  ring_head : 0 <= q_head b < qMaxSize b /\ qMaxSize b < 2 ^ 16;
  ring_tail : q_tail b = (q_head b + Z.of_nat (length l)) mod qMaxSize b;
  ring_size : qSize b = Z.of_nat (length l) /\ qSize b <= qMaxSize b;
  ring_mails : forall i m, l !! i = Some m ->
    ld k (qStart b + 4 * ((q_head b + Z.of_nat i) mod qMaxSize b)) = m
}.

(** What the event block, the queue block and the memory say of an object. *)
Definition state_of (k : kernel) (e : Z) (o : object) : Prop :=
  match o with
  | Sem n max => eventCounter (ecb k e) = n /\ initialEventCounter (ecb k e) = max /\
      0 <= n <= max /\ max < 2 ^ 16
  | Mbox None => eventCounter (ecb k e) = 0
  | Mbox (Some m) => eventCounter (ecb k e) = 1 /\ eventPtr (ecb k e) = EV_MAIL m
  | MailQueue q s c l => eventPtr (ecb k e) = EV_QUEUE q /\ is_queue q /\ q_id (qcb k q) = q /\
      qStart (qcb k q) = s /\ qMaxSize (qcb k q) = c /\ ring_holds k (qcb k q) l
  end.

Definition represents (k : kernel) (e : Z) (o : object) : Prop :=
  is_event e /\ eventType (ecb k e) = kind o /\ eventTCBList (ecb k e) = None /\ state_of k e o.

(** Two objects share neither a queue block nor memory. *)
Definition apart (o1 o2 : object) : Prop :=
  match o1, o2 with
  | MailQueue q1 s1 c1 _, MailQueue q2 s2 c2 _ =>
      q1 <> q2 /\ (s1 + 4 * c1 <= s2 \/ s2 + 4 * c2 <= s1)
  | _, _ => True
  end.

(** The free event blocks, linked through [eventPtr]. *)
Fixpoint free_events (k : kernel) (head : option Z) (l : list Z) : Prop :=
  match l with
  | [] => head = None
  | e :: l => head = Some e /\ is_event e /\ eventType (ecb k e) = EVENT_TYPE_INVALID /\
      free_events k (next_free (eventPtr (ecb k e))) l
  end.

Record objects_ok (w : world) (k : kernel) : Prop := {
  ob_quiet : quiet k;
  ob_task : OSIntNesting (sch k) = 0;
  ob_ids : forall e, is_event e -> ecb_id (ecb k e) = e;
  ob_free : free_events k (FreeEventList (evs k)) (free_ids w);
  ob_fresh : NoDup (free_ids w) /\ forall e, e ∈ free_ids w -> objects w !! e = None;
  ob_none : forall e, is_event e -> objects w !! e = None ->
    eventType (ecb k e) = EVENT_TYPE_INVALID;
  ob_some : forall e o, objects w !! e = Some o -> represents k e o;
  ob_apart : forall e1 e2 o1 o2, objects w !! e1 = Some o1 -> objects w !! e2 = Some o2 ->
    e1 <> e2 -> apart o1 o2;
  ob_claimed : forall q, is_queue q -> has_bit (QueueIDVessel (evs k)) q = bool_decide (q ∈ claimed w);
  ob_users : forall e q s c l, objects w !! e = Some (MailQueue q s c l) -> q ∈ claimed w
}.

(** ** Changes of the kernel state *)

Lemma ecb_upd k e f e' : ecb (upd_ecb e f k) e' = if decide (e' = e) then f (ecb k e) else ecb k e'.
Proof.
  unfold ecb at 1, upd_ecb. cbn. case_decide as He; [subst; by rewrite lookup_insert_eq|].
  by rewrite lookup_insert_ne by congruence.
Qed.

Lemma qcb_upd k q f q' : qcb (upd_qcb q f k) q' = if decide (q' = q) then f (qcb k q) else qcb k q'.
Proof.
  unfold qcb at 1, upd_qcb. cbn. case_decide as Hq; [subst; by rewrite lookup_insert_eq|].
  by rewrite lookup_insert_ne by congruence.
Qed.

(** The other objects only need their own blocks and words. *)
Lemma represents_frame k k' e o :
  ecb k' e = ecb k e ->
  (forall q s c l, o = MailQueue q s c l -> qcb k' q = qcb k q /\
     forall a, s <= a < s + 4 * c -> ld k' a = ld k a) ->
  represents k e o -> represents k' e o.
Proof.
  intros He Hq (H1 & H2 & H3 & H4). split; [done|]. rewrite He. split; [done|]. split; [done|].
  destruct o as [n max|[m|]|q s c l]; cbn [state_of] in *; rewrite ?He; try done.
  destruct (Hq q s c l eq_refl) as [Hb Hm]. rewrite Hb.
  destruct H4 as (Hp & Hiq & Hid & Hs & Hc & [R1 R2 R3 R4]).
  split; [done|]. split; [done|]. split; [done|]. split; [done|]. split; [done|]. split; [done|done|done|].
  intros i m Hi. rewrite Hm; [by apply R4|].
  pose proof (Z.mod_pos_bound (q_head (qcb k q) + Z.of_nat i) (qMaxSize (qcb k q)) ltac:(lia)). lia.
Qed.

Lemma free_events_frame k k' l : (forall e, e ∈ l -> ecb k' e = ecb k e) ->
  forall h, free_events k h l -> free_events k' h l.
Proof.
  induction l as [|e l IH]; intros Hf h; [done|]. cbn [free_events].
  rewrite (Hf e) by (apply elem_of_cons; by left). intros (H1 & H2 & H3 & H4). split; [done|].
  split; [done|]. split; [done|]. apply IH; [|done]. intros x Hx. apply Hf, elem_of_cons. by right.
Qed.

(** What a call on one object changes: the block of its event, its queue block
    and its words. *)
Definition touches_only (e : Z) (o : object) (k k' : kernel) : Prop :=
  sch k' = sch k /\ ServiceReq k' = ServiceReq k /\
  FreeEventList (evs k') = FreeEventList (evs k) /\ QueueIDVessel (evs k') = QueueIDVessel (evs k) /\
  (forall e', e' <> e -> ecb k' e' = ecb k e') /\ ecb_id (ecb k' e) = ecb_id (ecb k e) /\
  (forall q, (forall s c l, o <> MailQueue q s c l) -> qcb k' q = qcb k q) /\
  (forall a, ~ owns o a -> ld k' a = ld k a).

Definition same_place (o o' : object) : Prop :=
  match o, o' with
  | MailQueue q s c _, MailQueue q' s' c' _ => q = q' /\ s = s' /\ c = c'
  | MailQueue _ _ _ _, _ | _, MailQueue _ _ _ _ => False
  | _, _ => True
  end.

Lemma same_place_apart o o' x : same_place o o' -> apart o x -> apart o' x.
Proof. destruct o, o', x; cbn; try done. by intros (<- & <- & <-). Qed.

Lemma apart_sym o1 o2 : apart o1 o2 -> apart o2 o1.
Proof. destruct o1, o2; cbn; try done. intros [? ?]. split; [congruence|tauto]. Qed.

Lemma objects_put w k e o o' k' :
  objects_ok w k -> objects w !! e = Some o -> touches_only e o k k' -> same_place o o' ->
  represents k' e o' -> objects_ok (put_object e o' w) k'.
Proof.
  intros [H1 H2 H3 H4 [H5 H5'] H6 H7 H8 H9 H10] Ho (T1 & T2 & T3 & T4 & T5 & T6 & T7 & T8) Hp Hr.
  assert (forall e' x, objects w !! e' = Some x -> e' <> e -> represents k' e' x) as Hother.
  { intros e' x Hx Hne. apply (represents_frame k); [by apply T5| |by apply H7].
    intros q s c l ->. pose proof (H8 e e' o _ Ho Hx ltac:(congruence)) as Hap. split.
    - apply T7. intros s' c' l' ->. by destruct Hap.
    - intros a Ha. apply T8. destruct o; cbn in *; try tauto. lia. }
  unfold put_object. split; cbn [free_ids objects claimed update updater].
  - by apply (quiet_sch k).
  - by rewrite T1.
  - intros e' He'. destruct (decide (e' = e)) as [->|]; [rewrite T6|rewrite T5 by done]; by apply H3.
  - rewrite T3. apply (free_events_frame k); [|done]. intros x Hx. apply T5. intros ->.
    by rewrite (H5' e Hx) in Ho.
  - split; [done|]. intros x Hx. rewrite lookup_insert_ne; [by apply H5'|]. intros <-.
    by rewrite (H5' e Hx) in Ho.
  - intros x Hx. destruct (decide (x = e)) as [->|Hne]; [by rewrite lookup_insert_eq|].
    rewrite lookup_insert_ne by done. rewrite T5 by done. by apply H6.
  - intros x y. destruct (decide (x = e)) as [->|Hne].
    + rewrite lookup_insert_eq. by intros [= <-].
    + rewrite lookup_insert_ne by done. intros Hx. by apply Hother.
  - intros e1 e2 o1 o2. destruct (decide (e1 = e)) as [->|N1], (decide (e2 = e)) as [->|N2];
      rewrite ?lookup_insert_eq, ?lookup_insert_ne by done.
    + done.
    + intros [= <-] E2 Hne. eapply same_place_apart; [done|]. by apply (H8 e e2).
    + intros E1 [= <-] Hne. apply apart_sym. eapply same_place_apart; [done|]. by apply (H8 e e1).
    + apply H8.
  - intros q Hq. rewrite T4. by apply H9.
  - intros x q s c l. destruct (decide (x = e)) as [->|Hne].
    + rewrite lookup_insert_eq. intros [= ->]. destruct o; try done.
      destruct Hp as (-> & -> & ->). by apply (H10 e _ _ _ _ Ho).
    + rewrite lookup_insert_ne by done. apply H10.
Qed.

(** ** The ring of a queue *)

Lemma wrap_add h i c : 0 <= h < c -> 0 <= i <= c ->
  (h + i) mod c = if h + i <? c then h + i else h + i - c.
Proof.
  intros Hh Hi. destruct (Z.ltb_spec (h + i) c); [apply Z.mod_small; lia|].
  symmetry. apply (Z.mod_unique_pos _ _ 1); lia.
Qed.

Lemma ring_next_index h c : 0 <= h < c -> c < 2 ^ 16 ->
  (let n := u16 (h + 1) in if n =? c then 0 else n) = (h + 1) mod c.
Proof.
  intros Hh Hc. cbv zeta. rewrite u16_small, wrap_add by lia.
  destruct (Z.eqb_spec (h + 1) c), (Z.ltb_spec (h + 1) c); lia.
Qed.

Lemma ring_ext k k' b l :
  (forall a, ld k' a = ld k a) -> ring_holds k b l -> ring_holds k' b l.
Proof. intros Hm [R1 R2 R3 R4]. split; [done..|]. intros i m. rewrite Hm. apply R4. Qed.

Lemma ring_get k b m l :
  ring_holds k b (m :: l) ->
  ld k (qStart b + 4 * q_head b) = m /\ ring_holds k (queue_get b) l.
Proof.
  intros [[Hh Hc] Ht [Hs Hle] Hm]. cbn [length] in *. split.
  - rewrite <- (Hm 0%nat m eq_refl). f_equal. rewrite Z.add_0_r, Z.mod_small; lia.
  - unfold queue_get. rewrite ring_next_index by done. rewrite Hs, u16_small by lia.
    pose proof (Z.mod_pos_bound (q_head b + 1) (qMaxSize b) ltac:(lia)) as Hb.
    split; cbn [q_head q_tail qSize qMaxSize qStart update updater].
    + by split.
    + rewrite Ht, Zplus_mod_idemp_l. f_equal. lia.
    + lia.
    + intros i x Hi. rewrite Zplus_mod_idemp_l. rewrite <- (Hm (S i) x Hi). do 4 f_equal. lia.
Qed.

Lemma ring_put k b m l :
  ring_holds k b l -> Z.of_nat (length l) < qMaxSize b ->
  ring_holds (st (qStart b + 4 * q_tail b) m k) (queue_put b) (l ++ [m]).
Proof.
  intros [[Hh Hc] Ht [Hs Hle] Hm] Hroom.
  assert (0 <= q_tail b < qMaxSize b) as Htb by (rewrite Ht; apply Z.mod_pos_bound; lia).
  unfold queue_put. rewrite ring_next_index by done. rewrite Hs, u16_small by lia.
  split; cbn [q_head q_tail qSize qMaxSize qStart update updater]; rewrite ?length_app; cbn [length].
  - by split.
  - rewrite Ht, Zplus_mod_idemp_l. f_equal. lia.
  - lia.
  - intros i x Hi. rewrite ld_st. destruct (decide (i < length l)%nat) as [Hil|Hil].
    + rewrite lookup_app_l in Hi by done. rewrite decide_False; [exact (Hm i x Hi)|].
      intros E. rewrite Ht in E.
      rewrite !wrap_add in E by lia.
      destruct (Z.ltb_spec (q_head b + Z.of_nat i) (qMaxSize b)),
        (Z.ltb_spec (q_head b + Z.of_nat (length l)) (qMaxSize b)); lia.
    + assert (i = length l) as ->.
      { apply lookup_lt_Some in Hi. rewrite length_app in Hi. cbn in Hi. lia. }
      rewrite lookup_app_r, Nat.sub_diag in Hi by lia. injection Hi as ->.
      rewrite Ht. by rewrite decide_True.
Qed.

(** ** Taking and giving in the kernel *)

Definition taken (e : Z) (o : object) (k : kernel) : kernel :=
  match o with
  | Sem _ _ => upd_ecb e dec_counter k
  | Mbox _ => take_mail e k
  | MailQueue q _ _ _ => upd_qcb q queue_get k
  end.

Definition given (e : Z) (o : object) (m : Z) (k : kernel) : kernel :=
  match o with
  | Sem _ _ => upd_ecb e inc_counter k
  | Mbox _ => upd_ecb e (fun b => b <| eventPtr := EV_MAIL m |> <| eventCounter := 1 |>) k
  | MailQueue q _ _ _ =>
      upd_qcb q queue_put (st (qStart (qcb k q) + 4 * q_tail (qcb k q)) m k)
  end.

Lemma touches_ecb e o f k : ecb_id (f (ecb k e)) = ecb_id (ecb k e) -> touches_only e o k (upd_ecb e f k).
Proof.
  intros Hid. repeat split; try done.
  - intros e' Hne. by rewrite ecb_upd, decide_False.
  - by rewrite ecb_upd, decide_True.
Qed.

Lemma touches_qcb e q s c l f k : touches_only e (MailQueue q s c l) k (upd_qcb q f k).
Proof.
  repeat split; try done. intros q' Hq'. rewrite qcb_upd, decide_False; [done|].
  intros ->. by apply (Hq' s c l).
Qed.

Lemma taken_ok w k e o m o' :
  objects_ok w k -> objects w !! e = Some o -> take o = Some (m, o') ->
  objects_ok (put_object e o' w) (taken e o k).
Proof.
  intros Hok Ho Ht. destruct (ob_some _ _ Hok e o Ho) as (R1 & R2 & R3 & R4).
  destruct o as [n max|[x|]|q s c [|x l]]; cbn [take taken] in *; try done.
  - destruct (Z.ltb_spec 0 n); [|done]. injection Ht as <- <-. destruct R4 as (<- & <- & Hn & Hmax).
    eapply (objects_put w k e); [exact Hok|exact Ho|by apply touches_ecb|done|].
    split; [done|]. rewrite ecb_upd, decide_True by done. cbn [state_of kind].
    rewrite ecb_upd, decide_True by done. unfold dec_counter. cbn. rewrite u16_small by lia.
    split; [done|]. split; [done|]. split; [done|]. split; [done|]. lia.
  - injection Ht as <- <-.
    eapply (objects_put w k e); [exact Hok|exact Ho|by apply touches_ecb|done|].
    split; [done|]. unfold take_mail. rewrite ecb_upd, decide_True by done. cbn [state_of kind].
    rewrite ecb_upd, decide_True by done. by cbn.
  - injection Ht as <- <-. destruct R4 as (Q1 & Q2 & Q3 & Q4 & Q5 & Q6).
    eapply (objects_put w k e); [exact Hok|exact Ho|apply touches_qcb|done|].
    split; [done|]. split; [done|]. split; [done|]. cbn [state_of].
    rewrite qcb_upd, decide_True by done. split; [done|]. split; [done|]. split; [done|].
    split; [done|]. split; [done|]. by apply (ring_ext k), (ring_get k _ x).
Qed.

Lemma given_ok w k e o m o' :
  objects_ok w k -> objects w !! e = Some o -> give m o = inl o' ->
  objects_ok (put_object e o' w) (given e o m k).
Proof.
  intros Hok Ho Ht. destruct (ob_some _ _ Hok e o Ho) as (R1 & R2 & R3 & R4).
  destruct o as [n max|[x|]|q s c l]; cbn [give given] in *; try done.
  - destruct (Z.eqb_spec n max); [done|]. injection Ht as <-. destruct R4 as (<- & <- & Hn & Hmax).
    eapply (objects_put w k e); [exact Hok|exact Ho|by apply touches_ecb|done|].
    split; [done|]. rewrite ecb_upd, decide_True by done. cbn [state_of kind].
    rewrite ecb_upd, decide_True by done. unfold inc_counter. cbn. rewrite u16_small by lia.
    split; [done|]. split; [done|]. split; [done|]. split; [done|]. lia.
  - injection Ht as <-.
    eapply (objects_put w k e); [exact Hok|exact Ho|by apply touches_ecb|done|].
    split; [done|]. rewrite ecb_upd, decide_True by done. cbn [state_of kind].
    rewrite ecb_upd, decide_True by done. by cbn.
  - destruct (Z.eqb_spec (Z.of_nat (length l)) c); [done|]. injection Ht as <-.
    destruct R4 as (Q1 & Q2 & Q3 & Q4 & Q5 & Q6). pose proof Q6 as [[Qh Qc] Qt [Qs Qle] _].
    eapply (objects_put w k e); [exact Hok|exact Ho| |done|].
    + repeat split; try done.
      * intros q' Hq'. rewrite qcb_upd, decide_False; [done|]. intros ->. by apply (Hq' s c l).
      * intros a Ha. change (ld (st (qStart (qcb k q) + 4 * q_tail (qcb k q)) m k) a = ld k a).
        rewrite ld_st, decide_False; [done|]. intros ->. apply Ha. cbn [owns].
        assert (0 <= q_tail (qcb k q) < qMaxSize (qcb k q))
          by (rewrite Qt; apply Z.mod_pos_bound; lia). lia.
    + split; [done|]. split; [done|]. split; [done|]. cbn [state_of].
      rewrite qcb_upd, decide_True by done.
      change (qcb (st _ m k) q) with (qcb k q).
      split; [done|]. split; [done|]. split; [done|]. split; [done|]. split; [done|].
      eapply ring_ext; [|apply (ring_put k (qcb k q) m l Q6); lia]. done.
Qed.
