(* ===== verification/CoObjectCalls.v ===== *)
(** * The calls on the kernel's objects

    Each call of CoOS/kernel/sem.c, mbox.c and queue.c takes a kernel state for
    a world of abstract objects (CoObjects.v) to a state for the world after
    the call, with the result the world gives. *)

From stdpp Require Import gmap.
From S2P Require Import Prelude Dll CoTypes CoSched CoInv CoPreempt CoCore CoTask.
From S2P Require Import CoSync CoFlags CoTimer CoService CoRun CoTick CoCalls CoLife.
From S2P Require Import CoMem CoObjects.

(** ** Post, accept and pend *)

Section specs.
Context `{Port}.

Lemma object_of_some type id w o :
  object_of type id w = Some o -> objects w !! id = Some o /\ kind o = type.
Proof.
  unfold object_of. destruct (objects w !! id) as [x|]; [|done]. cbn [mbind option_bind].
  case_bool_decide; [|done]. by intros [= <-].
Qed.

Lemma event_of_ok w k type id :
  objects_ok w k -> type <> EVENT_TYPE_INVALID ->
  event_of type id k = match object_of type id w with Some _ => Some id | None => None end.
Proof.
  intros Hok Ht. unfold event_of, ecb_ref, object_of.
  destruct (decide (is_event id)) as [Hid|Hid].
  - assert ((0 <=? id) && (id <? CFG_MAX_EVENT) = true) as -> by (unfold is_event in Hid; lia).
    destruct (objects w !! id) as [o|] eqn:Ho; cbn [mbind option_bind].
    + destruct (ob_some _ _ Hok id o Ho) as (_ & R2 & _). rewrite R2.
      by case_bool_decide.
    + rewrite (ob_none _ _ Hok id Hid Ho). by rewrite bool_decide_eq_false_2 by congruence.
  - assert ((0 <=? id) && (id <? CFG_MAX_EVENT) = false) as -> by (unfold is_event in Hid; lia).
    destruct (objects w !! id) as [o|] eqn:Ho; [|done].
    by destruct (ob_some _ _ Hok id o Ho) as (R1 & _).
Qed.

(** A state under the lock is unlocked to the state itself. *)
Lemma unlock_ok w k : objects_ok w k -> OsSchedUnlock (OsSchedLock k) = Some k.
Proof. intros Hok. apply unlock_quiet, Hok. Qed.

(** What the tests of a call see of an object. *)
Lemma sees w k e o :
  objects_ok w k -> objects w !! e = Some o ->
  match o with
  | Sem n max => eventCounter (ecb k e) = n /\ initialEventCounter (ecb k e) = max
  | Mbox (Some m) => eventCounter (ecb k e) = 1 /\ mail_of (ecb k e) = m
  | Mbox None => eventCounter (ecb k e) = 0
  | MailQueue q s c l => queue_of (ecb k e) = Some q /\ qSize (qcb k q) = Z.of_nat (length l) /\
      qMaxSize (qcb k q) = c /\ match l with m :: _ => queue_front k q = m | [] => True end
  end.
Proof.
  intros Hok Ho. destruct (ob_some _ _ Hok e o Ho) as (_ & _ & _ & R4).
  destruct o as [n max|[m|]|q s c l]; cbn [state_of] in R4.
  - by destruct R4 as (-> & -> & _).
  - destruct R4 as (-> & E). unfold mail_of. by rewrite E.
  - done.
  - destruct R4 as (E & _ & _ & _ & Hc & Hr). unfold queue_of. rewrite E. split; [done|].
    split; [apply (ring_size _ _ _ Hr)|]. split; [done|].
    destruct l as [|m l]; [done|]. by apply (ring_get k _ m l).
Qed.

(** The result of a call: the value and the code, in a state for the world. *)
Definition answers_as (r : option ((Z * Z) * kernel)) (v : Z * Z) (w : world) : Prop :=
  exists k', r = Some (v, k') /\ objects_ok w k'.

Lemma accept_ok w k type id c :
  objects_ok w k ->
  (type, c) ∈ [(EVENT_TYPE_SEM, AcceptSem id); (EVENT_TYPE_MBOX, AcceptMail id);
               (EVENT_TYPE_QUEUE, AcceptQueueMail id)] ->
  answers_as (object_step c k) (fst (accept_step type id w)) (snd (accept_step type id w)).
Proof.
  intros Hok Hc. pose proof (unlock_ok w k Hok) as Hun. unfold accept_step.
  assert (type <> EVENT_TYPE_INVALID) as Ht.
  { intros ->. by repeat (apply elem_of_cons in Hc as [[=]|Hc]); apply elem_of_nil in Hc. }
  pose proof (event_of_ok w k type id Hok Ht) as He.
  destruct (object_of type id w) as [o|] eqn:Eo.
  2: { exists k. split; [|done].
       repeat (apply elem_of_cons in Hc as [[= -> ->]|Hc]); [..|by apply elem_of_nil in Hc];
         cbn [object_step no_value]; unfold CoAcceptSem, CoAcceptMail, CoAcceptQueueMail; by rewrite He. }
  apply object_of_some in Eo as [Eo Hk]. pose proof (sees w k id o Hok Eo) as Hs.
  assert (forall m o', take o = Some (m, o') ->
    OsSchedUnlock (OsSchedLock (taken id o k)) = Some (taken id o k) /\
    objects_ok (put_object id o' w) (taken id o k)) as Htake.
  { intros m o' E. pose proof (taken_ok w k id o m o' Hok Eo E) as Hok'. split; [|done].
    by apply (unlock_ok (put_object id o' w)). }
  repeat (apply elem_of_cons in Hc as [[= -> ->]|Hc]); [..|by apply elem_of_nil in Hc];
    destruct o as [n max|mail|q s c l]; try done; cbn [object_step no_value];
    unfold CoAcceptSem, CoAcceptMail, CoAcceptQueueMail; rewrite He; cbv zeta.
  - change (eventCounter (ecb (OsSchedLock k) id)) with (eventCounter (ecb k id)).
    rewrite Hun. destruct Hs as [-> _]. cbn [mbind option_bind take] in *.
    destruct (Z.ltb_spec 0 n); cbn [mbind option_bind fst snd].
    + exists (taken id (Sem n max) k). split; [done|]. by apply (Htake 0).
    + by exists k.
  - change (eventCounter (ecb (OsSchedLock k) id)) with (eventCounter (ecb k id)).
    destruct mail as [m|]; cbn [take fst snd] in *.
    + destruct Hs as [-> Hm]. change (1 =? 1) with true. cbv iota.
      change (take_mail id (OsSchedLock k)) with (OsSchedLock (taken id (Mbox (Some m)) k)).
      change (mail_of (ecb (OsSchedLock k) id)) with (mail_of (ecb k id)). rewrite Hm.
      destruct (Htake m _ eq_refl) as [-> Hok']. by eexists.
    + rewrite Hs. change (0 =? 1) with false. cbv iota. rewrite Hun. by exists k.
  - destruct Hs as (Hq & Hsz & _ & Hf). rewrite Hq. cbn [mbind option_bind].
    change (qSize (qcb (OsSchedLock k) q)) with (qSize (qcb k q)). rewrite Hsz.
    destruct l as [|m l]; cbn [length take fst snd] in *.
    + change (Z.of_nat 0 =? 0) with true. cbn [negb]. rewrite Hun. by exists k.
    + destruct (Z.eqb_spec (Z.of_nat (S (length l))) 0); [lia|]. cbn [negb].
      change (upd_qcb q queue_get (OsSchedLock k)) with (OsSchedLock (taken id (MailQueue q s c (m :: l)) k)).
      change (queue_front (OsSchedLock k) q) with (queue_front k q). rewrite Hf.
      destruct (Htake m _ eq_refl) as [-> Hok']. by eexists.
Qed.

Lemma pend_ok w k type id timeout c v w' :
  objects_ok w k ->
  (type, c) ∈ [(EVENT_TYPE_SEM, PendSem id timeout); (EVENT_TYPE_MBOX, PendMail id timeout);
               (EVENT_TYPE_QUEUE, PendQueueMail id timeout)] ->
  pend_step type id w = Some (v, w') -> answers_as (object_step c k) v w'.
Proof.
  intros Hok Hc. unfold pend_step.
  assert (type <> EVENT_TYPE_INVALID) as Ht.
  { intros ->. by repeat (apply elem_of_cons in Hc as [[=]|Hc]); apply elem_of_nil in Hc. }
  pose proof (event_of_ok w k type id Hok Ht) as He.
  pose proof (ob_task _ _ Hok) as Hnest. pose proof (proj1 (ob_quiet _ _ Hok)) as Hlock.
  destruct (object_of type id w) as [o|] eqn:Eo.
  2: { intros [= <- <-]. exists k. split; [|done].
       repeat (apply elem_of_cons in Hc as [[= -> ->]|Hc]); [..|by apply elem_of_nil in Hc];
         cbn [object_step]; unfold CoPendSem, CoPendMail, CoPendQueueMail; by rewrite Hnest, He. }
  apply object_of_some in Eo as [Eo Hk]. pose proof (sees w k id o Hok Eo) as Hs.
  destruct (take o) as [[m o']|] eqn:Et; [|done]. intros [= <- <-].
  pose proof (taken_ok w k id o m o' Hok Eo Et) as Hok'.
  pose proof (unlock_ok _ _ Hok') as Hun. exists (taken id o k). split; [|exact Hok'].
  repeat (apply elem_of_cons in Hc as [[= -> ->]|Hc]); [..|by apply elem_of_nil in Hc];
    destruct o as [n max|mail|q s cap l]; try done; cbn [object_step];
    unfold CoPendSem, CoPendMail, CoPendQueueMail; rewrite Hnest, He, Hlock; cbv zeta;
    change (0 <? 0) with false; change (negb (0 =? 0)) with false; cbv iota.
  - change (eventCounter (ecb (OsSchedLock k) id)) with (eventCounter (ecb k id)).
    destruct Hs as [-> _]. cbn [take] in Et. destruct (0 <? n); [|done].
    injection Et as <- <-.
    change (upd_ecb id dec_counter (OsSchedLock k)) with (OsSchedLock (taken id (Sem n max) k)).
    by rewrite Hun.
  - change (eventCounter (ecb (OsSchedLock k) id)) with (eventCounter (ecb k id)).
    destruct mail as [x|]; [|done]. injection Et as <- <-. destruct Hs as [-> Hm].
    change (1 =? 1) with true. cbv iota.
    change (take_mail id (OsSchedLock k)) with (OsSchedLock (taken id (Mbox (Some x)) k)).
    change (mail_of (ecb (OsSchedLock k) id)) with (mail_of (ecb k id)). by rewrite Hm, Hun.
  - destruct Hs as (Hq & Hsz & _ & Hf). rewrite Hq. cbn [mbind option_bind].
    change (qSize (qcb (OsSchedLock k) q)) with (qSize (qcb k q)). rewrite Hsz.
    destruct l as [|x l]; [done|]. injection Et as <- <-. cbn [length].
    destruct (Z.eqb_spec (Z.of_nat (S (length l))) 0); [lia|]. cbn [negb].
    change (upd_qcb q queue_get (OsSchedLock k)) with (OsSchedLock (taken id (MailQueue q s cap (x :: l)) k)).
    change (queue_front (OsSchedLock k) q) with (queue_front k q). by rewrite Hf, Hun.
Qed.

(** Nobody waits for an object. *)
Lemma no_waiter w k e o : objects_ok w k -> objects w !! e = Some o -> EventTaskToRdy e k = Some k.
Proof.
  intros Hok Ho. destruct (ob_some _ _ Hok e o Ho) as (_ & _ & R3 & _).
  unfold EventTaskToRdy. by rewrite R3.
Qed.

Lemma no_waiter_locked w k e o :
  objects_ok w k -> objects w !! e = Some o -> EventTaskToRdy e (OsSchedLock k) = Some (OsSchedLock k).
Proof.
  intros Hok Ho. destruct (ob_some _ _ Hok e o Ho) as (_ & _ & R3 & _).
  unfold EventTaskToRdy. change (ecb (OsSchedLock k) e) with (ecb k e). by rewrite R3.
Qed.

Lemma post_ok w k type id m c :
  objects_ok w k ->
  (type, c) ∈ [(EVENT_TYPE_SEM, PostSem id); (EVENT_TYPE_MBOX, PostMail id m);
               (EVENT_TYPE_QUEUE, PostQueueMail id m)] ->
  answers_as (object_step c k) (fst (post_step type id m w)) (snd (post_step type id m w)).
Proof.
  intros Hok Hc. unfold post_step.
  assert (type <> EVENT_TYPE_INVALID) as Ht.
  { intros ->. by repeat (apply elem_of_cons in Hc as [[=]|Hc]); apply elem_of_nil in Hc. }
  pose proof (event_of_ok w k type id Hok Ht) as He.
  destruct (object_of type id w) as [o|] eqn:Eo.
  2: { exists k. split; [|done].
       repeat (apply elem_of_cons in Hc as [[= -> ->]|Hc]); [..|by apply elem_of_nil in Hc];
         cbn [object_step no_value]; unfold CoPostSem, CoPostMail, CoPostQueueMail; by rewrite He. }
  apply object_of_some in Eo as [Eo Hk]. pose proof (sees w k id o Hok Eo) as Hs.
  assert (forall o', give m o = inl o' ->
    EventTaskToRdy id (OsSchedLock (given id o m k)) = Some (OsSchedLock (given id o m k)) /\
    OsSchedUnlock (OsSchedLock (given id o m k)) = Some (given id o m k) /\
    objects_ok (put_object id o' w) (given id o m k)) as Hgive.
  { intros o' E. pose proof (given_ok w k id o m o' Hok Eo E) as Hok'.
    assert (objects (put_object id o' w) !! id = Some o') as Eo' by (apply lookup_insert_eq).
    split; [by apply (no_waiter_locked _ _ _ _ Hok' Eo')|]. split; [by apply (unlock_ok _ _ Hok')|done]. }
  repeat (apply elem_of_cons in Hc as [[= -> ->]|Hc]); [..|by apply elem_of_nil in Hc];
    destruct o as [n max|mail|q s cap l]; try done; cbn [object_step no_value];
    unfold CoPostSem, CoPostMail, CoPostQueueMail; rewrite He; cbv zeta.
  - destruct Hs as [-> ->]. cbn [give] in *. destruct (n =? max); cbn [mbind option_bind fst snd].
    + by exists k.
    + destruct (Hgive _ eq_refl) as (E1 & E2 & Hok').
      change (upd_ecb id inc_counter (OsSchedLock k)) with (OsSchedLock (given id (Sem n max) m k)).
      rewrite E1. cbn [mbind option_bind]. rewrite E2. by eexists.
  - cbn [give] in *. destruct mail as [x|]; cbn [fst snd].
    + destruct Hs as [-> _]. by exists k.
    + rewrite Hs. change (0 =? 0) with true. cbv iota. destruct (Hgive _ eq_refl) as (E1 & E2 & Hok').
      change (upd_ecb id _ (OsSchedLock k)) with (OsSchedLock (given id (Mbox None) m k)).
      rewrite E1. cbn [mbind option_bind]. rewrite E2. by eexists.
  - destruct Hs as (Hq & Hsz & Hcap & _). rewrite Hq. cbn [mbind option_bind]. rewrite Hsz, Hcap.
    cbn [give] in *. destruct (Z.of_nat (length l) =? cap); cbn [mbind option_bind fst snd].
    + by exists k.
    + destruct (Hgive _ eq_refl) as (E1 & E2 & Hok').
      change (upd_qcb q queue_put _) with (OsSchedLock (given id (MailQueue q s cap l) m k)).
      rewrite E1. cbn [mbind option_bind]. rewrite E2. by eexists.
Qed.

(** ** Creation *)

Definition take_event (e : Z) (k : kernel) : kernel :=
  k <| evs := (evs k) <| FreeEventList := next_free (eventPtr (ecb k e)) |> |>.

Definition fresh_event (type : event_type) (s : Z) (ptr : event_pointer) (e : Z) (k : kernel) : kernel :=
  upd_ecb e (fun b => b <| eventType := type |> <| eventSortType := s |>
                        <| eventPtr := ptr |> <| eventTCBList := None |>) (take_event e k).

Lemma CreatEvent_quiet type s ptr k : quiet k ->
  CreatEvent type s ptr k = Some (match FreeEventList (evs k) with
                                  | None => (None, k)
                                  | Some e => (Some e, fresh_event type s ptr e k)
                                  end).
Proof.
  intros Hq. unfold CreatEvent. change (FreeEventList (evs (OsSchedLock k))) with (FreeEventList (evs k)).
  destruct (FreeEventList (evs k)) as [e|].
  - set (k1 := take_event e k). assert (quiet k1) as Hq1 by exact Hq.
    change (OsSchedUnlock (OsSchedLock k1) ≫= (fun k0 => Some (Some e, upd_ecb e (fun b =>
      b <| eventType := type |> <| eventSortType := s |> <| eventPtr := ptr |> <| eventTCBList := None |>) k0))
      = Some (Some e, fresh_event type s ptr e k)).
    by rewrite (unlock_quiet k1 Hq1).
  - by rewrite (unlock_quiet k Hq).
Qed.

(** The first free block is [e]. *)
Lemma free_head w k e fre :
  objects_ok w k -> free_ids w = e :: fre ->
  FreeEventList (evs k) = Some e /\ is_event e /\ objects w !! e = None /\
  free_events k (next_free (eventPtr (ecb k e))) fre /\ NoDup fre /\ e ∉ fre.
Proof.
  intros Hok Hf. pose proof (ob_free _ _ Hok) as H1. destruct (ob_fresh _ _ Hok) as [H2 H3].
  rewrite Hf in *. destruct H1 as (E1 & E2 & _ & E4). apply list.NoDup_cons in H2 as [N1 N2].
  split; [done|]. split; [done|]. split; [apply H3, elem_of_cons; by left|]. done.
Qed.

(** A new object [o] in the state [k'], which differs from [k] at the event
    block [e] only. *)
Lemma objects_create w k e fre o k' :
  objects_ok w k -> free_ids w = e :: fre ->
  sch k' = sch k -> ServiceReq k' = ServiceReq k ->
  FreeEventList (evs k') = next_free (eventPtr (ecb k e)) ->
  QueueIDVessel (evs k') = QueueIDVessel (evs k) ->
  (forall e', e' <> e -> ecb k' e' = ecb k e') -> ecb_id (ecb k' e) = e ->
  (forall q, qcb k' q = qcb k q) -> (forall a, ld k' a = ld k a) ->
  represents k' e o ->
  (forall e' o', objects w !! e' = Some o' -> apart o o') ->
  (forall q s c l, o = MailQueue q s c l -> q ∈ claimed w) ->
  objects_ok (mk_world fre (<[e := o]> (objects w)) (claimed w)) k'.
Proof.
  intros Hok Hf T1 T2 T3 T4 T5 T6 T7 T8 Hr Hap Huse.
  destruct (free_head w k e fre Hok Hf) as (E1 & E2 & E3 & E4 & N1 & N2).
  destruct Hok as [H1 H2 H3 H4 [H5 H5'] H6 H7 H8 H9 H10]. split; cbn [free_ids objects claimed].
  - by apply (quiet_sch k).
  - by rewrite T1.
  - intros e' He'. destruct (decide (e' = e)) as [->|]; [done|]. rewrite T5 by done. by apply H3.
  - rewrite T3. apply (free_events_frame k); [|done]. intros x Hx. apply T5. by intros ->.
  - split; [done|]. intros x Hx. rewrite lookup_insert_ne by (by intros ->).
    apply H5'. rewrite Hf. apply elem_of_cons. by right.
  - intros x Hx. destruct (decide (x = e)) as [->|Hne]; [by rewrite lookup_insert_eq|].
    rewrite lookup_insert_ne by done. rewrite T5 by done. by apply H6.
  - intros x y. destruct (decide (x = e)) as [->|Hne].
    + rewrite lookup_insert_eq. by intros [= <-].
    + rewrite lookup_insert_ne by done. intros Hx.
      apply (represents_frame k); [by apply T5| |by apply H7]. by intros q s c l _.
  - intros e1 e2 o1 o2. destruct (decide (e1 = e)) as [->|M1], (decide (e2 = e)) as [->|M2];
      rewrite ?lookup_insert_eq, ?lookup_insert_ne by done.
    + done.
    + intros [= <-] ? _. by eapply Hap.
    + intros ? [= <-] _. apply apart_sym. by eapply Hap.
    + apply H8.
  - intros q Hq. rewrite T4. by apply H9.
  - intros x q s c l. destruct (decide (x = e)) as [->|Hne].
    + rewrite lookup_insert_eq. intros [= ->]. by eapply Huse.
    + rewrite lookup_insert_ne by done. apply H10.
Qed.

(** A step that only changes the block of its event, by [f]. *)
Record sets_event (f : ECB -> ECB) (g : Z -> kernel -> kernel) : Prop := {
  se_sch : forall e k, sch (g e k) = sch k;
  se_req : forall e k, ServiceReq (g e k) = ServiceReq k;
  se_free : forall e k, FreeEventList (evs (g e k)) = FreeEventList (evs k);
  se_vessel : forall e k, QueueIDVessel (evs (g e k)) = QueueIDVessel (evs k);
  se_other : forall e k e', e' <> e -> ecb (g e k) e' = ecb k e';
  se_this : forall e k, ecb (g e k) e = f (ecb k e);
  se_qcb : forall e k q, qcb (g e k) q = qcb k q;
  se_mem : forall e k a, ld (g e k) a = ld k a
}.

Lemma sets_upd f : sets_event f (fun e => upd_ecb e f).
Proof.
  split; try done; intros; [by rewrite ecb_upd, decide_False|by rewrite ecb_upd, decide_True].
Qed.

Lemma sets_none : sets_event (fun b => b) (fun _ k => k).
Proof. by split. Qed.

(** A creation, whose event block then gets the counters [f]. *)
Lemma create_ok w k o type s ptr f g :
  objects_ok w k -> sets_event f g ->
  (forall b, ecb_id (f b) = ecb_id b /\ eventType (f b) = eventType b /\
     eventTCBList (f b) = eventTCBList b /\ eventPtr (f b) = eventPtr b) ->
  kind o = type ->
  (forall k' e, is_event e -> (forall q, qcb k' q = qcb k q) ->
     eventPtr (ecb k' e) = ptr ->
     (exists b, ecb k' e = f b) -> state_of k' e o) ->
  (forall e' o', objects w !! e' = Some o' -> apart o o') ->
  (forall q s c l, o = MailQueue q s c l -> q ∈ claimed w) ->
  answers_as
    (no_value ('(e, k) ← CreatEvent type s ptr k;
               match e with
               | None => Some (E_CREATE_FAIL, k)
               | Some e => let k := g e k in Some (ecb_id (ecb k e), k)
               end))
    (fst (create o w)) (snd (create o w)).
Proof.
  intros Hok Hg Hf Hkind Hst Hap Huse. rewrite (CreatEvent_quiet _ _ _ _ (ob_quiet _ _ Hok)).
  cbn [mbind option_bind]. unfold create. destruct (free_ids w) as [|e fre] eqn:Ef.
  - pose proof (ob_free _ _ Hok) as Hfr. rewrite Ef in Hfr. cbn [free_events] in Hfr. rewrite Hfr.
    by exists k.
  - destruct (free_head w k e fre Hok Ef) as (E1 & E2 & E3 & E4 & N1 & N2). rewrite E1.
    set (k2 := g e (fresh_event type s ptr e k)).
    assert (ecb k2 e = f ((ecb k e) <| eventType := type |> <| eventSortType := s |>
              <| eventPtr := ptr |> <| eventTCBList := None |>)) as Eb.
    { unfold k2. rewrite (se_this _ _ Hg). unfold fresh_event.
      rewrite ecb_upd, decide_True by done. done. }
    assert (ecb_id (ecb k2 e) = e) as Eid.
    { rewrite Eb, (proj1 (Hf _)). by apply (ob_ids _ _ Hok). }
    cbv zeta. fold k2. exists k2. cbn [no_value mbind option_bind fst snd]. split; [by rewrite Eid|].
    apply (objects_create w k e fre o k2); unfold k2;
      rewrite ?(se_sch _ _ Hg), ?(se_req _ _ Hg), ?(se_free _ _ Hg), ?(se_vessel _ _ Hg); try done.
    + intros e' Hne. rewrite (se_other _ _ Hg) by done. unfold fresh_event.
      by rewrite ecb_upd, decide_False.
    + intros q. by rewrite (se_qcb _ _ Hg).
    + intros a. by rewrite (se_mem _ _ Hg).
    + fold k2. split; [done|]. destruct (Hf ((ecb k e) <| eventType := type |> <| eventSortType := s |>
        <| eventPtr := ptr |> <| eventTCBList := None |>)) as (F1 & F2 & F3 & F4).
      rewrite Eb, F2, F3. split; [by cbn|]. split; [done|].
      apply (Hst k2 e); [done| |by rewrite Eb, F4|by eexists].
      intros q. unfold k2. by rewrite (se_qcb _ _ Hg).
Qed.

(** The queue block [q] is taken for an array. *)
Definition claim_queue (q start size : Z) (k : kernel) : kernel :=
  upd_qcb q (fun _ => mk_qcb start q 0 0 size 0)
    (k <| evs := (evs k) <| QueueIDVessel := Z.lor (QueueIDVessel (evs k)) (bit q) |> |>).

Lemma next_queue_ok w k :
  objects_ok w k -> free_queue k = next_queue w /\
  forall q, next_queue w = Some q -> is_queue q /\ q ∉ claimed w.
Proof.
  intros Hok. split.
  - unfold free_queue, next_queue. change (seqZ 0 CFG_MAX_QUEUE) with [0; 1]. cbn [List.find].
    by rewrite !(ob_claimed _ _ Hok) by (unfold is_queue, CFG_MAX_QUEUE; lia).
  - intros q Hq. unfold next_queue in Hq. apply find_some in Hq as [Hin Hq].
    apply list_elem_of_In, elem_of_seqZ in Hin. split; [unfold is_queue; lia|].
    rewrite negb_true_iff, bool_decide_eq_false in Hq. done.
Qed.

(** Changing the block of a queue that no object uses. *)
Lemma objects_queue_block w k q f v cl :
  objects_ok w k -> is_queue q ->
  (forall e q' s c l, objects w !! e = Some (MailQueue q' s c l) -> q' <> q /\ q' ∈ cl) ->
  (forall i, is_queue i -> has_bit v i = bool_decide (i ∈ cl)) ->
  objects_ok (w <| claimed := cl |>)
    (upd_qcb q f (k <| evs := (evs k) <| QueueIDVessel := v |> |>)).
Proof.
  intros [H1 H2 H3 H4 H5 H6 H7 H8 H9 H10] Hq Hu Hv.
  split; cbn [free_ids objects claimed update updater]; try done.
  - by apply (free_events_frame k).
  - intros e o Ho. apply (represents_frame k); [done| |by apply H7].
    intros q' s c l ->. destruct (Hu _ _ _ _ _ Ho) as [Hne _]. split; [|done].
    by rewrite qcb_upd, decide_False.
  - intros e q' s c l Ho. by apply (Hu _ _ _ _ _ Ho).
Qed.

Lemma claim_ok w k q start size :
  objects_ok w k -> next_queue w = Some q ->
  objects_ok (w <| claimed ::= cons q |>) (claim_queue q start size k).
Proof.
  intros Hok Hn. destruct (proj2 (next_queue_ok w k Hok) q Hn) as [Hq Hc].
  apply objects_queue_block; [done|done| |].
  - intros e q' s c l Ho. pose proof (ob_users _ _ Hok _ _ _ _ _ Ho) as Hin.
    split; [by intros ->|apply elem_of_cons; by right].
  - intros i Hi. pose proof (ob_claimed _ _ Hok i Hi) as Hb. destruct Hi as [Hi _].
    rewrite has_bit_testbit in * by done. rewrite Z.lor_spec, Hb. unfold bit.
    rewrite Z.shiftl_1_l. destruct Hq as [Hq _]. destruct (decide (i = q)) as [->|Hne].
    + rewrite Z.pow2_bits_true by done. rewrite orb_true_r. symmetry. apply bool_decide_eq_true.
      apply elem_of_cons. by left.
    + rewrite Z.pow2_bits_false by congruence. rewrite orb_false_r. apply bool_decide_ext.
      rewrite elem_of_cons. intuition congruence.
Qed.

Lemma create_queue_ok w k start size s :
  objects_ok w k -> 0 < start -> 0 < size < 2 ^ 16 -> array_free start size w ->
  answers_as (object_step (CreateQueue start size s) k)
    (fst (match next_queue w with
          | None => ((0, E_CREATE_FAIL), w)
          | Some q => create (MailQueue q start size []) (w <| claimed ::= cons q |>)
          end))
    (snd (match next_queue w with
          | None => ((0, E_CREATE_FAIL), w)
          | Some q => create (MailQueue q start size []) (w <| claimed ::= cons q |>)
          end)).
Proof.
  intros Hok Hst Hsz Harr. cbn [object_step]. unfold CoCreateQueue.
  destruct (Z.eqb_spec start 0); [lia|]. destruct (Z.eqb_spec size 0); [lia|]. cbn [orb].
  change (free_queue (OsSchedLock k)) with (free_queue k).
  destruct (next_queue_ok w k Hok) as [-> Hnq]. destruct (next_queue w) as [q|] eqn:En.
  2: { rewrite (unlock_ok w k Hok). by exists k. }
  destruct (Hnq q eq_refl) as [Hq Hc].
  set (k1 := k <| evs := (evs k) <| QueueIDVessel := Z.lor (QueueIDVessel (evs k)) (bit q) |> |>).
  assert (OsSchedUnlock (OsSchedLock k1) = Some k1) as Hun.
  { apply unlock_quiet. exact (ob_quiet _ _ Hok). }
  change (OsSchedUnlock _) with (OsSchedUnlock (OsSchedLock k1)). rewrite Hun. cbn [mbind option_bind].
  pose proof (claim_ok w k q start size Hok En) as Hok1.
  change (upd_qcb q _ k1) with (claim_queue q start size k).
  set (w1 := w <| claimed ::= cons q |>) in *.
  apply (create_ok w1 (claim_queue q start size k) (MailQueue q start size []) EVENT_TYPE_QUEUE s
    (EV_QUEUE q) (fun b => b) (fun _ k => k)); [done|apply sets_none|done|done| | |].
  - intros k' e He Hqb Hp _. cbn [state_of]. split; [done|]. split; [done|]. rewrite Hqb.
    unfold claim_queue. rewrite qcb_upd, decide_True by done.
    split; [done|]. split; [done|]. split; [done|]. split; cbn; [lia|by rewrite Z.mod_0_l; lia|lia|done].
  - intros e' o' Ho'. specialize (Harr e' o' Ho'). destruct o' as [| |q' s' c' l']; try done.
    split; [|lia]. intros <-. apply Hc. by apply (ob_users _ _ Hok _ _ _ _ _ Ho').
  - intros q' s' c' l' [= <- _ _ _]. apply elem_of_cons. by left.
Qed.

(** ** Deletion *)

(** The block of [e] is put back on the free list. *)
Definition release_event (e : Z) (k : kernel) : kernel :=
  let k := upd_ecb e (fun b => b <| eventType := EVENT_TYPE_INVALID |>) k in
  let k := upd_ecb e (fun b => b <| eventPtr := free_pointer (FreeEventList (evs k)) |>) k in
  k <| evs := (evs k) <| FreeEventList := Some e |> |>.

Lemma ReleaseECB_quiet e k : quiet k -> ReleaseECB e k = Some (release_event e k).
Proof.
  intros Hq. unfold ReleaseECB.
  change (OsSchedUnlock (OsSchedLock (release_event e k)) = Some (release_event e k)).
  apply unlock_quiet. exact Hq.
Qed.

Lemma DeleteEvent_quiet e opt k :
  quiet k -> good_opt opt = true -> eventTCBList (ecb k e) = None ->
  DeleteEvent e opt k = Some (E_OK, release_event e k).
Proof.
  intros Hq Ho Hw. unfold good_opt in Ho. unfold DeleteEvent.
  destruct (opt =? OPT_DEL_NO_PEND).
  - rewrite Hw. by rewrite ReleaseECB_quiet.
  - destruct (opt =? OPT_DEL_ANYWAY); [|done].
    assert (release_waiters task_fuel e (OsSchedLock k) = Some (OsSchedLock k)) as ->.
    { destruct task_fuel; cbn [release_waiters]; change (ecb (OsSchedLock k) e) with (ecb k e); by rewrite Hw. }
    cbn [mbind option_bind]. rewrite (unlock_quiet k Hq). cbn [mbind option_bind].
    by rewrite ReleaseECB_quiet.
Qed.

Lemma next_free_pointer p : next_free (free_pointer p) = p.
Proof. by destruct p. Qed.

Lemma release_ok w k e o :
  objects_ok w k -> objects w !! e = Some o -> objects_ok (remove_object e w) (release_event e k).
Proof.
  intros Hok Ho. destruct (ob_some _ _ Hok e o Ho) as (Hev & _).
  destruct Hok as [H1 H2 H3 H4 [H5 H5'] H6 H7 H8 H9 H10].
  assert (e ∉ free_ids w) as Hnot by (intros Hin; by rewrite (H5' e Hin) in Ho).
  assert (forall e', e' <> e -> ecb (release_event e k) e' = ecb k e') as Hother.
  { intros e' Hne. change (ecb (release_event e k) e') with
      (ecb (upd_ecb e (fun b => b <| eventPtr := free_pointer (FreeEventList (evs k)) |>)
              (upd_ecb e (fun b => b <| eventType := EVENT_TYPE_INVALID |>) k)) e').
    by rewrite !ecb_upd, !decide_False. }
  assert (ecb (release_event e k) e = (ecb k e) <| eventType := EVENT_TYPE_INVALID |>
            <| eventPtr := free_pointer (FreeEventList (evs k)) |>) as Hthis.
  { change (ecb (release_event e k) e) with
      (ecb (upd_ecb e (fun b => b <| eventPtr := free_pointer (FreeEventList (evs k)) |>)
              (upd_ecb e (fun b => b <| eventType := EVENT_TYPE_INVALID |>) k)) e).
    by rewrite !ecb_upd, !decide_True. }
  unfold remove_object. split; cbn [free_ids objects claimed].
  - exact H1.
  - exact H2.
  - intros e' He'. destruct (decide (e' = e)) as [->|].
    + rewrite Hthis. cbn. by apply H3.
    + rewrite Hother by done. by apply H3.
  - cbn [free_events]. split; [done|]. split; [done|]. rewrite Hthis. cbn [eventType eventPtr update updater].
    split; [done|]. rewrite next_free_pointer. apply (free_events_frame k); [|done].
    intros x Hx. apply Hother. by intros ->.
  - split; [by apply list.NoDup_cons|]. intros x [->|Hx]%elem_of_cons; [apply lookup_delete_eq|].
    destruct (decide (x = e)) as [->|Hne]; [apply lookup_delete_eq|].
    rewrite lookup_delete_ne by done. by apply H5'.
  - intros x Hx. destruct (decide (x = e)) as [->|Hne]; [by rewrite Hthis|].
    rewrite lookup_delete_ne by done. rewrite Hother by done. by apply H6.
  - intros x y (Hne & Hx)%lookup_delete_Some. apply (represents_frame k); [by apply Hother| |by apply H7].
    by intros q s c l _.
  - intros e1 e2 o1 o2 (_ & E1)%lookup_delete_Some (_ & E2)%lookup_delete_Some. by apply (H8 e1 e2).
  - exact H9.
  - intros x q s c l (_ & Hx)%lookup_delete_Some. by apply (H10 x q s c l).
Qed.

(** The queue block of a deleted queue is given back. *)
Definition free_block (q : Z) (k : kernel) : kernel :=
  upd_qcb q (fun _ => qcb_zero) (k <| evs := (evs k) <| QueueIDVessel :=
    Z.land (QueueIDVessel (evs k)) (u32 (Z.lnot (bit q))) |> |>).

Lemma clear_bit v q i : is_queue q -> is_queue i ->
  has_bit (Z.land v (u32 (Z.lnot (bit q)))) i = has_bit v i && negb (i =? q).
Proof.
  unfold is_queue, CFG_MAX_QUEUE. intros Hq Hi. rewrite !has_bit_testbit, Z.land_spec by lia. f_equal.
  assert (q = 0 \/ q = 1) as [->| ->] by lia; assert (i = 0 \/ i = 1) as [->| ->] by lia; reflexivity.
Qed.

Lemma free_block_ok w k q :
  objects_ok w k -> is_queue q -> (forall e s c l, objects w !! e <> Some (MailQueue q s c l)) ->
  objects_ok (w <| claimed ::= List.filter (fun i => negb (i =? q)) |>) (free_block q k).
Proof.
  intros Hok Hq Hu.
  assert (forall i cl, i ∈ List.filter (fun i => negb (i =? q)) cl <-> i ∈ cl /\ i <> q) as Hin.
  { intros i cl. rewrite !list_elem_of_In, filter_In, negb_true_iff, Z.eqb_neq. done. }
  apply objects_queue_block; [done|done| |].
  - intros e q' s c l Ho. assert (q' <> q) as Hne by (intros ->; by apply (Hu e s c l)).
    split; [done|]. apply Hin. split; [|done]. by apply (ob_users _ _ Hok _ _ _ _ _ Ho).
  - intros i Hi. rewrite clear_bit, (ob_claimed _ _ Hok) by done.
    destruct (Z.eqb_spec i q) as [->|Hne]; cbn [negb].
    + rewrite andb_false_r. symmetry. apply bool_decide_eq_false. rewrite Hin. by intros [_ ?].
    + rewrite andb_true_r. apply bool_decide_ext. rewrite Hin. tauto.
Qed.

Lemma del_ok w k type id opt c v w' :
  objects_ok w k ->
  (type, c) ∈ [(EVENT_TYPE_SEM, DelSem id opt); (EVENT_TYPE_MBOX, DelMbox id opt);
               (EVENT_TYPE_QUEUE, DelQueue id opt)] ->
  del_step type id opt w = Some (v, w') -> answers_as (object_step c k) v w'.
Proof.
  intros Hok Hc. unfold del_step.
  assert (type <> EVENT_TYPE_INVALID) as Ht.
  { intros ->. by repeat (apply elem_of_cons in Hc as [[=]|Hc]); apply elem_of_nil in Hc. }
  pose proof (event_of_ok w k type id Hok Ht) as He.
  destruct (object_of type id w) as [o|] eqn:Eo.
  2: { intros [= <- <-]. exists k. split; [|done].
       repeat (apply elem_of_cons in Hc as [[= -> ->]|Hc]); [..|by apply elem_of_nil in Hc];
         cbn [object_step no_value]; unfold CoDelSem, CoDelMbox, CoDelQueue; by rewrite He. }
  apply object_of_some in Eo as [Eo Hk]. destruct (good_opt opt) eqn:Hopt; [|done]. intros [= <- <-].
  destruct (ob_some _ _ Hok id o Eo) as (_ & _ & R3 & R4).
  pose proof (DeleteEvent_quiet id opt k (ob_quiet _ _ Hok) Hopt R3) as Hdel.
  pose proof (release_ok w k id o Hok Eo) as Hok'.
  repeat (apply elem_of_cons in Hc as [[= -> ->]|Hc]); [..|by apply elem_of_nil in Hc];
    destruct o as [n max|mail|q s cap l]; try done; cbn [object_step no_value release_queue];
    unfold CoDelSem, CoDelMbox, CoDelQueue; rewrite He.
  - rewrite Hdel. by eexists.
  - rewrite Hdel. by eexists.
  - destruct R4 as (Hp & Hq & Hid & _). unfold queue_of. rewrite Hp. cbn [mbind option_bind].
    rewrite Hdel. cbn [mbind option_bind]. change (E_OK =? E_OK) with true. cbv iota.
    change (qcb (release_event id k) q) with (qcb k q). rewrite Hid.
    exists (free_block q (release_event id k)). split; [done|].
    apply free_block_ok; [done|done|]. intros e s' c' l' E2.
    unfold remove_object in E2. cbn [objects] in E2. apply lookup_delete_Some in E2 as [Hne E2].
    by destruct (ob_apart _ _ Hok id e _ _ Eo E2 Hne).
Qed.

(** ** Sequences of calls *)

Lemma object_step_ok w k c v w' :
  objects_ok w k -> world_step c w = Some (v, w') -> answers_as (object_step c k) v w'.
Proof.
  intros Hok. destruct c; cbn [world_step];
    try (by apply (del_ok w k _ id opt); [..|rewrite !elem_of_cons; tauto]);
    try (by apply (pend_ok w k _ id timeout); [..|rewrite !elem_of_cons; tauto]).
  - destruct ((0 <=? initCnt) && (maxCnt <? 2 ^ 16)) eqn:Hr; [|done]. apply andb_true_iff in Hr as [R1 R2].
    cbn [object_step]. unfold CoCreateSem, good_sort. rewrite negb_orb.
    destruct (Z.ltb_spec maxCnt initCnt); cbn [orb].
    { intros [= <- <-]. by exists k. }
    destruct (negb _ && negb _).
    { intros [= <- <-]. by exists k. }
    destruct (create (Sem initCnt maxCnt) w) as [v0 w0] eqn:Ec. intros [= <- <-].
    pose proof (create_ok w k (Sem initCnt maxCnt) EVENT_TYPE_SEM sortType EV_NULL _ _ Hok (sets_upd
      (fun b => b <| eventCounter := initCnt |> <| initialEventCounter := maxCnt |>))
      ltac:(done) eq_refl) as H1.
    rewrite Ec in H1. apply H1; [|done|done].
    intros k' e _ _ _ [b Hb]. cbn [state_of]. rewrite Hb. cbn. lia.
  - destruct (create (Mbox None) w) as [v0 w0] eqn:Ec. intros [= <- <-].
    cbn [object_step]. unfold CoCreateMbox.
    pose proof (create_ok w k (Mbox None) EVENT_TYPE_MBOX sortType EV_NULL _ _ Hok (sets_upd
      (fun b => b <| eventCounter := 0 |>)) ltac:(done) eq_refl) as H1.
    rewrite Ec in H1. apply H1; [|done|done].
    intros k' e _ _ _ [b Hb]. cbn [state_of]. by rewrite Hb.
  - case_decide as Hd; [|done]. destruct Hd as (D1 & D2 & D3).
    destruct ((start =? 0) || (size =? 0)) eqn:Ez.
    { intros [= <- <-]. exists k. split; [|done]. cbn [object_step]. unfold CoCreateQueue. by rewrite Ez. }
    apply orb_false_iff in Ez as [Z1 Z2].
    pose proof (create_queue_ok w k start size sortType Hok ltac:(lia) ltac:(lia) D3) as H1.
    destruct (match next_queue w with None => _ | Some q => _ end) as [v0 w0]. by intros [= <- <-].
  - pose proof (post_ok w k EVENT_TYPE_SEM id 0 (PostSem id) Hok ltac:(rewrite !elem_of_cons; tauto)) as H1.
    destruct (post_step _ _ _ _) as [v0 w0]. by intros [= <- <-].
  - pose proof (post_ok w k EVENT_TYPE_MBOX id mail (PostMail id mail) Hok ltac:(rewrite !elem_of_cons; tauto)) as H1.
    destruct (post_step _ _ _ _) as [v0 w0]. by intros [= <- <-].
  - pose proof (post_ok w k EVENT_TYPE_QUEUE id mail (PostQueueMail id mail) Hok ltac:(rewrite !elem_of_cons; tauto)) as H1.
    destruct (post_step _ _ _ _) as [v0 w0]. by intros [= <- <-].
  - pose proof (accept_ok w k EVENT_TYPE_SEM id (AcceptSem id) Hok ltac:(rewrite !elem_of_cons; tauto)) as H1.
    destruct (accept_step _ _ _) as [v0 w0]. by intros [= <- <-].
  - pose proof (accept_ok w k EVENT_TYPE_MBOX id (AcceptMail id) Hok ltac:(rewrite !elem_of_cons; tauto)) as H1.
    destruct (accept_step _ _ _) as [v0 w0]. by intros [= <- <-].
  - pose proof (accept_ok w k EVENT_TYPE_QUEUE id (AcceptQueueMail id) Hok ltac:(rewrite !elem_of_cons; tauto)) as H1.
    destruct (accept_step _ _ _) as [v0 w0]. by intros [= <- <-].
Qed.

Lemma object_run_ok cs : forall w k rs w',
  objects_ok w k -> world_run cs w = Some (rs, w') ->
  exists k', object_run cs k = Some (rs, k') /\ objects_ok w' k'.
Proof.
  induction cs as [|c cs IH]; intros w k rs w' Hok E; cbn [world_run object_run] in *.
  - injection E as <- <-. by exists k.
  - destruct (world_step c w) as [[v w1]|] eqn:E1; [|done]. cbn [mbind option_bind] in E.
    destruct (world_run cs w1) as [[rs1 w2]|] eqn:E2; [|done]. injection E as <- <-.
    destruct (object_step_ok w k c v w1 Hok E1) as (k1 & -> & Hok1). cbn [mbind option_bind].
    destruct (IH w1 k1 rs1 w2 Hok1 E2) as (k2 & -> & Hok2). by exists k2.
Qed.

(** ** The start

    The start of the kernel (CoInitOS) links all event blocks in the order of
    the table; nothing else touches them before the first object is created. *)

Definition world_start : world := mk_world (seqZ 0 CFG_MAX_EVENT) ∅ [].

(** In a running task, before any object exists. *)
Definition no_objects_yet (k : kernel) : Prop :=
  quiet k /\ OSIntNesting (sch k) = 0 /\ evs k = evs (CreateEventList kernel_zero).

Lemma evs_ecb k k' e : evs k = evs k' -> ecb k e = ecb k' e.
Proof. unfold ecb. by intros ->. Qed.

Lemma no_objects_ok k : no_objects_yet k -> objects_ok world_start k.
Proof.
  intros (Hq & Hn & He).
  assert (forall e, ecb k e = ecb (CreateEventList kernel_zero) e) as Hecb by (intros e; by apply evs_ecb).
  assert (forall e, is_event e -> e ∈ seqZ 0 CFG_MAX_EVENT) as Hall.
  { intros e [H1 H2]. apply elem_of_seqZ. lia. }
  assert (Forall (fun e => ecb_id (ecb (CreateEventList kernel_zero) e) = e /\
    eventType (ecb (CreateEventList kernel_zero) e) = EVENT_TYPE_INVALID) (seqZ 0 CFG_MAX_EVENT)) as Hinit.
  { apply (bool_decide_unpack _). by vm_compute. }
  rewrite list.Forall_forall in Hinit. split; cbn [world_start free_ids objects claimed]; try done.
  - intros e Hev. rewrite Hecb. by apply Hinit, Hall.
  - rewrite He. apply (free_events_frame (CreateEventList kernel_zero)); [by intros e _|].
    change (seqZ 0 CFG_MAX_EVENT) with (map Z.of_nat (List.seq 0 20)). cbn -[is_event CFG_MAX_EVENT ecb CreateEventList].
    repeat (split; [reflexivity|split; [unfold is_event, CFG_MAX_EVENT; lia|split; [reflexivity|]]]).
    reflexivity.
  - split; [apply NoDup_seqZ|done].
  - intros e Hev _. rewrite Hecb. by apply Hinit, Hall.
  - intros q Hq'. rewrite He. change (QueueIDVessel (evs (CreateEventList kernel_zero))) with 0.
    rewrite has_bit_testbit, Z.testbit_0_l by apply Hq'. by rewrite bool_decide_eq_false_2 by apply not_elem_of_nil.
Qed.

(** C12: As long as no task has to wait, the kernel's semaphores, mailboxes and
    mail queues behave, from the start and under every sequence of create,
    delete, post, accept and pend calls on any of them, like independent bounded
    counters, one-mail cells and bounded queues: every result and error code is
    the abstract one, mails keep their order around the ring, identifiers are
    handed out and reused as from a stack, and no call disturbs another object
    or the schedule. *)
Theorem objects_refine (k : kernel) (cs : list object_call) (rs : list (Z * Z)) (w : world) :
  no_objects_yet k -> world_run cs world_start = Some (rs, w) ->
  exists k', object_run cs k = Some (rs, k') /\ objects_ok w k'.
Proof. intros Hk. by apply object_run_ok, no_objects_ok. Qed.
End specs.

(** ** A concrete run

    A started kernel; two mails go around a queue of two words, next to a
    semaphore that is taken once too often and a mailbox that is deleted. *)

Module demo.
#[local] Instance object_port : Port := coos 7 (fun _ k => Some k) 20.

Definition started : kernel :=
  default kernel_zero
    (k ← CoInitOS 4096 268435456 268436000 kernel_zero; k ← CoStartOS k; settle 268435500 k).

Definition some_calls : list object_call :=
  [CreateQueue 268440000 2 EVENT_SORT_TYPE_FIFO; CreateSem 1 3 EVENT_SORT_TYPE_PRIO;
   CreateMbox EVENT_SORT_TYPE_FIFO; PostQueueMail 0 11; PostQueueMail 0 12; PostQueueMail 0 13;
   AcceptQueueMail 0; PostQueueMail 0 14; PendQueueMail 0 0; AcceptQueueMail 0; AcceptQueueMail 0;
   AcceptSem 1; AcceptSem 1; PostSem 1; PendSem 1 0; PostMail 2 0; PostMail 2 5; PendMail 2 0;
   DelMbox 2 OPT_DEL_NO_PEND; AcceptMail 2; CreateSem 0 1 EVENT_SORT_TYPE_FIFO].

Definition some_results : list (Z * Z) := match world_run some_calls world_start with
  | Some (rs, _) => rs | None => [] end.
Definition some_world : world := match world_run some_calls world_start with
  | Some (_, w) => w | None => world_start end.

Lemma objects_refine_witness :
  world_run some_calls world_start = Some (some_results, some_world) /\
  exists k', object_run some_calls started = Some (some_results, k') /\ objects_ok some_world k'.
Proof.
  assert (world_run some_calls world_start = Some (some_results, some_world)) as Hw by (by vm_compute).
  split; [exact Hw|]. apply (objects_refine started some_calls some_results some_world); [|exact Hw].
  split; [split; [by vm_compute|split; [by vm_compute|right; by vm_compute]]|].
  split; by vm_compute.
Defined.
End demo.
